(* ===== verification/_CoqProject ===== *)
-Q . S2P
Prelude.v
Riscv.v
CString.v
Ring.v
Kalloc.v
Vm.v
VmFacts.v
VmUser.v
VmCopy.v
VmProps.v
Asm.v
AsmProps.v
Spinlock.v
Virtio.v
VirtioProps.v
Proc.v
SchedFacts.v
Sysproc.v
Trap.v
TrapFacts.v
TrapProps.v
Sleeplock.v
Bio.v
BioFacts.v
Log.v
LogFacts.v
LogProps.v
Blocks.v
LogBlocks.v
Fs.v
FsFacts.v
FsContent.v
FsIo.v
RamBlocks.v
FsProps.v
PathProps.v
Mkfs.v
MkfsProps.v
MkfsLog.v
Printf.v
Console.v
ConsoleProps.v
File.v
PipeProps.v
Sysfile.v
Kernel.v
Grep.v
Ulib.v
Umalloc.v
UmallocProps.v
Sh.v
ShProps.v
