(* ===== verification/Prelude.v ===== *)
(** * Verification of an extended xv6 kernel

    The program is xv6 for RISC-V with three extensions: a scheduler that passes
    over processes whose CPU heat is high, lazy allocation of heap pages, and a
    system call that reports the activity of the machine.  This library models
    the kernel (src/kernel), the program that builds the disk image (src/mkfs) and
    some of the user programs (src/user) as Rocq functions and states what makes
    them correct.

    ** How C becomes Rocq

    A routine is a function in the monad [M S] over the state [S] of its
    component: it returns ([Ok]), stops the machine ([Panic]) or gives the
    processor up ([Block], with the channel it sleeps on and the state at that
    moment).  Integers are [Z] with the width written out ([u8] ... [i32]) where
    the code can wrap; memory is a [ByteStore]; a record field is assigned with
    [r <| f := v |>]; a component inside a larger state is reached by a [Lens].
    A pointer to an array element is its index plus one, 0 for the null pointer;
    a pointer into memory is its address.

    A loop whose number of rounds the code does not bound takes the number of
    rounds as fuel.  The fuel is chosen from the data (the length of a string,
    the number of pages of a range, the bytes between two counters), and the
    theorems show that it is enough: running out is a [Panic] or [None] of its
    own, which the conclusions exclude.  A loop that sleeps and looks again is
    one round, which ends in [Block]; calling the routine again is the next one
    (after [bget], which has counted its reference by then, [acquiresleep] is).

    Spin locks: each critical section is one step of the components above the
    lock, and Spinlock.v shows, for harts that interleave access by access, that
    the locks provide it.  What a component prints is modelled for the console
    and for printf itself; the debugging output of the other routines is left
    out.

    ** Components

    - Riscv.v: the constants and address arithmetic of riscv.h, memlayout.h and
      param.h.  CString.v: string.c.  Ring.v: queues in circular arrays.
    - Kalloc.v: kalloc.c.  The free list lives in the free pages themselves; the
      step system [kstep] adds clients that write to their own pages.
    - Vm.v: vm.c.  Page tables are words in memory; VmFacts.v relates them to the
      tree [T] of their pages ([vm_inv]), VmUser.v to the bytes a user program
      sees ([user_ok], [user_byte]); VmCopy.v is the argument about [uvmcopy] and
      VmProps.v the theorems with a concrete address space as witness.
    - Asm.v: the instructions of entry.S, swtch.S, trampoline.S and kernelvec.S on
      the registers and the memory of a hart, and start.c on the control
      registers; AsmProps.v: boot, traps and the switch of contexts, with what the
      compiled C in between keeps as the class [Compiled].
    - Spinlock.v: spinlock.c, as a transition system of any number of harts.
    - Virtio.v: virtio_disk.c, the rings in memory and the requests of several
      callers against a device that is a parameter; VirtioProps.v: the driver
      against transfers that happen at once ([spec]).
    - Proc.v: proc.c.  The process table over physical memory and over a file
      layer [F] of which it uses the interface [FsOps].  SchedFacts.v: the heat
      of processes and the scheduler, which runs the other processes as a
      parameter, held to what kill, wakeup, yield and the like do to a process
      that waits ([quiet]).
    - Sysproc.v: syscall.c and sysproc.c, with [SysfileOps] as the interface of
      sysfile.c.  Trap.v: trap.c, with [TrapOps] as the interface of the drivers;
      TrapFacts.v and TrapProps.v: page faults, timer interrupts, bad traps.
    - Sleeplock.v, Bio.v, Log.v: sleeplock.c, bio.c, log.c over a disk that moves
      one block per step.  BioFacts.v: the cache is a view of the disk.
      LogFacts.v, LogProps.v: transactions and crashes.
    - Blocks.v: the interface [Blocks] between the file system and the block
      layer, and what the latter promises ([BlocksOk]); LogBlocks.v discharges it
      with bio.c and log.c, RamBlocks.v with an array in memory.
    - Fs.v: fs.c over [Blocks].  FsFacts.v: the bitmap; FsContent.v: the bytes of
      files through their block maps; FsIo.v: [readi] and [writei]; FsProps.v and
      PathProps.v: the theorems.
    - Mkfs.v: mkfs.c, on an image that is an array of sectors; MkfsProps.v: the
      image is one the kernel of Fs.v can mount and read; MkfsLog.v: the log of
      the image, from [initlog] on it to the transaction that is too big.
    - Printf.v: kernel and user printf.c.  Console.v: uart.c and console.c;
      ConsoleProps.v: the line editor.
    - File.v: file.c and pipe.c, the instance of [FsOps] for the real file layer;
      PipeProps.v: pipes as queues.  Sysfile.v: sysfile.c and exec.c, the
      instance of [SysfileOps].  Kernel.v: the instance of [TrapOps] with the
      drivers and system calls of the other files, and that it is one the
      theorems of TrapProps.v about heat apply to ([HeatSafe]).
    - Grep.v, Ulib.v, Sh.v: user/grep.c, ulib.c and the parser of sh.c, the last
      with its theorems in ShProps.v.  Umalloc.v: umalloc.c, with the answer of
      the kernel to [sbrk] as a parameter; UmallocProps.v: its heap.

    ** What the theorems show

    - Memory: the page allocator never loses or doubles a page; [mappages],
      [uvmunmap], [uvmcopy], [copyin], [copyout] and [copyinstr] do what they say
      on every page table and every address, out of memory included; a fault on
      a reserved page is resolved with a zeroed page.  Three theorems pin down
      where the lazy allocation stops the kernel or loops.
    - Scheduling: which process is passed over and how often, that skipping ends,
      and for which process identifiers it does not until the process cools.
    - Storage: a commit is atomic under crashes, also during recovery; log space
      is accounted for, and short by one block in the image mkfs makes; the cache
      writes through; block allocation and file contents are exact; a path is
      walked by its elements.  The disk driver moves every transfer's block in the
      direction asked for, and nothing else, whatever order the device takes them
      in.  The kernel reads from an
      image of mkfs the files that were put into it.
    - The machine: a hart comes from reset to [main]; a trap gives every register
      back, in user mode and in the kernel; [swtch] resumes a thread where it
      stopped.
    - Communication: pipes refine queues, the terminal refines a line editor,
      spin locks exclude each other.
    - User programs: the shell's parser ends and its strings are whole words;
      grep agrees with a reference semantics and prints the matching lines;
      printed numbers fit their buffer and are read back; the blocks of malloc do
      not overlap and every unit of the heap is free or allocated.

    Hypotheses of the theorems about a state (invariants, a process table of
    full length, a page table that is a tree) hold in concrete states: the
    modules whose names end in [Witness] apply the theorems to them.

    ** Not modelled

    initcode.S, which Proc.v has as bytes; fences and the fetch of instructions;
    plic.c and the negotiation of [virtio_disk_init], which only program device
    registers; main.c, which calls the initialisation routines in order;
    ramdisk.c, which is not built; the parts of user programs that only make
    system calls ([runcmd] and [main] of the shell, cat, ls, wc and the other
    small utilities), and the tests and benchmarks.  The registers a trap handler
    reads are an argument of the handler, the device behind the buffer cache is
    an array of blocks. *)

From Stdlib Require Import ZArith Lia List.
From stdpp Require Import base list gmap strings.

#[global] Open Scope Z_scope.

(** ** Wait channels

    [sleep] and [wakeup] meet on the address of some kernel object; distinct
    objects have distinct addresses. *)

Inductive chan : Type :=
| ChNull
| ChProc (p : Z)
| ChTicks
| ChPipeRead (pi : Z)
| ChPipeWrite (pi : Z)
| ChLog
| ChSleeplock (lk : Z)
| ChCons
| ChUart
| ChDiskFree
| ChDiskBuf (b : Z).

#[global] Instance chan_eq_dec : EqDecision chan.
Proof. solve_decision. Defined.

(** ** Outcomes and the state monad

    A kernel routine runs on a component state [S].  It returns a value,
    or stops the machine through [panic], or gives up the processor inside
    [sched] (the channel is the one slept on, [ChNull] for a yield or an exit;
    the state at that moment is kept). *)

Inductive res (S A : Type) : Type :=
| Ok (a : A) (s : S)
| Panic (msg : string)
| Block (c : chan) (s : S).
Arguments Ok {S A} a s.
Arguments Panic {S A} msg.
Arguments Block {S A} c s.

Definition M (S A : Type) : Type := S -> res S A.

Definition ret {S A} (a : A) : M S A := fun s => Ok a s.

Definition bind {S A B} (m : M S A) (k : A -> M S B) : M S B :=
  fun s =>
    match m s with
    | Ok a s' => k a s'
    | Panic msg => Panic msg
    | Block c s' => Block c s'
    end.

Definition get {S} : M S S := fun s => Ok s s.
Definition gets {S A} (f : S -> A) : M S A := fun s => Ok (f s) s.
Definition modify {S} (f : S -> S) : M S unit := fun s => Ok tt (f s).
Definition panic {S A} (msg : string) : M S A := fun _ => Panic msg.
Definition block {S A} (c : chan) : M S A := fun s => Block c s.

Declare Scope xv6_scope.
Delimit Scope xv6_scope with xv6.
Notation "'let*' x ':=' m 'in' k" := (bind m (fun x => k))
  (at level 10, x name, m at level 100, k at level 200,
   format "'[v' 'let*'  x  ':='  m  'in' '/' k ']'") : xv6_scope.
Notation "'let*' ' p ':=' m 'in' k" := (bind m (fun x => match x with p => k end))
  (at level 10, p pattern, m at level 100, k at level 200) : xv6_scope.
Notation "'do' m ';;;' k" := (bind m (fun _ => k))
  (at level 10, m at level 100, k at level 200,
   format "'[v' 'do'  m  ';;;' '/' k ']'") : xv6_scope.
#[global] Open Scope xv6_scope.

(** A component's state sits inside the state of a larger one: a [Lens] is
    the field access, [zoom] runs a routine of the part on the whole. *)

Record Lens (B S : Type) := mkLens {
  lget : B -> S;
  lset : S -> B -> B
}.
Arguments mkLens {B S}.
Arguments lget {B S}.
Arguments lset {B S}.

Definition zoom {B S A} (l : Lens B S) (m : M S A) : M B A :=
  fun b =>
    match m (lget l b) with
    | Ok a s => Ok a (lset l s b)
    | Panic msg => Panic msg
    | Block c s => Block c (lset l s b)
    end.

Class LensOk {B S : Type} (l : Lens B S) : Prop := {
  lget_lset : forall x b, lget l (lset l x b) = x;
  lset_lset : forall x y b, lset l y (lset l x b) = lset l y b
}.

Lemma zoom_run {B S A} (l : Lens B S) `{LensOk B S l} (m : M S A) x y a b :
  m x = Ok a y -> zoom l m (lset l x b) = Ok a (lset l y b).
Proof. intros E. unfold zoom. by rewrite lget_lset, E, lset_lset. Qed.

(** One step of a computation that is known to return. *)
Lemma bind_ok {S A B} (m : M S A) (k : A -> M S B) s a s' : m s = Ok a s' -> bind m k s = k a s'.
Proof. intros E. unfold bind. by rewrite E. Qed.

Lemma bind_gets {S A B} (f : S -> A) (k : A -> M S B) s : bind (gets f) k s = k (f s) s.
Proof. done. Qed.

(** Assignment to a field of a C structure.  [Eta] rebuilds a record from its
    fields; the update of a field is found from it. *)

Class Eta (R : Type) := eta : R -> R.
Class Setter {R T : Type} (proj : R -> T) := over : (T -> T) -> R -> R.
Arguments over {R T} proj {_} f r.

Ltac solve_setter :=
  match goal with
  | |- @Setter ?R ?T ?proj =>
    let e := eval hnf in (@eta R _) in
    lazymatch e with context [proj] => idtac end;
    lazymatch eval pattern proj in e with
    | ?g _ => let t := eval cbv beta in (fun f : T -> T => g (fun r => f (proj r))) in exact t
    end
  end.

#[global] Hint Extern 1 (Setter _) => solve_setter : typeclass_instances.

Notation "r <| f := v |>" := (over f (fun _ => v) r)
  (at level 1, left associativity, f at level 0, format "r  <| f  :=  v |>") : xv6_scope.
Notation "r <| f ::= g |>" := (over f g r)
  (at level 1, left associativity, f at level 0, format "r  <| f  ::=  g |>") : xv6_scope.

Create HintDb xv6.
Create Rewrite HintDb xv6.
#[export] Hint Unfold bind ret get gets modify panic block zoom : xv6.

(** Run a routine symbolically as far as its tests are decided. *)

Ltac mrun := repeat (progress (autounfold with xv6; cbn)).

(** ** Routines that keep a part of the state *)

Section Keeps.
Context {S X : Type} (f : S -> X).

(** Whether [m] returns or gives up the processor, [f] is as before. *)
Definition keeps {A} (m : M S A) : Prop :=
  forall s, match m s with Ok _ s' | Block _ s' => f s' = f s | Panic _ => True end.

Lemma keeps_ret {A} (a : A) : keeps (ret a).
Proof. done. Qed.

Lemma keeps_gets {A} (g : S -> A) : keeps (gets g).
Proof. done. Qed.

Lemma keeps_panic {A} msg : keeps (A := A) (panic msg).
Proof. done. Qed.

Lemma keeps_block {A} c : keeps (A := A) (block c).
Proof. done. Qed.

Lemma keeps_modify g : (forall s, f (g s) = f s) -> keeps (modify g).
Proof. intros E s. apply E. Qed.

Lemma keeps_bind {A B} (m : M S A) (k : A -> M S B) : keeps m -> (forall a, keeps (k a)) -> keeps (bind m k).
Proof.
  intros Km Kk s. specialize (Km s). unfold bind. destruct (m s) as [a s'| |c s']; [|done|done].
  specialize (Kk a s'). destruct (k a s'); congruence || done.
Qed.

Lemma keeps_if {A} (b : bool) (m m' : M S A) : keeps m -> keeps m' -> keeps (if b then m else m').
Proof. by destruct b. Qed.

Lemma keeps_decide {P} `{Decision P} {A} (m m' : M S A) : keeps m -> keeps m' -> keeps (if decide P then m else m').
Proof. by destruct (decide P). Qed.
End Keeps.

Create HintDb keeps.
#[export] Hint Resolve keeps_ret keeps_gets keeps_panic keeps_block keeps_bind keeps_if keeps_decide : keeps.

(** Follow the structure of a routine down to its calls. *)
Ltac keeps :=
  repeat lazymatch goal with
  | |- keeps _ (bind _ _) => apply keeps_bind; [|intros ?]
  | |- keeps _ (if decide _ then _ else _) => apply keeps_decide
  | |- keeps _ (if _ then _ else _) => apply keeps_if
  end; auto with keeps.

(** ** Machine integers

    A C integer of width w is the [Z] it denotes; every operation that can
    leave the range is followed by the wrap of its type. *)

Definition u8 (x : Z) : Z := x mod 2 ^ 8.
Definition u16 (x : Z) : Z := x mod 2 ^ 16.
Definition u32 (x : Z) : Z := x mod 2 ^ 32.
Definition u64 (x : Z) : Z := x mod 2 ^ 64.
Definition i16 (x : Z) : Z := (x + 2 ^ 15) mod 2 ^ 16 - 2 ^ 15.
Definition i32 (x : Z) : Z := (x + 2 ^ 31) mod 2 ^ 32 - 2 ^ 31.

#[global] Arguments Z.eqb : simpl nomatch.
#[global] Arguments Z.ltb : simpl nomatch.
#[global] Arguments Z.leb : simpl nomatch.
#[global] Arguments u8 : simpl never.
#[global] Arguments u16 : simpl never.
#[global] Arguments u32 : simpl never.
#[global] Arguments u64 : simpl never.
#[global] Arguments i16 : simpl never.
#[global] Arguments i32 : simpl never.

(** Case analysis on the boolean tests of the code. *)

Ltac zbool :=
  repeat match goal with
  | H : (_ && _)%bool = true |- _ => apply andb_true_iff in H; destruct H
  | H : (_ || _)%bool = false |- _ => apply orb_false_iff in H; destruct H
  | H : negb _ = true |- _ => apply negb_true_iff in H
  | H : negb _ = false |- _ => apply negb_false_iff in H
  | H : (_ =? _) = true |- _ => apply Z.eqb_eq in H
  | H : (_ =? _) = false |- _ => apply Z.eqb_neq in H
  | H : (_ <? _) = true |- _ => apply Z.ltb_lt in H
  | H : (_ <? _) = false |- _ => apply Z.ltb_ge in H
  | H : (_ <=? _) = true |- _ => apply Z.leb_le in H
  | H : (_ <=? _) = false |- _ => apply Z.leb_gt in H
  end.

(** Linear goals with divisions and remainders by constants. *)

Ltac zdm := Z.div_mod_to_equations; lia.

(** Split on the tests of the goal, arithmetic in the branches. *)

Ltac zcase :=
  repeat match goal with
  | |- context [?a =? ?b] => destruct (Z.eqb_spec a b)
  | |- context [?a <? ?b] => destruct (Z.ltb_spec a b)
  | |- context [?a <=? ?b] => destruct (Z.leb_spec a b)
  end; cbn [andb orb negb].

Lemma u8_small x : 0 <= x < 2 ^ 8 -> u8 x = x.
Proof. apply Z.mod_small. Qed.

Lemma u16_small x : 0 <= x < 2 ^ 16 -> u16 x = x.
Proof. apply Z.mod_small. Qed.

Lemma u32_small x : 0 <= x < 2 ^ 32 -> u32 x = x.
Proof. apply Z.mod_small. Qed.

Lemma u64_small x : 0 <= x < 2 ^ 64 -> u64 x = x.
Proof. apply Z.mod_small. Qed.

Lemma i32_small x : - 2 ^ 31 <= x < 2 ^ 31 -> i32 x = x.
Proof. intros. unfold i32. rewrite Z.mod_small; lia. Qed.

Lemma u8_range x : 0 <= u8 x < 256.
Proof. apply Z.mod_pos_bound. lia. Qed.

Lemma u32_range x : 0 <= u32 x < 2 ^ 32.
Proof. apply Z.mod_pos_bound. lia. Qed.

Lemma u64_range x : 0 <= u64 x < 2 ^ 64.
Proof. apply Z.mod_pos_bound. lia. Qed.

Lemma i32_range x : - 2 ^ 31 <= i32 x < 2 ^ 31.
Proof. unfold i32. pose proof (Z.mod_pos_bound (x + 2 ^ 31) (2 ^ 32)). lia. Qed.

#[export] Hint Rewrite u8_small u16_small u32_small u64_small i32_small using lia : xv6.
#[export] Hint Resolve u8_range u32_range u64_range i32_range : xv6.

(** ** Byte-addressed stores

    Physical memory, a disk block and a C array of characters are all
    stores of bytes; the routines of string.c and the field accesses of the
    C structures are written once against this interface. *)

Class ByteStore (B : Type) := {
  bget : B -> Z -> Z;
  bset : B -> Z -> Z -> B;
  inb : B -> Z -> Prop
}.

Class ByteStoreOk (B : Type) `{ByteStore B} := {
  bget_range : forall (m : B) a, 0 <= bget m a < 256;
  bget_bset_eq : forall (m : B) a v, inb m a -> bget (bset m a v) a = u8 v;
  bget_bset_ne : forall (m : B) a a' v, a <> a' -> bget (bset m a v) a' = bget m a';
  inb_bset : forall (m : B) a v a', inb (bset m a v) a' <-> inb m a'
}.

(** Little-endian loads and stores of [n] bytes. *)

Fixpoint load {B} `{ByteStore B} (n : nat) (m : B) (a : Z) : Z :=
  match n with
  | O => 0
  | S n' => bget m a + 256 * load n' m (a + 1)
  end.

Fixpoint store {B} `{ByteStore B} (n : nat) (m : B) (a v : Z) : B :=
  match n with
  | O => m
  | S n' => store n' (bset m a v) (a + 1) (v / 256)
  end.

Section Loads.
Context {B : Type} `{ByteStoreOk B}.
Implicit Types (m : B) (a v i : Z).

Lemma load_range n m a : 0 <= load n m a < 256 ^ Z.of_nat n.
Proof.
  revert a. induction n as [|n IH]; intros a; cbn [load]; [lia|].
  pose proof (bget_range m a). specialize (IH (a + 1)).
  rewrite Nat2Z.inj_succ, Z.pow_succ_r by lia. lia.
Qed.

Lemma load_ext n m m' a :
  (forall i, a <= i < a + Z.of_nat n -> bget m i = bget m' i) ->
  load n m a = load n m' a.
Proof.
  revert a. induction n as [|n IH]; intros a E; cbn [load]; [done|].
  rewrite (E a) by lia. rewrite (IH (a + 1)); [done|].
  intros; apply E; lia.
Qed.

Lemma inb_store n m a v i : inb (store n m a v) i <-> inb m i.
Proof.
  revert m a v. induction n as [|n IH]; intros; cbn [store]; [done|].
  rewrite IH. apply inb_bset.
Qed.

Lemma bget_store_ne n m a v i :
  ~ (a <= i < a + Z.of_nat n) -> bget (store n m a v) i = bget m i.
Proof.
  revert m a v. induction n as [|n IH]; intros m a v Hi; cbn [store]; [done|].
  rewrite IH by lia. apply bget_bset_ne. lia.
Qed.

Lemma load_store_ne n k m a b v :
  b + Z.of_nat k <= a \/ a + Z.of_nat n <= b ->
  load k (store n m a v) b = load k m b.
Proof. intros. apply load_ext. intros. apply bget_store_ne. lia. Qed.

Lemma load_store_eq n m a v :
  (forall i, a <= i < a + Z.of_nat n -> inb m i) ->
  load n (store n m a v) a = v mod 256 ^ Z.of_nat n.
Proof.
  revert m a v. induction n as [|n IH]; intros m a v Hin; cbn [load store].
  - by rewrite Z.mod_1_r.
  - rewrite bget_store_ne by lia. rewrite bget_bset_eq by (apply Hin; lia).
    rewrite IH by (intros; apply inb_bset; apply Hin; lia).
    rewrite Nat2Z.inj_succ, Z.pow_succ_r by lia.
    pose proof (Z.pow_pos_nonneg 256 (Z.of_nat n)).
    rewrite Z.rem_mul_r by lia. done.
Qed.
End Loads.

(** Arrays of bytes: the data of a disk block, a character array. *)

#[global] Instance bytes_store : ByteStore (list Z) := {
  bget l a := if 0 <=? a then u8 (nth (Z.to_nat a) l 0) else 0;
  bset l a v := if 0 <=? a then <[Z.to_nat a := u8 v]> l else l;
  inb l a := 0 <= a < Z.of_nat (length l)
}.

(** Physical memory: every address holds a byte. *)

Record ram : Type := mkRam { cell : Z -> Z }.

#[global] Instance ram_store : ByteStore ram := {
  bget m a := u8 (cell m a);
  bset m a v := mkRam (fun i => if i =? a then v else cell m i);
  inb m a := True
}.

#[global] Instance ram_store_ok : ByteStoreOk ram.
Proof.
  split; intros; cbn.
  - apply u8_range.
  - by rewrite Z.eqb_refl.
  - destruct (Z.eqb_spec a' a); congruence.
  - done.
Qed.

#[global] Instance bytes_store_ok : ByteStoreOk (list Z).
Proof.
  split; intros; cbn in *.
  - destruct (0 <=? a); [apply u8_range|lia].
  - destruct (Z.leb_spec 0 a); [|lia].
    rewrite nth_lookup, list_lookup_insert_eq by lia. cbn.
    unfold u8. by rewrite Zmod_mod.
  - destruct (Z.leb_spec 0 a), (Z.leb_spec 0 a'); try done.
    rewrite !nth_lookup, list_lookup_insert_ne by lia. done.
  - destruct (0 <=? a); [by rewrite length_insert|done].
Qed.

Lemma length_bset (d : list Z) a v : length (bset d a v) = length d.
Proof. cbn. destruct (0 <=? a); [apply length_insert|done]. Qed.

Lemma length_store n (d : list Z) a v : length (store n d a v) = length d.
Proof. revert d a v. induction n as [|n IH]; intros d a v; cbn [store]; [done|]. by rewrite IH, length_bset. Qed.

(** Block transfers of physical memory: what a loop of byte stores over a
    range, or a byte copy between two ranges, leaves behind (CString.v
    proves that the loops of string.c do exactly this). *)

Definition fill (m : ram) (dst c n : Z) : ram :=
  mkRam (fun i => if (dst <=? i) && (i <? dst + n) then c else cell m i).

Definition copy (m : ram) (dst src n : Z) : ram :=
  mkRam (fun i => if (dst <=? i) && (i <? dst + n) then cell m (src + (i - dst)) else cell m i).

(** Writing a list of bytes, reading a range as a list of bytes. *)

Definition write_bytes (m : ram) (dst : Z) (l : list Z) : ram :=
  mkRam (fun i => if (dst <=? i) && (i <? dst + Z.of_nat (length l))
                  then nth (Z.to_nat (i - dst)) l 0 else cell m i).

Definition read_bytes (m : ram) (src n : Z) : list Z :=
  map (fun k => bget m (src + Z.of_nat k)) (seq 0 (Z.to_nat n)).

#[global] Arguments fill : simpl never.
#[global] Arguments copy : simpl never.
#[global] Arguments write_bytes : simpl never.
#[global] Arguments read_bytes : simpl never.
#[global] Arguments Z.of_nat : simpl never.

Lemma bget_fill m dst c n i :
  bget (fill m dst c n) i =
  if (dst <=? i) && (i <? dst + n) then u8 c else bget m i.
Proof. unfold fill, write_bytes. cbn. by destruct (_ && _). Qed.

Lemma bget_fill_ne m dst c n i : ~ (dst <= i < dst + n) -> bget (fill m dst c n) i = bget m i.
Proof. intros. rewrite bget_fill. zcase; [lia|done..]. Qed.

Lemma load_fill_ne k m dst c n a :
  a + Z.of_nat k <= dst \/ dst + n <= a ->
  load k (fill m dst c n) a = load k m a.
Proof. intros. apply load_ext. intros. apply bget_fill_ne. lia. Qed.

Lemma load_fill_0 k m dst n a :
  dst <= a -> a + Z.of_nat k <= dst + n -> load k (fill m dst 0 n) a = 0.
Proof.
  revert a. induction k as [|k IH]; intros a H1 H2; cbn [load]; [done|].
  rewrite IH by lia. rewrite bget_fill. zcase; try lia. by vm_compute.
Qed.

Lemma bget_write_bytes m dst l i :
  bget (write_bytes m dst l) i =
  if (dst <=? i) && (i <? dst + Z.of_nat (length l))
  then u8 (nth (Z.to_nat (i - dst)) l 0) else bget m i.
Proof. unfold fill, write_bytes. cbn. by destruct (_ && _). Qed.

Lemma load_write_bytes_ne k m dst l a :
  a + Z.of_nat k <= dst \/ dst + Z.of_nat (length l) <= a ->
  load k (write_bytes m dst l) a = load k m a.
Proof. intros. apply load_ext. intros. rewrite bget_write_bytes. zcase; [lia|done..]. Qed.

#[global] Arguments load : simpl never.
#[global] Arguments store : simpl never.
#[global] Arguments bget : simpl never.
#[global] Arguments bset : simpl never.
#[global] Arguments inb : simpl never.

(** ** Lists and arrays *)

(** Writing out an array update as the C code does it; out of range nothing
    is stored (every use is preceded by the bound the code relies on). *)

Definition upd {A} (l : list A) (i : Z) (x : A) : list A :=
  if 0 <=? i then <[Z.to_nat i := x]> l else l.

Definition at_ {A} (d : A) (l : list A) (i : Z) : A :=
  if 0 <=? i then nth (Z.to_nat i) l d else d.

Lemma length_upd {A} (l : list A) i x : length (upd l i x) = length l.
Proof. unfold upd. destruct (0 <=? i); [apply length_insert|done]. Qed.

Lemma at_upd_eq {A} (d : A) l i x :
  0 <= i < Z.of_nat (length l) -> at_ d (upd l i x) i = x.
Proof.
  intros. unfold at_, upd. destruct (Z.leb_spec 0 i); [|lia].
  rewrite nth_lookup, list_lookup_insert_eq by lia. done.
Qed.

Lemma at_upd_ne {A} (d : A) l i j x : i <> j -> at_ d (upd l i x) j = at_ d l j.
Proof.
  intros. unfold at_, upd.
  destruct (Z.leb_spec 0 i), (Z.leb_spec 0 j); try done.
  rewrite !nth_lookup, list_lookup_insert_ne by lia. done.
Qed.

Lemma upd_same {A} (d : A) l i : upd l i (at_ d l i) = l.
Proof.
  unfold upd, at_. destruct (0 <=? i); [|done]. apply list_eq. intros j.
  destruct (Nat.eq_dec j (Z.to_nat i)) as [->|N].
  - destruct (Nat.lt_ge_cases (Z.to_nat i) (length l)) as [L|L].
    + rewrite list_lookup_insert_eq by done. destruct (l !! Z.to_nat i) as [x|] eqn:E.
      * f_equal. by rewrite nth_lookup, E.
      * apply lookup_ge_None in E. lia.
    + by rewrite list_insert_ge.
  - by rewrite list_lookup_insert_ne by done.
Qed.

#[export] Hint Rewrite @length_upd @length_insert @length_map @length_app : xv6.
