(* ===== verification/Riscv.v ===== *)
(** * Address arithmetic of the RISC-V Sv39 paging hardware

    The macros of kernel/riscv.h (page rounding, page-table entries, the
    three 9-bit indices of a virtual address) and of kernel/memlayout.h (the
    physical and virtual layout), kernel/param.h's limits, and the arithmetic
    facts the page-table code relies on. *)

From Stdlib Require Import ZArith Lia.
From stdpp Require Import base tactics numbers.
From S2P Require Import Prelude.

(** ** kernel/param.h *)

Definition NPROC : Z := 64.
Definition NCPU : Z := 8.
Definition NOFILE : Z := 16.
Definition NFILE : Z := 100.
Definition NINODE : Z := 50.
Definition NDEV : Z := 10.
Definition ROOTDEV : Z := 1.
Definition MAXARG : Z := 32.
Definition MAXOPBLOCKS : Z := 10.
Definition LOGSIZE : Z := MAXOPBLOCKS * 3.
Definition NBUF : Z := MAXOPBLOCKS * 3.
Definition FSSIZE : Z := 2000.
Definition MAXPATH : Z := 128.

(** The size of a disk block (fs.h), and a block of zeros. *)
Definition BSIZE : Z := 1024.
Definition zeros : list Z := repeat 0 1024.
#[global] Arguments zeros : simpl never.

(** ** kernel/riscv.h *)

Definition PGSIZE : Z := 4096.
Definition PGSHIFT : Z := 12.

Definition PGROUNDUP (sz : Z) : Z := Z.land (u64 (sz + PGSIZE - 1)) (Z.lnot (PGSIZE - 1)).
Definition PGROUNDDOWN (a : Z) : Z := Z.land a (Z.lnot (PGSIZE - 1)).

Definition PTE_V : Z := Z.shiftl 1 0.
Definition PTE_R : Z := Z.shiftl 1 1.
Definition PTE_W : Z := Z.shiftl 1 2.
Definition PTE_X : Z := Z.shiftl 1 3.
Definition PTE_U : Z := Z.shiftl 1 4.

Definition PA2PTE (pa : Z) : Z := u64 (Z.shiftl (Z.shiftr pa 12) 10).
Definition PTE2PA (pte : Z) : Z := u64 (Z.shiftl (Z.shiftr pte 10) 12).
Definition PTE_FLAGS (pte : Z) : Z := Z.land pte 0x3FF.

Definition PXMASK : Z := 0x1FF.
Definition PXSHIFT (level : Z) : Z := PGSHIFT + 9 * level.
Definition PX (level va : Z) : Z := Z.land (Z.shiftr va (PXSHIFT level)) PXMASK.

Definition MAXVA : Z := Z.shiftl 1 (9 + 9 + 9 + 12 - 1).

#[global] Arguments PX : simpl never.
#[global] Arguments PA2PTE : simpl never.
#[global] Arguments PTE2PA : simpl never.
#[global] Arguments PGROUNDUP : simpl never.
#[global] Arguments PGROUNDDOWN : simpl never.

(** ** kernel/memlayout.h *)

Definition UART0 : Z := 0x10000000.
Definition UART0_IRQ : Z := 10.
Definition VIRTIO0 : Z := 0x10001000.
Definition VIRTIO0_IRQ : Z := 1.
Definition PLIC : Z := 0x0c000000.
Definition KERNBASE : Z := 0x80000000.
Definition PHYSTOP : Z := KERNBASE + 128 * 1024 * 1024.
Definition TRAMPOLINE : Z := MAXVA - PGSIZE.
Definition KSTACK (p : Z) : Z := TRAMPOLINE - (p + 1) * 2 * PGSIZE.
Definition TRAPFRAME : Z := TRAMPOLINE - PGSIZE.

(** A flag test [pte & mask] of the C code. *)

Definition has (pte mask : Z) : bool := negb (Z.land pte mask =? 0).

(** ** Page rounding *)

Lemma land_lnot_ones a n : 0 <= n -> Z.land a (Z.lnot (Z.ones n)) = 2 ^ n * (a / 2 ^ n).
Proof.
  intros. rewrite <- Z.ldiff_land, Z.ldiff_ones_r by done.
  rewrite Z.shiftl_mul_pow2, Z.shiftr_div_pow2 by done. lia.
Qed.

Lemma PGROUNDDOWN_eq a : PGROUNDDOWN a = 4096 * (a / 4096).
Proof. apply (land_lnot_ones a 12). lia. Qed.

Lemma PGROUNDUP_eq a : 0 <= a < 2 ^ 64 - 4095 -> PGROUNDUP a = 4096 * ((a + 4095) / 4096).
Proof.
  intros. unfold PGROUNDUP, PGSIZE. rewrite u64_small by lia.
  rewrite (land_lnot_ones _ 12) by lia. change (2 ^ 12) with 4096. do 2 f_equal. lia.
Qed.

Lemma PGROUNDUP_aligned a : 0 <= a -> a mod PGSIZE = 0 -> a < 2 ^ 64 - 4095 -> PGROUNDUP a = a.
Proof. unfold PGSIZE. intros. rewrite PGROUNDUP_eq by lia. zdm. Qed.

(** ** Virtual addresses *)

Lemma PX_eq level va : 0 <= level -> PX level va = (va / 2 ^ (12 + 9 * level)) mod 512.
Proof.
  intros. unfold PX, PXMASK, PXSHIFT, PGSHIFT.
  rewrite Z.shiftr_div_pow2 by lia. by rewrite (Z.land_ones _ 9) by lia.
Qed.

Lemma PX_range level va : 0 <= level -> 0 <= PX level va < 512.
Proof. intros. rewrite PX_eq by done. apply Z.mod_pos_bound. lia. Qed.

(** The page number of a 39-bit virtual address is the number whose digits in
    base 512 are its three indices. *)
Lemma PX_digits va :
  0 <= va < 2 ^ 39 -> va / 4096 = (PX 2 va * 512 + PX 1 va) * 512 + PX 0 va.
Proof.
  intros. rewrite !PX_eq by lia.
  change (2 ^ (12 + 9 * 2)) with 1073741824.
  change (2 ^ (12 + 9 * 1)) with 2097152.
  change (2 ^ (12 + 9 * 0)) with 4096. zdm.
Qed.

Lemma PX_page_inj va va' :
  0 <= va < 2 ^ 39 -> 0 <= va' < 2 ^ 39 ->
  PX 2 va = PX 2 va' -> PX 1 va = PX 1 va' -> PX 0 va = PX 0 va' ->
  va / 4096 = va' / 4096.
Proof. intros. rewrite !PX_digits by done. congruence. Qed.

Lemma PX_page level va va' : 0 <= level -> va / 4096 = va' / 4096 -> PX level va = PX level va'.
Proof.
  intros L E. rewrite !PX_eq by done.
  rewrite !Z.pow_add_r, <- !Z.div_div by lia. change (2 ^ 12) with 4096. by rewrite E.
Qed.

(** ** Page-table entries *)

Lemma PA2PTE_eq pa : 0 <= pa < 2 ^ 56 -> PA2PTE pa = 1024 * (pa / 4096).
Proof.
  intros. unfold PA2PTE. rewrite Z.shiftl_mul_pow2, Z.shiftr_div_pow2 by lia.
  change (2 ^ 12) with 4096. change (2 ^ 10) with 1024.
  rewrite u64_small; [lia|]. zdm.
Qed.

Lemma lor_high_low x f : 0 <= f < 1024 -> Z.lor (1024 * x) f = 1024 * x + f.
Proof.
  intros. assert (Z.land (1024 * x) f = 0) as E.
  { replace (1024 * x) with (Z.shiftl x 10) by (rewrite Z.shiftl_mul_pow2 by lia; lia).
    apply Z.bits_inj'. intros n Hn. rewrite Z.land_spec, Z.bits_0.
    destruct (Z.lt_ge_cases n 10).
    - by rewrite Z.shiftl_spec_low.
    - replace f with (f mod 2 ^ 10) by (apply Z.mod_small; lia).
      rewrite Z.mod_pow2_bits_high by lia. apply andb_false_r. }
  pose proof (Z.add_lor_land (1024 * x) f). lia.
Qed.

Lemma land_high_low x f k : 0 <= f < 1024 -> 0 <= k < 1024 ->
  Z.land (1024 * x + f) k = Z.land f k.
Proof.
  intros. rewrite <- lor_high_low by done.
  replace k with (Z.land k (Z.ones 10)) by (rewrite Z.land_ones by lia; apply Z.mod_small; lia).
  rewrite (Z.land_comm k), !Z.land_assoc. f_equal.
  rewrite Z.land_lor_distr_l, !Z.land_ones by lia.
  change (2 ^ 10) with 1024. rewrite (Z.mul_comm 1024), Z_mod_mult. done.
Qed.

Section Pte.
Context (pa f : Z) (Hpa : 0 <= pa < 2 ^ 56) (Hal : pa mod PGSIZE = 0) (Hf : 0 <= f < 1024).

Lemma pte_make : Z.lor (PA2PTE pa) f = 1024 * (pa / 4096) + f.
Proof using Hpa Hf. rewrite PA2PTE_eq by done. by apply lor_high_low. Qed.

(** The address stored in an entry is read back, whatever the flags. *)
Lemma PTE2PA_make : PTE2PA (Z.lor (PA2PTE pa) f) = pa.
Proof using All.
  rewrite pte_make. unfold PTE2PA, PGSIZE in *.
  rewrite Z.shiftl_mul_pow2, Z.shiftr_div_pow2 by lia.
  change (2 ^ 12) with 4096. change (2 ^ 10) with 1024.
  replace ((1024 * (pa / 4096) + f) / 1024) with (pa / 4096) by zdm.
  rewrite u64_small; zdm.
Qed.

Lemma PTE_FLAGS_make : PTE_FLAGS (Z.lor (PA2PTE pa) f) = f.
Proof using Hpa Hf.
  unfold PTE_FLAGS. rewrite pte_make, land_high_low by lia.
  change 0x3FF with (Z.ones 10). rewrite Z.land_ones by lia. apply Z.mod_small. lia.
Qed.

Lemma has_make k : 0 <= k < 1024 -> has (Z.lor (PA2PTE pa) f) k = has f k.
Proof using Hpa Hf. intros. unfold has. by rewrite pte_make, land_high_low. Qed.

Lemma pte_make_range : 0 <= Z.lor (PA2PTE pa) f < 2 ^ 64.
Proof using Hpa Hf. clear Hal. rewrite pte_make. zdm. Qed.
End Pte.

Lemma has_0 k : has 0 k = false.
Proof. unfold has. by rewrite Z.land_0_l. Qed.

#[export] Hint Rewrite has_0 : xv6.
