(* ===== verification/CString.v ===== *)
(** * kernel/string.c

    The memory and string routines of the kernel, as loops over a byte
    store, and what they compute.  Counted loops recurse on the number of
    iterations left; [strlen], whose loop has no bound in the code, takes the
    number of bytes it may inspect and answers [None] when it finds no
    terminator there. *)

From Stdlib Require Import ZArith Lia List.
From stdpp Require Import base tactics numbers list.
From S2P Require Import Prelude.

Section String.
Context {B : Type} `{ByteStoreOk B}.
Implicit Types (m : B) (i j n c : Z) (k : nat).

(** ** Definitions *)

Fixpoint memset_loop (k : nat) (m : B) (cdst i c : Z) : B :=
  match k with
  | O => m
  | S k' => memset_loop k' (bset m (cdst + i) c) cdst (i + 1) c
  end.

Definition memset (m : B) (dst c n : Z) : B := memset_loop (Z.to_nat n) m dst 0 c.

Fixpoint memcmp_loop (k : nat) (m : B) (s1 s2 : Z) : Z :=
  match k with
  | O => 0
  | S k' =>
    if negb (bget m s1 =? bget m s2) then bget m s1 - bget m s2
    else memcmp_loop k' m (s1 + 1) (s2 + 1)
  end.

Definition memcmp (m : B) (v1 v2 n : Z) : Z := memcmp_loop (Z.to_nat n) m v1 v2.

Fixpoint move_backward (k : nat) (m : B) (d s : Z) : B :=
  match k with
  | O => m
  | S k' => move_backward k' (bset m (d - 1) (bget m (s - 1))) (d - 1) (s - 1)
  end.

Fixpoint move_forward (k : nat) (m : B) (d s : Z) : B :=
  match k with
  | O => m
  | S k' => move_forward k' (bset m d (bget m s)) (d + 1) (s + 1)
  end.

Definition memmove (m : B) (dst src n : Z) : B :=
  if n =? 0 then m
  else if (src <? dst) && (dst <? src + n)
  then move_backward (Z.to_nat n) m (dst + n) (src + n)
  else move_forward (Z.to_nat n) m dst src.

Fixpoint strncmp_loop (k : nat) (m : B) (p q : Z) : Z :=
  match k with
  | O => 0
  | S k' =>
    if negb (bget m p =? 0) && (bget m p =? bget m q)
    then strncmp_loop k' m (p + 1) (q + 1)
    else bget m p - bget m q
  end.

Definition strncmp (m : B) (p q n : Z) : Z := strncmp_loop (Z.to_nat n) m p q.

(** The first loop of [strncpy]: the store, the position reached and the
    count left when it stops. *)
Fixpoint strncpy_copy (k : nat) (m : B) (s t : Z) : B * Z * nat :=
  match k with
  | O => (m, s, O)
  | S k' =>
    let c := bget m t in
    let m' := bset m s c in
    if c =? 0 then (m', s + 1, k') else strncpy_copy k' m' (s + 1) (t + 1)
  end.

Fixpoint strncpy_pad (k : nat) (m : B) (s : Z) : B :=
  match k with
  | O => m
  | S k' => strncpy_pad k' (bset m s 0) (s + 1)
  end.

Definition strncpy (m : B) (s t n : Z) : B :=
  let '(m', s', k') := strncpy_copy (Z.to_nat n) m s t in
  strncpy_pad k' m' s'.

(** The loop of [safestrcpy] makes at most [n - 1] copies; it leaves [s] at
    the byte after the last one copied, where the terminator goes. *)
Fixpoint safestrcpy_loop (k : nat) (m : B) (s t : Z) : B * Z :=
  match k with
  | O => (m, s)
  | S k' =>
    let c := bget m t in
    let m' := bset m s c in
    if c =? 0 then (m', s + 1) else safestrcpy_loop k' m' (s + 1) (t + 1)
  end.

Definition safestrcpy (m : B) (s t n : Z) : B :=
  if n <=? 0 then m
  else let '(m', s') := safestrcpy_loop (Z.to_nat (n - 1)) m s t in bset m' s' 0.

Fixpoint strlen_loop (k : nat) (m : B) (s n : Z) : option Z :=
  match k with
  | O => None
  | S k' => if bget m (s + n) =? 0 then Some n else strlen_loop k' m s (n + 1)
  end.

Definition strlen (fuel : nat) (m : B) (s : Z) : option Z := strlen_loop fuel m s 0.

(** The C string at [p], at most [k] bytes of it. *)
Fixpoint cstr (k : nat) (m : B) (p : Z) : list Z :=
  match k with
  | O => []
  | S k' => if bget m p =? 0 then [] else bget m p :: cstr k' m (p + 1)
  end.

(** Every byte of the range [a, a + n) can be written. *)
Definition writable (m : B) (a n : Z) : Prop := forall i, a <= i < a + n -> inb m i.

(** ** memset *)

Lemma u8_bget m a : u8 (bget m a) = bget m a.
Proof. apply u8_small. pose proof (bget_range m a). lia. Qed.

Lemma writable_bset m a n i v : writable (bset m i v) a n <-> writable m a n.
Proof. unfold writable. split; intros W j Hj; apply inb_bset || eapply inb_bset; eauto. Qed.

Lemma memset_loop_spec k m d i c j :
  writable m (d + i) (Z.of_nat k) ->
  bget (memset_loop k m d i c) j =
  if (d + i <=? j) && (j <? d + i + Z.of_nat k) then u8 c else bget m j.
Proof.
  revert m i. induction k as [|k IH]; intros m i W; cbn [memset_loop].
  - zcase; lia || done.
  - rewrite IH.
    + destruct (Z.eq_dec j (d + i)) as [->|].
      * rewrite bget_bset_eq by (apply W; lia). zcase; lia || done.
      * rewrite bget_bset_ne by done. zcase; lia || done.
    + apply writable_bset. intros x Hx. apply W. lia.
Qed.

Lemma memset_get m d c n j :
  0 <= n -> writable m d n ->
  bget (memset m d c n) j = if (d <=? j) && (j <? d + n) then u8 c else bget m j.
Proof.
  intros ? W. unfold memset. rewrite memset_loop_spec, Z.add_0_r, Z2Nat.id by
    (rewrite ?Z.add_0_r, ?Z2Nat.id; done || lia). done.
Qed.

(** ** memmove *)

Lemma move_forward_spec k m d s j :
  writable m d (Z.of_nat k) -> d <= s \/ s + Z.of_nat k <= d ->
  bget (move_forward k m d s) j =
  if (d <=? j) && (j <? d + Z.of_nat k) then bget m (s + (j - d)) else bget m j.
Proof.
  revert m d s. induction k as [|k IH]; intros m d s W O; cbn [move_forward].
  - zcase; lia || done.
  - rewrite IH by (lia || (apply writable_bset; intros x Hx; apply W; lia)).
    destruct (Z.eq_dec j d) as [->|].
    + rewrite bget_bset_eq, u8_bget by (apply W; lia). zcase; try lia.
      f_equal; lia.
    + replace (s + 1 + (j - (d + 1))) with (s + (j - d)) by lia.
      zcase; try lia; apply bget_bset_ne; lia.
Qed.

Lemma move_backward_spec k m d s j :
  writable m (d - Z.of_nat k) (Z.of_nat k) -> s <= d ->
  bget (move_backward k m d s) j =
  if (d - Z.of_nat k <=? j) && (j <? d) then bget m (s + (j - d)) else bget m j.
Proof.
  revert m d s. induction k as [|k IH]; intros m d s W O; cbn [move_backward].
  - zcase; lia || done.
  - rewrite IH by (lia || (apply writable_bset; intros x Hx; apply W; lia)).
    destruct (Z.eq_dec j (d - 1)) as [->|].
    + rewrite bget_bset_eq, u8_bget by (apply W; lia). zcase; try lia.
      f_equal; lia.
    + replace (s - 1 + (j - (d - 1))) with (s + (j - d)) by lia.
      zcase; try lia; apply bget_bset_ne; lia.
Qed.

Lemma memmove_get m dst src n j :
  0 <= n -> writable m dst n ->
  bget (memmove m dst src n) j =
  if (dst <=? j) && (j <? dst + n) then bget m (src + (j - dst)) else bget m j.
Proof.
  intros Hn W. unfold memmove.
  destruct (Z.eqb_spec n 0) as [->|]; [zcase; lia || done|].
  destruct ((src <? dst) && (dst <? src + n)) eqn:O.
  - zbool. rewrite move_backward_spec by
      (rewrite ?Z2Nat.id by lia; lia || (intros x Hx; apply W; lia)).
    rewrite Z2Nat.id by lia. replace (dst + n - n) with dst by lia.
    replace (src + n + (j - (dst + n))) with (src + (j - dst)) by lia. done.
  - apply andb_false_iff in O. rewrite move_forward_spec, Z2Nat.id by
      (rewrite ?Z2Nat.id by lia; done || destruct O; zbool; lia). done.
Qed.

(** ** memcmp *)

Lemma memcmp_loop_0 k m a b :
  memcmp_loop k m a b = 0 <->
  (forall i, 0 <= i < Z.of_nat k -> bget m (a + i) = bget m (b + i)).
Proof.
  revert a b. induction k as [|k IH]; intros a b; cbn [memcmp_loop]; [split; [lia|done]|].
  destruct (Z.eqb_spec (bget m a) (bget m b)) as [E|E]; cbn.
  - rewrite IH. split; intros A i Hi.
    + destruct (Z.eq_dec i 0) as [->|]; [by rewrite !Z.add_0_r|].
      specialize (A (i - 1)). replace (a + i) with (a + 1 + (i - 1)) by lia.
      replace (b + i) with (b + 1 + (i - 1)) by lia. apply A. lia.
    + rewrite <- !Z.add_assoc. apply A. lia.
  - split; [lia|]. intros A. specialize (A 0). rewrite !Z.add_0_r in A. lia.
Qed.

(** ** strncmp *)

Lemma strncmp_loop_0 k m p q :
  strncmp_loop k m p q = 0 <-> cstr k m p = cstr k m q.
Proof.
  revert p q. induction k as [|k IH]; intros p q; cbn [strncmp_loop cstr]; [done|].
  destruct (Z.eqb_spec (bget m p) 0) as [E|E]; cbn.
  - destruct (Z.eqb_spec (bget m q) 0) as [E'|E']; split; intros; try done; lia.
  - destruct (Z.eqb_spec (bget m p) (bget m q)) as [E'|E'].
    + destruct (Z.eqb_spec (bget m q) 0); [lia|]. rewrite IH, E'.
      split; [by intros ->|by intros [=]].
    + destruct (Z.eqb_spec (bget m q) 0); split; intros HH; try done; try lia.
      injection HH as ? ?. done.
Qed.

(** ** Bounded copies

    The source is read while the destination is written: the copies are
    right when the two ranges do not meet. *)

Definition apart (s t n : Z) : Prop := s + n <= t \/ t + n <= s.

Lemma cstr_bset_ne k m p i v :
  ~ (p <= i < p + Z.of_nat k) -> cstr k (bset m i v) p = cstr k m p.
Proof.
  revert p. induction k as [|k IH]; intros p Hi; cbn [cstr]; [done|].
  rewrite bget_bset_ne by lia. by rewrite IH by lia.
Qed.

Lemma cstr_length k m p : (length (cstr k m p) <= k)%nat.
Proof.
  revert p. induction k as [|k IH]; intros p; cbn [cstr]; [done|].
  destruct (_ =? 0); cbn; [lia|]. specialize (IH (p + 1)). lia.
Qed.

(** What [safestrcpy]'s loop leaves: it stops on the byte it copied last,
    which is the terminator, or after [k] bytes; bytes before that are those
    of the source. *)
Lemma safestrcpy_loop_spec k m s t :
  writable m s (Z.of_nat k) -> apart s t (Z.of_nat k) ->
  let '(m', s') := safestrcpy_loop k m s t in
  let l := cstr k m t in
  let n := Z.of_nat (length l) in
  s + n <= s' <= s + Z.of_nat k /\
  (s' = s + n \/ s' = s + n + 1 /\ bget m' (s + n) = 0) /\
  (forall i, 0 <= i < n -> bget m' (s + i) = nth (Z.to_nat i) l 0) /\
  (forall i, ~ (s <= i < s') -> bget m' i = bget m i) /\
  (forall i, inb m' i <-> inb m i).
Proof.
  revert m s t. induction k as [|k IH]; intros m s t W A; cbn [safestrcpy_loop cstr].
  - cbn. split_and!; try lia; try done.
  - unfold apart in A. destruct (Z.eqb_spec (bget m t) 0) as [E|E]; cbn -[bget bset inb].
    + split_and!; try lia.
      * right. split; [lia|]. rewrite Z.add_0_r, bget_bset_eq by (apply W; lia).
        by rewrite E.
      * intros i Hi. apply bget_bset_ne. lia.
      * intros. apply inb_bset.
    + specialize (IH (bset m s (bget m t)) (s + 1) (t + 1)).
      destruct (safestrcpy_loop k _ _ _) as [m' s'].
      destruct IH as (B1 & B2 & B3 & B4 & B5).
      { apply writable_bset. intros i Hi. apply W. lia. }
      { unfold apart. lia. }
      rewrite cstr_bset_ne in * by lia. cbv zeta; cbn [length]; rewrite Nat2Z.inj_succ.
      set (n := Z.of_nat (length (cstr k m (t + 1)))) in *.
      split_and!; try lia.
      * replace (s + Z.succ n) with (s + 1 + n) by lia. destruct B2; [left; lia|right; done].
      * intros i Hi. destruct (Z.eq_dec i 0) as [->|].
        -- rewrite Z.add_0_r, B4 by lia. rewrite bget_bset_eq, u8_bget by (apply W; lia). done.
        -- replace (s + i) with (s + 1 + (i - 1)) by lia. rewrite B3 by lia.
           replace (Z.to_nat i) with (S (Z.to_nat (i - 1))) by lia. done.
      * intros i Hi. rewrite B4 by lia. apply bget_bset_ne. lia.
      * intros i. rewrite B5. apply inb_bset.
Qed.

(** C: statement for the copy made by [safestrcpy]. *)
Lemma safestrcpy_get m s t n :
  0 < n -> writable m s n -> apart s t (n - 1) ->
  let m' := safestrcpy m s t n in
  let l := cstr (Z.to_nat (n - 1)) m t in
  let k := Z.of_nat (length l) in
  (forall i, 0 <= i < k -> bget m' (s + i) = nth (Z.to_nat i) l 0) /\
  bget m' (s + k) = 0 /\
  (forall i, ~ (s <= i < s + n) -> bget m' i = bget m i).
Proof.
  intros Hn W A. unfold safestrcpy. destruct (Z.leb_spec n 0); [lia|].
  pose proof (safestrcpy_loop_spec (Z.to_nat (n - 1)) m s t) as L.
  destruct (safestrcpy_loop _ _ _ _) as [m' s'].
  rewrite Z2Nat.id in L by lia.
  destruct L as (B1 & B2 & B3 & B4 & B5); [intros i Hi; apply W; lia|done|].
  cbv zeta. set (l := cstr _ m t) in *. set (k := Z.of_nat (length l)) in *.
  assert (k <= n - 1).
  { subst k l. pose proof (cstr_length (Z.to_nat (n - 1)) m t). lia. }
  split_and!.
  - intros i Hi. rewrite bget_bset_ne by lia. by apply B3.
  - destruct B2 as [->|[-> E]].
    + rewrite bget_bset_eq; [done|]. apply B5, W. lia.
    + rewrite bget_bset_ne by lia. done.
  - intros i Hi. rewrite bget_bset_ne by lia. apply B4. lia.
Qed.

(** ** strlen *)

Lemma strlen_loop_spec k m s n l :
  0 <= l < Z.of_nat k -> bget m (s + n + l) = 0 ->
  (forall i, 0 <= i < l -> bget m (s + n + i) <> 0) ->
  strlen_loop k m s n = Some (n + l).
Proof.
  revert n l. induction k as [|k IH]; intros n l Hl E N; cbn [strlen_loop]; [lia|].
  destruct (Z.eq_dec l 0) as [->|].
  - rewrite Z.add_0_r in E. by rewrite E, Z.add_0_r.
  - destruct (Z.eqb_spec (bget m (s + n)) 0) as [E0|].
    { specialize (N 0). rewrite Z.add_0_r in N. lia. }
    rewrite (IH (n + 1) (l - 1)); [f_equal; lia|lia| |].
    + rewrite <- E. f_equal. lia.
    + intros i Hi. specialize (N (i + 1)).
      replace (s + (n + 1) + i) with (s + n + (i + 1)) by lia. apply N. lia.
Qed.

End String.
