(* ===== verification/Ring.v ===== *)
(** * Circular buffers

    pipe.c, console.c and uart.c keep a queue in an array used as a ring, with
    free-running counters that wrap at their width.  [ring n d r q] says that
    the array [d] of size [n] holds the queue [q] from counter [r] on. *)

From Stdlib Require Import ZArith Lia List.
From stdpp Require Import base tactics numbers list.
From S2P Require Import Prelude.

Record ring (n : Z) (d : list Z) (r : Z) (q : list Z) : Prop := {
  ring_size : Z.of_nat (length d) = n;
  ring_room : Z.of_nat (length q) <= n;
  ring_bytes : forall j x, q !! j = Some x -> at_ 0 d ((r + Z.of_nat j) mod n) = x
}.

Section Ring.
Context (n : Z) (Hn : 0 < n).

Lemma ring_mod d r r' q : r mod n = r' mod n -> ring n d r q -> ring n d r' q.
Proof. intros E [S R B]. split; try done. intros j x Hj. rewrite <- (B j x Hj), <- (Zplus_mod_idemp_l r), E. by rewrite Zplus_mod_idemp_l. Qed.

Lemma ring_append d r q c : ring n d r q -> Z.of_nat (length q) < n ->
  ring n (upd d ((r + Z.of_nat (length q)) mod n) c) r (q ++ [c]).
Proof.
  intros [S R B] L. split.
  - by rewrite length_upd.
  - rewrite length_app. cbn. lia.
  - intros j x Hj. destruct (Nat.lt_ge_cases j (length q)) as [Hl|Hl].
    + rewrite lookup_app_l in Hj by done. rewrite at_upd_ne; [by apply B|]. intros E.
      assert (D : ((r + Z.of_nat (length q)) - (r + Z.of_nat j)) mod n = 0) by (rewrite Zminus_mod, E, Z.sub_diag; by apply Z.mod_0_l; lia).
      rewrite Z.mod_small in D; lia.
    + rewrite lookup_app_r in Hj by done. apply list_lookup_singleton_Some in Hj as [Ej ->].
      replace j with (length q) by lia. apply at_upd_eq. rewrite S. apply Z.mod_pos_bound. lia.
Qed.

Lemma ring_get d r c q : ring n d r (c :: q) -> ring n d (r + 1) q /\ at_ 0 d (r mod n) = c.
Proof.
  intros [S R B]. cbn [length] in R. split; [split; [done|lia|]|].
  - intros j x Hj. rewrite <- (B (Datatypes.S j) x Hj). do 2 f_equal. lia.
  - rewrite <- (B 0%nat c eq_refl). do 2 f_equal. lia.
Qed.

Lemma ring_prefix d r q q' : ring n d r (q ++ q') -> ring n d r q.
Proof.
  intros [S R B]. rewrite length_app in R. split; [done|lia|]. intros j x Hj. apply B. by apply lookup_app_l_Some.
Qed.

Lemma ring_last d r q c : ring n d r (q ++ [c]) -> at_ 0 d ((r + Z.of_nat (length q)) mod n) = c.
Proof. intros R. apply (ring_bytes _ _ _ _ R). rewrite lookup_app_r, Nat.sub_diag by lia. done. Qed.
End Ring.

(** ** The counters *)

Lemma u32_mod x : u32 x = x mod 2 ^ 32.
Proof. done. Qed.

(** A ring whose size divides 2^32 does not notice the wrap. *)
Lemma u32_ring n m x : n * m = 2 ^ 32 -> 0 < n -> 0 < m -> u32 x mod n = x mod n.
Proof. intros E Hn Hm. rewrite u32_mod, <- E. rewrite Z.rem_mul_r by lia. rewrite Z.mul_comm, Z_mod_plus_full. apply Zmod_mod. Qed.

Lemma u32_add_l x y : u32 (u32 x + y) = u32 (x + y).
Proof. rewrite !u32_mod. apply Zplus_mod_idemp_l. Qed.

Lemma u32_sub_l x y : u32 (u32 x - y) = u32 (x - y).
Proof. rewrite !u32_mod. apply Zminus_mod_idemp_l. Qed.

Lemma u32_sub_r x y : u32 (x - u32 y) = u32 (x - y).
Proof. rewrite !u32_mod. apply Zminus_mod_idemp_r. Qed.

(** Two counters less than a turn apart. *)
Lemma u32_same a k j : Z.abs (k - j) < 2 ^ 32 -> (u32 (a + k) =? u32 (a + j)) = (k =? j).
Proof. rewrite !u32_mod. intros. zcase; try done; zdm. Qed.

(** The same for counters of 16 bits. *)
Lemma u16_mod x : u16 x = x mod 2 ^ 16.
Proof. done. Qed.

Lemma u16_add_l x y : u16 (u16 x + y) = u16 (x + y).
Proof. rewrite !u16_mod. apply Zplus_mod_idemp_l. Qed.

Lemma u16_sub_l x y : u16 (u16 x - y) = u16 (x - y).
Proof. rewrite !u16_mod. apply Zminus_mod_idemp_l. Qed.

Lemma u16_ring n m x : n * m = 2 ^ 16 -> 0 < n -> 0 < m -> u16 x mod n = x mod n.
Proof. intros E Hn Hm. rewrite u16_mod, <- E. rewrite Z.rem_mul_r by lia. rewrite Z.mul_comm, Z_mod_plus_full. apply Zmod_mod. Qed.

Lemma u16_same a k j : Z.abs (k - j) < 2 ^ 16 -> (u16 (a + k) =? u16 (a + j)) = (k =? j).
Proof. rewrite !u16_mod. intros. zcase; try done; zdm. Qed.

Lemma u16_bounds x : 0 <= u16 x < 2 ^ 16.
Proof. rewrite u16_mod. apply Z.mod_pos_bound. lia. Qed.
