(* ===== verification/Kalloc.v ===== *)
(** * kernel/kalloc.c: the physical page allocator

    The free pages form a linked list threaded through their own first
    words; the allocator keeps its head and, for the activity monitor, the
    number of free pages and the number found at boot.  The invariant
    [kmem_inv] reads that list back from memory; the step system [kstep]
    runs the allocator with clients that write only to pages they own. *)

From Stdlib Require Import ZArith Lia List.
From stdpp Require Import base tactics numbers list sets relations strings.
From S2P Require Import Prelude Riscv.

(** Symbols the linker script defines: the first address after the kernel,
    the end of its text, the page of trampoline.S. *)

Class Layout := {
  end_ : Z;
  etext : Z;
  trampoline : Z
}.

Class LayoutOk `{Layout} : Prop := {
  end_range : KERNBASE <= end_ <= PHYSTOP;
  etext_range : KERNBASE < etext < end_;
  etext_aligned : etext mod PGSIZE = 0;
  trampoline_range : KERNBASE <= trampoline /\ trampoline + PGSIZE <= etext;
  trampoline_aligned : trampoline mod PGSIZE = 0
}.

(** ** State *)

Record kmem_t : Type := mkKmem {
  freelist : Z;
  free_pages : Z;
  total_pages : Z
}.

(** Physical memory with the allocator's variables. *)
Record phys : Type := mkPhys {
  mem : ram;
  kmem : kmem_t
}.

Definition set_mem (f : ram -> ram) (s : phys) : phys := mkPhys (f (mem s)) (kmem s).
Definition set_kmem (f : kmem_t -> kmem_t) (s : phys) : phys := mkPhys (mem s) (f (kmem s)).

(** 64-bit words of memory, read and written through a pointer. *)
Definition load64 (a : Z) : M phys Z := gets (fun s => load 8 (mem s) a).
Definition store64 (a v : Z) : M phys unit := modify (set_mem (fun m => store 8 m a v)).

Definition memset_page (a c : Z) : M phys unit := modify (set_mem (fun m => fill m a c PGSIZE)).

#[export] Hint Unfold load64 store64 memset_page set_mem set_kmem : xv6.

(** ** Operations *)

Section Ops.
Context `{Layout}.

Definition kfree (pa : Z) : M phys unit :=
  if negb (pa mod PGSIZE =? 0) || (pa <? end_) || (PHYSTOP <=? pa) then panic "kfree"
  else
    do memset_page pa 1 ;;;
    let* k := gets kmem in
    do store64 pa (freelist k) ;;;
    modify (set_kmem (fun k => mkKmem pa (u64 (free_pages k + 1)) (total_pages k))).

Definition kalloc : M phys Z :=
  let* r := gets (fun s => freelist (kmem s)) in
  if r =? 0 then ret 0
  else
    let* next := load64 r in
    do modify (set_kmem (fun k => mkKmem next (u64 (free_pages k - 1)) (total_pages k))) ;;;
    do memset_page r 5 ;;;
    ret r.

Fixpoint freerange_loop (fuel : nat) (p pa_end : Z) : M phys unit :=
  match fuel with
  | O => ret tt
  | S fuel' =>
    if p + PGSIZE <=? pa_end
    then do kfree p ;;; freerange_loop fuel' (p + PGSIZE) pa_end
    else ret tt
  end.

Definition freerange (pa_start pa_end : Z) : M phys unit :=
  let p := PGROUNDUP pa_start in
  freerange_loop (Z.to_nat ((pa_end - p) / PGSIZE + 1)) p pa_end.

Definition kinit : M phys unit :=
  do modify (set_kmem (fun k => mkKmem (freelist k) 0 0)) ;;;
  do freerange end_ PHYSTOP ;;;
  modify (set_kmem (fun k => mkKmem (freelist k) (free_pages k) (free_pages k))).

Definition get_memory_stats : M phys (Z * Z) :=
  gets (fun s => (free_pages (kmem s), total_pages (kmem s))).

(** ** Invariant *)

Definition page_ok (p : Z) : Prop := p mod PGSIZE = 0 /\ end_ <= p < PHYSTOP.

Fixpoint chain (m : ram) (head : Z) (l : list Z) : Prop :=
  match l with
  | [] => head = 0
  | p :: l' => head = p /\ chain m (load 8 m p) l'
  end.

(** [l] is the list of free pages, most recently freed first. *)
Record kmem_inv (s : phys) (l : list Z) : Prop := mkInv {
  inv_chain : chain (mem s) (freelist (kmem s)) l;
  inv_nodup : NoDup l;
  inv_ok : Forall page_ok l;
  inv_count : free_pages (kmem s) = Z.of_nat (length l)
}.

(** Memory outside one page is untouched. *)
Definition same_outside (p : Z) (m m' : ram) : Prop :=
  forall i, ~ (p <= i < p + PGSIZE) -> bget m' i = bget m i.

(** The allocator with its clients.  [own] lists the pages handed out. *)
Inductive kstep : phys * list Z -> phys * list Z -> Prop :=
| k_alloc s s' p own :
    kalloc s = Ok p s' -> p <> 0 -> kstep (s, own) (s', p :: own)
| k_fail s s' own :
    kalloc s = Ok 0 s' -> kstep (s, own) (s', own)
| k_free s s' p own1 own2 :
    kfree p s = Ok tt s' -> kstep (s, own1 ++ p :: own2) (s', own1 ++ own2)
| k_write s m own :
    (forall i, (forall p, p ∈ own -> ~ (p <= i < p + PGSIZE)) -> bget m i = bget (mem s) i) ->
    kstep (s, own) (mkPhys m (kmem s), own).

End Ops.

#[global] Arguments kfree : simpl never.
#[global] Arguments kalloc : simpl never.
#[global] Arguments kinit : simpl never.

(** ** Lemmas *)

Section Lemmas.
Context `{LO : LayoutOk}.

Lemma page_ok_bounds p : page_ok p -> KERNBASE <= p /\ p + PGSIZE <= PHYSTOP.
Proof.
  intros [A R]. pose proof end_range. unfold PGSIZE, PHYSTOP, KERNBASE in *. zdm.
Qed.

Lemma page_ok_nonzero p : page_ok p -> p <> 0.
Proof. intros P%page_ok_bounds. unfold KERNBASE in *. lia. Qed.

(** Two aligned pages are the same or do not meet. *)
Lemma pages_apart p q :
  p mod PGSIZE = 0 -> q mod PGSIZE = 0 -> p <> q -> p + PGSIZE <= q \/ q + PGSIZE <= p.
Proof. unfold PGSIZE. intros. zdm. Qed.

(** There are at most 32768 pages. *)
Lemma pages_bound l : NoDup l -> Forall page_ok l -> Z.of_nat (length l) <= 32768.
Proof.
  intros N F. transitivity (Z.of_nat (length (map (fun k => KERNBASE + 4096 * k) (seqZ 0 32768)))).
  - apply inj_le, NoDup_incl_length; [by apply NoDup_ListNoDup|].
    intros p Hp. apply in_map_iff. exists ((p - KERNBASE) / 4096).
    rewrite Forall_forall in F. destruct (F p) as [A R]; [by apply list_elem_of_In|].
    pose proof end_range. unfold PGSIZE, PHYSTOP, KERNBASE in *.
    split; [zdm|]. apply list_elem_of_In, elem_of_seqZ. zdm.
  - rewrite length_map, length_seqZ. lia.
Qed.

Lemma chain_ext m m' h l :
  (forall p, p ∈ l -> load 8 m' p = load 8 m p) -> chain m h l -> chain m' h l.
Proof.
  revert h. induction l as [|p l IH]; intros h E; cbn [chain]; [done|].
  intros [-> C]. split; [done|]. rewrite E by set_solver.
  apply IH; [set_solver|done].
Qed.

Lemma chain_outside p m m' h l :
  Forall page_ok l -> p ∉ l -> p mod PGSIZE = 0 ->
  same_outside p m m' -> chain m h l -> chain m' h l.
Proof.
  intros F N A S. apply chain_ext. intros q Hq. apply load_ext. intros i Hi.
  apply S. rewrite Forall_forall in F. destruct (F q Hq) as [Aq _].
  assert (p <> q) by set_solver.
  pose proof (pages_apart p q A Aq). unfold PGSIZE in *. lia.
Qed.

Lemma chain_functional m h l l' : chain m h l -> chain m h l' ->
  Forall page_ok l -> Forall page_ok l' -> l = l'.
Proof.
  revert h l'. induction l as [|p l IH]; intros h [|p' l'] C C' F F'; cbn [chain] in *; try done.
  - destruct C' as [-> _]. apply Forall_cons in F' as [P _]. by apply page_ok_nonzero in P.
  - destruct C as [-> _]. apply Forall_cons in F as [P _]. by apply page_ok_nonzero in P.
  - destruct C as [-> C], C' as [<- C'].
    apply Forall_cons in F as [_ F], F' as [_ F']. f_equal. eauto.
Qed.

Lemma same_outside_fill p c m : same_outside p m (fill m p c PGSIZE).
Proof. intros i Hi. by apply bget_fill_ne. Qed.

Lemma same_outside_store p a v m :
  p <= a -> a + 8 <= p + PGSIZE -> same_outside p m (store 8 m a v).
Proof. intros ? ? i Hi. apply bget_store_ne. lia. Qed.

Lemma same_outside_trans p m m' m'' :
  same_outside p m m' -> same_outside p m' m'' -> same_outside p m m''.
Proof. intros A B i Hi. by rewrite B, A. Qed.

Lemma kmem_inv_outside s l p m :
  kmem_inv s l -> p mod PGSIZE = 0 -> p ∉ l -> same_outside p (mem s) m ->
  kmem_inv (mkPhys m (kmem s)) l.
Proof. intros [C N F K] A Np S. split; cbn; eauto using chain_outside. Qed.

(** ** kalloc *)

Lemma kalloc_nil s : kmem_inv s [] -> kalloc s = Ok 0 s.
Proof. intros [C _ _ _]. unfold kalloc, bind, gets. cbn in C. by rewrite C. Qed.

Lemma kalloc_cons s p l :
  kmem_inv s (p :: l) ->
  kalloc s = Ok p (mkPhys (fill (mem s) p 5 PGSIZE)
                          (mkKmem (load 8 (mem s) p) (Z.of_nat (length l)) (total_pages (kmem s)))).
Proof.
  intros [[E C] N F K]. unfold kalloc, bind, gets. rewrite E.
  destruct (Z.eqb_spec p 0) as [->|].
  { apply Forall_cons in F as [P _]. by apply page_ok_nonzero in P. }
  mrun. rewrite K.
  pose proof (pages_bound _ N F) as L. cbn [length] in *.
  replace (Z.of_nat (S (length l)) - 1) with (Z.of_nat (length l)) by lia.
  by rewrite u64_small by lia.
Qed.

Lemma kalloc_inv s p l :
  kmem_inv s (p :: l) ->
  kmem_inv (mkPhys (fill (mem s) p 5 PGSIZE)
                   (mkKmem (load 8 (mem s) p) (Z.of_nat (length l)) (total_pages (kmem s)))) l.
Proof.
  intros [[E C] N F K]. apply NoDup_cons in N as [Np N]. apply Forall_cons in F as [P F].
  split; cbn; try done.
  apply (chain_outside p (mem s)); [done..|apply P|apply same_outside_fill|done].
Qed.

(** ** kfree *)

Definition kfree_mem (m : ram) (pa head : Z) : ram := store 8 (fill m pa 1 PGSIZE) pa head.

Lemma same_outside_kfree m p h : same_outside p m (kfree_mem m p h).
Proof.
  unfold kfree_mem. eapply same_outside_trans; [apply same_outside_fill|].
  apply same_outside_store; unfold PGSIZE; lia.
Qed.

Lemma kfree_run s l p :
  kmem_inv s l -> page_ok p -> p ∉ l ->
  kfree p s = Ok tt (mkPhys (kfree_mem (mem s) p (freelist (kmem s)))
                       (mkKmem p (Z.of_nat (S (length l))) (total_pages (kmem s)))).
Proof.
  intros [C N F K] P Np. unfold kfree. destruct P as [A [R1 R2]].
  rewrite A. zcase; try lia.
  mrun. rewrite K. pose proof (pages_bound _ N F).
  rewrite u64_small by lia. by rewrite Nat2Z.inj_succ.
Qed.

Lemma kfree_bad s p : ~ page_ok p -> kfree p s = Panic "kfree".
Proof.
  intros NP. unfold kfree.
  destruct (_ || _ || _) eqn:E; [done|]. zbool. destruct NP. split; lia.
Qed.

Lemma freelist_range s l : kmem_inv s l -> 0 <= freelist (kmem s) < 2 ^ 64.
Proof.
  intros [C N F K]. destruct l as [|p l]; cbn in C; [lia|]. destruct C as [-> _].
  apply Forall_cons in F as [P _]. apply page_ok_bounds in P.
  unfold PHYSTOP, KERNBASE, PGSIZE in *. lia.
Qed.

Lemma kfree_inv s l p :
  kmem_inv s l -> page_ok p -> p ∉ l ->
  kmem_inv (mkPhys (kfree_mem (mem s) p (freelist (kmem s)))
              (mkKmem p (Z.of_nat (S (length l))) (total_pages (kmem s)))) (p :: l).
Proof.
  intros I P Np. pose proof (freelist_range _ _ I) as R. destruct I as [C N F K].
  split; cbn [mem kmem freelist free_pages chain]; [split; [done|]|by constructor..|done].
  unfold kfree_mem at 2. rewrite load_store_eq by done.
  rewrite Z.mod_small by (cbn; lia).
  eapply chain_outside; eauto using same_outside_kfree. apply P.
Qed.

(** ** freerange *)

(** The pages of [p, e) in the order [freerange] pushes them. *)
Fixpoint page_run (k : nat) (p : Z) : list Z :=
  match k with
  | O => []
  | S k' => p :: page_run k' (p + PGSIZE)
  end.

Lemma elem_of_page_run k p q :
  q ∈ page_run k p <-> exists i, 0 <= i < Z.of_nat k /\ q = p + i * PGSIZE.
Proof.
  revert p. induction k as [|k IH]; intros p; cbn [page_run].
  - split; [by intros ?%elem_of_nil|intros (i & ? & _); lia].
  - rewrite elem_of_cons, IH. split.
    + intros [->|(i & Hi & ->)]; [exists 0; lia|exists (i + 1); lia].
    + intros (i & Hi & ->). destruct (Z.eq_dec i 0) as [->|]; [left; lia|].
      right. exists (i - 1). lia.
Qed.

Lemma page_run_nodup k p : NoDup (page_run k p).
Proof.
  revert p. induction k as [|k IH]; intros p; cbn [page_run]; constructor; [|done].
  rewrite elem_of_page_run. unfold PGSIZE. intros (i & ? & ?). lia.
Qed.

Lemma length_page_run k p : length (page_run k p) = k.
Proof. revert p. induction k; intros; cbn; auto. Qed.

Lemma freerange_loop_run k fuel p e s l :
  kmem_inv s l ->
  p + Z.of_nat k * PGSIZE <= e < p + Z.of_nat k * PGSIZE + PGSIZE -> (k < fuel)%nat ->
  Forall page_ok (page_run k p) -> (forall q, q ∈ page_run k p -> q ∉ l) ->
  exists s', freerange_loop fuel p e s = Ok tt s' /\
             kmem_inv s' (rev (page_run k p) ++ l) /\
             total_pages (kmem s') = total_pages (kmem s).
Proof.
  revert fuel p s l. induction k as [|k IH]; intros fuel p s l I He Hf F D;
    (destruct fuel as [|fuel]; [lia|]); cbn [freerange_loop page_run].
  - destruct (Z.leb_spec (p + PGSIZE) e); [lia|]. by exists s.
  - destruct (Z.leb_spec (p + PGSIZE) e); [|unfold PGSIZE in *; lia].
    apply Forall_cons in F as [P F]. unfold bind.
    rewrite (kfree_run s l p) by (done || (apply D; set_solver)).
    edestruct (IH fuel (p + PGSIZE)) as (s' & E & I' & T).
    { apply kfree_inv; [exact I|exact P|apply D; set_solver]. }
    { lia. } { lia. } { done. }
    { intros q Hq [->|]%elem_of_cons.
      - pose proof (page_run_nodup (S k) p) as N. cbn [page_run] in N.
        by apply NoDup_cons in N as [? _].
      - by apply (D q); [set_solver|]. }
    exists s'. split_and!; [done| |done].
    cbn [rev]. by rewrite <- app_assoc.
Qed.

Lemma kinit_run s :
  freelist (kmem s) = 0 ->
  exists s' l, kinit s = Ok tt s' /\ kmem_inv s' l /\
    (forall p, p ∈ l <-> page_ok p) /\ free_pages (kmem s') = total_pages (kmem s').
Proof.
  intros E. pose proof end_range as R. unfold PHYSTOP, KERNBASE in R.
  assert (U : PGROUNDUP end_ = 4096 * ((end_ + 4095) / 4096)) by (apply PGROUNDUP_eq; lia).
  set (n := (PHYSTOP - PGROUNDUP end_) / PGSIZE).
  assert (N : 0 <= n /\ PGROUNDUP end_ + n * PGSIZE = PHYSTOP).
  { subst n. rewrite U. unfold PGSIZE, PHYSTOP, KERNBASE. zdm. }
  assert (P : forall p, p ∈ page_run (Z.to_nat n) (PGROUNDUP end_) <-> page_ok p).
  { intros p. rewrite elem_of_page_run, Z2Nat.id by lia. unfold page_ok. rewrite U in *.
    unfold PGSIZE, PHYSTOP, KERNBASE in *. split.
    - intros (i & Hi & ->). zdm.
    - intros [A B]. exists ((p - 4096 * ((end_ + 4095) / 4096)) / 4096). zdm. }
  edestruct (freerange_loop_run (Z.to_nat n) (Z.to_nat (n + 1)) (PGROUNDUP end_) PHYSTOP
               (mkPhys (mem s) (mkKmem (freelist (kmem s)) 0 0)) []) as (s' & Rn & I & T).
  { split; cbn; [done|constructor|constructor|done]. }
  { rewrite Z2Nat.id by lia. unfold PGSIZE in *. lia. }
  { lia. }
  { apply Forall_forall. apply P. }
  { set_solver. }
  rewrite app_nil_r in I.
  exists (mkPhys (mem s') (mkKmem (freelist (kmem s')) (free_pages (kmem s')) (free_pages (kmem s')))),
    (rev (page_run (Z.to_nat n) (PGROUNDUP end_))).
  split_and!; [| |intros p; rewrite <- P, !list_elem_of_In, <- in_rev; done|done].
  - unfold kinit, freerange. mrun. fold n. by rewrite Rn.
  - destruct I. by split.
Qed.

(** ** The allocator with its clients *)

(** The pages handed out and the free ones partition the pages. *)
Definition accounts (x : phys * list Z) : Prop :=
  exists l, kmem_inv x.1 l /\ NoDup (x.2 ++ l) /\ Forall page_ok x.2 /\
    free_pages (kmem x.1) + Z.of_nat (length x.2) = total_pages (kmem x.1).

Lemma accounts_alloc s s' p own :
  accounts (s, own) -> kalloc s = Ok p s' ->
  if p =? 0 then s' = s else (p ∉ own) /\ accounts (s', p :: own).
Proof.
  intros (l & I & N & F & T) E. cbn in *. destruct l as [|q l].
  - rewrite kalloc_nil in E by done. by injection E as <- <-.
  - rewrite (kalloc_cons s q l) in E by done. injection E as <- <-.
    pose proof (inv_ok _ _ I) as F'. apply Forall_cons in F' as [P F'].
    destruct (Z.eqb_spec q 0) as [->|]; [by apply page_ok_nonzero in P|].
    pose proof (inv_count _ _ I) as K. cbn in K.
    apply NoDup_app in N as (N1 & N2 & N3). apply NoDup_cons in N3 as [N3 N4].
    split; [intros Q; apply (N2 q Q); set_solver|].
    exists l. split_and!; [by apply kalloc_inv| |by constructor|cbn in *; lia].
    cbn. constructor; [|apply NoDup_app; split_and!; set_solver].
    rewrite elem_of_app. intros [Q|Q]; [|done]. apply (N2 q Q). set_solver.
Qed.

Lemma accounts_free s s' p own1 own2 :
  accounts (s, own1 ++ p :: own2) -> kfree p s = Ok tt s' -> accounts (s', own1 ++ own2).
Proof.
  intros (l & I & N & F & T) E. cbn in *.
  apply Forall_app in F as [F1 F2]. apply Forall_cons in F2 as [P F2].
  rewrite <- app_assoc in N. cbn in N.
  assert (N' : NoDup (p :: own1 ++ own2 ++ l)) by by rewrite Permutation_middle.
  apply NoDup_cons in N' as [Np N'].
  rewrite (kfree_run s l p) in E by (done || set_solver). injection E as <-.
  exists (p :: l). split_and!; cbn.
  - apply kfree_inv; [done|done|set_solver].
  - rewrite <- app_assoc, <- !Permutation_middle. by constructor.
  - by apply Forall_app.
  - rewrite length_app in *. cbn in *. pose proof (inv_count _ _ I). lia.
Qed.

Lemma accounts_write s m own :
  accounts (s, own) ->
  (forall i, (forall p, p ∈ own -> ~ (p <= i < p + PGSIZE)) -> bget m i = bget (mem s) i) ->
  accounts (mkPhys m (kmem s), own).
Proof.
  intros (l & I & N & F & T) W. exists l. split_and!; try done. cbn in *.
  destruct I as [C Nl Fl K]. split; cbn; try done.
  eapply chain_ext; [|exact C]. intros q Hq. apply load_ext. intros i Hi. apply W.
  intros p Hp. rewrite !Forall_forall in *. destruct (F p Hp) as [A _], (Fl q Hq) as [A' _].
  assert (p <> q) by (apply NoDup_app in N as (_ & N & _); intros ->; by apply (N q)).
  pose proof (pages_apart p q A A'). unfold PGSIZE in *. lia.
Qed.

Lemma accounts_step x y : kstep x y -> accounts x -> accounts y.
Proof.
  intros [s s' p own E Np|s s' own E|s s' p own1 own2 E|s m own W] A.
  - pose proof (accounts_alloc _ _ _ _ A E) as B. destruct (Z.eqb_spec p 0); tauto.
  - pose proof (accounts_alloc _ _ _ _ A E) as B. cbn in B. by subst.
  - eauto using accounts_free.
  - eauto using accounts_write.
Qed.

Lemma accounts_steps x y : rtc kstep x y -> accounts x -> accounts y.
Proof. induction 1; eauto using accounts_step. Qed.

Lemma accounts_kinit s s' :
  freelist (kmem s) = 0 -> kinit s = Ok tt s' -> accounts (s', []).
Proof.
  intros E R. destruct (kinit_run s E) as (s1 & l & R' & I & _ & T).
  rewrite R in R'. injection R' as <-.
  exists l. split_and!; [done|apply (inv_nodup _ _ I)|constructor|cbn; lia].
Qed.

End Lemmas.

(** ** Properties *)

Section Properties.
Context `{LO : LayoutOk}.

(** At boot [kinit] puts every page of memory between the end of the
    kernel and PHYSTOP on the free list exactly once, and the two page
    counters agree. *)
Theorem kinit_frees_every_page s :
  freelist (kmem s) = 0 ->
  exists s' l, kinit s = Ok tt s' /\ kmem_inv s' l /\
    (forall p, p ∈ l <-> page_ok p) /\
    free_pages (kmem s') = Z.of_nat (length l) /\
    total_pages (kmem s') = Z.of_nat (length l).
Proof.
  intros E. destruct (kinit_run s E) as (s' & l & R & I & P & T).
  exists s', l. pose proof (inv_count _ _ I). split_and!; try done; lia.
Qed.

(** C16: whatever sequence of allocations, frees of owned pages and writes to
    owned pages follows boot, the free list is well formed, no page is both
    free and owned or owned twice, and the page counters the activity monitor
    reads are exact: free pages plus owned pages make the total. *)
Theorem allocator_accounts s0 s1 s own :
  freelist (kmem s0) = 0 -> kinit s0 = Ok tt s1 -> rtc kstep (s1, []) (s, own) ->
  exists l, kmem_inv s l /\ NoDup (own ++ l) /\ Forall page_ok (own ++ l) /\
    free_pages (kmem s) = Z.of_nat (length l) /\
    free_pages (kmem s) + Z.of_nat (length own) = total_pages (kmem s).
Proof.
  intros E R S. pose proof (accounts_steps _ _ S (accounts_kinit _ _ E R)) as (l & I & N & F & T).
  exists l. split_and!; try done; [apply Forall_app; split; [done|apply I]|apply I].
Qed.

(** [kalloc] on a non-empty free list returns its head, a page the caller
    now owns alone, filled with the junk byte 5, and changes no other byte;
    on an empty list it returns 0 and changes nothing. *)
Theorem kalloc_correct s l :
  kmem_inv s l ->
  match l with
  | [] => kalloc s = Ok 0 s
  | p :: l' => exists s', kalloc s = Ok p s' /\ kmem_inv s' l' /\ (p ∉ l') /\
      (forall i, bget (mem s') i = if (p <=? i) && (i <? p + PGSIZE) then 5 else bget (mem s) i)
  end.
Proof.
  destruct l as [|p l]; intros I; [by apply kalloc_nil|].
  eexists. split_and!; [by apply kalloc_cons|by apply kalloc_inv| |intros; apply bget_fill].
  pose proof (inv_nodup _ _ I) as N. by apply NoDup_cons in N as [? _].
Qed.

(** [kfree] accepts exactly the aligned addresses of pages the allocator
    manages and panics on any other; freeing a page that is not on the free
    list pushes it, so the next [kalloc] returns that same page. *)
Theorem kfree_correct s l p :
  kmem_inv s l -> p ∉ l ->
  (~ page_ok p -> kfree p s = Panic "kfree") /\
  (page_ok p -> exists s1 s2, kfree p s = Ok tt s1 /\ kmem_inv s1 (p :: l) /\
     kalloc s1 = Ok p s2 /\ kmem_inv s2 l /\ same_outside p (mem s) (mem s2)).
Proof.
  intros I N. split; [apply kfree_bad|]. intros P.
  pose proof (kfree_inv _ _ _ I P N) as I1.
  do 2 eexists. split_and!; [by apply kfree_run|exact I1|by apply kalloc_cons|by apply kalloc_inv|].
  eapply same_outside_trans; [apply same_outside_kfree|apply same_outside_fill].
Qed.

End Properties.

(** ** Witnesses

    A layout with four free pages at the top of memory. *)

Module KallocWitness.

#[export] Instance lay : Layout := {
  end_ := PHYSTOP - 4 * PGSIZE; etext := KERNBASE + 16 * PGSIZE; trampoline := KERNBASE
}.

#[export] Instance lay_ok : LayoutOk.
Proof. split; vm_compute; intuition congruence. Qed.

Definition boot : phys := mkPhys (mkRam (fun _ => 0)) (mkKmem 0 0 0).
Definition P0 : Z := PHYSTOP - PGSIZE.
Definition one_free : phys := mkPhys (mkRam (fun _ => 0)) (mkKmem P0 1 4).

Lemma one_free_inv : kmem_inv one_free [P0].
Proof.
  split; cbn [chain one_free kmem mem freelist free_pages].
  - split; by vm_compute.
  - repeat constructor; set_solver.
  - repeat constructor; vm_compute; congruence.
  - done.
Qed.

Lemma kinit_frees_every_page_witness :
  exists s' l, kinit boot = Ok tt s' /\ kmem_inv s' l /\
    (forall p, p ∈ l <-> page_ok p) /\
    free_pages (kmem s') = Z.of_nat (length l) /\
    total_pages (kmem s') = Z.of_nat (length l).
Proof. apply (kinit_frees_every_page boot). reflexivity. Defined.

Lemma p0_ok : page_ok P0.
Proof. repeat split; vm_compute; congruence. Qed.

(** After boot a client takes a page and fills it. *)
Lemma allocator_accounts_witness :
  exists s1 s2 p, kinit boot = Ok tt s1 /\ kalloc s1 = Ok p s2 /\
  let s := mkPhys (fill (mem s2) p 7 PGSIZE) (kmem s2) in
  exists l, kmem_inv s l /\ NoDup ([p] ++ l) /\ Forall page_ok ([p] ++ l) /\
    free_pages (kmem s) = Z.of_nat (length l) /\
    free_pages (kmem s) + Z.of_nat (length [p]) = total_pages (kmem s).
Proof.
  destruct (kinit_run boot eq_refl) as (s1 & l & R & I & A & _).
  destruct l as [|p l]; [pose proof (proj2 (A P0) p0_ok) as X; by apply not_elem_of_nil in X|].
  pose proof (kalloc_cons s1 p l I) as Ka. set (s2 := mkPhys _ _) in Ka. exists s1, s2, p. split; [exact R|]. split; [exact Ka|].
  apply (allocator_accounts boot s1 _ [p]); [reflexivity|exact R|].
  eapply rtc_l; [apply (k_alloc s1 s2 p [] Ka), page_ok_nonzero, A, list_elem_of_here|]. apply rtc_once, k_write.
  intros i N. apply bget_fill_ne. apply N, list_elem_of_here.
Defined.

Lemma kalloc_correct_witness :
  exists s', kalloc one_free = Ok P0 s' /\ kmem_inv s' [] /\ (P0 ∉ []) /\
    (forall i, bget (mem s') i = if (P0 <=? i) && (i <? P0 + PGSIZE) then 5 else bget (mem one_free) i).
Proof. apply (kalloc_correct one_free [P0]). apply one_free_inv. Defined.

Lemma kfree_correct_witness :
  exists s1 s2, kfree (P0 - PGSIZE) one_free = Ok tt s1 /\ kmem_inv s1 [P0 - PGSIZE; P0] /\
     kalloc s1 = Ok (P0 - PGSIZE) s2 /\ kmem_inv s2 [P0] /\
     same_outside (P0 - PGSIZE) (mem one_free) (mem s2).
Proof.
  apply (kfree_correct one_free [P0] (P0 - PGSIZE)); [apply one_free_inv| |].
  - apply not_elem_of_cons. split; [by vm_compute|apply not_elem_of_nil].
  - repeat split; vm_compute; congruence.
Defined.

End KallocWitness.
