(* ===== verification/Vm.v ===== *)
(** * kernel/vm.c: page tables and user memory

    The routines run on physical memory and the page allocator ([phys]).  A
    page table is the 512 64-bit words of a page of that memory, so the walk
    reads and writes the same bytes the allocator and the user pages live
    in.  A pointer to a page-table entry is its physical address, 0 for the
    null pointer.  Kernel buffers on the other side of a copy are lists of
    bytes. *)

From Stdlib Require Import ZArith Lia List.
From stdpp Require Import base tactics numbers list gmap sets relations strings.
From S2P Require Import Prelude Riscv Kalloc.

Section Ops.
Context `{Layout}.

(** ** Walking the table *)

(** One iteration of [walk]'s loop per level above 0: the table one level
    down, or nothing when the walk returns 0. *)
Definition walk_next (level : Z) (pagetable va : Z) (alloc : bool) : M phys (option Z) :=
  let pte := pagetable + 8 * PX level va in
  let* v := load64 pte in
  if has v PTE_V then ret (Some (PTE2PA v))
  else if negb alloc then ret None
  else
    let* p := kalloc in
    if p =? 0 then ret None
    else
      do memset_page p 0 ;;;
      do store64 pte (Z.lor (PA2PTE p) PTE_V) ;;;
      ret (Some p).

Fixpoint walk_loop (level : nat) (pagetable va : Z) (alloc : bool) : M phys Z :=
  match level with
  | O => ret (pagetable + 8 * PX 0 va)
  | S level' =>
    let* next := walk_next (Z.of_nat level) pagetable va alloc in
    match next with
    | None => ret 0
    | Some q => walk_loop level' q va alloc
    end
  end.

Definition walk (pagetable va : Z) (alloc : bool) : M phys Z :=
  if MAXVA <=? va then panic "walk" else walk_loop 2 pagetable va alloc.

Definition walkaddr (pagetable va : Z) : M phys Z :=
  if MAXVA <=? va then ret 0
  else
    let* pte := walk pagetable va false in
    if pte =? 0 then ret 0
    else
      let* v := load64 pte in
      if negb (has v PTE_V) then ret 0
      else if negb (has v PTE_U) then ret 0
      else ret (PTE2PA v).

(** ** Mapping and unmapping *)

Fixpoint mappages_loop (fuel : nat) (pagetable a last pa perm : Z) : M phys Z :=
  match fuel with
  | O => panic "mappages: fuel"
  | S fuel' =>
    let* pte := walk pagetable a true in
    if pte =? 0 then ret (-1)
    else
      let* v := load64 pte in
      if has v PTE_V then panic "mappages: remap"
      else
        do store64 pte (Z.lor (Z.lor (PA2PTE pa) perm) PTE_V) ;;;
        if a =? last then ret 0
        else mappages_loop fuel' pagetable (u64 (a + PGSIZE)) last (u64 (pa + PGSIZE)) perm
  end.

Definition mappages (pagetable va size pa perm : Z) : M phys Z :=
  if negb (va mod PGSIZE =? 0) then panic "mappages: va not aligned"
  else if negb (size mod PGSIZE =? 0) then panic "mappages: size not aligned"
  else if size =? 0 then panic "mappages: size"
  else mappages_loop (Z.to_nat (size / PGSIZE)) pagetable va (u64 (va + size - PGSIZE)) pa perm.

Definition kvmmap (kpgtbl va pa sz perm : Z) : M phys unit :=
  let* r := mappages kpgtbl va sz pa perm in
  if negb (r =? 0) then panic "kvmmap" else ret tt.

(** The body of [uvmunmap]'s loop: pages that were never allocated (no table,
    or an invalid entry) are skipped. *)
Definition uvmunmap_page (pagetable a : Z) (do_free : bool) : M phys unit :=
  let* pte := walk pagetable a false in
  if pte =? 0 then ret tt
  else
    let* v := load64 pte in
    if negb (has v PTE_V) then ret tt
    else if PTE_FLAGS v =? PTE_V then panic "uvmunmap: not a leaf"
    else
      do (if do_free then kfree (PTE2PA v) else ret tt) ;;;
      store64 pte 0.

Fixpoint uvmunmap_loop (fuel : nat) (pagetable a stop : Z) (do_free : bool) : M phys unit :=
  match fuel with
  | O => ret tt
  | S fuel' =>
    if a <? stop
    then do uvmunmap_page pagetable a do_free ;;;
         uvmunmap_loop fuel' pagetable (u64 (a + PGSIZE)) stop do_free
    else ret tt
  end.

Definition uvmunmap (pagetable va npages : Z) (do_free : bool) : M phys unit :=
  if negb (va mod PGSIZE =? 0) then panic "uvmunmap: not aligned"
  else uvmunmap_loop (Z.to_nat npages) pagetable va (u64 (va + u64 (npages * PGSIZE))) do_free.

(** ** User address spaces *)

Definition uvmcreate : M phys Z :=
  let* pagetable := kalloc in
  if pagetable =? 0 then ret 0
  else do memset_page pagetable 0 ;;; ret pagetable.

Definition uvmfirst (pagetable : Z) (src : list Z) (sz : Z) : M phys unit :=
  if PGSIZE <=? sz then panic "uvmfirst: more than a page"
  else
    let* m := kalloc in
    do memset_page m 0 ;;;
    do mappages pagetable 0 PGSIZE m (Z.lor (Z.lor (Z.lor PTE_W PTE_R) PTE_X) PTE_U) ;;;
    modify (set_mem (fun r => write_bytes r m (take (Z.to_nat sz) src))).

Definition uvmdealloc (pagetable oldsz newsz : Z) : M phys Z :=
  if oldsz <=? newsz then ret oldsz
  else
    do (if PGROUNDUP newsz <? PGROUNDUP oldsz
        then
          let npages := i32 ((PGROUNDUP oldsz - PGROUNDUP newsz) / PGSIZE) in
          uvmunmap pagetable (PGROUNDUP newsz) (u64 npages) true
        else ret tt) ;;;
    ret newsz.

Fixpoint uvmalloc_loop (fuel : nat) (pagetable a oldsz newsz xperm : Z) : M phys Z :=
  match fuel with
  | O => panic "uvmalloc: fuel"
  | S fuel' =>
    if a <? newsz
    then
      let* m := kalloc in
      if m =? 0 then do uvmdealloc pagetable a oldsz ;;; ret 0
      else
        do memset_page m 0 ;;;
        let* r := mappages pagetable a PGSIZE m (Z.lor (Z.lor PTE_R PTE_U) xperm) in
        if negb (r =? 0)
        then do kfree m ;;; do uvmdealloc pagetable a oldsz ;;; ret 0
        else uvmalloc_loop fuel' pagetable (u64 (a + PGSIZE)) oldsz newsz xperm
    else ret newsz
  end.

Definition uvmalloc (pagetable oldsz newsz xperm : Z) : M phys Z :=
  if newsz <? oldsz then ret oldsz
  else
    let oldsz := PGROUNDUP oldsz in
    uvmalloc_loop (Z.to_nat ((newsz - oldsz) / PGSIZE + 2)) pagetable oldsz oldsz newsz xperm.

(** [freewalk] calls itself on the tables below; [depth] bounds the nesting
    (three levels in an Sv39 table). *)
Fixpoint freewalk (depth : nat) (pagetable : Z) : M phys unit :=
  match depth with
  | O => panic "freewalk: depth"
  | S depth' =>
    let fix entries (k : nat) (i : Z) : M phys unit :=
      match k with
      | O => ret tt
      | S k' =>
        let* pte := load64 (pagetable + 8 * i) in
        if has pte PTE_V && negb (has pte (Z.lor (Z.lor PTE_R PTE_W) PTE_X))
        then
          do freewalk depth' (PTE2PA pte) ;;;
          do store64 (pagetable + 8 * i) 0 ;;;
          entries k' (i + 1)
        else if has pte PTE_V then panic "freewalk: leaf"
        else entries k' (i + 1)
      end in
    do entries 512%nat 0 ;;;
    kfree pagetable
  end.

Definition uvmfree (pagetable sz : Z) : M phys unit :=
  do (if 0 <? sz then uvmunmap pagetable 0 (PGROUNDUP sz / PGSIZE) true else ret tt) ;;;
  freewalk 3 pagetable.

(** [copy_page dst src] is a [memmove] of one page. *)
Definition copy_page (dst src : Z) : M phys unit := modify (set_mem (fun m => copy m dst src PGSIZE)).

Definition uvmcopy_err (new i : Z) : M phys Z :=
  do uvmunmap new 0 (i / PGSIZE) true ;;; ret (-1).

Fixpoint uvmcopy_loop (fuel : nat) (old new i sz : Z) : M phys Z :=
  match fuel with
  | O => panic "uvmcopy: fuel"
  | S fuel' =>
    if i <? sz
    then
      let* pte := walk old i false in
      if pte =? 0 then panic "uvmcopy: pte should exist"
      else
        let* v := load64 pte in
        if negb (has v PTE_V) then panic "uvmcopy: page not present"
        else
          let* m := kalloc in
          if m =? 0 then uvmcopy_err new i
          else
            do copy_page m (PTE2PA v) ;;;
            let* r := mappages new i PGSIZE m (PTE_FLAGS v) in
            if negb (r =? 0) then do kfree m ;;; uvmcopy_err new i
            else uvmcopy_loop fuel' old new (u64 (i + PGSIZE)) sz
    else ret 0
  end.

Definition uvmcopy (old new sz : Z) : M phys Z :=
  uvmcopy_loop (Z.to_nat (sz / PGSIZE + 2)) old new 0 sz.

Definition uvmclear (pagetable va : Z) : M phys unit :=
  let* pte := walk pagetable va false in
  if pte =? 0 then panic "uvmclear"
  else
    let* v := load64 pte in
    store64 pte (Z.land v (Z.lnot PTE_U)).

(** ** Copies between kernel and user memory

    Every iteration but the first starts at a page boundary, so
    [len / PGSIZE + 3] iterations always suffice. *)

Fixpoint copyout_loop (fuel : nat) (pagetable dstva : Z) (src : list Z) (len : Z) : M phys Z :=
  match fuel with
  | O => panic "copyout: fuel"
  | S fuel' =>
    if 0 <? len
    then
      let va0 := PGROUNDDOWN dstva in
      if MAXVA <=? va0 then ret (-1)
      else
        let* pte := walk pagetable va0 false in
        if pte =? 0 then ret (-1)
        else
          let* v := load64 pte in
          if negb (has v PTE_V) || negb (has v PTE_U) || negb (has v PTE_W) then ret (-1)
          else
            let pa0 := PTE2PA v in
            let n := Z.min (PGSIZE - (dstva - va0)) len in
            do modify (set_mem (fun m => write_bytes m (pa0 + (dstva - va0)) (take (Z.to_nat n) src))) ;;;
            copyout_loop fuel' pagetable (u64 (va0 + PGSIZE)) (drop (Z.to_nat n) src) (len - n)
    else ret 0
  end.

Definition copyout (pagetable dstva : Z) (src : list Z) (len : Z) : M phys Z :=
  copyout_loop (Z.to_nat (len / PGSIZE + 3)) pagetable dstva src len.

(** [copyin] returns its result and the bytes it stored at [dst]. *)
Fixpoint copyin_loop (fuel : nat) (pagetable : Z) (dst : list Z) (srcva len : Z) : M phys (Z * list Z) :=
  match fuel with
  | O => panic "copyin: fuel"
  | S fuel' =>
    if 0 <? len
    then
      let va0 := PGROUNDDOWN srcva in
      let* pa0 := walkaddr pagetable va0 in
      if pa0 =? 0 then ret (-1, dst)
      else
        let n := Z.min (PGSIZE - (srcva - va0)) len in
        let* b := gets (fun s => read_bytes (mem s) (pa0 + (srcva - va0)) n) in
        copyin_loop fuel' pagetable (dst ++ b) (u64 (va0 + PGSIZE)) (len - n)
    else ret (0, dst)
  end.

Definition copyin (pagetable srcva len : Z) : M phys (Z * list Z) :=
  copyin_loop (Z.to_nat (len / PGSIZE + 3)) pagetable [] srcva len.

(** The inner loop of [copyinstr]: the bytes of one page up to the
    terminator, and whether the terminator was met. *)
Fixpoint scan_nul (l : list Z) : list Z * bool :=
  match l with
  | [] => ([], false)
  | c :: l' =>
    if c =? 0 then ([0], true)
    else let '(r, b) := scan_nul l' in (c :: r, b)
  end.

Fixpoint copyinstr_loop (fuel : nat) (pagetable : Z) (dst : list Z) (srcva max : Z) : M phys (Z * list Z) :=
  match fuel with
  | O => panic "copyinstr: fuel"
  | S fuel' =>
    if 0 <? max
    then
      let va0 := PGROUNDDOWN srcva in
      let* pa0 := walkaddr pagetable va0 in
      if pa0 =? 0 then ret (-1, dst)
      else
        let n := Z.min (PGSIZE - (srcva - va0)) max in
        let* b := gets (fun s => read_bytes (mem s) (pa0 + (srcva - va0)) n) in
        let '(r, got_null) := scan_nul b in
        if (got_null : bool) then ret (0, dst ++ r)
        else copyinstr_loop fuel' pagetable (dst ++ r) (u64 (va0 + PGSIZE)) (max - n)
    else ret (-1, dst)
  end.

Definition copyinstr (pagetable srcva max : Z) : M phys (Z * list Z) :=
  copyinstr_loop (Z.to_nat (max / PGSIZE + 3)) pagetable [] srcva max.

(** ** Lazy allocation *)

Definition lazy_alloc (pagetable va : Z) : M phys Z :=
  let a := PGROUNDDOWN va in
  let* w := walkaddr pagetable a in
  if negb (w =? 0) then ret 0
  else
    let* m := kalloc in
    if m =? 0 then ret (-1)
    else
      do memset_page m 0 ;;;
      let* r := mappages pagetable a PGSIZE m (Z.lor (Z.lor PTE_R PTE_W) PTE_U) in
      if negb (r =? 0) then do kfree m ;;; ret (-1)
      else ret 0.

(** ** The kernel's own table *)

(** proc.c's [proc_mapstacks]: one page and one guard page per process. *)
Fixpoint proc_mapstacks_loop (k : nat) (i kpgtbl : Z) : M phys unit :=
  match k with
  | O => ret tt
  | S k' =>
    let* pa := kalloc in
    if pa =? 0 then panic "kalloc"
    else
      do kvmmap kpgtbl (KSTACK i) pa PGSIZE (Z.lor PTE_R PTE_W) ;;;
      proc_mapstacks_loop k' (i + 1) kpgtbl
  end.

Definition proc_mapstacks (kpgtbl : Z) : M phys unit := proc_mapstacks_loop (Z.to_nat NPROC) 0 kpgtbl.

Definition kvmmake : M phys Z :=
  let* kpgtbl := kalloc in
  do memset_page kpgtbl 0 ;;;
  do kvmmap kpgtbl UART0 UART0 PGSIZE (Z.lor PTE_R PTE_W) ;;;
  do kvmmap kpgtbl VIRTIO0 VIRTIO0 PGSIZE (Z.lor PTE_R PTE_W) ;;;
  do kvmmap kpgtbl PLIC PLIC 0x400000 (Z.lor PTE_R PTE_W) ;;;
  do kvmmap kpgtbl KERNBASE KERNBASE (etext - KERNBASE) (Z.lor PTE_R PTE_X) ;;;
  do kvmmap kpgtbl etext etext (PHYSTOP - etext) (Z.lor PTE_R PTE_W) ;;;
  do kvmmap kpgtbl TRAMPOLINE trampoline PGSIZE (Z.lor PTE_R PTE_X) ;;;
  do proc_mapstacks kpgtbl ;;;
  ret kpgtbl.

End Ops.
