(* ===== verification/VmFacts.v ===== *)
(** * Correctness of the page-table code

    The abstract state of a page table is the finite map [T] from index paths
    to the pages that hold its tables: the root at the empty path, a level-1
    table at a path of length one, a level-0 table at a path of length two.
    [pt_ok] says that the words in memory encode exactly that tree; [vm_inv]
    adds that its pages are not on the allocator's free list.  [pte_of] is the
    entry the hardware would use for a virtual address. *)

From Stdlib Require Import ZArith Lia List.
From stdpp Require Import base tactics numbers list gmap sets relations strings.
From S2P Require Import Prelude Riscv Kalloc Vm.

(** ** Abstraction *)

Section Inv.
Context `{Layout}.

Record pt_ok (m : ram) (root : Z) (T : gmap (list Z) Z) : Prop := {
  pt_root : T !! [] = Some root;
  pt_page : forall p pg, T !! p = Some pg -> page_ok pg;
  pt_inj : forall p q pg, T !! p = Some pg -> T !! q = Some pg -> p = q;
  pt_closed : forall p i pg, T !! (p ++ [i]) = Some pg -> is_Some (T !! p);
  pt_depth : forall p pg, T !! p = Some pg -> (length p <= 2)%nat;
  pt_entry : forall p pg i,
    T !! p = Some pg -> (length p < 2)%nat -> 0 <= i < 512 ->
    match T !! (p ++ [i]) with
    | Some q => load 8 m (pg + 8 * i) = Z.lor (PA2PTE q) PTE_V
    | None => has (load 8 m (pg + 8 * i)) PTE_V = false
    end
}.

Record vm_inv (s : phys) (root : Z) (T : gmap (list Z) Z) (l : list Z) : Prop := {
  vm_kmem : kmem_inv s l;
  vm_pt : pt_ok (mem s) root T;
  vm_sep : forall p pg, T !! p = Some pg -> pg ∉ l
}.

(** The address of the level-0 entry for [va], if its table exists. *)
Definition pte_addr (T : gmap (list Z) Z) (va : Z) : option Z :=
  match T !! [PX 2 va; PX 1 va] with
  | Some pg => Some (pg + 8 * PX 0 va)
  | None => None
  end.

(** The entry itself; an address without a table has the empty entry. *)
Definition pte_of (m : ram) (T : gmap (list Z) Z) (va : Z) : Z :=
  match pte_addr T va with
  | Some a => load 8 m a
  | None => 0
  end.

(** [i] is a byte of a page table or of a free page. *)
Definition owned (T : gmap (list Z) Z) (l : list Z) (i : Z) : Prop :=
  exists q, (q ∈ l \/ exists p, T !! p = Some q) /\ q <= i < q + PGSIZE.

End Inv.

(** ** Words in pages *)

Section Words.
Context `{LO : LayoutOk}.
Implicit Types (m : ram) (T : gmap (list Z) Z) (s : phys).

Lemma page_ok_pa q : page_ok q -> 0 <= q < 2 ^ 56 /\ q mod PGSIZE = 0.
Proof.
  intros P. split; [|apply P]. apply page_ok_bounds in P.
  unfold PHYSTOP, KERNBASE, PGSIZE in P. lia.
Qed.

Lemma table_entry q :
  page_ok q ->
  has (Z.lor (PA2PTE q) PTE_V) PTE_V = true /\ PTE2PA (Z.lor (PA2PTE q) PTE_V) = q /\
  0 <= Z.lor (PA2PTE q) PTE_V < 2 ^ 64.
Proof.
  intros [R A]%page_ok_pa. assert (0 <= PTE_V < 1024) by (change PTE_V with 1; lia).
  rewrite has_make, PTE2PA_make by done. split; [done|split; [done|by apply pte_make_range]].
Qed.

(** A store to one word of a page does not change another word. *)
Lemma load_store_word m a b i j v :
  a mod PGSIZE = 0 -> b mod PGSIZE = 0 -> 0 <= i < 512 -> 0 <= j < 512 ->
  a <> b \/ i <> j ->
  load 8 (store 8 m (a + 8 * i) v) (b + 8 * j) = load 8 m (b + 8 * j).
Proof.
  intros A A' Hi Hj N. apply load_store_ne.
  destruct (Z.eq_dec a b) as [->|Nab]; [lia|].
  pose proof (pages_apart a b A A' Nab). unfold PGSIZE in *. lia.
Qed.

Lemma load_store_word_eq m a v : 0 <= v < 2 ^ 64 -> load 8 (store 8 m a v) a = v.
Proof. intros. rewrite load_store_eq by done. apply Z.mod_small. cbn. lia. Qed.

Lemma load_fill_word m a b c j :
  a mod PGSIZE = 0 -> b mod PGSIZE = 0 -> 0 <= j < 512 -> a <> b ->
  load 8 (fill m a c PGSIZE) (b + 8 * j) = load 8 m (b + 8 * j).
Proof.
  intros A A' Hj N. apply load_fill_ne.
  pose proof (pages_apart a b A A' N). unfold PGSIZE in *. lia.
Qed.

Lemma load_fill_word_0 m a j : 0 <= j < 512 -> load 8 (fill m a 0 PGSIZE) (a + 8 * j) = 0.
Proof. intros. apply load_fill_0; unfold PGSIZE; lia. Qed.

Lemma page_aligned m root T p pg : pt_ok m root T -> T !! p = Some pg -> pg mod PGSIZE = 0.
Proof. intros I E. apply (pt_page _ _ _ I _ _ E). Qed.

(** ** The tree with one more table *)

Section Grow.
Context (m : ram) (root : Z) (T : gmap (list Z) Z) (I : pt_ok m root T).
Context (p : list Z) (pg i q : Z).
Context (Ep : T !! p = Some pg) (Lp : (length p < 2)%nat) (Hi : 0 <= i < 512).
Context (En : T !! (p ++ [i]) = None).
Context (Pq : page_ok q) (Fq : forall p', T !! p' <> Some q).

(** Memory after a table was taken from page [q], cleared, and linked. *)
Let m' : ram := store 8 (fill (fill m q 5 PGSIZE) q 0 PGSIZE) (pg + 8 * i) (Z.lor (PA2PTE q) PTE_V).
Let T' : gmap (list Z) Z := <[p ++ [i] := q]> T.

Lemma grow_other p1 pg1 j :
  T !! p1 = Some pg1 -> 0 <= j < 512 -> p1 <> p \/ j <> i ->
  load 8 m' (pg1 + 8 * j) = load 8 m (pg1 + 8 * j).
Proof.
  intros E1 Hj N. pose proof (page_aligned _ _ _ _ _ I E1). pose proof (page_aligned _ _ _ _ _ I Ep).
  assert (q <> pg1) by (intros ->; by apply (Fq p1)).
  assert (pg <> pg1 \/ i <> j).
  { destruct (Z.eq_dec pg pg1) as [<-|]; [|tauto]. right.
    pose proof (pt_inj _ _ _ I _ _ _ Ep E1). destruct N; congruence. }
  subst m'. rewrite load_store_word by done.
  rewrite !load_fill_word by (done || apply Pq). done.
Qed.

Lemma grow_new j : 0 <= j < 512 -> load 8 m' (q + 8 * j) = 0.
Proof.
  intros Hj. pose proof (page_aligned _ _ _ _ _ I Ep).
  assert (pg <> q) by (intros ->; by apply (Fq p)).
  subst m'. rewrite load_store_word by (tauto || apply Pq). by apply load_fill_word_0.
Qed.

Lemma grow_link : load 8 m' (pg + 8 * i) = Z.lor (PA2PTE q) PTE_V.
Proof. apply load_store_word_eq. by apply table_entry. Qed.

Lemma grow_pt_ok : pt_ok m' root T'.
Proof.
  subst T'. destruct I as [R P J C D N]. split.
  - rewrite lookup_insert_ne; [done|]. by destruct p.
  - intros p1 pg1 [[_ <-]|[_ E]]%lookup_insert_Some; eauto.
  - intros p1 p2 pg1 [[<- <-]|[_ E1]]%lookup_insert_Some [[<- E2]|[_ E2]]%lookup_insert_Some;
      simplify_eq; try done; [by destruct (Fq p2)|by destruct (Fq p1)|eauto].
  - intros p1 j pg1 [[E _]|[_ E]]%lookup_insert_Some; apply lookup_insert_is_Some'.
    + apply app_inj_tail in E as [-> _]. right. eauto.
    + right. eauto.
  - intros p1 pg1 [[<- _]|[_ E]]%lookup_insert_Some; [rewrite length_app; cbn; lia|eauto].
  - intros p1 pg1 j [[<- <-]|[Np E]]%lookup_insert_Some L Hj.
    + rewrite lookup_insert_ne.
      2:{ intros Hx%(f_equal length). rewrite !length_app in Hx. cbn in Hx. lia. }
      destruct (T !! ((p ++ [i]) ++ [j])) eqn:E.
      { apply C in E as [x E]. congruence. }
      rewrite grow_new by done. apply has_0.
    + destruct (decide (p1 ++ [j] = p ++ [i])) as [Q|Q].
      * rewrite Q, lookup_insert_eq. apply app_inj_tail in Q as [-> ->].
        assert (pg1 = pg) as -> by congruence. apply grow_link.
      * rewrite lookup_insert_ne by done. specialize (N _ _ j E L Hj).
        rewrite (grow_other p1) by (done || (destruct (decide (p1 = p)); [right|left]; congruence)).
        done.
Qed.

Lemma grow_pte_of va : pte_of m' T' va = pte_of m T va.
Proof.
  unfold pte_of, pte_addr. subst T'.
  destruct (decide (p ++ [i] = [PX 2 va; PX 1 va])) as [E|E].
  - rewrite <- E, lookup_insert_eq, En. apply grow_new. apply PX_range. lia.
  - rewrite lookup_insert_ne by done. destruct (T !! [PX 2 va; PX 1 va]) as [pg1|] eqn:E1; [|done].
    apply (grow_other _ _ _ E1); [apply PX_range; lia|]. left. intros <-. cbn in Lp. lia.
Qed.
End Grow.

(** ** walk *)

Lemma walk_next_found s root T p pg level va alloc q :
  pt_ok (mem s) root T -> T !! p = Some pg -> (length p < 2)%nat -> 0 <= level ->
  T !! (p ++ [PX level va]) = Some q ->
  walk_next level pg va alloc s = Ok (Some q) s.
Proof.
  intros I E L Hl Eq. pose proof (pt_entry _ _ _ I _ _ (PX level va) E L (PX_range _ _ Hl)) as N.
  rewrite Eq in N. unfold walk_next. mrun. rewrite N.
  destruct (table_entry q (pt_page _ _ _ I _ _ Eq)) as (-> & -> & _). done.
Qed.

Lemma walk_next_missing s root T p pg level va :
  pt_ok (mem s) root T -> T !! p = Some pg -> (length p < 2)%nat -> 0 <= level ->
  T !! (p ++ [PX level va]) = None ->
  walk_next level pg va false s = Ok None s.
Proof.
  intros I E L Hl Eq. pose proof (pt_entry _ _ _ I _ _ (PX level va) E L (PX_range _ _ Hl)) as N.
  rewrite Eq in N. unfold walk_next. mrun. by rewrite N.
Qed.

(** What the mapping code keeps: the tree only grows, table and free pages
    stay apart, and nothing outside them is written.  [l] and [l'] are the
    free pages before and after. *)
Record extends (s : phys) (T : gmap (list Z) Z) (l : list Z)
               (s' : phys) (root : Z) (T' : gmap (list Z) Z) (l' : list Z) : Prop := {
  ex_inv : vm_inv s' root T' l';
  ex_sub : T ⊆ T';
  ex_free : exists taken, l = taken ++ l' /\ forall p q, T' !! p = Some q -> T !! p = Some q \/ q ∈ taken;
  ex_frame : forall i, ~ owned T l i -> bget (mem s') i = bget (mem s) i;
  ex_total : total_pages (kmem s') = total_pages (kmem s)
}.

Definition same_ptes (s : phys) (T : gmap (list Z) Z) (s' : phys) (T' : gmap (list Z) Z) : Prop :=
  forall va, pte_of (mem s') T' va = pte_of (mem s) T va.

Lemma extends_refl s root T l : vm_inv s root T l -> extends s T l s root T l.
Proof. intros I. split; try done. exists []. eauto. Qed.

Lemma extends_trans s1 T1 l1 s2 root T2 l2 s3 T3 l3 :
  extends s1 T1 l1 s2 root T2 l2 -> extends s2 T2 l2 s3 root T3 l3 -> extends s1 T1 l1 s3 root T3 l3.
Proof.
  intros [I1 S1 (t1 & F1 & N1) W1 Y1] [I2 S2 (t2 & F2 & N2) W2 Y2]. split.
  - done.
  - by etrans.
  - exists (t1 ++ t2). split; [by rewrite F1, F2, app_assoc|].
    intros p q [E|E]%N2; [apply N1 in E as [|]; [by left|right]|right]; set_solver.
  - intros i O. rewrite W2, W1; try done.
    intros (q & [Q|[p Q]] & R); apply O; exists q; split; try done.
    + left. set_solver.
    + apply N1 in Q as [Q|Q]; [right; by exists p|left; set_solver].
  - congruence.
Qed.

Lemma walk_next_grow s root T l p pg level va :
  vm_inv s root T l -> T !! p = Some pg -> (length p < 2)%nat -> 0 <= level ->
  exists q s' T' l', walk_next level pg va true s = Ok q s' /\ extends s T l s' root T' l' /\ same_ptes s T s' T' /\
    (q = None /\ l' = [] \/ q <> None /\ T' !! (p ++ [PX level va]) = q) /\ (length l <= 1 + length l')%nat.
Proof.
  intros I E L Hl. destruct (T !! (p ++ [PX level va])) as [q|] eqn:Eq.
  { exists (Some q), s, T, l. split_and!; [|by apply extends_refl|done|by right|lia].
    eapply walk_next_found; eauto. apply I. }
  pose proof (pt_entry _ _ _ (vm_pt _ _ _ _ I) _ _ (PX level va) E L (PX_range _ _ Hl)) as N.
  rewrite Eq in N. destruct l as [|q l].
  { exists None, s, T, []. split_and!; [|by apply extends_refl|done|by left|done || lia].
    unfold walk_next. mrun. rewrite N. mrun. by rewrite kalloc_nil by apply I. }
  pose proof (vm_kmem _ _ _ _ I) as K. pose proof (inv_ok _ _ K) as Fq.
  apply Forall_cons in Fq as [Pq _].
  assert (Sq : forall p', T !! p' <> Some q).
  { intros p' E'. apply (vm_sep _ _ _ _ I) in E'. set_solver. }
  assert (Al : pg mod PGSIZE = 0) by (eapply page_aligned; eauto; apply I).
  set (i := PX level va) in *. assert (Hi : 0 <= i < 512) by (by apply PX_range).
  assert (Nq : (q =? 0) = false) by (apply Z.eqb_neq; by apply page_ok_nonzero).
  do 2 eexists. exists (<[p ++ [i] := q]> T), l. split_and!.
  - unfold walk_next. mrun. fold i. rewrite N. mrun. rewrite (kalloc_cons s q l) by done. mrun.
    rewrite Nq. mrun. reflexivity.
  - split; cbn.
    + split; cbn.
      * apply (kmem_inv_outside (mkPhys (fill (fill (mem s) q 5 PGSIZE) q 0 PGSIZE) _) l pg).
        -- apply (kmem_inv_outside (mkPhys (fill (mem s) q 5 PGSIZE) _) l q);
             [by apply kalloc_inv|apply Pq| |apply same_outside_fill].
           pose proof (inv_nodup _ _ K) as Nd. by apply NoDup_cons in Nd as [? _].
        -- done.
        -- intros Hpg. apply (vm_sep _ _ _ _ I _ _ E). set_solver.
        -- apply same_outside_store; unfold PGSIZE; lia.
      * apply (grow_pt_ok _ _ _ (vm_pt _ _ _ _ I)) with (pg := pg); try done.
      * intros p1 pg1 [[_ <-]|[_ E1]]%lookup_insert_Some.
        -- pose proof (inv_nodup _ _ K) as Nd. by apply NoDup_cons in Nd as [? _].
        -- apply (vm_sep _ _ _ _ I) in E1. set_solver.
    + by apply insert_subseteq.
    + exists [q]. split; [done|]. intros p1 q1 [[_ <-]|[_ E1]]%lookup_insert_Some; [right; set_solver|by left].
    + intros j O. rewrite bget_store_ne, !bget_fill_ne; [done|..].
      * intros R. apply O. exists q. split; [left; set_solver|done].
      * intros R. apply O. exists q. split; [left; set_solver|done].
      * intros R. apply O. exists pg. split; [right; eauto|unfold PGSIZE; lia].
    + done.
  - intros va'. by apply (grow_pte_of _ root _ (vm_pt _ _ _ _ I)).
  - right. split; [done|apply lookup_insert_eq].
  - cbn. lia.
Qed.

Lemma walk_false s root T l va :
  vm_inv s root T l -> 0 <= va < MAXVA ->
  walk root va false s = Ok (match pte_addr T va with Some a => a | None => 0 end) s.
Proof.
  intros I Hva. pose proof (vm_pt _ _ _ _ I) as P. unfold walk.
  destruct (Z.leb_spec MAXVA va); [lia|]. cbn [walk_loop]. unfold bind, pte_addr.
  pose proof (pt_root _ _ _ P) as R.
  destruct (T !! [PX 2 va]) as [q1|] eqn:E1.
  2:{ rewrite (walk_next_missing s root T [] root) by (done || cbn; lia). cbn.
      destruct (T !! [PX 2 va; PX 1 va]) eqn:E0; [|done].
      apply (pt_closed _ _ _ P [PX 2 va]) in E0 as [? ?]. congruence. }
  rewrite (walk_next_found s root T [] root _ _ _ q1) by (done || cbn; lia).
  destruct (T !! [PX 2 va; PX 1 va]) as [q0|] eqn:E0.
  - by rewrite (walk_next_found s root T [PX 2 va] q1 _ _ _ q0) by (done || cbn; lia).
  - by rewrite (walk_next_missing s root T [PX 2 va] q1) by (done || cbn; lia).
Qed.

Lemma walk_true s root T l va :
  vm_inv s root T l -> 0 <= va < MAXVA ->
  exists a s' T' l', walk root va true s = Ok a s' /\ extends s T l s' root T' l' /\ same_ptes s T s' T' /\
    (a = 0 /\ l' = [] \/ a <> 0 /\ pte_addr T' va = Some a) /\ (length l <= 2 + length l')%nat.
Proof.
  intros I Hva. unfold walk. destruct (Z.leb_spec MAXVA va); [lia|]. cbn [walk_loop]. unfold bind.
  change (Z.of_nat 2) with 2. change (Z.of_nat 1) with 1.
  destruct (walk_next_grow s root T l [] root 2 va) as (q1 & s1 & T1 & l1 & -> & G1 & S1 & C1 & N1');
    [done|apply (vm_pt _ _ _ _ I)|cbn; lia..|].
  destruct q1 as [q1|]; [|exists 0, s1, T1, l1; split_and!; [done..| |lia]; destruct C1 as [[_ ?]|[]]; [by left|done]].
  destruct C1 as [[? _]|[_ E1]]; [done|].
  destruct (walk_next_grow s1 root T1 l1 [PX 2 va] q1 1 va) as (q0 & s2 & T2 & l2 & -> & G2 & S2 & C2 & N2');
    [apply G1|done|cbn; lia..|].
  pose proof (extends_trans _ _ _ _ _ _ _ _ _ _ G1 G2) as G.
  assert (SS : same_ptes s T s2 T2) by (intros x; by rewrite S2).
  destruct q0 as [q0|]; [|exists 0, s2, T2, l2; split_and!; [done..| |lia]; destruct C2 as [[_ ?]|[]]; [by left|done]].
  destruct C2 as [[? _]|[_ E0]]; [done|]. cbn in E0.
  do 4 eexists. split_and!; [reflexivity|exact G|exact SS| |lia]. right.
  unfold pte_addr. rewrite E0. split; [|done].
  pose proof (page_ok_bounds _ (pt_page _ _ _ (vm_pt _ _ _ _ (ex_inv _ _ _ _ _ _ _ G2)) _ _ E0)) as B.
  pose proof (PX_range 0 va). unfold KERNBASE in B. lia.
Qed.

(** ** Leaf entries *)

Lemma pte_addr_page T va va' : va / 4096 = va' / 4096 -> pte_addr T va = pte_addr T va'.
Proof.
  intros E. unfold pte_addr.
  rewrite (PX_page 2 va va'), (PX_page 1 va va'), (PX_page 0 va va') by (done || lia). done.
Qed.

Lemma pte_of_page m T va va' : va / 4096 = va' / 4096 -> pte_of m T va = pte_of m T va'.
Proof. intros E. unfold pte_of. by rewrite (pte_addr_page T va va'). Qed.

Lemma MAXVA_39 va : 0 <= va < MAXVA -> 0 <= va < 2 ^ 39.
Proof. change MAXVA with (2 ^ 38). lia. Qed.

(** The state after a store to a level-0 entry. *)
Definition with_mem (s : phys) (m : ram) : phys := mkPhys m (kmem s).

Lemma set_pte s root T l va a v :
  vm_inv s root T l -> 0 <= va < MAXVA -> pte_addr T va = Some a -> 0 <= v < 2 ^ 64 ->
  extends s T l (with_mem s (store 8 (mem s) a v)) root T l /\
  pte_of (store 8 (mem s) a v) T va = v /\
  (forall va', 0 <= va' < MAXVA -> va' / 4096 <> va / 4096 ->
     pte_of (store 8 (mem s) a v) T va' = pte_of (mem s) T va').
Proof.
  intros I Hva E Hv. unfold pte_addr in E.
  destruct (T !! [PX 2 va; PX 1 va]) as [pg|] eqn:Epg; [|done]. injection E as <-.
  pose proof (vm_pt _ _ _ _ I) as P. pose proof (page_aligned _ _ _ _ _ P Epg) as Al.
  assert (Hi : 0 <= PX 0 va < 512) by (apply PX_range; lia).
  split; [|split].
  - split; try done.
    + split; cbn.
      * apply (kmem_inv_outside _ _ pg); [apply I|done|by apply (vm_sep _ _ _ _ I _ _ Epg)|].
        apply same_outside_store; unfold PGSIZE; lia.
      * destruct P as [R Pg J C D N]. split; try done.
        intros p pg1 j E1 L Hj. specialize (N p pg1 j E1 L Hj).
        rewrite load_store_word; [done|done|by apply (Pg _ _ E1)|done..|].
        left. intros ->. specialize (J _ _ _ Epg E1) as <-. cbn in L. lia.
      * apply I.
    + exists []. eauto.
    + intros i O. apply bget_store_ne. intros R. apply O. exists pg.
      split; [right; eauto|unfold PGSIZE; lia].
  - unfold pte_of, pte_addr. rewrite Epg. by apply load_store_word_eq.
  - intros va' Hva' Npage. unfold pte_of, pte_addr.
    destruct (T !! [PX 2 va'; PX 1 va']) as [pg'|] eqn:E'; [|done].
    pose proof (page_aligned _ _ _ _ _ P E').
    apply load_store_word; try done; [apply PX_range; lia|].
    destruct (Z.eq_dec pg pg') as [<-|]; [|by left]. right. intros X0.
    pose proof (pt_inj _ _ _ P _ _ _ Epg E') as [= X2 X1].
    apply Npage. apply PX_page_inj; auto using MAXVA_39.
Qed.

(** ** mappages *)

(** The entry [mappages] writes for page [pa]. *)
Definition leaf (pa perm : Z) : Z := Z.lor (Z.lor (PA2PTE pa) perm) PTE_V.

Lemma leaf_lor pa perm : leaf pa perm = Z.lor (PA2PTE pa) (Z.lor perm PTE_V).
Proof. unfold leaf. by rewrite Z.lor_assoc. Qed.

Lemma lor_flags_range a b : 0 <= a < 1024 -> 0 <= b < 1024 -> 0 <= Z.lor a b < 1024.
Proof.
  intros Ha Hb. split; [apply Z.lor_nonneg; lia|].
  assert (Z.lor a b = Z.lor a b mod 2 ^ 10) as ->; [|apply Z.mod_pos_bound; lia].
  rewrite <- Z.land_ones by lia. rewrite Z.land_lor_distr_l, !Z.land_ones by lia.
  by rewrite !Z.mod_small by (change (2 ^ 10) with 1024; lia).
Qed.

(** What is read back from such an entry. *)
Lemma leaf_facts pa perm :
  0 <= pa < 2 ^ 56 -> pa mod PGSIZE = 0 -> 0 <= perm < 1024 ->
  PTE2PA (leaf pa perm) = pa /\ PTE_FLAGS (leaf pa perm) = Z.lor perm PTE_V /\
  has (leaf pa perm) PTE_V = true /\
  (forall k, 0 <= k < 1024 -> has (leaf pa perm) k = has (Z.lor perm PTE_V) k) /\
  0 <= leaf pa perm < 2 ^ 64.
Proof.
  intros R A F. assert (V : 0 <= PTE_V < 1024) by (change PTE_V with 1; lia).
  assert (F' : 0 <= Z.lor perm PTE_V < 1024) by (by apply lor_flags_range).
  rewrite leaf_lor, PTE2PA_make, PTE_FLAGS_make, has_make by done.
  split; [done|]. split; [done|]. split; [|split].
  - unfold has. rewrite Z.land_lor_distr_l. change (Z.land PTE_V PTE_V) with 1.
    destruct (Z.eqb_spec (Z.lor (Z.land perm PTE_V) 1) 0) as [E|]; [|done].
    by apply Z.lor_eq_0_iff in E as [_ ?].
  - intros. by rewrite has_make.
  - by apply pte_make_range.
Qed.

Lemma map_loop_step s root T l a pa perm :
  vm_inv s root T l -> 0 <= a < MAXVA -> 0 <= leaf pa perm < 2 ^ 64 ->
  has (pte_of (mem s) T a) PTE_V = false ->
  (exists s' T', (forall fuel lst, mappages_loop (S fuel) root a lst pa perm s = Ok (-1) s') /\
     extends s T l s' root T' [] /\ same_ptes s T s' T' /\ (length l <= 2)%nat) \/
  (exists s' T' l',
     (forall fuel lst, mappages_loop (S fuel) root a lst pa perm s =
        if a =? lst then Ok 0 s'
        else mappages_loop fuel root (u64 (a + PGSIZE)) lst (u64 (pa + PGSIZE)) perm s') /\
     extends s T l s' root T' l' /\ pte_of (mem s') T' a = leaf pa perm /\
     (forall va, 0 <= va < MAXVA -> va / 4096 <> a / 4096 ->
        pte_of (mem s') T' va = pte_of (mem s) T va) /\
     (length l <= 2 + length l')%nat).
Proof.
  intros I Ha Hl Hv.
  destruct (walk_true s root T l a I Ha) as (pte & s1 & T1 & l1 & Ew & G & S & C & Nl).
  destruct C as [[-> ->]|[Np Ea]].
  - left. exists s1, T1. split_and!; try done. intros fuel lst. cbn [mappages_loop]. mrun. by rewrite Ew.
  - right. destruct (set_pte s1 root T1 l1 a pte (leaf pa perm)) as (G2 & E2 & O2);
      [apply G|done..|].
    exists (with_mem s1 (store 8 (mem s1) pte (leaf pa perm))), T1, l1. split_and!.
    + intros fuel lst. cbn [mappages_loop]. mrun. rewrite Ew. mrun. apply Z.eqb_neq in Np as ->. mrun.
      assert (load 8 (mem s1) pte = pte_of (mem s) T a) as ->.
      { rewrite <- S. unfold pte_of. by rewrite Ea. }
      rewrite Hv. mrun. by destruct (a =? lst).
    + eapply extends_trans; eauto.
    + done.
    + intros. cbn. by rewrite O2, S.
    + done.
Qed.

(** [k] pages from [va]: the address of the page that [va'] falls in. *)
Definition in_run (va k va' : Z) : bool := (va <=? va') && (va' <? va + k * PGSIZE).

Definition mapped_at (va pa perm va' : Z) : Z := leaf (pa + 4096 * ((va' - va) / 4096)) perm.

Lemma mappages_loop_spec k s root T l va pa perm :
  vm_inv s root T l -> (0 < k)%nat ->
  0 <= va -> va mod PGSIZE = 0 -> va + Z.of_nat k * PGSIZE <= MAXVA ->
  0 <= pa -> pa mod PGSIZE = 0 -> pa + Z.of_nat k * PGSIZE <= 2 ^ 56 -> 0 <= perm < 1024 ->
  (forall va', in_run va (Z.of_nat k) va' = true -> has (pte_of (mem s) T va') PTE_V = false) ->
  exists r s' T' l' j,
    mappages_loop k root va (va + Z.of_nat k * PGSIZE - PGSIZE) pa perm s = Ok r s' /\
    extends s T l s' root T' l' /\
    (r = 0 /\ j = Z.of_nat k \/ r = -1 /\ 0 <= j < Z.of_nat k /\ l' = []) /\
    (forall va', 0 <= va' < MAXVA -> pte_of (mem s') T' va' =
       if in_run va j va' then mapped_at va pa perm va' else pte_of (mem s) T va') /\
    (length l <= 2 * k + length l')%nat.
Proof.
  revert s T l va pa. induction k as [|k IH]; intros s T l va pa I Hk H1 H2 H3 H4 H5 H6 Hp Hv; [lia|].
  unfold PGSIZE in *. assert (M : MAXVA = 2 ^ 38) by done.
  destruct (leaf_facts pa perm) as (L1 & L2 & L3 & L4 & L5); [lia|done..|].
  destruct (map_loop_step s root T l va pa perm I) as [(s1 & T1 & E & G & Sm & Nl)|(s1 & T1 & l1 & E & G & E1 & Sm & Nl)];
    [lia|done|apply Hv; unfold in_run, PGSIZE; zcase; lia|..].
  - exists (-1), s1, T1, [], 0. split_and!; [apply E|done|right; split_and!; done || lia| |lia].
    intros. rewrite Sm. unfold in_run. zcase; lia || done.
  - rewrite E. destruct (Z.eqb_spec va (va + Z.of_nat (S k) * 4096 - 4096)) as [Q|Q].
    { exists 0, s1, T1, l1, 1. split_and!; [done|done|left; lia| |lia].
      intros va' Hva'. unfold in_run, PGSIZE. zcase; cbn; try (apply Sm; zdm).
      rewrite (pte_of_page _ _ va' va) by zdm. rewrite E1. unfold mapped_at. f_equal. zdm. }
    replace (va + Z.of_nat (S k) * 4096 - 4096) with (va + 4096 + Z.of_nat k * 4096 - 4096) by lia.
    unfold PGSIZE. rewrite !u64_small by lia.
    edestruct (IH s1 T1 l1 (va + 4096) (pa + 4096)) as (r & s2 & T2 & l2 & j & -> & G2 & C & S2 & Nl2);
      [apply G|lia|lia|zdm|lia|lia|zdm|lia|done| |].
    { intros va' Hva'. unfold in_run, PGSIZE in *. zbool. rewrite Sm by zdm.
      apply Hv. zcase; lia. }
    exists r, s2, T2, l2, (j + 1). split_and!; [done|eauto using extends_trans|destruct C as [C|(? & ? & ->)]; [left; lia|right; split_and!; done || lia]| |lia].
    intros va' Hva'. rewrite S2 by done. unfold in_run, PGSIZE.
    assert (0 <= j) by (destruct C; lia).
    zcase; cbn; try lia; try done.
    + unfold mapped_at. f_equal. zdm.
    + rewrite (pte_of_page _ _ va' va) by zdm. rewrite E1. unfold mapped_at. f_equal. zdm.
    + apply Sm; [done|zdm].
    + apply Sm; [done|zdm].
Qed.

Lemma mappages_spec k s root T l va pa perm :
  vm_inv s root T l -> 0 < k ->
  0 <= va -> va mod PGSIZE = 0 -> va + k * PGSIZE <= MAXVA ->
  0 <= pa -> pa mod PGSIZE = 0 -> pa + k * PGSIZE <= 2 ^ 56 -> 0 <= perm < 1024 ->
  (forall va', in_run va k va' = true -> has (pte_of (mem s) T va') PTE_V = false) ->
  exists r s' T' l' j,
    mappages root va (k * PGSIZE) pa perm s = Ok r s' /\
    extends s T l s' root T' l' /\
    (r = 0 /\ j = k \/ r = -1 /\ 0 <= j < k /\ l' = []) /\
    (forall va', 0 <= va' < MAXVA -> pte_of (mem s') T' va' =
       if in_run va j va' then mapped_at va pa perm va' else pte_of (mem s) T va') /\
    Z.of_nat (length l) <= 2 * k + Z.of_nat (length l').
Proof.
  intros I Hk H1 H2 H3 H4 H5 H6 Hp Hv. unfold mappages.
  rewrite H2, Z_mod_mult, Z.div_mul by (unfold PGSIZE; lia). cbn [Z.eqb negb].
  destruct (Z.eqb_spec (k * PGSIZE) 0); [unfold PGSIZE in *; lia|].
  rewrite u64_small by (unfold PGSIZE in *; change MAXVA with (2 ^ 38) in H3; lia).
  replace k with (Z.of_nat (Z.to_nat k)) in * by lia. rewrite Nat2Z.id in *.
  destruct (mappages_loop_spec (Z.to_nat k) s root T l va pa perm)
    as (r & s' & T' & l' & j & E & G & C & Pt & Nl); try (done || lia).
  exists r, s', T', l', j. split_and!; done || lia.
Qed.

Lemma walk_found s root T l va a alloc :
  vm_inv s root T l -> 0 <= va < MAXVA -> pte_addr T va = Some a -> walk root va alloc s = Ok a s.
Proof.
  intros I Hva E. pose proof (vm_pt _ _ _ _ I) as P. unfold walk.
  destruct (Z.leb_spec MAXVA va); [lia|]. cbn [walk_loop]. unfold bind.
  unfold pte_addr in E. destruct (T !! [PX 2 va; PX 1 va]) as [q0|] eqn:E0; [|done]. injection E as <-.
  destruct (pt_closed _ _ _ P [PX 2 va] _ _ E0) as [q1 E1].
  rewrite (walk_next_found s root T [] root _ _ _ q1) by (done || apply P || cbn; lia).
  by rewrite (walk_next_found s root T [PX 2 va] q1 _ _ _ q0) by (done || cbn; lia).
Qed.

Lemma valid_addr m T va :
  has (pte_of m T va) PTE_V = true -> exists a, pte_addr T va = Some a /\ load 8 m a = pte_of m T va.
Proof. unfold pte_of. destruct (pte_addr T va); [eauto|]. by rewrite has_0. Qed.

Lemma pte_addr_nonzero m root T va a : pt_ok m root T -> pte_addr T va = Some a -> a <> 0.
Proof.
  intros P. unfold pte_addr. destruct (T !! _) as [pg|] eqn:E; [|done]. intros [= <-].
  pose proof (page_ok_bounds _ (pt_page _ _ _ P _ _ E)). pose proof (PX_range 0 va).
  unfold KERNBASE in *. lia.
Qed.

(** A page that is already mapped is never mapped again. *)
Lemma mappages_remap s root T l va pa perm :
  vm_inv s root T l -> 0 <= va < MAXVA -> va mod PGSIZE = 0 ->
  has (pte_of (mem s) T va) PTE_V = true ->
  mappages root va PGSIZE pa perm s = Panic "mappages: remap".
Proof.
  intros I Hva Al V. destruct (valid_addr _ _ _ V) as (a & Ea & La).
  unfold mappages. rewrite Al. change (PGSIZE mod PGSIZE) with 0. change (PGSIZE / PGSIZE) with 1.
  change (Z.to_nat 1) with 1%nat. cbn [Z.eqb negb mappages_loop]. mrun.
  rewrite (walk_found s root T l va a) by done.
  pose proof (pte_addr_nonzero _ _ _ _ _ (vm_pt _ _ _ _ I) Ea) as N. apply Z.eqb_neq in N as ->.
  mrun. by rewrite La, V.
Qed.

(** ** Private pages

    A page that is neither a table nor free can be written freely. *)

Definition private (T : gmap (list Z) Z) (l : list Z) (q : Z) : Prop :=
  page_ok q /\ q ∉ l /\ forall p, T !! p <> Some q.

Lemma outside_words m m' root T q p pg j :
  pt_ok m root T -> q mod PGSIZE = 0 -> (forall p, T !! p <> Some q) -> same_outside q m m' ->
  T !! p = Some pg -> 0 <= j < 512 -> load 8 m' (pg + 8 * j) = load 8 m (pg + 8 * j).
Proof.
  intros P A F O E Hj. apply load_ext. intros i Hi. apply O.
  assert (N : q <> pg) by (intros ->; by apply (F p)).
  pose proof (pages_apart q pg A (page_aligned _ _ _ _ _ P E) N). unfold PGSIZE in *. lia.
Qed.

Lemma outside_pt_ok m m' root T q :
  pt_ok m root T -> q mod PGSIZE = 0 -> (forall p, T !! p <> Some q) -> same_outside q m m' ->
  pt_ok m' root T.
Proof.
  intros P A F O. pose proof P as [R Pg J C D N]. split; try done.
  intros p pg i E L Hi. specialize (N p pg i E L Hi).
  by rewrite (outside_words m m' root T q p pg i).
Qed.

Lemma outside_pte_of m m' root T q va :
  pt_ok m root T -> q mod PGSIZE = 0 -> (forall p, T !! p <> Some q) -> same_outside q m m' ->
  pte_of m' T va = pte_of m T va.
Proof.
  intros P A F O. unfold pte_of, pte_addr. destruct (T !! _) as [pg|] eqn:E; [|done].
  apply (outside_words m m' root T q _ _ _ P A F O E). apply PX_range. lia.
Qed.

Lemma write_private s root T l q m' :
  vm_inv s root T l -> private T l q -> same_outside q (mem s) m' ->
  vm_inv (with_mem s m') root T l /\ same_ptes s T (with_mem s m') T.
Proof.
  intros [K P S] (Pq & Nq & Fq) O. split.
  - split; cbn; [|by eapply outside_pt_ok; eauto; apply Pq|done].
    eapply kmem_inv_outside; eauto. apply Pq.
  - intros va. eapply outside_pte_of; eauto. apply Pq.
Qed.

Lemma alloc_page s root T l q :
  vm_inv s root T (q :: l) ->
  exists s', kalloc s = Ok q s' /\ vm_inv s' root T l /\ private T l q /\ same_ptes s T s' T /\
    same_outside q (mem s) (mem s') /\ total_pages (kmem s') = total_pages (kmem s).
Proof.
  intros I. pose proof I as [K P S]. pose proof (inv_nodup _ _ K) as N. apply NoDup_cons in N as [N _].
  pose proof (inv_ok _ _ K) as F. apply Forall_cons in F as [Pq _].
  assert (Fq : forall p, T !! p <> Some q) by (intros p E; apply S in E; set_solver).
  eexists. split; [by apply kalloc_cons|]. split; [|split; [done|split; [|split; [|done]]]].
  - split; cbn; [by apply kalloc_inv|eapply outside_pt_ok; eauto using same_outside_fill; apply Pq|].
    intros p pg E. apply S in E. set_solver.
  - intros va. eapply outside_pte_of; eauto using same_outside_fill. apply Pq.
  - apply same_outside_fill.
Qed.

Lemma free_page s root T l q :
  vm_inv s root T l -> private T l q ->
  exists s', kfree q s = Ok tt s' /\ vm_inv s' root T (q :: l) /\ same_ptes s T s' T /\
    same_outside q (mem s) (mem s') /\ total_pages (kmem s') = total_pages (kmem s).
Proof.
  intros [K P S] (Pq & Nq & Fq). eexists. split; [by apply (kfree_run s l)|].
  split; [|split; [|split; [|done]]].
  - split; cbn; [by apply kfree_inv|eapply outside_pt_ok; eauto using same_outside_kfree; apply Pq|].
    intros p pg E. pose proof (S p pg E). apply not_elem_of_cons. split; [|done].
    intros ->. by apply (Fq p).
  - intros va. eapply outside_pte_of; eauto using same_outside_kfree. apply Pq.
  - apply same_outside_kfree.
Qed.

(** ** Looking addresses up *)

Lemma walkaddr_spec s root T l va :
  vm_inv s root T l -> 0 <= va < MAXVA ->
  walkaddr root va s =
    Ok (if has (pte_of (mem s) T va) PTE_V && has (pte_of (mem s) T va) PTE_U
        then PTE2PA (pte_of (mem s) T va) else 0) s.
Proof.
  intros I Hva. unfold walkaddr. destruct (Z.leb_spec MAXVA va); [lia|]. mrun.
  rewrite (walk_false s root T l va) by done. unfold pte_of.
  destruct (pte_addr T va) as [a|] eqn:E; [|mrun; by rewrite has_0].
  pose proof (pte_addr_nonzero _ _ _ _ _ (vm_pt _ _ _ _ I) E) as N. apply Z.eqb_neq in N as ->.
  mrun. by destruct (has _ PTE_V), (has _ PTE_U).
Qed.

Lemma owned_page s root T l q i :
  vm_inv s root T l -> private T l q -> owned T l i -> ~ (q <= i < q + PGSIZE).
Proof.
  intros I (Pq & Nq & Fq) (p & O & Hi) Hq.
  assert (p mod PGSIZE = 0 /\ p <> q) as [A N].
  { destruct O as [O|[x O]].
    - pose proof (inv_ok _ _ (vm_kmem _ _ _ _ I)) as F. rewrite Forall_forall in F.
      split; [apply (F p O)|set_solver].
    - split; [apply (page_aligned _ _ _ _ _ (vm_pt _ _ _ _ I) O)|]. intros ->. by apply (Fq x). }
  pose proof (pages_apart p q A (proj1 Pq) N). unfold PGSIZE in *. lia.
Qed.

Lemma extends_private s T l s' root T' l' q :
  extends s T l s' root T' l' -> private T l q -> private T' l' q.
Proof.
  intros [_ _ (t & -> & N) _ _] (P & Nq & F). split_and!; [done|set_solver|].
  intros p [E|E]%N; [by apply (F p)|set_solver].
Qed.

Lemma extends_keeps s T l s' root T' l' q i :
  vm_inv s root T l -> extends s T l s' root T' l' -> private T l q -> q <= i < q + PGSIZE ->
  bget (mem s') i = bget (mem s) i.
Proof.
  intros I G P Hi. apply (ex_frame _ _ _ _ _ _ _ G). intros O.
  by apply (owned_page s root T l q i).
Qed.

(** ** Lazy allocation *)

Definition URW : Z := Z.lor (Z.lor PTE_R PTE_W) PTE_U.

Lemma pgdown va : 0 <= va < MAXVA ->
  0 <= PGROUNDDOWN va < MAXVA /\ PGROUNDDOWN va mod PGSIZE = 0 /\
  PGROUNDDOWN va + PGSIZE <= MAXVA /\ PGROUNDDOWN va / 4096 = va / 4096.
Proof.
  intros. rewrite PGROUNDDOWN_eq. change MAXVA with (4096 * 67108864) in *. unfold PGSIZE. zdm.
Qed.

Lemma lazy_alloc_mapped s root T l va :
  vm_inv s root T l -> 0 <= va < MAXVA ->
  has (pte_of (mem s) T va) PTE_V = true -> has (pte_of (mem s) T va) PTE_U = true ->
  PTE2PA (pte_of (mem s) T va) <> 0 ->
  lazy_alloc root va s = Ok 0 s.
Proof.
  intros I Hva V U N. destruct (pgdown va Hva) as (R & A & _ & D). unfold lazy_alloc. mrun.
  rewrite (walkaddr_spec s root T l) by done. rewrite (pte_of_page _ _ _ va D), V, U. cbn.
  by apply Z.eqb_neq in N as ->.
Qed.

Lemma lazy_alloc_oom s root T va :
  vm_inv s root T [] -> 0 <= va < MAXVA ->
  has (pte_of (mem s) T va) PTE_V && has (pte_of (mem s) T va) PTE_U = false ->
  lazy_alloc root va s = Ok (-1) s.
Proof.
  intros I Hva V. destruct (pgdown va Hva) as (R & A & _ & D). unfold lazy_alloc. mrun.
  rewrite (walkaddr_spec s root T []) by done. rewrite (pte_of_page _ _ _ va D), V. mrun.
  rewrite kalloc_nil by apply I. done.
Qed.

(** The page [kalloc] gives, cleared. *)
Lemma alloc_zeroed s root T l q :
  vm_inv s root T (q :: l) ->
  exists s1 s', kalloc s = Ok q s1 /\ memset_page q 0 s1 = Ok tt s' /\
    vm_inv s' root T l /\ private T l q /\ same_ptes s T s' T /\ same_outside q (mem s) (mem s') /\
    (forall i, q <= i < q + PGSIZE -> bget (mem s') i = 0) /\
    total_pages (kmem s') = total_pages (kmem s).
Proof.
  intros I. destruct (alloc_page s root T l q I) as (s1 & E & I1 & Pq & S1 & O1 & Y1).
  destruct (write_private s1 root T l q (fill (mem s1) q 0 PGSIZE) I1 Pq (same_outside_fill _ _ _)) as [I2 S2].
  exists s1. eexists. split_and!; [exact E|reflexivity|exact I2|apply Pq..| | | |exact Y1].
  - intros x. etrans; [apply S2|apply S1].
  - eapply same_outside_trans; [exact O1|apply same_outside_fill].
  - intros i Hi. cbn. rewrite bget_fill. zcase; try lia. by vm_compute.
Qed.

Lemma alloc_nonzero s root T l q : vm_inv s root T (q :: l) -> (q =? 0) = false.
Proof.
  intros I. pose proof (inv_ok _ _ (vm_kmem _ _ _ _ I)) as F. apply Forall_cons in F as [P _].
  apply Z.eqb_neq. by apply page_ok_nonzero.
Qed.

(** A page that is mapped but not for the user, such as the guard page below
    the stack: the fault is taken for a missing page and the second mapping
    stops the kernel. *)
Lemma lazy_alloc_guard s root T l q va :
  vm_inv s root T (q :: l) -> 0 <= va < MAXVA ->
  has (pte_of (mem s) T va) PTE_V = true -> has (pte_of (mem s) T va) PTE_U = false ->
  lazy_alloc root va s = Panic "mappages: remap".
Proof.
  intros I Hva V U. destruct (pgdown va Hva) as (R & A & _ & D). unfold lazy_alloc, bind.
  rewrite (walkaddr_spec s root T (q :: l)) by done. rewrite (pte_of_page _ _ _ va D), V, U. cbn [andb negb Z.eqb].
  destruct (alloc_zeroed s root T l q I) as (s1 & s2 & E & Em & I2 & Pq & S2 & O2 & Z2 & Y2).
  rewrite E, (alloc_nonzero _ _ _ _ _ I), Em.
  rewrite (mappages_remap s2 root T l) by (done || rewrite S2; by rewrite (pte_of_page _ _ _ va D)).
  done.
Qed.

Lemma lazy_alloc_fresh s root T l q va :
  vm_inv s root T (q :: l) -> 0 <= va < MAXVA -> has (pte_of (mem s) T va) PTE_V = false ->
  exists r s' T' l', lazy_alloc root va s = Ok r s' /\ vm_inv s' root T' l' /\ T ⊆ T' /\
    (forall x, private T (q :: l) x -> private T' l' x) /\
    (r = 0 /\ private T' l' q /\
     (forall va', 0 <= va' < MAXVA -> pte_of (mem s') T' va' =
        if va' / 4096 =? va / 4096 then leaf q URW else pte_of (mem s) T va') /\
     (forall i, q <= i < q + PGSIZE -> bget (mem s') i = 0) \/
     r = -1 /\ l' = [q] /\ (length (q :: l) <= 3)%nat /\
     forall va', 0 <= va' < MAXVA -> pte_of (mem s') T' va' = pte_of (mem s) T va') /\
    (forall i, ~ owned T (q :: l) i -> bget (mem s') i = bget (mem s) i) /\
    total_pages (kmem s') = total_pages (kmem s).
Proof.
  intros I Hva V. destruct (pgdown va Hva) as (R & A & B & D). unfold lazy_alloc, bind.
  rewrite (walkaddr_spec s root T (q :: l)) by done. rewrite (pte_of_page _ _ _ va D), V. cbn [andb negb Z.eqb].
  destruct (alloc_zeroed s root T l q I) as (s1 & s2 & E & Em & I2 & Pq & S2 & O2 & Z2 & Y2).
  rewrite E, (alloc_nonzero _ _ _ _ _ I), Em. set (a := PGROUNDDOWN va) in *.
  pose proof (page_ok_pa q (proj1 Pq)) as [Rq Aq].
  fold URW. replace (mappages root a PGSIZE q URW s2) with (mappages root a (1 * PGSIZE) q URW s2) by done.
  destruct (mappages_spec 1 s2 root T l a q URW) as (r & s3 & T3 & l3 & j & -> & G & C & Pt & Nl);
    try (done || (unfold PGSIZE in *; lia)).
  { pose proof (page_ok_bounds q (proj1 Pq)). unfold PHYSTOP, KERNBASE, PGSIZE in *. lia. }
  { intros va'. unfold in_run, PGSIZE in *. intros Hr. zbool. rewrite S2.
    rewrite (pte_of_page _ _ va' va); [done|]. subst a. unfold PGSIZE in *. rewrite PGROUNDDOWN_eq in *. zdm. }
  pose proof (ex_inv _ _ _ _ _ _ _ G) as I3. pose proof (extends_private _ _ _ _ _ _ _ _ G Pq) as P3.
  assert (Fr : forall i, ~ owned T (q :: l) i -> bget (mem s3) i = bget (mem s) i).
  { intros i O. rewrite (ex_frame _ _ _ _ _ _ _ G).
    - apply O2. intros Hi. apply O. exists q. set_solver.
    - intros (x & [X|X] & Hx); apply O; exists x; set_solver. }
  assert (Mono : forall x, private T (q :: l) x -> private T3 l3 x).
  { intros x (P & Nx & Fx). eapply extends_private; [exact G|]. split_and!; [done|set_solver|done]. }
  destruct C as [[-> ->]|(-> & Hj & ->)]; cbn [Z.eqb negb].
  - exists 0, s3, T3, l3. split_and!; [done|done|apply G|done| |done|by rewrite (ex_total _ _ _ _ _ _ _ G)].
    left. split_and!; [done..| |].
    + intros va' Hva'. rewrite Pt, S2 by done. unfold in_run, mapped_at, PGSIZE in *.
      subst a. rewrite PGROUNDDOWN_eq in *. zcase; try done; try zdm. f_equal. zdm.
    + intros i Hi. rewrite <- (Z2 i Hi). by apply (extends_keeps s2 T l s3 root T3 l3 q).
  - assert (j = 0) as -> by lia.
    destruct (free_page s3 root T3 [] q I3 P3) as (s4 & -> & I4 & S4 & O4 & Y4).
    exists (-1), s4, T3, [q]. split_and!; [done|done|apply G| |right|..].
    + intros x Px. destruct (Mono x Px) as (P & _ & Fx). split_and!; [done| |done].
      destruct Px as (_ & Nx & _). set_solver.
    + split_and!; [done|done|cbn in *; lia|].
      intros va' Hva'. rewrite S4, Pt, S2 by done. unfold in_run. zcase; try done. unfold PGSIZE in *. lia.
    + intros i O. rewrite O4; [by apply Fr|]. intros Hi. apply O. exists q. set_solver.
    + rewrite Y4. by rewrite (ex_total _ _ _ _ _ _ _ G).
Qed.

End Words.
