(* ===== verification/VmUser.v ===== *)
(** * User memory through the page table

    The view a user program has of its address space ([user_byte]), and the
    kernel routines of kernel/vm.c that read, write, copy and unmap it:
    [copyout], [copyin], [copyinstr], [uvmunmap], [uvmcopy]. *)

From Stdlib Require Import ZArith Lia List.
From stdpp Require Import base tactics numbers list gmap sets relations strings.
From S2P Require Import Prelude Riscv Kalloc Vm VmFacts.

Section User.
Context `{LO : LayoutOk}.
Implicit Types (m : ram) (T : gmap (list Z) Z) (s : phys).

(** ** User memory

    A user page table: every page mapped below the trapframe belongs to this
    address space alone and is a leaf, and the trapframe and trampoline pages
    above are closed to the user. *)

Record user_ok (m : ram) (T : gmap (list Z) Z) (l : list Z) : Prop := {
  uo_page : forall va, 0 <= va < TRAPFRAME -> has (pte_of m T va) PTE_V = true ->
    private T l (PTE2PA (pte_of m T va)) /\ PTE_FLAGS (pte_of m T va) <> PTE_V;
  uo_inj : forall va va', 0 <= va < TRAPFRAME -> 0 <= va' < TRAPFRAME ->
    has (pte_of m T va) PTE_V = true -> has (pte_of m T va') PTE_V = true ->
    PTE2PA (pte_of m T va) = PTE2PA (pte_of m T va') -> va / 4096 = va' / 4096;
  uo_kernel : forall va, TRAPFRAME <= va < MAXVA -> has (pte_of m T va) PTE_U = false
}.

Definition readable (m : ram) (T : gmap (list Z) Z) (va : Z) : bool :=
  (0 <=? va) && (va <? MAXVA) && has (pte_of m T va) PTE_V && has (pte_of m T va) PTE_U.

Definition writable (m : ram) (T : gmap (list Z) Z) (va : Z) : bool :=
  readable m T va && has (pte_of m T va) PTE_W.

(** The byte a user program sees at [va]. *)
Definition user_pa (m : ram) (T : gmap (list Z) Z) (va : Z) : Z :=
  PTE2PA (pte_of m T va) + va mod 4096.

Definition user_byte (m : ram) (T : gmap (list Z) Z) (va : Z) : option Z :=
  if readable m T va then Some (bget m (user_pa m T va)) else None.

Lemma user_ok_same s s' T l : same_ptes s T s' T -> user_ok (mem s) T l -> user_ok (mem s') T l.
Proof.
  intros E [P J K]. split.
  - intros va Hva V. rewrite E in *. by apply P.
  - intros va va' ? ?. rewrite !E. by apply J.
  - intros va Hva. rewrite E. by apply K.
Qed.

Lemma readable_page m T va va' :
  0 <= va < MAXVA -> 0 <= va' < MAXVA -> va / 4096 = va' / 4096 -> readable m T va = readable m T va'.
Proof.
  intros ? ? E. unfold readable. rewrite (pte_of_page _ _ _ _ E). zcase; done || lia.
Qed.

Lemma readable_spec m T l va :
  user_ok m T l -> readable m T va = true ->
  0 <= va < TRAPFRAME /\ has (pte_of m T va) PTE_V = true /\ has (pte_of m T va) PTE_U = true /\
  private T l (PTE2PA (pte_of m T va)).
Proof.
  intros O R. unfold readable in R. zbool. assert (va < TRAPFRAME).
  { destruct (Z.lt_ge_cases va TRAPFRAME); [done|].
    pose proof (uo_kernel _ _ _ O va). intuition congruence. }
  split_and!; try done. by apply O.
Qed.

(** Storing [b] at a user address that is mapped, within its page. *)
Lemma write_user s root T l va b :
  vm_inv s root T l -> user_ok (mem s) T l -> readable (mem s) T va = true ->
  va mod 4096 + Z.of_nat (length b) <= 4096 ->
  let s' := with_mem s (write_bytes (mem s) (user_pa (mem s) T va) b) in
  vm_inv s' root T l /\ same_ptes s T s' T /\
  (forall x, user_byte (mem s') T x =
     if (va <=? x) && (x <? va + Z.of_nat (length b))
     then Some (u8 (nth (Z.to_nat (x - va)) b 0)) else user_byte (mem s) T x).
Proof.
  intros I O Rd Hn s'. destruct (readable_spec _ _ _ _ O Rd) as (Hva & V & U & Pv).
  destruct (write_private s root T l (PTE2PA (pte_of (mem s) T va))
              (write_bytes (mem s) (user_pa (mem s) T va) b) I Pv) as [I' S'].
  { intros i Hi. rewrite bget_write_bytes. unfold user_pa, PGSIZE in *. zcase; try done. zdm. }
  split_and!; [exact I'|exact S'|]. intros x. unfold user_byte, user_pa.
  assert (readable (mem s') T x = readable (mem s) T x) as -> by (unfold readable; by rewrite S').
  rewrite S'. destruct (readable (mem s) T x) eqn:Rx.
  - destruct (readable_spec _ _ _ _ O Rx) as (Hx & Vx & Ux & Px).
    cbn [mem with_mem s']. rewrite bget_write_bytes. unfold user_pa.
    pose proof (proj1 (proj1 Pv)) as A. pose proof (proj1 (proj1 Px)) as Ax.
    destruct (Z.eq_dec (PTE2PA (pte_of (mem s) T va)) (PTE2PA (pte_of (mem s) T x))) as [E|N].
    + rewrite E. pose proof (uo_inj _ _ _ O _ _ Hva Hx V Vx E) as D.
      zcase; try done; try zdm. do 4 f_equal. zdm.
    + pose proof (pages_apart _ _ A Ax N). unfold PGSIZE in *. zcase; try done; try zdm.
      all: destruct N; rewrite (pte_of_page _ _ x va); [done|zdm].
  - zcase; try done. rewrite (readable_page _ _ x va) in Rx; [congruence|..];
      change TRAPFRAME with (MAXVA - 8192) in *; change MAXVA with (4096 * 67108864) in *; zdm.
Qed.

Lemma writable_same s s' T x : same_ptes s T s' T -> writable (mem s') T x = writable (mem s) T x.
Proof. intros E. unfold writable, readable. by rewrite E. Qed.

Lemma writable_page m T va x :
  writable m T va = true -> va / 4096 = x / 4096 -> writable m T x = true.
Proof.
  unfold writable. intros [Rd W]%andb_true_iff E. unfold readable in *. zbool.
  rewrite <- !(pte_of_page _ _ _ _ E), W, H2, H1.
  change MAXVA with (4096 * 67108864) in *. zcase; done || zdm.
Qed.

Lemma pgdown_off va : va - PGROUNDDOWN va = va mod 4096.
Proof. rewrite PGROUNDDOWN_eq. zdm. Qed.

Section CopyOut.
Context (root : Z) (T : gmap (list Z) Z) (l : list Z).

(** [k] bytes of [src] have been stored at [dstva] and no other user byte has
    changed. *)
Definition stored (s s' : phys) (dstva : Z) (src : list Z) (k : Z) : Prop :=
  vm_inv s' root T l /\ same_ptes s T s' T /\
  (forall x, dstva <= x < dstva + k -> writable (mem s) T x = true) /\
  (forall x, user_byte (mem s') T x =
     if (dstva <=? x) && (x <? dstva + k)
     then Some (u8 (nth (Z.to_nat (x - dstva)) src 0)) else user_byte (mem s) T x).

Lemma stored_0 s dstva src : vm_inv s root T l -> stored s s dstva src 0.
Proof. intros I. split_and!; [done|done|lia|]. intros x. zcase; done || lia. Qed.

Lemma stored_page s dstva src n :
  vm_inv s root T l -> user_ok (mem s) T l -> writable (mem s) T dstva = true ->
  0 <= n <= Z.of_nat (length src) -> dstva mod 4096 + n <= 4096 ->
  stored s (with_mem s (write_bytes (mem s) (user_pa (mem s) T dstva) (take (Z.to_nat n) src))) dstva src n.
Proof.
  intros I O W Hn Hp. pose proof W as Rd. unfold writable in Rd. apply andb_true_iff in Rd as [Rd _].
  assert (L : Z.of_nat (length (take (Z.to_nat n) src)) = n) by (rewrite length_take; lia).
  destruct (write_user s root T l dstva (take (Z.to_nat n) src) I O Rd) as (I' & S' & B); [lia|].
  split_and!; [done|done| |].
  - intros x Hx. apply (writable_page _ _ dstva); [done|zdm].
  - intros x. rewrite B, L. zcase; try done. rewrite !nth_lookup, lookup_take_lt by lia. done.
Qed.

Lemma stored_trans s1 s2 s3 dstva src n k :
  stored s1 s2 dstva src n -> stored s2 s3 (dstva + n) (drop (Z.to_nat n) src) k ->
  0 <= n -> 0 <= k -> stored s1 s3 dstva src (n + k).
Proof.
  intros (I1 & S1 & W1 & B1) (I2 & S2 & W2 & B2) Hn Hk. split_and!; [done| | |].
  - intros x. by rewrite S2.
  - intros x Hx. destruct (Z.lt_ge_cases x (dstva + n)); [apply W1; lia|].
    rewrite <- (writable_same s1 s2) by done. apply W2. lia.
  - intros x. rewrite B2, B1. zcase; try done; try lia.
    rewrite !nth_lookup, lookup_drop. do 4 f_equal. lia.
Qed.

(** One iteration of the loop. *)
Lemma copyout_step fuel s dstva src len :
  vm_inv s root T l -> 0 <= dstva -> 0 < len ->
  let n := Z.min (PGSIZE - dstva mod 4096) len in
  copyout_loop (S fuel) root dstva src len s =
  if writable (mem s) T dstva
  then copyout_loop fuel root (PGROUNDDOWN dstva + PGSIZE) (drop (Z.to_nat n) src) (len - n)
         (with_mem s (write_bytes (mem s) (user_pa (mem s) T dstva) (take (Z.to_nat n) src)))
  else Ok (-1) s.
Proof.
  intros I Hd Hn n. cbn [copyout_loop]. destruct (Z.ltb_spec 0 len); [|lia].
  destruct (Z.leb_spec MAXVA (PGROUNDDOWN dstva)) as [Hm|Hm].
  { unfold writable, readable. rewrite PGROUNDDOWN_eq in Hm. zcase; try done. zdm. }
  assert (Hva : 0 <= dstva < MAXVA).
  { rewrite PGROUNDDOWN_eq in Hm. change MAXVA with (4096 * 67108864) in *. zdm. }
  destruct (pgdown dstva Hva) as (R0 & A0 & B0 & D0).
  unfold bind. rewrite (walk_false s root T l) by done. rewrite (pte_addr_page _ _ dstva D0).
  unfold writable, readable, user_pa, pte_of. destruct (Z.leb_spec 0 dstva), (Z.ltb_spec dstva MAXVA); try lia.
  destruct (pte_addr T dstva) as [a|] eqn:Ea; [|by rewrite !has_0].
  pose proof (pte_addr_nonzero _ _ _ _ _ (vm_pt _ _ _ _ I) Ea) as N. apply Z.eqb_neq in N as ->.
  rewrite pgdown_off. fold n.
  rewrite u64_small by (change MAXVA with (2 ^ 38) in B0; unfold PGSIZE in *; lia).
  unfold load64, gets. by destruct (has _ PTE_V), (has _ PTE_U), (has _ PTE_W).
Qed.

Lemma copyout_loop_spec fuel s dstva src :
  vm_inv s root T l -> user_ok (mem s) T l -> 0 <= dstva -> (0 < fuel)%nat ->
  src = [] \/ dstva mod 4096 + Z.of_nat (length src) <= 4096 * (Z.of_nat fuel - 1) ->
  exists r k s', copyout_loop fuel root dstva src (Z.of_nat (length src)) s = Ok r s' /\
    stored s s' dstva src k /\
    (r = 0 /\ k = Z.of_nat (length src) \/
     r = -1 /\ 0 <= k < Z.of_nat (length src) /\ writable (mem s) T (dstva + k) = false).
Proof.
  revert s dstva src. induction fuel as [|fuel IH]; intros s dstva src I O Hd Hf Hl; [lia|].
  destruct (Z.ltb_spec 0 (Z.of_nat (length src))) as [Hn|].
  2:{ exists 0, 0, s. cbn [copyout_loop]. destruct (Z.ltb_spec 0 (Z.of_nat (length src))); [lia|].
      split_and!; [done|by apply stored_0|left; lia]. }
  assert (Hl' : dstva mod 4096 + Z.of_nat (length src) <= 4096 * (Z.of_nat fuel)).
  { destruct Hl as [->|]; cbn in *; lia. }
  pose proof (Z.mod_pos_bound dstva 4096 ltac:(lia)) as Hmod.
  rewrite copyout_step by done. destruct (writable (mem s) T dstva) eqn:W.
  2:{ exists (-1), 0, s. rewrite Z.add_0_r. split_and!; [done|by apply stored_0|right; split_and!; done || lia]. }
  set (n := Z.min (PGSIZE - dstva mod 4096) (Z.of_nat (length src))).
  assert (Hn' : 0 < n /\ n <= Z.of_nat (length src) /\ dstva mod 4096 + n <= 4096).
  { subst n. unfold PGSIZE. zdm. }
  pose proof (stored_page s dstva src n I O W ltac:(lia) ltac:(lia)) as St.
  set (s1 := with_mem s _) in *.
  assert (Ld : Z.of_nat (length src) - n = Z.of_nat (length (drop (Z.to_nat n) src))) by (rewrite length_drop; lia).
  rewrite Ld. clearbody s1. destruct (Z.eq_dec n (Z.of_nat (length src))) as [En|Nn].
  - assert (drop (Z.to_nat n) src = []) as -> by (apply drop_ge; lia).
    exists 0, n, s1. split_and!; [|done|left; lia]. destruct fuel; [lia|done].
  - assert (Ho : dstva mod 4096 + n = 4096) by (subst n; unfold PGSIZE in *; lia).
    assert (Hd1 : PGROUNDDOWN dstva + PGSIZE = dstva + n) by (rewrite PGROUNDDOWN_eq; unfold PGSIZE; zdm).
    rewrite Hd1. destruct (IH s1 (dstva + n) (drop (Z.to_nat n) src)) as (r & k & s2 & E & St2 & C);
      [apply St|eapply user_ok_same; [apply St|done]|lia|lia|right; rewrite <- Ld; zdm|].
    exists r, (n + k), s2. split_and!; [done|apply (stored_trans s s1); try done; lia|].
    rewrite <- (writable_same s s1) by apply St. replace (dstva + (n + k)) with (dstva + n + k) by lia.
    destruct C as [C|(-> & C1 & C2)]; [left; lia|right; split_and!; done || lia].
Qed.

Lemma copyout_spec s dstva src :
  vm_inv s root T l -> user_ok (mem s) T l -> 0 <= dstva ->
  exists r k s', copyout root dstva src (Z.of_nat (length src)) s = Ok r s' /\
    stored s s' dstva src k /\
    (r = 0 /\ k = Z.of_nat (length src) \/
     r = -1 /\ 0 <= k < Z.of_nat (length src) /\ writable (mem s) T (dstva + k) = false).
Proof.
  intros I O Hd. apply copyout_loop_spec; try done; unfold PGSIZE; [|right]; zdm.
Qed.

End CopyOut.

Section CopyIn.
Context (root : Z) (T : gmap (list Z) Z) (l : list Z) (s : phys).
Context (I : vm_inv s root T l) (O : user_ok (mem s) T l).

(** The user bytes from [va] on begin with [b]. *)
Definition reads (va : Z) (b : list Z) : Prop :=
  forall i, (i < length b)%nat -> user_byte (mem s) T (va + Z.of_nat i) = b !! i.

Lemma reads_nil va : reads va [].
Proof. intros i Hi. cbn in Hi. lia. Qed.

Lemma reads_app va b b' : reads va b -> reads (va + Z.of_nat (length b)) b' -> reads va (b ++ b').
Proof.
  intros R1 R2 i Hi. rewrite length_app in Hi. destruct (Nat.lt_ge_cases i (length b)).
  - rewrite lookup_app_l by done. by apply R1.
  - rewrite lookup_app_r by done. rewrite <- R2 by lia. f_equal. lia.
Qed.

Lemma reads_prefix va b b' : reads va (b ++ b') -> reads va b.
Proof.
  intros R i Hi. rewrite R by (rewrite length_app; lia). by rewrite lookup_app_l.
Qed.

Lemma lookup_read_bytes m a n i : (i < Z.to_nat n)%nat -> read_bytes m a n !! i = Some (bget m (a + Z.of_nat i)).
Proof. intros. unfold read_bytes. by rewrite list_lookup_fmap, lookup_seq_lt. Qed.

Lemma length_read_bytes m a n : length (read_bytes m a n) = Z.to_nat n.
Proof. unfold read_bytes. by rewrite length_map, length_seq. Qed.

Lemma reads_page va n :
  readable (mem s) T va = true -> 0 <= n -> va mod 4096 + n <= 4096 ->
  reads va (read_bytes (mem s) (user_pa (mem s) T va) n).
Proof.
  intros Rd Hn Hp i. rewrite length_read_bytes. intros Hi.
  rewrite lookup_read_bytes by done. destruct (readable_spec _ _ _ _ O Rd) as (Hva & _).
  change TRAPFRAME with (4096 * 67108862) in *.
  assert (E : (va + Z.of_nat i) / 4096 = va / 4096) by zdm.
  unfold user_byte. rewrite (readable_page _ _ _ va), Rd; [|change MAXVA with (4096 * 67108864); zdm..].
  f_equal. unfold user_pa. rewrite (pte_of_page _ _ _ va E). f_equal. zdm.
Qed.

(** What both loops do first: look the page up. *)
Lemma copy_lookup va :
  0 <= va ->
  walkaddr root (PGROUNDDOWN va) s =
    Ok (if readable (mem s) T va then PTE2PA (pte_of (mem s) T va) else 0) s.
Proof.
  intros Hva. destruct (Z.lt_ge_cases va MAXVA) as [Hm|Hm].
  - destruct (pgdown va ltac:(lia)) as (R0 & _ & _ & D0).
    rewrite (walkaddr_spec s root T l) by done. rewrite (pte_of_page _ _ _ va D0).
    unfold readable. zcase; done || lia.
  - unfold walkaddr, readable. rewrite PGROUNDDOWN_eq. change MAXVA with (4096 * 67108864) in *.
    zcase; done || zdm.
Qed.

Lemma readable_nonzero va : readable (mem s) T va = true -> (PTE2PA (pte_of (mem s) T va) =? 0) = false.
Proof. intros (_ & _ & _ & P)%(readable_spec _ _ _ _ O). apply Z.eqb_neq, page_ok_nonzero, P. Qed.

Lemma page_step va len :
  0 < len ->
  let n := Z.min (PGSIZE - va mod 4096) len in
  0 < n <= len /\ va mod 4096 + n <= 4096 /\
  (n = len \/ PGROUNDDOWN va + PGSIZE = va + n /\ (va + n) mod 4096 = 0 /\ va mod 4096 + n = 4096).
Proof. intros Hl n. subst n. rewrite PGROUNDDOWN_eq. unfold PGSIZE. zdm. Qed.

Lemma copyin_loop_spec fuel dst srcva len :
  0 <= srcva -> (0 < fuel)%nat -> 0 <= len ->
  len = 0 \/ srcva mod 4096 + len <= 4096 * (Z.of_nat fuel - 1) ->
  exists r b, copyin_loop fuel root dst srcva len s = Ok (r, dst ++ b) s /\ reads srcva b /\
    (r = 0 /\ Z.of_nat (length b) = len \/
     r = -1 /\ Z.of_nat (length b) < len /\ readable (mem s) T (srcva + Z.of_nat (length b)) = false).
Proof.
  revert dst srcva len. induction fuel as [|fuel IH]; intros dst srcva len Hs Hf Hl Hb; [lia|].
  cbn [copyin_loop]. destruct (Z.ltb_spec 0 len) as [Hp|Hp].
  2:{ exists 0, []. rewrite app_nil_r. split_and!; [done|apply reads_nil|left; cbn; lia]. }
  unfold bind. rewrite copy_lookup by done. destruct (readable (mem s) T srcva) eqn:Rd.
  2:{ exists (-1), []. rewrite app_nil_r. cbn. split_and!; [done|apply reads_nil|right].
      rewrite Z.add_0_r. split_and!; done || lia. }
  rewrite readable_nonzero by done. rewrite pgdown_off.
  fold (user_pa (mem s) T srcva). set (n := Z.min _ len).
  destruct (page_step srcva len Hp) as (Hn & Hpg & C). fold n in Hn, Hpg, C. unfold gets.
  pose proof (reads_page srcva n Rd ltac:(lia) Hpg) as R1. set (b := read_bytes _ _ n) in *.
  assert (Lb : Z.of_nat (length b) = n) by (subst b; rewrite length_read_bytes; lia). clearbody b n.
  pose proof (Z.mod_pos_bound srcva 4096 ltac:(lia)) as Hmod.
  destruct (Z.eq_dec n len) as [->|Nn].
  { exists 0, b. rewrite Z.sub_diag. split_and!; [|done|left; lia]. destruct fuel; [lia|done]. }
  destruct C as [?|(C1 & C2 & C3)]; [done|]. rewrite C1, u64_small.
  2:{ destruct (readable_spec _ _ _ _ O Rd) as (Hv & _). change TRAPFRAME with (2 ^ 38 - 8192) in Hv. lia. }
  destruct (IH (dst ++ b) (srcva + n) (len - n)) as (r & b' & -> & R2 & C);
    [lia|lia|lia|right; rewrite C2; lia|].
  exists r, (b ++ b'). rewrite app_assoc. split_and!; [done|apply reads_app; by rewrite ?Lb|].
  rewrite length_app, Nat2Z.inj_add, Lb, Z.add_assoc. destruct C as [C|(? & ? & ?)]; [left|right]; split_and!; done || lia.
Qed.

Lemma copyin_spec srcva len :
  0 <= srcva -> 0 <= len ->
  exists r b, copyin root srcva len s = Ok (r, b) s /\ reads srcva b /\
    (r = 0 /\ Z.of_nat (length b) = len \/
     r = -1 /\ Z.of_nat (length b) < len /\ readable (mem s) T (srcva + Z.of_nat (length b)) = false).
Proof. intros. apply copyin_loop_spec; try done; unfold PGSIZE; [|right]; zdm. Qed.

(** *** Strings *)

Lemma scan_nul_spec b :
  let '(r, got) := scan_nul b in
  (exists b', b = r ++ b') /\
  if got then exists c, r = c ++ [0] /\ 0 ∉ c else r = b /\ 0 ∉ b.
Proof.
  induction b as [|c b IH]; cbn [scan_nul].
  - split; [by exists []|]. split; [done|apply not_elem_of_nil].
  - destruct (Z.eqb_spec c 0) as [->|N].
    + split; [by exists b|]. exists []. split; [done|apply not_elem_of_nil].
    + destruct (scan_nul b) as [r [|]]; destruct IH as [(b' & E) IH].
      * split; [exists b'; by rewrite E|]. destruct IH as (c' & -> & N'). exists (c :: c'). split; [done|]. apply not_elem_of_cons. auto.
      * destruct IH as [-> IH]. split; [exists b'; cbn; by rewrite <- E|]. split; [done|]. apply not_elem_of_cons. auto.
Qed.

Lemma copyinstr_loop_spec fuel dst srcva max :
  0 <= srcva -> (0 < fuel)%nat -> 0 <= max ->
  max = 0 \/ srcva mod 4096 + max <= 4096 * (Z.of_nat fuel - 1) ->
  exists r b, copyinstr_loop fuel root dst srcva max s = Ok (r, dst ++ b) s /\ reads srcva b /\
    Z.of_nat (length b) <= max /\
    (r = 0 /\ (exists c, b = c ++ [0] /\ 0 ∉ c) \/
     r = -1 /\ (0 ∉ b) /\ (Z.of_nat (length b) = max \/
                         readable (mem s) T (srcva + Z.of_nat (length b)) = false)).
Proof.
  revert dst srcva max. induction fuel as [|fuel IH]; intros dst srcva max Hs Hf Hl Hb; [lia|].
  cbn [copyinstr_loop]. pose proof (not_elem_of_nil (0 : Z)) as N0. destruct (Z.ltb_spec 0 max) as [Hp|Hp].
  2:{ exists (-1), []. rewrite app_nil_r. split_and!; [done|apply reads_nil|cbn; lia|right; split_and!; cbn; try done; lia]. }
  unfold bind. rewrite copy_lookup by done. destruct (readable (mem s) T srcva) eqn:Rd.
  2:{ exists (-1), []. rewrite app_nil_r. cbn. split_and!; [done|apply reads_nil|lia|right].
      rewrite Z.add_0_r. split_and!; try done. by right. }
  rewrite readable_nonzero by done. rewrite pgdown_off.
  fold (user_pa (mem s) T srcva). set (n := Z.min _ max).
  destruct (page_step srcva max Hp) as (Hn & Hpg & C). fold n in Hn, Hpg, C. unfold gets.
  pose proof (reads_page srcva n Rd ltac:(lia) Hpg) as R1. set (b := read_bytes _ _ n) in *.
  assert (Lb : Z.of_nat (length b) = n) by (subst b; rewrite length_read_bytes; lia). clearbody b n.
  pose proof (Z.mod_pos_bound srcva 4096 ltac:(lia)) as Hmod.
  pose proof (scan_nul_spec b) as Sc. destruct (scan_nul b) as [c got]. destruct Sc as [(b' & Eb) Sc].
  destruct got.
  { exists 0, c. subst b. rewrite length_app in Lb. split_and!; [done|by eapply reads_prefix|lia|by left]. }
  destruct Sc as [-> Nc]. destruct (Z.eq_dec n max) as [->|Nn].
  { exists (-1), b. rewrite Z.sub_diag. split_and!; [|done|lia|right; split_and!; by (try done; left)].
    destruct fuel; [lia|done]. }
  destruct C as [?|(C1 & C2 & C3)]; [done|]. rewrite C1, u64_small.
  2:{ destruct (readable_spec _ _ _ _ O Rd) as (Hv & _). change TRAPFRAME with (2 ^ 38 - 8192) in Hv. lia. }
  destruct (IH (dst ++ b) (srcva + n) (max - n)) as (r & b2 & -> & R2 & L2 & C);
    [lia|lia|lia|right; rewrite C2; lia|].
  exists r, (b ++ b2). rewrite app_assoc, length_app, Nat2Z.inj_add, Lb, Z.add_assoc.
  split_and!; [done|apply reads_app; by rewrite ?Lb|lia|].
  destruct C as [(-> & c & -> & N)|(-> & N & C)]; [left; split; [done|]|right; split_and!; [done|set_solver|]].
  - exists (b ++ c). rewrite app_assoc. set_solver.
  - destruct C; [left; lia|by right].
Qed.

Lemma copyinstr_spec srcva max :
  0 <= srcva -> 0 <= max ->
  exists r b, copyinstr root srcva max s = Ok (r, b) s /\ reads srcva b /\
    Z.of_nat (length b) <= max /\
    (r = 0 /\ (exists c, b = c ++ [0] /\ 0 ∉ c) \/
     r = -1 /\ (0 ∉ b) /\ (Z.of_nat (length b) = max \/
                         readable (mem s) T (srcva + Z.of_nat (length b)) = false)).
Proof. intros. apply copyinstr_loop_spec; try done; unfold PGSIZE; [|right]; zdm. Qed.

End CopyIn.

(** ** Unmapping *)

(** The entry of [a] after [uvmunmap] has passed over it. *)
Lemma unmap_page_hole s root T l a :
  vm_inv s root T l -> 0 <= a < MAXVA -> has (pte_of (mem s) T a) PTE_V = false ->
  uvmunmap_page root a true s = Ok tt s.
Proof.
  intros I Ha V. unfold uvmunmap_page, bind. rewrite (walk_false s root T l) by done.
  destruct (pte_addr T a) as [x|] eqn:Ea; [|done].
  pose proof (pte_addr_nonzero _ _ _ _ _ (vm_pt _ _ _ _ I) Ea) as N. apply Z.eqb_neq in N as ->.
  unfold pte_of in V. rewrite Ea in V. mrun. by rewrite V.
Qed.

Lemma user_ok_drop m m' T l a :
  user_ok m T l -> 0 <= a < TRAPFRAME -> has (pte_of m T a) PTE_V = true ->
  (forall y, 0 <= y < MAXVA -> pte_of m' T y = if y / 4096 =? a / 4096 then 0 else pte_of m T y) ->
  user_ok m' T (PTE2PA (pte_of m T a) :: l).
Proof.
  intros O Ha V E. change TRAPFRAME with (MAXVA - 8192) in *.
  assert (K : forall x, 0 <= x < MAXVA - 8192 -> has (pte_of m' T x) PTE_V = true ->
     x / 4096 <> a / 4096 /\ has (pte_of m T x) PTE_V = true /\ pte_of m' T x = pte_of m T x).
  { intros x Hx. rewrite E by lia. destruct (Z.eqb_spec (x / 4096) (a / 4096)); [by rewrite has_0|done]. }
  split.
  - intros x Hx Vx. destruct (K x Hx Vx) as (N & Vx' & ->).
    destruct (uo_page _ _ _ O x Hx Vx') as [(P & Nl & F) Fl]. split; [split_and!; [done| |done]|done].
    apply not_elem_of_cons. split; [|done]. intros Eq. apply N. by eapply (uo_inj _ _ _ O).
  - intros x y Hx Hy Vx Vy. destruct (K x Hx Vx) as (_ & Vx' & ->), (K y Hy Vy) as (_ & Vy' & ->).
    by apply (uo_inj _ _ _ O).
  - intros x Hx. change TRAPFRAME with (MAXVA - 8192) in Hx. rewrite E by (change MAXVA with (2 ^ 38) in *; lia).
    destruct (_ =? _); [apply has_0|]. by apply (uo_kernel _ _ _ O).
Qed.

(** A user byte depends on its entry and on the bytes of its page. *)
Lemma user_byte_keep m m' T x :
  (readable m T x = true -> pte_of m' T x = pte_of m T x) ->
  (readable m T x = false -> readable m' T x = false) ->
  (readable m T x = true -> forall i, PTE2PA (pte_of m T x) <= i < PTE2PA (pte_of m T x) + PGSIZE ->
      bget m' i = bget m i) ->
  user_byte m' T x = user_byte m T x.
Proof.
  intros E N B. unfold user_byte. destruct (readable m T x) eqn:Rd; [|by rewrite N].
  assert (readable m' T x = true) as -> by (unfold readable in *; by rewrite E).
  unfold user_pa. rewrite E by done. f_equal. apply B; [done|]. unfold PGSIZE. zdm.
Qed.

(** [i] is a byte of one of the pages [l]. *)
Definition in_pages (l : list Z) (i : Z) : Prop := exists q, q ∈ l /\ q <= i < q + PGSIZE.

Definition in_tables (T : gmap (list Z) Z) (i : Z) : Prop :=
  exists p q, T !! p = Some q /\ q <= i < q + PGSIZE.

(** Giving a mapped page back. *)
Lemma unmap_page_mapped s root T l a :
  vm_inv s root T l -> user_ok (mem s) T l -> 0 <= a < TRAPFRAME ->
  has (pte_of (mem s) T a) PTE_V = true ->
  let q := PTE2PA (pte_of (mem s) T a) in
  exists s', uvmunmap_page root a true s = Ok tt s' /\ vm_inv s' root T (q :: l) /\
    user_ok (mem s') T (q :: l) /\
    (forall x, 0 <= x < MAXVA -> pte_of (mem s') T x = if x / 4096 =? a / 4096 then 0 else pte_of (mem s) T x) /\
    (forall x, x / 4096 <> a / 4096 -> user_byte (mem s') T x = user_byte (mem s) T x) /\
    (forall i, ~ in_tables T i -> ~ in_pages [q] i -> bget (mem s') i = bget (mem s) i) /\
    total_pages (kmem s') = total_pages (kmem s).
Proof.
  intros I O Ha V q. destruct (uo_page _ _ _ O a Ha V) as [Pq Fl]. fold q in Pq.
  assert (Ha' : 0 <= a < MAXVA) by (change TRAPFRAME with (MAXVA - 8192) in Ha; lia).
  destruct (valid_addr _ _ _ V) as (x & Ex & Lx).
  destruct (free_page s root T l q I Pq) as (s1 & E1 & I1 & S1 & O1 & Y1).
  destruct (set_pte s1 root T (q :: l) a x 0 I1 Ha' Ex ltac:(lia)) as (G & Z0 & Oth).
  set (s2 := with_mem s1 (store 8 (mem s1) x 0)) in *. pose proof (ex_inv _ _ _ _ _ _ _ G) as I2.
  assert (Pt : forall y, 0 <= y < MAXVA ->
     pte_of (mem s2) T y = if y / 4096 =? a / 4096 then 0 else pte_of (mem s) T y).
  { intros y Hy. destruct (Z.eqb_spec (y / 4096) (a / 4096)) as [E|N].
    - by rewrite (pte_of_page _ _ _ a E).
    - cbn. by rewrite Oth, S1. }
  exists s2. split_and!; [|done|by eapply user_ok_drop|done| | |exact Y1].
  - unfold uvmunmap_page, bind. rewrite (walk_found s root T l a x) by done.
    pose proof (pte_addr_nonzero _ _ _ _ _ (vm_pt _ _ _ _ I) Ex) as N. apply Z.eqb_neq in N as ->.
    unfold load64, gets. rewrite Lx, V. apply Z.eqb_neq in Fl as ->. cbn [negb]. fold q. by rewrite E1.
  - intros y Ny. assert (Ey : readable (mem s) T y = true -> pte_of (mem s2) T y = pte_of (mem s) T y).
    { intros Rd. unfold readable in Rd. zbool. rewrite Pt by done. by destruct (Z.eqb_spec (y / 4096) (a / 4096)). }
    apply user_byte_keep; [done| |].
    + unfold readable. intros Rd. destruct (0 <=? y) eqn:?, (y <? MAXVA) eqn:?; try done. zbool.
      rewrite Pt by done. by destruct (Z.eqb_spec (y / 4096) (a / 4096)).
    + intros Rd i Hi. destruct (readable_spec _ _ _ _ O Rd) as (Hy & Vy & Uy & Py).
      assert (Nq : PTE2PA (pte_of (mem s) T y) <> q) by (intros E; apply Ny; by eapply (uo_inj _ _ _ O)).
      rewrite (extends_keeps s1 T (q :: l) s2 root T (q :: l) (PTE2PA (pte_of (mem s) T y))); try done.
      * apply O1. pose proof (pages_apart _ _ (proj1 (proj1 Pq)) (proj1 (proj1 Py)) (not_eq_sym Nq)).
        unfold PGSIZE in *. lia.
      * destruct Py as (P1 & P2 & P3). split_and!; [done| |done]. by apply not_elem_of_cons.
  - intros i Nt Nq. cbn. rewrite bget_store_ne.
    + apply O1. intros Hi. apply Nq. exists q. set_solver.
    + intros Hi. apply Nt. unfold pte_addr in Ex. destruct (T !! _) as [pg|] eqn:Ep; [|done].
      injection Ex as <-. exists [PX 2 a; PX 1 a], pg. pose proof (PX_range 0 a). unfold PGSIZE. split; [done|lia].
Qed.


(** The pages mapped in a run of [n] pages from [a]. *)
Fixpoint mapped_run (m : ram) (T : gmap (list Z) Z) (n : nat) (a : Z) : list Z :=
  match n with
  | O => []
  | S n' =>
    (if has (pte_of m T a) PTE_V then [PTE2PA (pte_of m T a)] else []) ++ mapped_run m T n' (a + PGSIZE)
  end.

Lemma mapped_run_ext m m' T n a :
  (forall x, a <= x < a + Z.of_nat n * PGSIZE -> pte_of m' T x = pte_of m T x) ->
  mapped_run m' T n a = mapped_run m T n a.
Proof.
  revert a. induction n as [|n IH]; intros a E; [done|]. cbn [mapped_run].
  rewrite E by (unfold PGSIZE; lia). rewrite IH; [done|]. intros. apply E. unfold PGSIZE in *. lia.
Qed.

Lemma uvmunmap_loop_spec n s root T l a :
  vm_inv s root T l -> user_ok (mem s) T l -> 0 <= a -> a mod PGSIZE = 0 ->
  a + Z.of_nat n * PGSIZE <= TRAPFRAME ->
  exists s', uvmunmap_loop n root a (a + Z.of_nat n * PGSIZE) true s = Ok tt s' /\
    vm_inv s' root T (rev (mapped_run (mem s) T n a) ++ l) /\
    user_ok (mem s') T (rev (mapped_run (mem s) T n a) ++ l) /\
    (forall x, 0 <= x < MAXVA -> pte_of (mem s') T x =
       if in_run a (Z.of_nat n) x && has (pte_of (mem s) T x) PTE_V then 0 else pte_of (mem s) T x) /\
    (forall x, in_run a (Z.of_nat n) x = false -> user_byte (mem s') T x = user_byte (mem s) T x) /\
    (forall i, ~ in_tables T i -> ~ in_pages (mapped_run (mem s) T n a) i ->
       bget (mem s') i = bget (mem s) i) /\
    total_pages (kmem s') = total_pages (kmem s).
Proof.
  revert s l a. induction n as [|n IH]; intros s l a I O Ha Al Hn.
  { exists s. cbn. split_and!; try done. intros x _. unfold in_run. zcase; done || lia. }
  cbn [uvmunmap_loop mapped_run]. unfold PGSIZE in *.
  destruct (Z.ltb_spec a (a + Z.of_nat (S n) * 4096)); [|lia].
  assert (Ht : TRAPFRAME = 2 ^ 38 - 8192) by done. assert (Hm : MAXVA = 2 ^ 38) by done.
  rewrite u64_small by lia. unfold bind.
  replace (a + Z.of_nat (S n) * 4096) with (a + 4096 + Z.of_nat n * 4096) by lia.
  destruct (has (pte_of (mem s) T a) PTE_V) eqn:V.
  - destruct (unmap_page_mapped s root T l a I O ltac:(lia) V) as (s1 & -> & I1 & O1 & Pt1 & B1 & F1 & Y1).
    destruct (IH s1 _ (a + 4096) I1 O1) as (s2 & -> & I2 & O2 & Pt2 & B2 & F2 & Y2); [lia|zdm|lia|].
    rewrite (mapped_run_ext (mem s) (mem s1)) in I2, O2, F2.
    2,3,4: intros x Hx; rewrite Pt1 by (unfold PGSIZE in *; lia);
         destruct (Z.eqb_spec (x / 4096) (a / 4096)); [unfold PGSIZE in *; zdm|done].
    exists s2. cbn [app rev]. rewrite <- app_assoc. cbn. split_and!; try done; [| | |congruence].
    + intros x Hx. rewrite Pt2, Pt1 by done. unfold in_run, PGSIZE.
      destruct (Z.eqb_spec (x / 4096) (a / 4096)) as [E|N].
      * rewrite has_0, andb_false_r. rewrite (pte_of_page _ _ x a E), V. zcase; done || zdm.
      * zcase; done || zdm.
    + intros x Hx. unfold in_run, PGSIZE in *. rewrite B2, B1; [done| |]; revert Hx; zcase; done || zdm.
    + intros i Nt Ni. rewrite F2, F1; [done|done| |done|]; intros (y & Y & Hy); apply Ni; exists y; set_solver.
  - rewrite (unmap_page_hole s root T l a) by (done || lia).
    destruct (IH s _ (a + 4096) I O) as (s2 & -> & I2 & O2 & Pt2 & B2 & F2 & Y2); [lia|zdm|lia|].
    exists s2. split_and!; try done.
    + intros x Hx. rewrite Pt2 by done. unfold in_run, PGSIZE.
      destruct (Z.eqb_spec (x / 4096) (a / 4096)) as [E|N].
      * rewrite (pte_of_page _ _ x a E), V, !andb_false_r. done.
      * zcase; done || zdm.
    + intros x Hx. unfold in_run, PGSIZE in *. rewrite B2; [done|]; revert Hx; zcase; done || zdm.
Qed.

Lemma elem_of_mapped_run m T n a q :
  a mod PGSIZE = 0 ->
  q ∈ mapped_run m T n a <->
  exists x, in_run a (Z.of_nat n) x = true /\ has (pte_of m T x) PTE_V = true /\ q = PTE2PA (pte_of m T x).
Proof.
  unfold in_run, PGSIZE. revert a. induction n as [|n IH]; intros a Al; cbn [mapped_run].
  - split; [by intros ?%elem_of_nil|]. intros (x & Hx & _). zbool. lia.
  - unfold PGSIZE. rewrite elem_of_app, IH by zdm. split.
    + intros [Q|(x & Hx & V & ->)].
      * destruct (has (pte_of m T a) PTE_V) eqn:V; [|by apply elem_of_nil in Q].
        apply list_elem_of_singleton in Q as ->. exists a. split_and!; try done. zcase; done || lia.
      * exists x. split_and!; try done. zbool. zcase; done || lia.
    + intros (x & Hx & V & ->). zbool. destruct (Z.lt_ge_cases x (a + 4096)) as [Lt|Ge].
      * left. assert (E : x / 4096 = a / 4096) by zdm. rewrite <- (pte_of_page m T x a E), V. by apply list_elem_of_singleton.
      * right. exists x. split_and!; try done. zcase; done || lia.
Qed.

End User.
