(* ===== verification/VmCopy.v ===== *)
(** * Copying an address space

    [uvmcopy] runs on two page tables in the same memory: the parent's, which
    it only reads, and the child's, which it fills.  [pair_ok] is the relation
    between the two that each iteration keeps: the tables and the user pages
    of the two are disjoint, the parent is unchanged, and the pages below [i]
    have been copied. *)

From Stdlib Require Import ZArith Lia List.
From stdpp Require Import base tactics numbers list gmap sets relations strings.
From S2P Require Import Prelude Riscv Kalloc Vm VmFacts VmUser.

Section Copy.
Context `{LO : LayoutOk}.
Implicit Types (m : ram) (T : gmap (list Z) Z) (s : phys).

(** ** Frames *)

Lemma pt_ok_bytes m m' root T :
  pt_ok m root T -> (forall i, in_tables T i -> bget m' i = bget m i) ->
  pt_ok m' root T /\ forall va, pte_of m' T va = pte_of m T va.
Proof.
  intros P B. assert (W : forall p pg j, T !! p = Some pg -> 0 <= j < 512 ->
     load 8 m' (pg + 8 * j) = load 8 m (pg + 8 * j)).
  { intros p pg j E Hj. apply load_ext. intros i Hi. apply B. exists p, pg. unfold PGSIZE. split; [done|lia]. }
  split.
  - destruct P as [R Pg J C D N]. split; try done. intros p pg j E L Hj.
    rewrite (W p pg j E Hj). by apply N.
  - intros va. unfold pte_of, pte_addr. destruct (T !! _) as [pg|] eqn:E; [|done].
    apply (W _ _ _ E). apply PX_range. lia.
Qed.

Lemma vm_inv_keep s s' root T l l' :
  vm_inv s root T l -> kmem_inv s' l' -> (forall q, q ∈ l' -> q ∈ l) ->
  (forall i, in_tables T i -> bget (mem s') i = bget (mem s) i) ->
  vm_inv s' root T l' /\ same_ptes s T s' T.
Proof.
  intros [K P S] K' Sub B. destruct (pt_ok_bytes _ _ _ _ P B) as [P' E].
  split; [split; [done|done|]|done]. intros p pg Ep Hl. by apply (S p pg Ep), Sub.
Qed.

Lemma private_weaken T l l' q : (forall x, x ∈ l' -> x ∈ l) -> private T l q -> private T l' q.
Proof. intros S (P & N & F). split_and!; [done| |done]. intros X. by apply N, S. Qed.

(** ** Entries *)

Lemma flags_range e : 0 <= PTE_FLAGS e < 1024.
Proof.
  unfold PTE_FLAGS. change 0x3FF with (Z.ones 10). rewrite Z.land_ones by lia.
  apply (Z.mod_pos_bound e (2 ^ 10)). lia.
Qed.

Lemma flags_valid e : has e PTE_V = true -> Z.lor (PTE_FLAGS e) PTE_V = PTE_FLAGS e.
Proof.
  intros V. assert (B : Z.testbit e 0 = true).
  { destruct (Z.testbit e 0) eqn:B; [done|]. unfold has in V.
    assert (Z.land e PTE_V = 0) as X; [|by rewrite X in V].
    change PTE_V with (Z.ones 1). rewrite Z.land_ones by lia. change (2 ^ 1) with 2.
    rewrite Z.bit0_odd in B. rewrite Zmod_odd. by rewrite B. }
  apply Z.bits_inj'. intros n Hn. unfold PTE_FLAGS. rewrite Z.lor_spec, Z.land_spec.
  destruct (Z.eq_dec n 0) as [->|N].
  - by rewrite B.
  - change PTE_V with 1. rewrite (Z.bits_above_log2 1 n) by (cbn; lia). apply orb_false_r.
Qed.

(** ** One page *)

Section Step.
Context (s : phys) (new : Z) (Tn : gmap (list Z) Z) (q : Z) (l : list Z).
Context (I : vm_inv s new Tn (q :: l)).

Lemma copy_step i pg fl :
  0 <= i < TRAPFRAME -> i mod PGSIZE = 0 -> has (pte_of (mem s) Tn i) PTE_V = false ->
  private Tn (q :: l) pg -> 0 <= fl < 1024 ->
  exists s1 s2 r s3 Tn' l', kalloc s = Ok q s1 /\ copy_page q pg s1 = Ok tt s2 /\
    mappages new i PGSIZE q fl s2 = Ok r s3 /\ vm_inv s3 new Tn' l' /\ private Tn' l' q /\
    (forall x, private Tn (q :: l) x -> private Tn' l' x) /\ (exists t, l = t ++ l') /\ (length l <= 2 + length l')%nat /\
    (forall x, private Tn (q :: l) x -> forall k, x <= k < x + PGSIZE -> bget (mem s3) k = bget (mem s) k) /\
    total_pages (kmem s3) = total_pages (kmem s) /\
    (r = 0 /\ (forall x, 0 <= x < MAXVA -> pte_of (mem s3) Tn' x =
                 if x / 4096 =? i / 4096 then leaf q fl else pte_of (mem s) Tn x) /\
       (forall k, 0 <= k < PGSIZE -> bget (mem s3) (q + k) = bget (mem s) (pg + k)) \/
     r = -1 /\ l' = [] /\ (length (q :: l) <= 3)%nat /\
       (forall x, 0 <= x < MAXVA -> pte_of (mem s3) Tn' x = pte_of (mem s) Tn x)).
Proof.
  intros Hi Al Nv Pg Fl. destruct (alloc_page s new Tn l q I) as (s1 & E & I1 & Pq & S1 & O1 & Y1).
  assert (Pgl : private Tn l pg) by (eapply private_weaken; [|exact Pg]; set_solver).
  set (s2 := with_mem s1 (copy (mem s1) q pg PGSIZE)).
  assert (O2 : same_outside q (mem s1) (mem s2)).
  { intros k Hk. cbn. unfold copy, bget. cbn. zcase; done || lia. }
  destruct (write_private s1 new Tn l q (mem s2) I1 Pq O2) as [I2 S2]. fold s2 in I2, S2.
  change TRAPFRAME with (2 ^ 38 - 8192) in Hi. assert (Hm : MAXVA = 2 ^ 38) by done.
  pose proof (page_ok_pa q (proj1 Pq)) as [Rq Aq].
  destruct (mappages_spec 1 s2 new Tn l i q fl) as (r & s3 & T3 & l3 & j & Em & G & C & Pt & Nl);
    try (done || (unfold PGSIZE in *; lia)).
  { pose proof (page_ok_bounds q (proj1 Pq)). unfold PHYSTOP, KERNBASE, PGSIZE in *. lia. }
  { intros x. unfold in_run, PGSIZE in *. intros Hr. zbool. rewrite S2, S1.
    rewrite (pte_of_page _ _ x i); [done|zdm]. }
  assert (K : forall x, private Tn (q :: l) x -> forall k, x <= k < x + PGSIZE -> bget (mem s3) k = bget (mem s) k).
  { intros x Px k Hk. assert (Px' : private Tn l x) by (eapply private_weaken; [|exact Px]; set_solver).
    rewrite (extends_keeps s2 Tn l s3 new T3 l3 x) by done.
    destruct Px as (Px & Nx & _). apply not_elem_of_cons in Nx as [Nx _].
    pose proof (pages_apart x q (proj1 Px) Aq Nx). rewrite O2, O1; unfold PGSIZE in *; done || lia. }
  exists s1, s2, r, s3, T3, l3. split_and!; try done;
    [apply G|by eapply extends_private|..|rewrite (ex_total _ _ _ _ _ _ _ G); done|].
  - intros x Px. eapply extends_private; [done|]. eapply private_weaken; [|exact Px]. set_solver.
  - destruct (ex_free _ _ _ _ _ _ _ G) as (t & -> & _). by exists t.
  - lia.
  - assert (Hp : forall x, in_run i 1 x = (x / 4096 =? i / 4096)) by (intros x; unfold in_run, PGSIZE in *; zcase; done || zdm).
    destruct C as [[-> ->]|(-> & Hj & ->)]; [left|right]; split_and!; try done.
    + intros x Hx. rewrite Pt, S2, S1, Hp by done. unfold mapped_at.
      destruct (Z.eqb_spec (x / 4096) (i / 4096)); [|done]. f_equal. unfold PGSIZE in *. zdm.
    + intros k Hk. rewrite (extends_keeps s2 Tn l s3 new T3 l3 q) by (done || lia).
      destruct Pg as (Pp & Np & _). apply not_elem_of_cons in Np as [Np _].
      pose proof (pages_apart pg q (proj1 Pp) Aq Np). rewrite <- O1 by (unfold PGSIZE in *; lia).
      cbn. unfold copy, bget. cbn. zcase; try lia. do 2 f_equal. lia.
    + cbn in *. lia.
    + assert (j = 0) as -> by lia. intros x Hx. rewrite Pt, S2, S1 by done. unfold in_run. zcase; try done. unfold PGSIZE in *. lia.
Qed.
End Step.

(** ** The loop *)

Section Loop.
Context (m0 : ram) (old : Z) (To : gmap (list Z) Z) (new : Z).
Context (P0 : pt_ok m0 old To).

(** The pages of the parent: its tables and what they map. *)
Definition oldpage (pg : Z) : Prop :=
  (exists p, To !! p = Some pg) \/
  (exists va, 0 <= va < TRAPFRAME /\ has (pte_of m0 To va) PTE_V = true /\ pg = PTE2PA (pte_of m0 To va)).

Definition copied (m : ram) (Tn : gmap (list Z) Z) (x : Z) : Prop :=
  has (pte_of m0 To x) PTE_V = true /\ has (pte_of m Tn x) PTE_V = true /\
  PTE_FLAGS (pte_of m Tn x) = PTE_FLAGS (pte_of m0 To x) /\
  forall k, 0 <= k < PGSIZE -> bget m (PTE2PA (pte_of m Tn x) + k) = bget m0 (PTE2PA (pte_of m0 To x) + k).

Record pair_ok (s : phys) (Tn : gmap (list Z) Z) (l : list Z) (i : Z) : Prop := {
  po_new : vm_inv s new Tn l;
  po_user : user_ok (mem s) Tn l;
  po_priv : forall pg, oldpage pg -> private Tn l pg;
  po_cross : forall pg va, oldpage pg -> 0 <= va < TRAPFRAME -> has (pte_of (mem s) Tn va) PTE_V = true ->
    PTE2PA (pte_of (mem s) Tn va) <> pg;
  po_bytes : forall pg k, oldpage pg -> pg <= k < pg + PGSIZE -> bget (mem s) k = bget m0 k;
  po_copied : forall x, 0 <= x < i -> copied (mem s) Tn x;
  po_rest : forall x, i <= x < TRAPFRAME -> has (pte_of (mem s) Tn x) PTE_V = false
}.

Lemma old_inv s Tn l :
  vm_inv s new Tn l -> (forall pg, oldpage pg -> pg ∉ l) ->
  (forall pg k, oldpage pg -> pg <= k < pg + PGSIZE -> bget (mem s) k = bget m0 k) ->
  vm_inv s old To l /\ forall va, pte_of (mem s) To va = pte_of m0 To va.
Proof.
  intros I Nl B. destruct (pt_ok_bytes m0 (mem s) old To P0) as [P E].
  { intros i (p & pg & Ep & Hi). apply (B pg); [left; eauto|done]. }
  split; [|done]. split; [apply I|done|]. intros p pg Ep. apply Nl. left. eauto.
Qed.

Lemma pair_old s Tn l i : pair_ok s Tn l i ->
  vm_inv s old To l /\ forall va, pte_of (mem s) To va = pte_of m0 To va.
Proof.
  intros R. eapply old_inv; [apply R|intros pg Pg; by apply (po_priv _ _ _ _ R)|apply R].
Qed.

(** A page mapped into a table whose user pages were in order. *)
Lemma user_ok_add m m' T T' q l l' i fl :
  user_ok m T (q :: l) -> private T' l' q -> (forall x, private T (q :: l) x -> private T' l' x) ->
  0 <= i < TRAPFRAME -> has (pte_of m T i) PTE_V = false ->
  PTE2PA (leaf q fl) = q -> PTE_FLAGS (leaf q fl) <> PTE_V ->
  (forall x, 0 <= x < MAXVA -> pte_of m' T' x = if x / 4096 =? i / 4096 then leaf q fl else pte_of m T x) ->
  user_ok m' T' l'.
Proof.
  intros O Pq Mono Hi Nv E2 Ef Pt. change TRAPFRAME with (2 ^ 38 - 8192) in *. assert (Hm : MAXVA = 2 ^ 38) by done.
  assert (Nq : forall x, 0 <= x < 2 ^ 38 - 8192 -> has (pte_of m T x) PTE_V = true -> PTE2PA (pte_of m T x) <> q).
  { intros x Hx V E. destruct (uo_page _ _ _ O x Hx V) as [(_ & N & _) _]. rewrite E in N. set_solver. }
  assert (Ht : TRAPFRAME = 2 ^ 38 - 8192) by done. split; rewrite Ht.
  - intros x Hx. rewrite Pt by lia. destruct (_ =? _); [by rewrite E2|]. intros V.
    destruct (uo_page _ _ _ O x Hx V). auto.
  - intros x y Hx Hy. rewrite !Pt by lia.
    destruct (Z.eqb_spec (x / 4096) (i / 4096)), (Z.eqb_spec (y / 4096) (i / 4096)); rewrite ?E2; intros Vx Vy E.
    + congruence.
    + by destruct (Nq y Hy Vy).
    + by destruct (Nq x Hx Vx).
    + by apply (uo_inj _ _ _ O).
  - intros x Hx. rewrite Pt by lia.
    destruct (Z.eqb_spec (x / 4096) (i / 4096)); [zdm|]. by apply (uo_kernel _ _ _ O).
Qed.
Context (l0 : list Z) (U0 : user_ok m0 To l0).

Lemma leaf_copy q x :
  page_ok q -> 0 <= x < TRAPFRAME -> has (pte_of m0 To x) PTE_V = true ->
  let e := leaf q (PTE_FLAGS (pte_of m0 To x)) in
  PTE2PA e = q /\ PTE_FLAGS e = PTE_FLAGS (pte_of m0 To x) /\ PTE_FLAGS e <> PTE_V /\ has e PTE_V = true.
Proof.
  intros Pq Hx V e. pose proof (page_ok_pa q Pq) as [Rq Aq].
  destruct (leaf_facts q (PTE_FLAGS (pte_of m0 To x)) Rq Aq (flags_range _)) as (L1 & L2 & L3 & _).
  fold e in L1, L2, L3. rewrite flags_valid in L2 by done.
  split_and!; try done. rewrite L2. by apply (uo_page _ _ _ U0).
Qed.

Lemma pair_next s Tn q l i s' Tn' l' :
  pair_ok s Tn (q :: l) i -> 0 <= i -> i mod PGSIZE = 0 -> i + PGSIZE <= TRAPFRAME ->
  has (pte_of m0 To i) PTE_V = true ->
  vm_inv s' new Tn' l' -> private Tn' l' q -> (forall x, private Tn (q :: l) x -> private Tn' l' x) ->
  (forall x, private Tn (q :: l) x -> forall k, x <= k < x + PGSIZE -> bget (mem s') k = bget (mem s) k) ->
  (forall x, 0 <= x < MAXVA -> pte_of (mem s') Tn' x =
     if x / 4096 =? i / 4096 then leaf q (PTE_FLAGS (pte_of m0 To i)) else pte_of (mem s) Tn x) ->
  (forall k, 0 <= k < PGSIZE -> bget (mem s') (q + k) = bget (mem s) (PTE2PA (pte_of m0 To i) + k)) ->
  pair_ok s' Tn' l' (i + PGSIZE).
Proof.
  intros R Hi Al Ht V I' Pq Mono K Pt Bq. change MAXVA with (TRAPFRAME + 8192) in Pt. unfold PGSIZE in *.
  destruct (leaf_copy q i (proj1 Pq) ltac:(lia) V) as (L1 & L2 & L3 & L4).
  set (e := leaf q _) in *. split; try done.
  - eapply (user_ok_add (mem s) (mem s') Tn Tn' q l l' i); try done; [apply R|lia|]. apply (po_rest _ _ _ _ R). lia.
  - intros pg Pg. by apply Mono, (po_priv _ _ _ _ R).
  - intros pg va Pg Hva. rewrite Pt by lia. destruct (_ =? _); [|by apply (po_cross _ _ _ _ R)].
    intros _. rewrite L1. intros <-. destruct (po_priv _ _ _ _ R q Pg) as (_ & N & _). set_solver.
  - intros pg k Pg Hk. rewrite (K pg) by (done || by apply (po_priv _ _ _ _ R)). by apply (po_bytes _ _ _ _ R pg).
  - intros x Hx. unfold copied. rewrite Pt by lia. destruct (Z.eqb_spec (x / 4096) (i / 4096)) as [E|N].
    + rewrite (pte_of_page m0 To x i E). split_and!; try done. intros k Hk. rewrite L1, Bq by done.
      apply (po_bytes _ _ _ _ R (PTE2PA (pte_of m0 To i))); [right; exists i; split_and!; done || lia|].
      unfold PGSIZE in *. lia.
    + destruct (po_copied _ _ _ _ R x) as (C1 & C2 & C3 & C4); [zdm|]. split_and!; try done.
      intros k Hk. rewrite <- C4 by done. destruct (uo_page _ _ _ (po_user _ _ _ _ R) x) as [Px _]; [lia|done|].
      apply (K _ Px). unfold PGSIZE in *. lia.
  - intros x Hx. rewrite Pt by lia. destruct (Z.eqb_spec (x / 4096) (i / 4096)); [zdm|].
    apply (po_rest _ _ _ _ R). lia.
Qed.

(** The child's pages are all given back. *)
Definition undone (s' : phys) (Tn : gmap (list Z) Z) (l' : list Z) : Prop :=
  vm_inv s' new Tn l' /\ vm_inv s' old To l' /\
  (forall x, 0 <= x < TRAPFRAME -> has (pte_of (mem s') Tn x) PTE_V = false) /\
  (forall va, pte_of (mem s') To va = pte_of m0 To va) /\
  (forall pg k, oldpage pg -> pg <= k < pg + PGSIZE -> bget (mem s') k = bget m0 k).

Lemma in_mapped_run m T n a q :
  a mod PGSIZE = 0 -> q ∈ mapped_run m T n a ->
  exists x, a <= x < a + Z.of_nat n * PGSIZE /\ has (pte_of m T x) PTE_V = true /\ q = PTE2PA (pte_of m T x).
Proof.
  intros Al (x & Hx & V & ->)%elem_of_mapped_run; [|done]. exists x. unfold in_run in Hx. zbool. done.
Qed.

Lemma uvmcopy_err_spec s Tn l i :
  pair_ok s Tn l i -> 0 <= i <= TRAPFRAME -> i mod PGSIZE = 0 ->
  exists s' l', uvmcopy_err new i s = Ok (-1) s' /\ undone s' Tn l'.
Proof.
  intros R Hi Al. change TRAPFRAME with (2 ^ 38 - 8192) in *. unfold PGSIZE in *.
  destruct (uvmunmap_loop_spec (Z.to_nat (i / 4096)) s new Tn l 0) as (s' & E & I' & U' & Pt & B & F & Y);
    [apply R|apply R|lia|done|unfold PGSIZE; change TRAPFRAME with (2 ^ 38 - 8192); zdm|].
  rewrite Z2Nat.id in * by zdm. unfold PGSIZE in *. replace (i / 4096 * 4096) with i in E by zdm.
  set (l' := rev _ ++ l) in *.
  assert (Bo : forall pg k, oldpage pg -> pg <= k < pg + PGSIZE -> bget (mem s') k = bget m0 k).
  { intros pg k Pg Hk. rewrite <- (po_bytes _ _ _ _ R pg k Pg Hk).
    pose proof (po_priv _ _ _ _ R pg Pg) as (Pp & Np & Fp). apply F.
    - intros (p & q & Eq & Hq). pose proof (page_aligned _ _ _ _ _ (vm_pt _ _ _ _ (po_new _ _ _ _ R)) Eq) as Aq.
      assert (N : q <> pg) by (intros ->; by apply (Fp p)).
      pose proof (pages_apart q pg Aq (proj1 Pp) N). unfold PGSIZE in *. lia.
    - intros (q & (x & Hx & Vx & ->)%(in_mapped_run _ _ _ 0 _ eq_refl) & Hq). rewrite Z2Nat.id in Hx by zdm. unfold PGSIZE in *.
      assert (Hx' : 0 <= x < TRAPFRAME) by (change TRAPFRAME with (2 ^ 38 - 8192); zdm).
      pose proof (po_cross _ _ _ _ R pg x Pg Hx' Vx) as N.
      destruct (uo_page _ _ _ (po_user _ _ _ _ R) x Hx' Vx) as [(Px & _) _].
      pose proof (pages_apart _ _ (proj1 Px) (proj1 Pp) N). unfold PGSIZE in *. lia. }
  assert (Nl : forall pg, oldpage pg -> pg ∉ l').
  { intros pg Pg. subst l'. rewrite elem_of_app, list_elem_of_In, <- in_rev, <- list_elem_of_In.
    intros [Q|Q]; [|by apply (po_priv _ _ _ _ R pg Pg)]. apply (in_mapped_run _ _ _ 0 _ eq_refl) in Q as (x & Hx & Vx & ->).
    rewrite Z2Nat.id in Hx by zdm. unfold PGSIZE in *.
    apply (po_cross _ _ _ _ R _ x Pg); [change TRAPFRAME with (2 ^ 38 - 8192); zdm|done|done]. }
  destruct (old_inv s' Tn l' I' Nl Bo) as [Io Eo].
  exists s', l'. split_and!; [|split_and!; try done].
  - unfold uvmcopy_err, uvmunmap, bind. unfold PGSIZE. change (0 mod 4096 =? 0) with true. cbn [negb].
    replace (u64 (0 + u64 (i / 4096 * 4096))) with (0 + i); [by rewrite E|].
    replace (i / 4096 * 4096) with i by zdm. rewrite (u64_small i), u64_small; lia.
  - intros x Hx. change TRAPFRAME with (2 ^ 38 - 8192) in Hx. rewrite Pt by (change MAXVA with (2 ^ 38); lia).
    destruct (in_run 0 _ x) eqn:Rn.
    + by destruct (has (pte_of (mem s) Tn x) PTE_V) eqn:V; cbn; rewrite ?has_0.
    + cbn. apply (po_rest _ _ _ _ R). change TRAPFRAME with (2 ^ 38 - 8192).
      revert Rn. unfold in_run, PGSIZE. zcase; try done; zdm.
Qed.

(** The page that could not be mapped is freed again. *)
Lemma pair_fail s Tn q l i s3 Tn' :
  pair_ok s Tn (q :: l) i -> 
  vm_inv s3 new Tn' [] -> private Tn' [] q -> (forall x, private Tn (q :: l) x -> private Tn' [] x) ->
  (forall x, private Tn (q :: l) x -> forall k, x <= k < x + PGSIZE -> bget (mem s3) k = bget (mem s) k) ->
  (forall x, 0 <= x < MAXVA -> pte_of (mem s3) Tn' x = pte_of (mem s) Tn x) -> 0 <= i <= TRAPFRAME ->
  exists s4, kfree q s3 = Ok tt s4 /\ pair_ok s4 Tn' [q] i.
Proof.
  intros R I3 Pq Mono K Pt Hi. destruct (free_page s3 new Tn' [] q I3 Pq) as (s4 & E & I4 & S4 & O4 & Y4).
  exists s4. split; [done|]. change MAXVA with (TRAPFRAME + 8192) in Pt. assert (Htf : TRAPFRAME = 2 ^ 38 - 8192) by done.
  assert (K4 : forall x, private Tn (q :: l) x -> forall k, x <= k < x + PGSIZE -> bget (mem s4) k = bget (mem s) k).
  { intros x Px k Hk. rewrite <- (K x Px k Hk). apply O4. destruct Px as (Px & Nx & _).
    apply not_elem_of_cons in Nx as [Nx _].
    pose proof (pages_apart x q (proj1 Px) (proj1 (proj1 Pq)) Nx). unfold PGSIZE in *. lia. }
  assert (Mono4 : forall x, private Tn (q :: l) x -> private Tn' [q] x).
  { intros x Px. destruct (Mono x Px) as (P & _ & F). split_and!; [done| |done].
    destruct Px as (_ & Nx & _). apply not_elem_of_cons in Nx as [Nx _].
    apply not_elem_of_cons. split; [done|apply not_elem_of_nil]. }
  assert (E4 : forall x, 0 <= x < TRAPFRAME + 8192 -> pte_of (mem s4) Tn' x = pte_of (mem s) Tn x).
  { intros x Hx. by rewrite S4, Pt. }
  split; try done.
  - destruct (po_user _ _ _ _ R) as [U1 U2 U3]. split.
    + intros x Hx. rewrite E4 by lia. intros V. destruct (U1 x Hx V). auto.
    + intros x y Hx Hy. rewrite !E4 by lia. auto.
    + intros x Hx. rewrite E4 by (change MAXVA with (TRAPFRAME + 8192) in Hx; lia). auto.
  - intros pg Pg. by apply Mono4, (po_priv _ _ _ _ R).
  - intros pg va Pg Hva. rewrite E4 by lia. by apply (po_cross _ _ _ _ R).
  - intros pg k Pg Hk. rewrite (K4 pg) by (done || by apply (po_priv _ _ _ _ R)). by apply (po_bytes _ _ _ _ R pg).
  - intros x Hx. unfold copied. rewrite E4 by lia. destruct (po_copied _ _ _ _ R x Hx) as (C1 & C2 & C3 & C4).
    split_and!; try done. intros k Hk. rewrite <- C4 by done.
    destruct (uo_page _ _ _ (po_user _ _ _ _ R) x) as [Px _]; [lia|done|]. apply (K4 _ Px). lia.
  - intros x Hx. rewrite E4 by lia. by apply (po_rest _ _ _ _ R).
Qed.

Lemma uvmcopy_step fuel s l i sz e :
  vm_inv s old To l -> 0 <= i < MAXVA -> i < sz -> pte_of (mem s) To i = e -> has e PTE_V = true ->
  uvmcopy_loop (S fuel) old new i sz s =
  (let* m := kalloc in
   if m =? 0 then uvmcopy_err new i
   else
     do copy_page m (PTE2PA e) ;;;
     let* r := mappages new i PGSIZE m (PTE_FLAGS e) in
     if negb (r =? 0) then do kfree m ;;; uvmcopy_err new i
     else uvmcopy_loop fuel old new (u64 (i + PGSIZE)) sz) s.
Proof.
  intros I Hi Hlt E V. cbn [uvmcopy_loop]. destruct (Z.ltb_spec i sz); [|lia]. rewrite <- E in V.
  destruct (valid_addr _ _ _ V) as (a & Ea & La). unfold bind at 1. rewrite (walk_found s old To l i a) by done.
  pose proof (pte_addr_nonzero _ _ _ _ _ P0 Ea) as N. apply Z.eqb_neq in N as ->.
  unfold bind at 1. unfold load64, gets. by rewrite La, E in *; rewrite V.
Qed.

(** Every outcome of the loop from page [i] on; [n] is the number of pages
    left.  With three free pages for each of them, and one more, the copy does
    not run out of memory. *)
Lemma uvmcopy_loop_spec fuel s Tn l i sz :
  pair_ok s Tn l i -> 0 <= i -> i mod PGSIZE = 0 -> 0 <= sz <= TRAPFRAME ->
  i < sz + PGSIZE -> sz - i <= (Z.of_nat fuel - 1) * PGSIZE -> (0 < fuel)%nat ->
  (exists s' Tn' l' j, uvmcopy_loop fuel old new i sz s = Ok 0 s' /\ pair_ok s' Tn' l' j /\ sz <= j) \/
  (exists s' Tn' l', uvmcopy_loop fuel old new i sz s = Ok (-1) s' /\ undone s' Tn' l' /\
     Z.of_nat (length l) < 3 * ((sz - i + PGSIZE - 1) / PGSIZE) + 1) \/
  (exists msg x, uvmcopy_loop fuel old new i sz s = Panic msg /\ i <= x < sz /\
     has (pte_of m0 To x) PTE_V = false).
Proof.
  revert s Tn l i. induction fuel as [|fuel IH]; intros s Tn l i R Hi Al Hsz Hlt Hf Hf0; [lia|].
  change TRAPFRAME with (2 ^ 38 - 8192) in *. unfold PGSIZE in *.
  destruct (Z.ltb_spec i sz) as [Hlt'|Hge].
  2:{ left. exists s, Tn, l, i. cbn [uvmcopy_loop]. destruct (Z.ltb_spec i sz); [lia|]. split_and!; done. }
  destruct (pair_old s Tn l i R) as [Io Eo].
  assert (Him : 0 <= i < MAXVA) by (change MAXVA with (2 ^ 38); lia).
  destruct (has (pte_of m0 To i) PTE_V) eqn:V.
  2:{ right; right. cbn [uvmcopy_loop]. destruct (Z.ltb_spec i sz); [|lia]. unfold bind. rewrite (walk_false s old To l) by done.
      assert (H' : forall msg, exists msg' x, Panic msg = @Panic phys Z msg' /\ i <= x < sz /\ has (pte_of m0 To x) PTE_V = false).
      { intros msg. exists msg, i. split_and!; done || lia. }
      destruct (pte_addr To i) as [a|] eqn:Ea; [|apply H'].
      pose proof (pte_addr_nonzero _ _ _ _ _ P0 Ea) as N. apply Z.eqb_neq in N as ->.
      rewrite <- Eo in V. unfold pte_of in V. rewrite Ea in V. unfold load64, gets. rewrite V. apply H'. }
  assert (Hpg : i + 4096 <= 2 ^ 38 - 8192) by zdm.
  rewrite (uvmcopy_step fuel s l i sz _ Io Him Hlt' (Eo i) V).
  assert (Ht : 0 <= i <= 2 ^ 38 - 8192) by lia.
  destruct l as [|q l].
  { right; left. unfold bind. rewrite kalloc_nil by apply R. cbn [Z.eqb].
    destruct (uvmcopy_err_spec s Tn [] i R Ht Al) as (s' & l' & -> & Un).
    exists s', Tn, l'. split_and!; try done. change (Z.of_nat (length [])) with 0. zdm. }
  destruct (copy_step s new Tn q l (po_new _ _ _ _ R) i (PTE2PA (pte_of m0 To i)) (PTE_FLAGS (pte_of m0 To i)))
    as (s1 & s2 & r & s3 & Tn' & l' & E1 & E2 & E3 & I3 & Pq & Mono & (t & Et) & Ln & K & Y & C);
    [change TRAPFRAME with (2 ^ 38 - 8192); lia|done|apply (po_rest _ _ _ _ R); change TRAPFRAME with (2 ^ 38 - 8192); lia
    |apply (po_priv _ _ _ _ R); right; exists i; change TRAPFRAME with (2 ^ 38 - 8192); split_and!; done || lia|apply flags_range|].
  unfold bind. rewrite E1, (alloc_nonzero _ _ _ _ _ (po_new _ _ _ _ R)), E2, E3.
  destruct C as [(-> & Pt & Bq)|(-> & -> & L3 & Pt)]; cbn [Z.eqb negb].
  - assert (R' : pair_ok s3 Tn' l' (i + PGSIZE)) by (eapply pair_next; try done; change TRAPFRAME with (2 ^ 38 - 8192); lia).
    unfold PGSIZE in R' |- *. rewrite u64_small by lia.
    destruct (IH s3 Tn' l' (i + 4096) R') as [D|[D|D]]; [lia|zdm|lia|lia|lia|zdm|..].
    + by left.
    + right; left. destruct D as (s' & T' & l2 & E & Un & Lt). exists s', T', l2. split_and!; [done..|].
      cbn [length] in *. revert Lt. zdm.
    + right; right. destruct D as (msg & x & E & Hx & Vx). exists msg, x. split_and!; done || lia.
  - destruct (pair_fail s Tn q l i s3 Tn' R I3 Pq Mono K Pt) as (s4 & -> & R4).
    { change TRAPFRAME with (2 ^ 38 - 8192). lia. }
    right; left. destruct (uvmcopy_err_spec s4 Tn' [q] i R4 Ht Al) as (s' & l4 & -> & Un).
    exists s', Tn', l4. split_and!; try done. zdm.
Qed.

End Loop.

(** ** The whole copy *)

Lemma has_flags e k : 0 <= k < 1024 -> has e k = has (PTE_FLAGS e) k.
Proof.
  intros Hk. unfold has, PTE_FLAGS. rewrite <- Z.land_assoc.
  assert (Z.land 0x3FF k = k) as ->; [|done].
  rewrite Z.land_comm. change 0x3FF with (Z.ones 10). rewrite Z.land_ones by lia.
  apply Z.mod_small. change (2 ^ 10) with 1024. lia.
Qed.

Lemma copied_user m0 To m Tn x :
  copied m0 To m Tn x -> user_byte m Tn x = user_byte m0 To x.
Proof.
  intros (V & V' & F & B). unfold user_byte.
  assert (readable m Tn x = readable m0 To x) as ->.
  { unfold readable. rewrite V, V', (has_flags _ PTE_U), F, <- has_flags by (change PTE_U with 16; lia). done. }
  destruct (readable m0 To x); [|done]. unfold user_pa. rewrite B; [done|]. unfold PGSIZE. zdm.
Qed.

Lemma old_user m0 m To x :
  (forall va, pte_of m To va = pte_of m0 To va) -> (forall y, TRAPFRAME <= y < MAXVA -> has (pte_of m0 To y) PTE_U = false) ->
  (forall pg k, oldpage m0 To pg -> pg <= k < pg + PGSIZE -> bget m k = bget m0 k) ->
  user_byte m To x = user_byte m0 To x.
Proof.
  intros E K B. unfold user_byte. assert (readable m To x = readable m0 To x) as -> by (unfold readable; by rewrite E).
  destruct (readable m0 To x) eqn:Rd; [|done]. unfold user_pa. rewrite E. f_equal.
  apply (B (PTE2PA (pte_of m0 To x))); [|unfold PGSIZE; zdm]. right. exists x. unfold readable in Rd. zbool.
  split_and!; try done. destruct (Z.lt_ge_cases x TRAPFRAME); [done|]. rewrite K in *; done.
Qed.

Section Whole.
Context (s : phys) (old : Z) (To : gmap (list Z) Z) (new : Z) (Tn : gmap (list Z) Z) (l : list Z) (sz : Z).
Context (Io : vm_inv s old To l) (Uo : user_ok (mem s) To l) (In_ : vm_inv s new Tn l) (Un : user_ok (mem s) Tn l).
Context (Empty : forall x, 0 <= x < TRAPFRAME -> has (pte_of (mem s) Tn x) PTE_V = false).
Context (Apart : forall pg, oldpage (mem s) To pg -> private Tn l pg) (Hsz : 0 <= sz <= TRAPFRAME).

Lemma pair_start : pair_ok (mem s) To new s Tn l 0.
Proof.
  split; try done.
  - intros pg va _ Hva V. by rewrite Empty in V.
  - intros x Hx. lia.
Qed.

Lemma uvmcopy_outcomes :
  (exists s' Tn' l' j, uvmcopy old new sz s = Ok 0 s' /\ pair_ok (mem s) To new s' Tn' l' j /\ sz <= j) \/
  (exists s' Tn' l', uvmcopy old new sz s = Ok (-1) s' /\ undone (mem s) old To new s' Tn' l' /\
     Z.of_nat (length l) < 3 * ((sz + PGSIZE - 1) / PGSIZE) + 1) \/
  (exists msg x, uvmcopy old new sz s = Panic msg /\ 0 <= x < sz /\ has (pte_of (mem s) To x) PTE_V = false).
Proof.
  unfold uvmcopy.
  destruct (uvmcopy_loop_spec (mem s) old To new (vm_pt _ _ _ _ Io) l Uo (Z.to_nat (sz / PGSIZE + 2)) s Tn l 0 sz)
    as [D|[D|D]]; [apply pair_start|done|done|done|unfold PGSIZE; lia|unfold PGSIZE; zdm|unfold PGSIZE; zdm|..].
  - by left.
  - right; left. by replace (sz - 0 + PGSIZE - 1) with (sz + PGSIZE - 1) in D by lia.
  - by right; right.
Qed.
End Whole.

End Copy.
