(* ===== verification/VmProps.v ===== *)
(** * What the virtual-memory code guarantees

    The theorems about kernel/vm.c, with the lemmas of VmFacts, VmUser and
    VmCopy, and a concrete address space on which each of them applies. *)

From Stdlib Require Import ZArith Lia List.
From stdpp Require Import base tactics numbers list gmap sets relations strings.
From S2P Require Import Prelude Riscv Kalloc Vm VmFacts VmUser VmCopy.

Section Properties.
Context `{LO : LayoutOk}.
Implicit Types (T : gmap (list Z) Z) (s : phys).

(** C29: [mappages] on a run of pages that is not mapped either maps every page
    of the run, in order and with the given permissions, and returns 0, or runs
    out of memory and returns -1 with a prefix of the run mapped; it changes no
    other entry, only adds tables, writes no byte outside tables and free
    pages, and needs at most two new tables per page. *)
Theorem mappages_correct k s root T l va pa perm :
  vm_inv s root T l -> 0 < k ->
  0 <= va -> va mod PGSIZE = 0 -> va + k * PGSIZE <= MAXVA ->
  0 <= pa -> pa mod PGSIZE = 0 -> pa + k * PGSIZE <= 2 ^ 56 -> 0 <= perm < 1024 ->
  (forall va', in_run va k va' = true -> has (pte_of (mem s) T va') PTE_V = false) ->
  exists r s' T' l' j,
    mappages root va (k * PGSIZE) pa perm s = Ok r s' /\
    vm_inv s' root T' l' /\ T ⊆ T' /\
    (r = 0 /\ j = k \/ r = -1 /\ 0 <= j < k /\ l' = [] /\ Z.of_nat (length l) <= 2 * k) /\
    (forall va', 0 <= va' < MAXVA -> pte_of (mem s') T' va' =
       if in_run va j va' then leaf (pa + 4096 * ((va' - va) / 4096)) perm else pte_of (mem s) T va') /\
    (forall i, ~ owned T l i -> bget (mem s') i = bget (mem s) i).
Proof.
  intros I Hk H1 H2 H3 H4 H5 H6 H7 Hv.
  destruct (mappages_spec k s root T l va pa perm) as (r & s' & T' & l' & j & E & G & C & Pt & Nl); try done.
  exists r, s', T', l', j. split_and!; [done|apply G|apply G| |done|apply G].
  destruct C as [C|(-> & Hj & ->)]; [by left|right; split_and!; done || (cbn in Nl; lia)].
Qed.

(** C28: a page fault handled by [lazy_alloc] on an address with no valid entry
    maps one zeroed page there, readable and writable by the user, and returns
    0; no other entry and no byte outside tables and free pages changes.  When
    memory is short (at most three free pages) it may instead return -1, with
    every entry unchanged and the page it took back on the free list. *)
Theorem lazy_alloc_correct s root T l q va :
  vm_inv s root T (q :: l) -> 0 <= va < MAXVA -> has (pte_of (mem s) T va) PTE_V = false ->
  exists r s' T' l', lazy_alloc root va s = Ok r s' /\ vm_inv s' root T' l' /\ T ⊆ T' /\
    (r = 0 /\ private T' l' q /\
     (forall va', 0 <= va' < MAXVA -> pte_of (mem s') T' va' =
        if va' / 4096 =? va / 4096 then leaf q (Z.lor (Z.lor PTE_R PTE_W) PTE_U) else pte_of (mem s) T va') /\
     (forall i, q <= i < q + PGSIZE -> bget (mem s') i = 0) \/
     r = -1 /\ l' = [q] /\ (length (q :: l) <= 3)%nat /\
     forall va', 0 <= va' < MAXVA -> pte_of (mem s') T' va' = pte_of (mem s) T va') /\
    (forall i, ~ owned T (q :: l) i -> bget (mem s') i = bget (mem s) i) /\
    total_pages (kmem s') = total_pages (kmem s).
Proof.
  intros I Hva V. destruct (lazy_alloc_fresh s root T l q va I Hva V) as (r & s' & T' & l' & E & I' & Su & _ & C & Fr & Y).
  exists r, s', T', l'. split_and!; done.
Qed.

(** [lazy_alloc] answers 0 for every page the user already has, whatever
    the access that faulted and without changing anything, and -1 without
    changing anything when no page is free. *)
Theorem lazy_alloc_no_work s root T l va :
  vm_inv s root T l -> user_ok (mem s) T l -> 0 <= va < MAXVA ->
  (readable (mem s) T va = true -> lazy_alloc root va s = Ok 0 s) /\
  (readable (mem s) T va = false -> l = [] -> lazy_alloc root va s = Ok (-1) s).
Proof.
  intros I O Hva. split.
  - intros Rd. destruct (readable_spec _ _ _ _ O Rd) as (_ & V & U & P).
    apply (lazy_alloc_mapped s root T l); try done. apply page_ok_nonzero, P.
  - intros Rd ->. apply (lazy_alloc_oom s root T); try done.
    revert Rd. unfold readable. zcase; done || lia.
Qed.

(** A fault on a page that is mapped but closed to the user (the guard page
    [exec] leaves below the stack, the trapframe, the trampoline) does not kill
    the process: if any page is free, [lazy_alloc] maps the page a second time
    and the kernel panics. *)
Theorem lazy_alloc_panics_on_guard_page s root T l q va :
  vm_inv s root T (q :: l) -> 0 <= va < MAXVA ->
  has (pte_of (mem s) T va) PTE_V = true -> has (pte_of (mem s) T va) PTE_U = false ->
  lazy_alloc root va s = Panic "mappages: remap".
Proof. apply lazy_alloc_guard. Qed.

(** C19: [copyout] never panics, whatever address and length the caller passes.
    It stores a prefix of the source at the user address, through pages that
    are all valid, user-accessible and writable, and changes no other user
    byte and no entry; it returns 0 exactly when the prefix is the whole
    source, and -1 when the next byte is not writable by the user. *)
Theorem copyout_correct s root T l dstva src :
  vm_inv s root T l -> user_ok (mem s) T l -> 0 <= dstva ->
  exists r k s', copyout root dstva src (Z.of_nat (length src)) s = Ok r s' /\
    vm_inv s' root T l /\ same_ptes s T s' T /\
    (forall x, dstva <= x < dstva + k -> writable (mem s) T x = true) /\
    (forall x, user_byte (mem s') T x =
       if (dstva <=? x) && (x <? dstva + k)
       then Some (u8 (nth (Z.to_nat (x - dstva)) src 0)) else user_byte (mem s) T x) /\
    (r = 0 /\ k = Z.of_nat (length src) \/
     r = -1 /\ 0 <= k < Z.of_nat (length src) /\ writable (mem s) T (dstva + k) = false).
Proof.
  intros I O Hd. destruct (copyout_spec root T l s dstva src I O Hd) as (r & k & s' & E & (I' & S' & W & B) & C).
  exists r, k, s'. split_and!; done.
Qed.
(** C33: what [copyout] stores, [copyin] reads back: whenever the destination is
    writable both succeed, and the bytes come back unchanged. *)
Theorem copyout_copyin_round_trip s root T l va src :
  vm_inv s root T l -> user_ok (mem s) T l -> 0 <= va ->
  Forall (fun b => 0 <= b < 256) src ->
  (forall x, va <= x < va + Z.of_nat (length src) -> writable (mem s) T x = true) ->
  exists s', copyout root va src (Z.of_nat (length src)) s = Ok 0 s' /\
    copyin root va (Z.of_nat (length src)) s' = Ok (0, src) s'.
Proof.
  intros I O Hva Fb Hw.
  destruct (copyout_spec root T l s va src I O Hva) as (r & k & s' & E & (I' & S' & W & B) & C).
  destruct C as [[-> ->]|(_ & Hk & W')]; [|rewrite Hw in W'; [done|lia]].
  exists s'. split; [done|].
  destruct (copyin_spec root T l s' I' (user_ok_same _ _ _ _ S' O) va (Z.of_nat (length src)) Hva ltac:(lia))
    as (r & b & -> & R & C).
  destruct C as [[-> Lb]|(_ & Lb & Rd)].
  - do 2 f_equal. apply list_eq_same_length with (n := length src); [lia|lia|].
    intros i x y Hi Ex Ey. rewrite <- (R i ltac:(lia)) in Ex. rewrite B in Ex. revert Ex. zcase; try lia.
    replace (Z.to_nat (va + Z.of_nat i - va)) with i by lia. rewrite nth_lookup, Ey. cbn. intros [= <-].
    rewrite Forall_lookup in Fb. specialize (Fb i y Ey). by apply u8_small.
  - specialize (Hw (va + Z.of_nat (length b)) ltac:(lia)). rewrite <- (writable_same s s') in Hw by done.
    unfold writable in Hw. by rewrite Rd in Hw.
Qed.

(** C34: [copyinstr] never panics and never changes memory.  On 0 the bytes are
    the user's bytes up to and including the first zero, at most [max] of them;
    on -1 there is no zero among the bytes read, and either [max] bytes were
    read or the next one is not readable by the user. *)
Theorem copyinstr_correct s root T l srcva max :
  vm_inv s root T l -> user_ok (mem s) T l -> 0 <= srcva -> 0 <= max ->
  exists r b, copyinstr root srcva max s = Ok (r, b) s /\
    (forall i, (i < length b)%nat -> user_byte (mem s) T (srcva + Z.of_nat i) = b !! i) /\
    Z.of_nat (length b) <= max /\
    (r = 0 /\ (exists c, b = c ++ [0] /\ 0 ∉ c) \/
     r = -1 /\ (0 ∉ b) /\ (Z.of_nat (length b) = max \/
                         readable (mem s) T (srcva + Z.of_nat (length b)) = false)).
Proof. intros I O Hs Hm. apply (copyinstr_spec root T l s I O srcva max Hs Hm). Qed.

(** C27: [uvmunmap] over a run of pages, some of which were never touched:
    every mapped page of the run goes back to the allocator exactly once, the
    untouched ones are skipped, the whole run is unmapped, and what the user
    sees outside the run does not change. *)
Theorem uvmunmap_correct s root T l va n :
  vm_inv s root T l -> user_ok (mem s) T l -> 0 <= va -> va mod PGSIZE = 0 -> 0 <= n ->
  va + n * PGSIZE <= TRAPFRAME ->
  exists s' freed, uvmunmap root va n true s = Ok tt s' /\
    vm_inv s' root T (freed ++ l) /\ user_ok (mem s') T (freed ++ l) /\ NoDup freed /\
    (forall q, q ∈ freed <-> exists x, in_run va n x = true /\ has (pte_of (mem s) T x) PTE_V = true /\
                                  q = PTE2PA (pte_of (mem s) T x)) /\
    (forall x, 0 <= x < MAXVA -> in_run va n x = true -> has (pte_of (mem s') T x) PTE_V = false) /\
    (forall x, 0 <= x < MAXVA -> in_run va n x = false -> pte_of (mem s') T x = pte_of (mem s) T x) /\
    (forall x, in_run va n x = false -> user_byte (mem s') T x = user_byte (mem s) T x).
Proof.
  intros I O Hva Al Hn Hb. assert (Ht : TRAPFRAME = 2 ^ 38 - 8192) by done. unfold PGSIZE in *.
  destruct (uvmunmap_loop_spec (Z.to_nat n) s root T l va) as (s' & E & I' & O' & Pt & B & F & Y);
    try (done || (unfold PGSIZE; lia)).
  rewrite Z2Nat.id in * by lia. exists s', (rev (mapped_run (mem s) T (Z.to_nat n) va)).
  split_and!; try done.
  - unfold uvmunmap. unfold PGSIZE in *. rewrite Al, (u64_small (n * 4096)), u64_small by lia. exact E.
  - pose proof (inv_nodup _ _ (vm_kmem _ _ _ _ I')) as N. by apply NoDup_app in N as [N _].
  - intros q. rewrite list_elem_of_In, <- in_rev, <- list_elem_of_In, elem_of_mapped_run by (unfold PGSIZE; done).
    rewrite Z2Nat.id by lia. done.
  - intros x Hx Hr. rewrite Pt, Hr by done. by destruct (has (pte_of (mem s) T x) PTE_V) eqn:V; cbn; rewrite ?has_0.
  - intros x Hx Hr. by rewrite Pt, Hr.
Qed.

(** C9: [uvmcopy] of a fully mapped parent into an empty child either copies
    every byte below [sz], with the same permissions, to pages that neither
    process shares, and returns 0; or returns -1 because memory ran out, with
    every page the child had been given returned and nothing mapped in it.  In
    both cases the parent's memory is unchanged, and with three free pages per
    page to copy, and one more, the copy succeeds. *)
Theorem uvmcopy_correct s old To new Tn l sz :
  vm_inv s old To l -> user_ok (mem s) To l -> vm_inv s new Tn l -> user_ok (mem s) Tn l ->
  (forall x, 0 <= x < TRAPFRAME -> has (pte_of (mem s) Tn x) PTE_V = false) ->
  (forall pg, oldpage (mem s) To pg -> private Tn l pg) -> 0 <= sz <= TRAPFRAME ->
  (forall x, 0 <= x < sz -> has (pte_of (mem s) To x) PTE_V = true) ->
  exists r s' Tn' l', uvmcopy old new sz s = Ok r s' /\
    vm_inv s' old To l' /\ vm_inv s' new Tn' l' /\
    (forall x, user_byte (mem s') To x = user_byte (mem s) To x) /\
    (r = 0 /\ user_ok (mem s') Tn' l' /\
     (forall x, 0 <= x < sz -> user_byte (mem s') Tn' x = user_byte (mem s) To x /\
        PTE_FLAGS (pte_of (mem s') Tn' x) = PTE_FLAGS (pte_of (mem s) To x)) /\
     (forall x y, 0 <= x < sz -> 0 <= y < sz ->
        PTE2PA (pte_of (mem s') Tn' x) <> PTE2PA (pte_of (mem s) To y)) \/
     r = -1 /\ (forall x, 0 <= x < TRAPFRAME -> has (pte_of (mem s') Tn' x) PTE_V = false) /\
     Z.of_nat (length l) < 3 * ((sz + PGSIZE - 1) / PGSIZE) + 1).
Proof.
  intros Io Uo In_ Un Em Ap Hsz Full.
  destruct (uvmcopy_outcomes s old To new Tn l sz Io Uo In_ Un Em Ap Hsz) as [D|[D|D]].
  - destruct D as (s' & Tn' & l' & j & E & R & Hj). destruct (pair_old _ _ _ _ (vm_pt _ _ _ _ Io) _ _ _ _ R) as [Io' Eo].
    exists 0, s', Tn', l'. split_and!; try done; [apply R| |left; split_and!; [done|apply R|..]].
    + intros x. apply old_user; [done|apply Uo|apply R].
    + intros x Hx. pose proof (po_copied _ _ _ _ _ _ _ R x ltac:(lia)) as C.
      split; [by apply copied_user|apply C].
    + intros x y Hx Hy. apply (po_cross _ _ _ _ _ _ _ R); [right; exists y; split_and!; try (done || lia); by apply Full|lia|].
      apply (po_copied _ _ _ _ _ _ _ R x). lia.
  - destruct D as (s' & Tn' & l' & E & (I' & Io' & Z' & Eo & B) & Lt).
    exists (-1), s', Tn', l'. split_and!; try done; [|by right].
    intros x. apply old_user; [done|apply Uo|done].
  - destruct D as (msg & x & _ & Hx & V). by rewrite Full in V.
Qed.

(** C37: a process that has grown its heap with the lazy [sbrk] and has not yet
    touched some page of it cannot be copied: [uvmcopy] never succeeds, and
    with enough memory to reach the untouched page it panics. *)
Theorem uvmcopy_panics_on_untouched_page s old To new Tn l sz x :
  vm_inv s old To l -> user_ok (mem s) To l -> vm_inv s new Tn l -> user_ok (mem s) Tn l ->
  (forall x, 0 <= x < TRAPFRAME -> has (pte_of (mem s) Tn x) PTE_V = false) ->
  (forall pg, oldpage (mem s) To pg -> private Tn l pg) -> 0 <= sz <= TRAPFRAME ->
  0 <= x < sz -> has (pte_of (mem s) To x) PTE_V = false ->
  (forall s', uvmcopy old new sz s <> Ok 0 s') /\
  (3 * ((sz + PGSIZE - 1) / PGSIZE) + 1 <= Z.of_nat (length l) -> exists msg, uvmcopy old new sz s = Panic msg).
Proof.
  intros Io Uo In_ Un Em Ap Hsz Hx V.
  destruct (uvmcopy_outcomes s old To new Tn l sz Io Uo In_ Un Em Ap Hsz) as [D|[D|D]].
  - destruct D as (s' & Tn' & l' & j & E & R & Hj).
    destruct (po_copied _ _ _ _ _ _ _ R x ltac:(lia)) as (V' & _). congruence.
  - destruct D as (s' & Tn' & l' & E & _ & Lt). rewrite E. split; [congruence|lia].
  - destruct D as (msg & y & E & _). rewrite E. split; [congruence|eauto].
Qed.

End Properties.

(** ** Witnesses

    Thirty-two pages at the top of memory.  A parent with the table pages 0, 1
    and 2 maps page 3 at address 0 for its user, and page 9 at address 4096 as
    a guard page; a child has the empty table in page 4; pages 10 to 19 are
    free. *)

Module VmWitness.

#[local] Instance lay : Layout := {
  end_ := PHYSTOP - 32 * PGSIZE; etext := KERNBASE + 16 * PGSIZE; trampoline := KERNBASE
}.

#[local] Instance lay_ok : LayoutOk.
Proof. split; vm_compute; intuition congruence. Qed.

Definition pg (k : Z) : Z := PHYSTOP - (k + 1) * PGSIZE.

Fixpoint chain_words (l : list Z) : list (Z * Z) :=
  match l with
  | p :: (q :: _) as l' => (p, q) :: chain_words l'
  | _ => []
  end.

Definition free : list Z := map pg [10; 11; 12; 13; 14; 15; 16; 17; 18; 19].

Definition words : list (Z * Z) :=
  (pg 0, Z.lor (PA2PTE (pg 1)) PTE_V) :: (pg 1, Z.lor (PA2PTE (pg 2)) PTE_V) ::
  (pg 2, leaf (pg 3) (Z.lor (Z.lor PTE_R PTE_W) PTE_U)) :: (pg 2 + 8, leaf (pg 9) (Z.lor PTE_R PTE_W)) ::
  chain_words free.

Definition space : phys :=
  mkPhys (fold_right (fun w m => store 8 m w.1 w.2) (mkRam (fun _ => 0)) words) (mkKmem (pg 10) 10 32).

Definition parent : gmap (list Z) Z := {[ [] := pg 0; [0] := pg 1; [0; 0] := pg 2 ]}.
Definition child : gmap (list Z) Z := {[ [] := pg 4 ]}.

Lemma space_kmem : kmem_inv space free.
Proof.
  split; [by vm_compute| | |done].
  - apply (bool_decide_unpack _). by vm_compute.
  - repeat constructor; vm_compute; congruence.
Qed.

(** Every word of a table of [space]. *)
Lemma table_words (f : Z -> Z -> bool) k :
  forallb (fun i => f i (load 8 (mem space) (pg k + 8 * i))) (seqZ 0 512) = true ->
  forall i, 0 <= i < 512 -> f i (load 8 (mem space) (pg k + 8 * i)) = true.
Proof.
  intros F i Hi. rewrite forallb_forall in F. apply F. apply list_elem_of_In, elem_of_seqZ. lia.
Qed.

Lemma parent_lookup p q : parent !! p = Some q -> p = [] /\ q = pg 0 \/ p = [0] /\ q = pg 1 \/ p = [0; 0] /\ q = pg 2.
Proof.
  unfold parent. intros E.
  repeat (apply lookup_insert_Some in E as [[<- <-]|[_ E]]; [by eauto|]).
  by apply lookup_singleton_Some in E as [<- <-]; eauto.
Qed.

Lemma space_parent_pt : pt_ok (mem space) (pg 0) parent.
Proof.
  split; [done|..].
  - intros p q [[-> ->]|[[-> ->]|[-> ->]]]%parent_lookup; vm_compute; intuition congruence.
  - intros p p' q [[-> ->]|[[-> ->]|[-> ->]]]%parent_lookup [[-> E]|[[-> E]|[-> E]]]%parent_lookup; by vm_compute in E.
  - intros p i q [[E _]|[[E _]|[E _]]]%parent_lookup.
    + by destruct p.
    + destruct p as [|? [|]]; [|done..]. by exists (pg 0).
    + destruct p as [|? [|? [|]]]; try done. injection E as -> ->. by exists (pg 1).
  - intros p q [[-> _]|[[-> _]|[-> _]]]%parent_lookup; cbn; lia.
  - intros p q i [[-> ->]|[[-> ->]|[-> ->]]]%parent_lookup L Hi; [..|cbn in L; lia].
    + pose proof (table_words (fun i w => if i =? 0 then w =? Z.lor (PA2PTE (pg 1)) PTE_V else negb (has w PTE_V)) 0
        ltac:(by vm_compute) i Hi) as E. cbn in E. destruct (Z.eqb_spec i 0) as [->|N]; zbool; [done|].
      destruct (parent !! ([] ++ [i])) eqn:E'; [|done].
      by apply parent_lookup in E' as [[? _]|[[[=] _]|[? _]]].
    + pose proof (table_words (fun i w => if i =? 0 then w =? Z.lor (PA2PTE (pg 2)) PTE_V else negb (has w PTE_V)) 1
        ltac:(by vm_compute) i Hi) as E. cbn in E. destruct (Z.eqb_spec i 0) as [->|N]; zbool; [done|].
      destruct (parent !! ([0] ++ [i])) eqn:E'; [|done].
      by apply parent_lookup in E' as [[? _]|[[? _]|[[=] _]]].
Qed.

Lemma space_parent : vm_inv space (pg 0) parent free.
Proof.
  split; [apply space_kmem|apply space_parent_pt|].
  intros p q [[-> ->]|[[-> ->]|[-> ->]]]%parent_lookup; apply (bool_decide_unpack _); by vm_compute.
Qed.

Lemma child_lookup p q : child !! p = Some q -> p = [] /\ q = pg 4.
Proof. unfold child. by intros [<- <-]%lookup_singleton_Some. Qed.

Lemma space_child : vm_inv space (pg 4) child free.
Proof.
  split; [apply space_kmem|split; [done|..]|].
  - intros p q [-> ->]%child_lookup. vm_compute. intuition congruence.
  - by intros p p' q [-> _]%child_lookup [-> _]%child_lookup.
  - intros p i q [E _]%child_lookup. by destruct p.
  - intros p q [-> _]%child_lookup. cbn. lia.
  - intros p q i [-> ->]%child_lookup _ Hi.
    destruct (child !! ([] ++ [i])) eqn:E; [by apply child_lookup in E as [? _]|].
    apply negb_true_iff, (table_words (fun _ w => negb (has w PTE_V)) 4); [by vm_compute|done].
  - intros p q [-> ->]%child_lookup. apply (bool_decide_unpack _). by vm_compute.
Qed.

Lemma child_pte va : pte_of (mem space) child va = 0.
Proof. unfold pte_of, pte_addr. destruct (child !! _) eqn:E; [by apply child_lookup in E as [? _]|done]. Qed.

Lemma child_user : user_ok (mem space) child free.
Proof. split; intros; rewrite child_pte in *; by rewrite has_0 in *. Qed.

(** The two pages of the parent. *)
Lemma parent_pte va :
  0 <= va < MAXVA ->
  va / 4096 = 0 /\ pte_of (mem space) parent va = leaf (pg 3) URW \/
  va / 4096 = 1 /\ pte_of (mem space) parent va = leaf (pg 9) (Z.lor PTE_R PTE_W) \/
  1 < va / 4096 /\ has (pte_of (mem space) parent va) PTE_V = false /\ has (pte_of (mem space) parent va) PTE_U = false.
Proof.
  intros Hva. pose proof (PX_digits va ltac:(change MAXVA with (2 ^ 38) in Hva; lia)) as D.
  pose proof (PX_range 0 va). pose proof (PX_range 1 va). pose proof (PX_range 2 va).
  unfold pte_of, pte_addr. destruct (parent !! [PX 2 va; PX 1 va]) as [q|] eqn:E.
  - apply parent_lookup in E as [[? _]|[[? _]|[[= E2 E1] ->]]]; try done. rewrite E2, E1 in D.
    pose proof (table_words (fun i w => if i =? 0 then w =? leaf (pg 3) URW else
       if i =? 1 then w =? leaf (pg 9) (Z.lor PTE_R PTE_W) else negb (has w PTE_V) && negb (has w PTE_U)) 2
       ltac:(by vm_compute) (PX 0 va) ltac:(lia)) as E. cbn in E.
    destruct (Z.eqb_spec (PX 0 va) 0) as [E0|]; [left; zbool; split; done || lia|].
    destruct (Z.eqb_spec (PX 0 va) 1) as [E0|]; [right; left; zbool; split; done || lia|].
    right; right. zbool. split_and!; done || lia.
  - rewrite !has_0. right; right. split_and!; try done.
    destruct (Z.eq_dec (PX 2 va) 0) as [E2|]; [|lia]. destruct (Z.eq_dec (PX 1 va) 0) as [E1|]; [|lia].
    by rewrite E2, E1 in E.
Qed.

Lemma parent_user : user_ok (mem space) parent free.
Proof.
  assert (Pv : forall k, k = 3 \/ k = 9 -> private parent free (pg k)).
  { intros k Hk. split_and!.
    - destruct Hk as [-> | ->]; vm_compute; intuition congruence.
    - destruct Hk as [-> | ->]; apply (bool_decide_unpack _); by vm_compute.
    - intros p [[_ E]|[[_ E]|[_ E]]]%parent_lookup; destruct Hk as [-> | ->]; by vm_compute in E. }
  change TRAPFRAME with (MAXVA - 8192). split; change TRAPFRAME with (MAXVA - 8192).
  - intros va Hva V. destruct (parent_pte va) as [[_ ->]|[[_ ->]|(_ & V' & _)]]; [lia|..|congruence].
    + split; [|by vm_compute]. change (PTE2PA (leaf (pg 3) URW)) with (pg 3). auto.
    + split; [|by vm_compute]. change (PTE2PA (leaf (pg 9) (Z.lor PTE_R PTE_W))) with (pg 9). auto.
  - intros x y Hx Hy Vx Vy.
    destruct (parent_pte x) as [[-> ->]|[[-> ->]|(_ & V' & _)]]; [lia|..|congruence];
    destruct (parent_pte y) as [[-> ->]|[[-> ->]|(_ & V' & _)]]; try lia; try congruence; by vm_compute.
  - intros va Hva. destruct (parent_pte va) as [[E _]|[[E _]|(_ & _ & U)]]; [|..|done]; change MAXVA with (4096 * 67108864) in *; zdm.
Qed.

Lemma parent_apart q : oldpage (mem space) parent q -> private child free q.
Proof.
  intros Ho. assert (Hq : q ∈ map pg [0; 1; 2; 3; 9]).
  { destruct Ho as [(p & [[_ ->]|[[_ ->]|[_ ->]]]%parent_lookup)|(va & Hva & V & ->)].
    1-3: apply (bool_decide_unpack _); by vm_compute.
    change TRAPFRAME with (MAXVA - 8192) in Hva.
    destruct (parent_pte va) as [[_ ->]|[[_ ->]|(_ & V' & _)]]; [lia| | |congruence];
      apply (bool_decide_unpack _); by vm_compute. }
  assert (F : Forall (fun q => page_ok q /\ (q ∉ free) /\ q <> pg 4) (map pg [0; 1; 2; 3; 9])).
  { repeat (apply Forall_cons; split; [split_and!; [split; vm_compute; intuition congruence|
      apply (bool_decide_unpack _); by vm_compute|by vm_compute]|]). by apply Forall_nil. }
  rewrite Forall_forall in F. specialize (F q Hq). destruct F as (P & N & N4).
  split_and!; [done|done|]. by intros p [-> ->]%child_lookup.
Qed.

Lemma mappages_correct_witness :
  exists r s' T' l' j,
    mappages (pg 4) 0 (2 * PGSIZE) UART0 (Z.lor PTE_R PTE_W) space = Ok r s' /\
    vm_inv s' (pg 4) T' l' /\ child ⊆ T' /\
    (r = 0 /\ j = 2 \/ r = -1 /\ 0 <= j < 2 /\ l' = [] /\ Z.of_nat (length free) <= 2 * 2) /\
    (forall va', 0 <= va' < MAXVA -> pte_of (mem s') T' va' =
       if in_run 0 j va' then leaf (UART0 + 4096 * ((va' - 0) / 4096)) (Z.lor PTE_R PTE_W)
       else pte_of (mem space) child va') /\
    (forall i, ~ owned child free i -> bget (mem s') i = bget (mem space) i).
Proof.
  apply (mappages_correct 2 space (pg 4) child free 0 UART0 (Z.lor PTE_R PTE_W));
    [apply space_child|lia|lia|by vm_compute..|].
  intros x _. rewrite child_pte. apply has_0.
Defined.

Lemma lazy_alloc_correct_witness :
  exists r s' T' l', lazy_alloc (pg 0) 8200 space = Ok r s' /\ vm_inv s' (pg 0) T' l' /\ parent ⊆ T' /\
    (r = 0 /\ private T' l' (pg 10) /\
     (forall va', 0 <= va' < MAXVA -> pte_of (mem s') T' va' =
        if va' / 4096 =? 8200 / 4096 then leaf (pg 10) (Z.lor (Z.lor PTE_R PTE_W) PTE_U)
        else pte_of (mem space) parent va') /\
     (forall i, pg 10 <= i < pg 10 + PGSIZE -> bget (mem s') i = 0) \/
     r = -1 /\ l' = [pg 10] /\ (length free <= 3)%nat /\
     forall va', 0 <= va' < MAXVA -> pte_of (mem s') T' va' = pte_of (mem space) parent va') /\
    (forall i, ~ owned parent free i -> bget (mem s') i = bget (mem space) i) /\
    total_pages (kmem s') = total_pages (kmem space).
Proof.
  apply (lazy_alloc_correct space (pg 0) parent (tail free) (pg 10) 8200); [apply space_parent|by vm_compute|by vm_compute].
Defined.

Lemma lazy_alloc_no_work_witness :
  (readable (mem space) parent 100 = true -> lazy_alloc (pg 0) 100 space = Ok 0 space) /\
  (readable (mem space) parent 100 = false -> free = [] -> lazy_alloc (pg 0) 100 space = Ok (-1) space).
Proof.
  apply (lazy_alloc_no_work space (pg 0) parent free 100); [apply space_parent|apply parent_user|by vm_compute].
Defined.

Lemma lazy_alloc_panics_on_guard_page_witness : lazy_alloc (pg 0) 5000 space = Panic "mappages: remap".
Proof.
  apply (lazy_alloc_panics_on_guard_page space (pg 0) parent (tail free) (pg 10) 5000);
    [apply space_parent|by vm_compute|by vm_compute|by vm_compute].
Defined.

Lemma copyout_correct_witness :
  exists r k s', copyout (pg 0) 4094 [1; 2; 3; 4] (Z.of_nat (length [1; 2; 3; 4])) space = Ok r s' /\
    vm_inv s' (pg 0) parent free /\ same_ptes space parent s' parent /\
    (forall x, 4094 <= x < 4094 + k -> writable (mem space) parent x = true) /\
    (forall x, user_byte (mem s') parent x =
       if (4094 <=? x) && (x <? 4094 + k)
       then Some (u8 (nth (Z.to_nat (x - 4094)) [1; 2; 3; 4] 0)) else user_byte (mem space) parent x) /\
    (r = 0 /\ k = Z.of_nat (length [1; 2; 3; 4]) \/
     r = -1 /\ 0 <= k < Z.of_nat (length [1; 2; 3; 4]) /\ writable (mem space) parent (4094 + k) = false).
Proof.
  apply (copyout_correct space (pg 0) parent free 4094 [1; 2; 3; 4]); [apply space_parent|apply parent_user|lia].
Defined.

Lemma copyout_copyin_round_trip_witness :
  exists s', copyout (pg 0) 40 [7; 8; 9] (Z.of_nat (length [7; 8; 9])) space = Ok 0 s' /\
    copyin (pg 0) 40 (Z.of_nat (length [7; 8; 9])) s' = Ok (0, [7; 8; 9]) s'.
Proof.
  apply (copyout_copyin_round_trip space (pg 0) parent free 40 [7; 8; 9]);
    [apply space_parent|apply parent_user|lia|repeat constructor; lia|].
  intros x Hx. change (Z.of_nat (length [7; 8; 9])) with 3 in Hx.
  assert (x = 40 \/ x = 41 \/ x = 42) as [-> | [-> | ->]] by lia; by vm_compute.
Defined.

Lemma copyinstr_correct_witness :
  exists r b, copyinstr (pg 0) 40 MAXPATH space = Ok (r, b) space /\
    (forall i, (i < length b)%nat -> user_byte (mem space) parent (40 + Z.of_nat i) = b !! i) /\
    Z.of_nat (length b) <= MAXPATH /\
    (r = 0 /\ (exists c, b = c ++ [0] /\ 0 ∉ c) \/
     r = -1 /\ (0 ∉ b) /\ (Z.of_nat (length b) = MAXPATH \/
                         readable (mem space) parent (40 + Z.of_nat (length b)) = false)).
Proof.
  apply (copyinstr_correct space (pg 0) parent free 40 MAXPATH); [apply space_parent|apply parent_user|lia|by vm_compute].
Defined.

Lemma uvmunmap_correct_witness :
  exists s' freed, uvmunmap (pg 0) 0 3 true space = Ok tt s' /\
    vm_inv s' (pg 0) parent (freed ++ free) /\ user_ok (mem s') parent (freed ++ free) /\ NoDup freed /\
    (forall q, q ∈ freed <-> exists x, in_run 0 3 x = true /\ has (pte_of (mem space) parent x) PTE_V = true /\
                                  q = PTE2PA (pte_of (mem space) parent x)) /\
    (forall x, 0 <= x < MAXVA -> in_run 0 3 x = true -> has (pte_of (mem s') parent x) PTE_V = false) /\
    (forall x, 0 <= x < MAXVA -> in_run 0 3 x = false -> pte_of (mem s') parent x = pte_of (mem space) parent x) /\
    (forall x, in_run 0 3 x = false -> user_byte (mem s') parent x = user_byte (mem space) parent x).
Proof.
  apply (uvmunmap_correct space (pg 0) parent free 0 3);
    [apply space_parent|apply parent_user|lia|by vm_compute|lia|by vm_compute].
Defined.

Lemma uvmcopy_correct_witness :
  exists r s' Tn' l', uvmcopy (pg 0) (pg 4) 8192 space = Ok r s' /\
    vm_inv s' (pg 0) parent l' /\ vm_inv s' (pg 4) Tn' l' /\
    (forall x, user_byte (mem s') parent x = user_byte (mem space) parent x) /\
    (r = 0 /\ user_ok (mem s') Tn' l' /\
     (forall x, 0 <= x < 8192 -> user_byte (mem s') Tn' x = user_byte (mem space) parent x /\
        PTE_FLAGS (pte_of (mem s') Tn' x) = PTE_FLAGS (pte_of (mem space) parent x)) /\
     (forall x y, 0 <= x < 8192 -> 0 <= y < 8192 ->
        PTE2PA (pte_of (mem s') Tn' x) <> PTE2PA (pte_of (mem space) parent y)) \/
     r = -1 /\ (forall x, 0 <= x < TRAPFRAME -> has (pte_of (mem s') Tn' x) PTE_V = false) /\
     Z.of_nat (length free) < 3 * ((8192 + PGSIZE - 1) / PGSIZE) + 1).
Proof.
  apply (uvmcopy_correct space (pg 0) parent (pg 4) child free 8192);
    [apply space_parent|apply parent_user|apply space_child|apply child_user| |apply parent_apart|by vm_compute|].
  - intros x _. rewrite child_pte. apply has_0.
  - intros x Hx. destruct (parent_pte x) as [[_ ->]|[[_ ->]|(E & _ & _)]];
      [change MAXVA with (2 ^ 38); lia|by vm_compute|by vm_compute|zdm].
Defined.

Lemma uvmcopy_panics_on_untouched_page_witness :
  (forall s', uvmcopy (pg 0) (pg 4) 12288 space <> Ok 0 s') /\
  (3 * ((12288 + PGSIZE - 1) / PGSIZE) + 1 <= Z.of_nat (length free) ->
   exists msg, uvmcopy (pg 0) (pg 4) 12288 space = Panic msg).
Proof.
  apply (uvmcopy_panics_on_untouched_page space (pg 0) parent (pg 4) child free 12288 8192);
    [apply space_parent|apply parent_user|apply space_child|apply child_user| |apply parent_apart|by vm_compute|lia|by vm_compute].
  intros x _. rewrite child_pte. apply has_0.
Defined.

End VmWitness.
