(* ===== verification/Asm.v ===== *)
(** * swtch.S, trampoline.S, kernelvec.S, entry.S and start.c: the machine below C

    A hart with its registers, control registers, privilege and the memory it
    addresses in doublewords.  A routine is the list of its instructions; it
    ends in the jump that sets the program counter.  Translation is a parameter,
    from [satp] and a page number to a page number; fences do nothing here.
    A misaligned access ends the run. *)

From Stdlib Require Import ZArith Lia List.
From stdpp Require Import base tactics numbers list functions strings.
From S2P Require Import Prelude Riscv.

(** ** Registers *)

Inductive reg : Type :=
  | ZERO | RA | SP | GP | TP | T0 | T1 | T2 | S0 | S1 | A0 | A1 | A2 | A3 | A4 | A5 | A6 | A7
  | S2 | S3 | S4 | S5 | S6 | S7 | S8 | S9 | S10 | S11 | T3 | T4 | T5 | T6.
#[global] Instance reg_dec : EqDecision reg.
Proof. solve_decision. Defined.

(** [sie] and [sip] are the delegated bits of [mie] and [mip], [sstatus] is part
    of [mstatus]; they have no storage of their own. *)
Inductive csr : Type :=
  | mhartid | mstatus | mepc | medeleg | mideleg | mie | mip | mtvec | mscratch | pmpaddr0 | pmpcfg0
  | sscratch | sepc | satp | sie | sip.
#[global] Instance csr_dec : EqDecision csr.
Proof. solve_decision. Defined.

Inductive priv : Type := User | Supervisor | Machine.
#[global] Instance priv_dec : EqDecision priv.
Proof. solve_decision. Defined.

Record mach : Type := mkMach { x : reg -> Z; c : csr -> Z; m : Z -> Z; mode : priv; pc : Z }.
#[global] Instance eta_mach : Eta mach := fun s => mkMach (x s) (c s) (m s) (mode s) (pc s).

Definition rd (r : reg) (s : mach) : Z := if decide (r = ZERO) then 0 else x s r.
Definition wr (r : reg) (v : Z) (s : mach) : mach := if decide (r = ZERO) then s else s <| x ::= fun f => <[r := v]> f |>.

(** ** kernel/riscv.h: control registers *)

Definition MSTATUS_MPP_MASK : Z := Z.shiftl 3 11.
Definition MSTATUS_MPP_S : Z := Z.shiftl 1 11.
Definition MSTATUS_MIE : Z := Z.shiftl 1 3.
Definition SIE_SEIE : Z := Z.shiftl 1 9.
Definition SIE_STIE : Z := Z.shiftl 1 5.
Definition SIE_SSIE : Z := Z.shiftl 1 1.
Definition MIE_MTIE : Z := Z.shiftl 1 7.

(** The bits [k] of [old] replaced by those of [v]. *)
Definition masked (k old v : Z) : Z := Z.lor (Z.land old (Z.lnot k)) (Z.land v k).

Definition csr_read (r : csr) (s : mach) : Z :=
  match r with
  | sie => Z.land (c s mie) (c s mideleg)
  | sip => Z.land (c s mip) (c s mideleg)
  | _ => c s r
  end.

(** Of [sip] only the software interrupt can be written. *)
Definition csr_write (r : csr) (v : Z) (s : mach) : mach :=
  match r with
  | sie => s <| c ::= fun f => <[mie := masked (f mideleg) (f mie) v]> f |>
  | sip => s <| c ::= fun f => <[mip := masked (Z.land (f mideleg) SIE_SSIE) (f mip) v]> f |>
  | mhartid => s
  | _ => s <| c ::= fun f => <[r := v]> f |>
  end.

(** ** Instructions *)

Inductive instr : Type :=
  | Sd (r : reg) (off : Z) (b : reg)
  | Ld (r : reg) (off : Z) (b : reg)
  | Li (r : reg) (v : Z)
  | La (r : reg) (v : Z)
  | Addi (r a : reg) (v : Z)
  | Add (r a b : reg)
  | Mul (r a b : reg)
  | Csrw (k : csr) (r : reg)
  | Csrr (r : reg) (k : csr)
  | Csrrw (r : reg) (k : csr) (a : reg)
  | Sfence_vma (a b : reg)
  | Jr (r : reg)
  | Ret
  | Sret
  | Mret
  | Call (f : M mach unit).

Definition mpp (v : Z) : priv :=
  let p := Z.land (Z.shiftr v 11) 3 in
  if p =? 0 then User else if p =? 1 then Supervisor else Machine.

Section Exec.
Context (translate : Z -> Z -> Z).

(** Machine mode and [satp] = 0 address physical memory. *)
Definition phys (s : mach) (va : Z) : Z :=
  if bool_decide (mode s = Machine) || (c s satp =? 0) then va
  else translate (c s satp) (va / PGSIZE) * PGSIZE + va mod PGSIZE.

Definition mem_load (va : Z) : M mach Z :=
  if va mod 8 =? 0 then gets (fun s => m s (phys s va)) else panic "misaligned load".

Definition mem_store (va v : Z) : M mach unit :=
  if va mod 8 =? 0 then modify (fun s => s <| m ::= fun f => <[phys s va := v]> f |>) else panic "misaligned store".

Definition exec (i : instr) : M mach unit :=
  match i with
  | Sd r off b => let* a := gets (rd b) in let* v := gets (rd r) in mem_store (u64 (a + off)) v
  | Ld r off b => let* a := gets (rd b) in let* v := mem_load (u64 (a + off)) in modify (wr r v)
  | Li r v | La r v => modify (wr r v)
  | Addi r a v => let* y := gets (rd a) in modify (wr r (u64 (y + v)))
  | Add r a b => let* y := gets (rd a) in let* z := gets (rd b) in modify (wr r (u64 (y + z)))
  | Mul r a b => let* y := gets (rd a) in let* z := gets (rd b) in modify (wr r (u64 (y * z)))
  | Csrw k r => let* v := gets (rd r) in modify (csr_write k v)
  | Csrr r k => let* v := gets (csr_read k) in modify (wr r v)
  | Csrrw r k a =>
    let* old := gets (csr_read k) in
    let* v := gets (rd a) in
    do modify (csr_write k v) ;;; modify (wr r old)
  | Sfence_vma _ _ => ret tt
  | Jr r => let* v := gets (rd r) in modify (fun s => s <| pc := v |>)
  | Ret => let* v := gets (rd RA) in modify (fun s => s <| pc := v |>)
  | Sret =>
    (* to the mode in SPP; SIE from SPIE, SPIE set, SPP cleared *)
    modify (fun s =>
      let v := c s mstatus in
      s <| mode := if Z.testbit v 8 then Supervisor else User |>
        <| c ::= fun f => <[mstatus := masked 290 v (32 + (if Z.testbit v 5 then 2 else 0))]> f |>
        <| pc := c s sepc |>)
  | Mret =>
    (* to the mode in MPP; MIE from MPIE, MPIE set, MPP cleared *)
    modify (fun s =>
      let v := c s mstatus in
      s <| mode := mpp v |>
        <| c ::= fun f => <[mstatus := masked 6280 v (128 + (if Z.testbit v 7 then 8 else 0))]> f |>
        <| pc := c s mepc |>)
  | Call f => f
  end.

Fixpoint run (l : list instr) : M mach unit :=
  match l with
  | [] => ret tt
  | i :: l' => do exec i ;;; run l'
  end.
End Exec.

(** ** swtch.S *)

Definition swtch : list instr :=
  [Sd RA 0 A0; Sd SP 8 A0; Sd S0 16 A0; Sd S1 24 A0; Sd S2 32 A0; Sd S3 40 A0; Sd S4 48 A0; Sd S5 56 A0;
   Sd S6 64 A0; Sd S7 72 A0; Sd S8 80 A0; Sd S9 88 A0; Sd S10 96 A0; Sd S11 104 A0; Ld RA 0 A1; Ld SP 8 A1;
   Ld S0 16 A1; Ld S1 24 A1; Ld S2 32 A1; Ld S3 40 A1; Ld S4 48 A1; Ld S5 56 A1; Ld S6 64 A1; Ld S7 72 A1;
   Ld S8 80 A1; Ld S9 88 A1; Ld S10 96 A1; Ld S11 104 A1; Ret].

(** ** trampoline.S *)

Definition uservec : list instr :=
  [Csrw sscratch A0; Li A0 TRAPFRAME; Sd RA 40 A0; Sd SP 48 A0; Sd GP 56 A0; Sd TP 64 A0; Sd T0 72 A0;
   Sd T1 80 A0; Sd T2 88 A0; Sd S0 96 A0; Sd S1 104 A0; Sd A1 120 A0; Sd A2 128 A0; Sd A3 136 A0; Sd A4 144 A0;
   Sd A5 152 A0; Sd A6 160 A0; Sd A7 168 A0; Sd S2 176 A0; Sd S3 184 A0; Sd S4 192 A0; Sd S5 200 A0;
   Sd S6 208 A0; Sd S7 216 A0; Sd S8 224 A0; Sd S9 232 A0; Sd S10 240 A0; Sd S11 248 A0; Sd T3 256 A0;
   Sd T4 264 A0; Sd T5 272 A0; Sd T6 280 A0; Csrr T0 sscratch; Sd T0 112 A0; Ld SP 8 A0; Ld TP 32 A0;
   Ld T0 16 A0; Ld T1 0 A0; Sfence_vma ZERO ZERO; Csrw satp T1; Sfence_vma ZERO ZERO; Jr T0].

Definition userret : list instr :=
  [Sfence_vma ZERO ZERO; Csrw satp A0; Sfence_vma ZERO ZERO; Li A0 TRAPFRAME; Ld RA 40 A0; Ld SP 48 A0;
   Ld GP 56 A0; Ld TP 64 A0; Ld T0 72 A0; Ld T1 80 A0; Ld T2 88 A0; Ld S0 96 A0; Ld S1 104 A0; Ld A1 120 A0;
   Ld A2 128 A0; Ld A3 136 A0; Ld A4 144 A0; Ld A5 152 A0; Ld A6 160 A0; Ld A7 168 A0; Ld S2 176 A0;
   Ld S3 184 A0; Ld S4 192 A0; Ld S5 200 A0; Ld S6 208 A0; Ld S7 216 A0; Ld S8 224 A0; Ld S9 232 A0;
   Ld S10 240 A0; Ld S11 248 A0; Ld T3 256 A0; Ld T4 264 A0; Ld T5 272 A0; Ld T6 280 A0; Ld A0 112 A0; Sret].

(** ** kernelvec.S; [kerneltrap] is the compiled C function. *)

Definition kernelvec (kerneltrap : M mach unit) : list instr :=
  [Addi SP SP (-256); Sd RA 0 SP; Sd SP 8 SP; Sd GP 16 SP; Sd TP 24 SP; Sd T0 32 SP; Sd T1 40 SP; Sd T2 48 SP;
   Sd S0 56 SP; Sd S1 64 SP; Sd A0 72 SP; Sd A1 80 SP; Sd A2 88 SP; Sd A3 96 SP; Sd A4 104 SP; Sd A5 112 SP;
   Sd A6 120 SP; Sd A7 128 SP; Sd S2 136 SP; Sd S3 144 SP; Sd S4 152 SP; Sd S5 160 SP; Sd S6 168 SP;
   Sd S7 176 SP; Sd S8 184 SP; Sd S9 192 SP; Sd S10 200 SP; Sd S11 208 SP; Sd T3 216 SP; Sd T4 224 SP;
   Sd T5 232 SP; Sd T6 240 SP; Call kerneltrap; Ld RA 0 SP; Ld SP 8 SP; Ld GP 16 SP; Ld T0 32 SP; Ld T1 40 SP;
   Ld T2 48 SP; Ld S0 56 SP; Ld S1 64 SP; Ld A0 72 SP; Ld A1 80 SP; Ld A2 88 SP; Ld A3 96 SP; Ld A4 104 SP;
   Ld A5 112 SP; Ld A6 120 SP; Ld A7 128 SP; Ld S2 136 SP; Ld S3 144 SP; Ld S4 152 SP; Ld S5 160 SP;
   Ld S6 168 SP; Ld S7 176 SP; Ld S8 184 SP; Ld S9 192 SP; Ld S10 200 SP; Ld S11 208 SP; Ld T3 216 SP;
   Ld T4 224 SP; Ld T5 232 SP; Ld T6 240 SP; Addi SP SP 256; Sret].

Definition timervec : list instr :=
  [Csrrw A0 mscratch A0; Sd A1 0 A0; Sd A2 8 A0; Sd A3 16 A0; Ld A1 24 A0; Ld A2 32 A0; Ld A3 0 A1;
   Add A3 A3 A2; Sd A3 0 A1; Li A1 2; Csrw sip A1; Ld A3 16 A0; Ld A2 8 A0; Ld A1 0 A0; Csrrw A0 mscratch A0;
   Mret].

(** ** entry.S; the addresses are those the linker chose. *)

Class Symbols := { stack0 : Z; timer_scratch : Z; main_addr : Z; timervec_addr : Z }.

Definition entry `{Symbols} (start : M mach unit) : list instr :=
  [La SP stack0; Li A0 (1024 * 4); Csrr A1 mhartid; Addi A1 A1 1; Mul A0 A0 A1; Add SP SP A0; Call start].

(** ** start.c, in machine mode, where addresses are physical *)

Definition r_mhartid : M mach Z := gets (csr_read mhartid).
Definition r_mstatus : M mach Z := gets (csr_read mstatus).
Definition w_mstatus (v : Z) : M mach unit := modify (csr_write mstatus v).
Definition w_mepc (v : Z) : M mach unit := modify (csr_write mepc v).
Definition w_satp (v : Z) : M mach unit := modify (csr_write satp v).
Definition w_medeleg (v : Z) : M mach unit := modify (csr_write medeleg v).
Definition w_mideleg (v : Z) : M mach unit := modify (csr_write mideleg v).
Definition r_sie : M mach Z := gets (csr_read sie).
Definition w_sie (v : Z) : M mach unit := modify (csr_write sie v).
Definition r_mie : M mach Z := gets (csr_read mie).
Definition w_mie (v : Z) : M mach unit := modify (csr_write mie v).
Definition w_pmpaddr0 (v : Z) : M mach unit := modify (csr_write pmpaddr0 v).
Definition w_pmpcfg0 (v : Z) : M mach unit := modify (csr_write pmpcfg0 v).
Definition w_mscratch (v : Z) : M mach unit := modify (csr_write mscratch v).
Definition w_mtvec (v : Z) : M mach unit := modify (csr_write mtvec v).
Definition w_tp (v : Z) : M mach unit := modify (wr TP v).

Definition CLINT : Z := 0x2000000.
Definition CLINT_MTIMECMP (hartid : Z) : Z := CLINT + 0x4000 + 8 * hartid.
Definition CLINT_MTIME : Z := CLINT + 0xBFF8.

Section Start.
Context (translate : Z -> Z -> Z) `{Symbols}.

Definition timerinit : M mach unit :=
  let* h := r_mhartid in
  let id := i32 h in
  let interval := 1000000 in
  let* now := mem_load translate CLINT_MTIME in
  do mem_store translate (CLINT_MTIMECMP id) (u64 (now + interval)) ;;;
  let scratch := timer_scratch + 40 * id in
  do mem_store translate (scratch + 24) (CLINT_MTIMECMP id) ;;;
  do mem_store translate (scratch + 32) interval ;;;
  do w_mscratch scratch ;;;
  do w_mtvec timervec_addr ;;;
  let* st := r_mstatus in
  do w_mstatus (Z.lor st MSTATUS_MIE) ;;;
  let* e := r_mie in
  w_mie (Z.lor e MIE_MTIE).

Definition start : M mach unit :=
  let* v := r_mstatus in
  do w_mstatus (Z.lor (Z.land v (Z.lnot MSTATUS_MPP_MASK)) MSTATUS_MPP_S) ;;;
  do w_mepc main_addr ;;;
  do w_satp 0 ;;;
  do w_medeleg 0xffff ;;;
  do w_mideleg 0xffff ;;;
  let* e := r_sie in
  do w_sie (Z.lor (Z.lor (Z.lor e SIE_SEIE) SIE_STIE) SIE_SSIE) ;;;
  do w_pmpaddr0 0x3fffffffffffff ;;;
  do w_pmpcfg0 0xf ;;;
  do timerinit ;;;
  let* h := r_mhartid in
  do w_tp (u64 (i32 h)) ;;;
  exec translate Mret.
End Start.
