(* ===== verification/AsmProps.v ===== *)
(** * What the assembly routines promise

    A trap from user space stores every register where [struct trapframe] has
    it and the return loads all of them from there; [swtch] resumes a thread
    where it called [swtch]; an interrupt of the kernel, or of the machine-mode
    timer, leaves no trace in the registers of the code it interrupted. *)

From Stdlib Require Import ZArith Lia List.
From stdpp Require Import base tactics numbers list functions strings.
From S2P Require Import Prelude Riscv Asm.

(** The saved registers and their offsets in [struct trapframe] and [struct context]. *)
Definition trapframe_regs : list (reg * Z) :=
  [(RA, 40); (SP, 48); (GP, 56); (TP, 64); (T0, 72); (T1, 80); (T2, 88); (S0, 96); (S1, 104); (A0, 112); (A1, 120);
   (A2, 128); (A3, 136); (A4, 144); (A5, 152); (A6, 160); (A7, 168); (S2, 176); (S3, 184); (S4, 192); (S5, 200);
   (S6, 208); (S7, 216); (S8, 224); (S9, 232); (S10, 240); (S11, 248); (T3, 256); (T4, 264); (T5, 272); (T6, 280)].

Definition context_regs : list (reg * Z) :=
  [(RA, 0); (SP, 8); (S0, 16); (S1, 24); (S2, 32); (S3, 40); (S4, 48); (S5, 56); (S6, 64); (S7, 72); (S8, 80);
   (S9, 88); (S10, 96); (S11, 104)].

Definition saves (b : reg) (l : list (reg * Z)) : list instr := map (fun '(r, o) => Sd r o b) l.
Definition loads (b : reg) (l : list (reg * Z)) : list instr := map (fun '(r, o) => Ld r o b) l.

Ltac notin := rewrite list_elem_of_In; cbn; intuition discriminate.
Ltac isin := apply list_elem_of_In; cbn; tauto.

Definition word (v : Z) : Prop := 0 <= v < 2 ^ 64.

Lemma rd_x r s : r <> ZERO -> rd r s = x s r.
Proof. intros N. unfold rd. by rewrite decide_False. Qed.

Lemma wr_x r v s : r <> ZERO -> wr r v s = s <| x ::= fun f => <[r := v]> f |>.
Proof. intros N. unfold wr. by rewrite decide_False. Qed.

Section Blocks.
Context (translate : Z -> Z -> Z).
Abbreviation run := (run translate).
Abbreviation phys := (phys translate).

Lemma run_app l l' s s' : run l s = Ok tt s' -> run (l ++ l') s = run l' s'.
Proof.
  revert s. induction l as [|i l IH]; intros s E; cbn in *; [by injection E as ->|].
  unfold bind in *. destruct (exec translate i s) as [[] s1| |]; try done. by apply IH.
Qed.

Lemma mem_load_ok va s : va mod 8 = 0 -> mem_load translate va s = Ok (m s (phys s va)) s.
Proof. intros A. unfold mem_load. by rewrite A. Qed.

Lemma mem_store_ok va v s : va mod 8 = 0 -> mem_store translate va v s = Ok tt (s <| m ::= fun f => <[phys s va := v]> f |>).
Proof. intros A. unfold mem_store. by rewrite A. Qed.

(** [n] bytes at [a] that no two addresses share. *)
Definition mapped (s : mach) (a n : Z) : Prop :=
  0 <= a /\ a + n <= 2 ^ 64 /\ a mod 8 = 0 /\
  forall va va', a <= va < a + n -> a <= va' < a + n -> phys s va = phys s va' -> va = va'.

Lemma exec_sd r o b n s : r <> ZERO -> b <> ZERO -> mapped s (x s b) n -> 0 <= o < n -> o mod 8 = 0 ->
  exec translate (Sd r o b) s = Ok tt (s <| m ::= fun f => <[phys s (x s b + o) := x s r]> f |>).
Proof.
  intros Nr Nb (R0 & R1 & Al & _) Ro Ao. unfold exec. rewrite !bind_gets, !rd_x, u64_small by (done || lia).
  apply mem_store_ok. by rewrite Z.add_mod, Al, Ao by lia.
Qed.

Lemma exec_ld r o b n s : r <> ZERO -> b <> ZERO -> mapped s (x s b) n -> 0 <= o < n -> o mod 8 = 0 ->
  exec translate (Ld r o b) s = Ok tt (s <| x ::= fun f => <[r := m s (phys s (x s b + o))]> f |>).
Proof.
  intros Nr Nb (R0 & R1 & Al & _) Ro Ao. unfold exec. rewrite bind_gets, rd_x, u64_small by (done || lia).
  rewrite (bind_ok _ _ _ (m s (phys s (x s b + o))) s).
  - unfold modify. by rewrite wr_x.
  - apply mem_load_ok. by rewrite Z.add_mod, Al, Ao by lia.
Qed.

(** The offsets of [l] are doublewords of an area of [n] bytes, each register
    and each offset once. *)
Definition area (l : list (reg * Z)) (n : Z) : Prop :=
  Forall (fun '(r, o) => r <> ZERO /\ 0 <= o < n /\ o mod 8 = 0) l /\ NoDup (map snd l) /\ NoDup (map fst l).

Lemma area_cons r o l n : area ((r, o) :: l) n ->
  r <> ZERO /\ 0 <= o < n /\ o mod 8 = 0 /\ (forall r', (r', o) ∉ l) /\ (forall o', (r, o') ∉ l) /\ area l n.
Proof.
  intros (F & No & Nr). apply Forall_cons in F as [(A & B & C) F]. cbn in No, Nr. apply NoDup_cons in No as [No No'], Nr as [Nr Nr'].
  split_and!; try done; try lia.
  - intros r' Hr. apply No, list_elem_of_fmap. by exists (r', o).
  - intros o' Ho. apply Nr, list_elem_of_fmap. by exists (r, o').
Qed.

Lemma saves_run b l n s : area l n -> b <> ZERO -> mapped s (x s b) n ->
  exists mem, run (saves b l) s = Ok tt (s <| m := mem |>) /\
    (forall r o, (r, o) ∈ l -> mem (phys s (x s b + o)) = x s r) /\
    (forall a, (forall r o, (r, o) ∈ l -> a <> phys s (x s b + o)) -> mem a = m s a).
Proof.
  intros Ar Nb. revert s. induction l as [|[r o] l IH]; intros s Mp.
  - exists (m s). split; [by destruct s|]. split; [intros r o H; inversion H|done].
  - apply area_cons in Ar as (Nr & Ro & Ao & Uo & Ur & Ar). pose proof Mp as (R0 & R1 & Al & Ij).
    set (s1 := s <| m ::= fun f => <[phys s (x s b + o) := x s r]> f |>).
    assert (E : exec translate (Sd r o b) s = Ok tt s1) by by apply (exec_sd r o b n).
    destruct (IH Ar s1 Mp) as (mem & Er & In & Out). change (x s1) with (x s) in In, Out. change (phys s1) with (phys s) in In, Out. exists mem. cbn [saves map run]. rewrite (bind_ok _ _ _ _ _ E). split; [exact Er|]. split.
    + intros r' o' [[= -> ->]|H]%elem_of_cons; [|by apply In]. rewrite Out; [apply fn_lookup_insert|].
      intros r' o' H E'. apply Ij in E'; [|lia|].
      * apply (Uo r'). by replace o with o' by lia.
      * destruct Ar as (F & _). rewrite Forall_forall in F. specialize (F _ H). cbn in F. lia.
    + intros a Ha. rewrite Out; [apply fn_lookup_insert_ne|].
      * intros <-. by apply (Ha r o); [left|].
      * intros r' o' H. by apply (Ha r' o'); right.
Qed.

Lemma loads_run b l n s : area l n -> b <> ZERO -> mapped s (x s b) n ->
  (forall o, (b, o) ∈ l -> m s (phys s (x s b + o)) = x s b) ->
  exists xs, run (loads b l) s = Ok tt (s <| x := xs |>) /\
    (forall r o, (r, o) ∈ l -> xs r = m s (phys s (x s b + o))) /\
    (forall r, r ∉ map fst l -> xs r = x s r).
Proof.
  intros Ar Nb. revert s. induction l as [|[r o] l IH]; intros s Mp Eb.
  - exists (x s). split; [by destruct s|]. split; [intros r o H; inversion H|done].
  - apply area_cons in Ar as (Nr & Ro & Ao & Uo & Ur & Ar). pose proof Mp as (R0 & R1 & Al & Ij).
    set (s1 := s <| x ::= fun f => <[r := m s (phys s (x s b + o))]> f |>).
    assert (E : exec translate (Ld r o b) s = Ok tt s1) by by apply (exec_ld r o b n).
    assert (Xb : x s1 b = x s b).
    { cbn. destruct (decide (r = b)) as [->|N]; [rewrite fn_lookup_insert; apply Eb; by left|by rewrite fn_lookup_insert_ne]. }
    destruct (IH Ar s1) as (xs & Er & In & Out); [by rewrite Xb|rewrite Xb; intros o' H; apply Eb; by right|].
    rewrite Xb in In. exists xs. cbn [loads map run]. rewrite (bind_ok _ _ _ _ _ E). split; [exact Er|]. split.
    + intros r' o' [[= -> ->]|H]%elem_of_cons; [|by apply In]. rewrite Out; [apply fn_lookup_insert|].
      intros ([r' o'] & E' & H)%list_elem_of_fmap. cbn in E'. subst r'. by apply (Ur o').
    + intros r' H. cbn in H. apply not_elem_of_cons in H as [N H]. rewrite Out by done. by apply fn_lookup_insert_ne.
Qed.

Lemma run_cons i l s s' : exec translate i s = Ok tt s' -> run (i :: l) s = run l s'.
Proof. apply (bind_ok _ (fun _ => run l)). Qed.

(** An area inside a page of a paged address space. *)
Lemma page_mapped s a n : mode s <> Machine -> c s satp <> 0 -> 0 <= a -> a + n <= 2 ^ 64 -> a mod 8 = 0 ->
  a mod PGSIZE + n <= PGSIZE -> 0 <= n ->
  mapped s a n /\
  forall o, 0 <= o < n -> phys s (a + o) = translate (c s satp) (a / PGSIZE) * PGSIZE + a mod PGSIZE + o.
Proof.
  intros Nm Ns A0 A1 A8 Pg N0. unfold PGSIZE in *.
  assert (E : forall o, 0 <= o < n -> phys s (a + o) = translate (c s satp) (a / 4096) * 4096 + a mod 4096 + o).
  { intros o Ho. unfold Asm.phys, PGSIZE. rewrite bool_decide_false by done. destruct (Z.eqb_spec (c s satp) 0); [done|]. cbn.
    replace ((a + o) / 4096) with (a / 4096) by zdm. zdm. }
  split; [|exact E]. split_and!; try done. intros va va' R R' Ev.
  replace va with (a + (va - a)) in Ev by lia. replace va' with (a + (va' - a)) in Ev by lia. rewrite !E in Ev by lia. lia.
Qed.

(** ** Traps from user space *)

Definition tf_rest : list (reg * Z) := filter (fun p => p.1 <> A0) trapframe_regs.

Lemma tf_cases r o : (r, o) ∈ trapframe_regs -> (r, o) = (A0, 112) \/ (r, o) ∈ tf_rest.
Proof.
  intros H. destruct (decide (r = A0)) as [->|N]; [|right; by apply list_elem_of_filter].
  left. apply list_elem_of_In in H. cbn in H. intuition congruence.
Qed.

Lemma tf_bounds r o : (r, o) ∈ trapframe_regs -> 40 <= o < 288.
Proof. intros H%list_elem_of_In. cbn in H. intuition; simplify_eq; lia. Qed.

Lemma tf_rest_in r o : (r, o) ∈ tf_rest -> r <> A0 /\ o <> 112 /\ (r, o) ∈ trapframe_regs.
Proof.
  intros [N Ht]%list_elem_of_filter. cbn [fst] in N. split_and!; [done| |done].
  apply list_elem_of_In in Ht. cbn in Ht. intuition; simplify_eq; congruence || lia.
Qed.

Lemma A0_not_rest : A0 ∉ map fst tf_rest.
Proof. intros ([r o] & E & [N _]%tf_rest_in)%list_elem_of_fmap. by apply N. Qed.

Lemma tf_every r : r <> ZERO -> exists o, (r, o) ∈ trapframe_regs.
Proof. destruct r; try done; intros _; eexists; apply list_elem_of_In; cbn; repeat first [left; reflexivity|right]. Qed.

Lemma area_by_eval l n :
  forallb (fun '(r, o) => bool_decide (r <> ZERO) && (0 <=? o) && (o <? n) && (o mod 8 =? 0)) l = true ->
  bool_decide (NoDup (map snd l)) = true -> bool_decide (NoDup (map fst l)) = true -> area l n.
Proof.
  intros F A%bool_decide_eq_true B%bool_decide_eq_true. rewrite forallb_forall in F. split; [|done]. apply Forall_forall.
  intros [r o] H%list_elem_of_In%F. apply andb_true_iff in H as [[[N%bool_decide_eq_true A0']%andb_true_iff A1']%andb_true_iff A2'].
  zbool. split_and!; done || lia.
Qed.

(** The trapframe of the process whose page table is [u]. *)
Definition tf_page (u : Z) : Z := translate u (TRAPFRAME / PGSIZE) * PGSIZE.

Lemma tf_mapped s : mode s = Supervisor -> c s satp <> 0 -> x s A0 = TRAPFRAME ->
  mapped s (x s A0) 288 /\ forall o, 0 <= o < 288 -> phys s (x s A0 + o) = tf_page (c s satp) + o.
Proof.
  intros Mt St At. destruct (page_mapped s TRAPFRAME 288) as [Mp Ph]; [congruence..|by vm_compute|by vm_compute|done|by vm_compute|done|].
  rewrite At. split; [done|]. intros o Ho. rewrite Ph by done. change (TRAPFRAME mod PGSIZE) with 0. unfold tf_page. lia.
Qed.

Lemma uservec_run s : mode s = Supervisor -> c s satp <> 0 -> let tf := tf_page (c s satp) in
  exists s1, run uservec s = Ok tt s1 /\ mode s1 = Supervisor /\
    (forall r o, (r, o) ∈ trapframe_regs -> m s1 (tf + o) = x s r) /\
    (forall a, (forall r o, (r, o) ∈ trapframe_regs -> a <> tf + o) -> m s1 a = m s a) /\
    x s1 SP = m s (tf + 8) /\ x s1 TP = m s (tf + 32) /\ c s1 satp = m s (tf + 0) /\ pc s1 = m s (tf + 16).
Proof.
  intros Md Us tf.
  change uservec with ([Csrw sscratch A0; Li A0 TRAPFRAME] ++ saves A0 tf_rest ++ [Csrr T0 sscratch] ++ saves A0 [(T0, 112)] ++
    loads A0 [(SP, 8); (TP, 32); (T0, 16); (T1, 0)] ++ [Sfence_vma ZERO ZERO; Csrw satp T1; Sfence_vma ZERO ZERO; Jr T0]).
  set (s0 := s <| c ::= fun f => <[sscratch := x s A0]> f |> <| x ::= fun f => <[A0 := TRAPFRAME]> f |>).
  erewrite run_app; [|reflexivity]. fold s0.
  assert (Pm : forall t, mode t = Supervisor -> c t satp = c s satp -> x t A0 = TRAPFRAME ->
    mapped t (x t A0) 288 /\ forall o, 0 <= o < 288 -> phys t (x t A0 + o) = tf + o).
  { intros t Mt St At. unfold tf. rewrite <- St. apply tf_mapped; congruence. }
  pose proof (proj2 (Pm s0 Md eq_refl eq_refl)) as P0.
  destruct (saves_run A0 tf_rest 288 s0) as (m1 & E1 & In1 & Out1); [by apply area_by_eval|done|by apply Pm|].
  assert (I1 : forall r o, (r, o) ∈ tf_rest -> m1 (tf + o) = x s r).
  { intros r o H. pose proof H as (N & _ & Ht)%tf_rest_in. apply tf_bounds in Ht. rewrite <- P0, (In1 r o H) by lia.
    cbn. by rewrite fn_lookup_insert_ne by congruence. }
  assert (O1 : forall a, (forall r o, (r, o) ∈ tf_rest -> a <> tf + o) -> m1 a = m s a).
  { intros a Ha. apply Out1. intros r o H. pose proof H as (_ & _ & Ht)%tf_rest_in. apply tf_bounds in Ht. rewrite P0 by lia. by eapply Ha. }
  erewrite run_app; [|exact E1]. clear In1 Out1 E1.
  set (s1 := s0 <| m := m1 |> <| x ::= fun f => <[T0 := x s A0]> f |>).
  erewrite run_app; [|reflexivity]. fold s1. pose proof (proj2 (Pm s1 Md eq_refl eq_refl)) as P1.
  destruct (saves_run A0 [(T0, 112)] 288 s1) as (m2 & E2 & In2 & Out2); [by apply area_by_eval|done|by apply Pm|].
  specialize (In2 T0 112 ltac:(by left)). rewrite P1 in In2 by lia.
  assert (O2 : forall a, a <> tf + 112 -> m2 a = m1 a).
  { intros a Ha. apply Out2. intros r o [= -> ->]%list_elem_of_singleton. by rewrite P1. }
  erewrite run_app; [|exact E2]. clear Out2 E2.
  destruct (loads_run A0 [(SP, 8); (TP, 32); (T0, 16); (T1, 0)] 288 (s1 <| m := m2 |>)) as (xs & E3 & In3 & _);
    [by apply area_by_eval|done|by apply Pm|by intros o H%list_elem_of_In; cbn in H; intuition|].
  erewrite run_app; [|exact E3]. eexists. split; [reflexivity|].
  assert (Lo : forall r o, 0 <= o < 40 -> (r, o) ∈ [(SP, 8); (TP, 32); (T0, 16); (T1, 0)] -> xs r = m s (tf + o)).
  { intros r o Ho H. rewrite (In3 r o H). change (m2 (phys s1 (x s1 A0 + o)) = m s (tf + o)). rewrite P1 by lia.
    rewrite O2, O1; [done| |lia]. intros r' o' (_ & _ & H')%tf_rest_in. apply tf_bounds in H'. lia. }
  cbn -[trapframe_regs tf]. split_and!; [done|..|apply (Lo SP 8)|apply (Lo TP 32)|apply (Lo T1 0)|apply (Lo T0 16)]; try (lia || by apply list_elem_of_In; cbn; tauto).
  - intros r o H. destruct (tf_cases r o H) as [[= -> ->]|Hr]; [exact In2|]. pose proof Hr as (_ & N & _)%tf_rest_in. rewrite O2 by lia. by apply I1.
  - intros a Ha. rewrite O2, O1; [done|..].
    + intros r o (_ & _ & H)%tf_rest_in. by eapply Ha.
    + apply (Ha A0). by apply list_elem_of_In; cbn; intuition.
Qed.

Lemma userret_run s : mode s = Supervisor -> x s A0 <> 0 ->
  exists s', run userret s = Ok tt s' /\ (forall r o, (r, o) ∈ trapframe_regs -> x s' r = m s (tf_page (x s A0) + o)) /\
    m s' = m s /\ pc s' = c s sepc /\ c s' satp = x s A0.
Proof.
  intros Md Us. set (u := x s A0) in *.
  change userret with ([Sfence_vma ZERO ZERO; Csrw satp A0; Sfence_vma ZERO ZERO; Li A0 TRAPFRAME] ++ loads A0 tf_rest ++ [Ld A0 112 A0; Sret]).
  set (s0 := s <| c ::= fun f => <[satp := u]> f |> <| x ::= fun f => <[A0 := TRAPFRAME]> f |>).
  erewrite run_app; [|reflexivity]. fold u. fold s0.
  destruct (tf_mapped s0 Md Us eq_refl) as [M0 P0].
  destruct (loads_run A0 tf_rest 288 s0) as (x1 & E1 & In1 & Out1); [by apply area_by_eval|done|done|by intros o [[] _]%tf_rest_in|].
  erewrite run_app; [|exact E1].
  assert (Xa : x1 A0 = TRAPFRAME) by (rewrite (Out1 A0 A0_not_rest); reflexivity).
  set (s1 := s0 <| x := x1 |>). destruct (tf_mapped s1 Md Us Xa) as [M1 P1].
  fold s1. rewrite (run_cons _ _ _ _ (exec_ld A0 112 A0 288 s1 ltac:(done) ltac:(done) M1 ltac:(lia) eq_refl)).
  eexists. split; [reflexivity|]. split_and!; [|done|done|done].
  intros r o H. cbn -[s1 trapframe_regs]. destruct (tf_cases r o H) as [[= -> ->]|Hr].
  - rewrite fn_lookup_insert, P1 by lia. reflexivity.
  - pose proof Hr as (N & _ & _)%tf_rest_in. rewrite fn_lookup_insert_ne by congruence. apply tf_bounds in H.
    change (c s0 satp) with u in P0. rewrite <- (P0 o) by lia. exact (In1 r o Hr).
Qed.

(** C6: a trap from user space goes to the kernel with every register of the
    user saved in the process's trapframe, at the offsets of [struct trapframe],
    and with the stack, the hart number, the page table and the address of
    [usertrap] that [usertrapret] left there; nothing else in memory changes.
    The return loads every register from the trapframe, so whatever the kernel
    did in between, a register whose slot it left alone has the value it had at
    the trap. *)
Theorem user_trap_round_trip s :
  mode s = Supervisor -> c s satp <> 0 -> let tf := tf_page (c s satp) in
  exists s1, run uservec s = Ok tt s1 /\ mode s1 = Supervisor /\
    (forall r o, (r, o) ∈ trapframe_regs -> m s1 (tf + o) = x s r) /\
    (forall a, (forall r o, (r, o) ∈ trapframe_regs -> a <> tf + o) -> m s1 a = m s a) /\
    x s1 SP = m s (tf + 8) /\ x s1 TP = m s (tf + 32) /\ c s1 satp = m s (tf + 0) /\ pc s1 = m s (tf + 16) /\
    forall s2, mode s2 = Supervisor -> x s2 A0 = c s satp ->
      exists s3, run userret s2 = Ok tt s3 /\ m s3 = m s2 /\ pc s3 = c s2 sepc /\ c s3 satp = c s satp /\
        (forall r o, (r, o) ∈ trapframe_regs -> x s3 r = m s2 (tf + o)) /\
        ((forall r o, (r, o) ∈ trapframe_regs -> m s2 (tf + o) = m s1 (tf + o)) -> forall r, r <> ZERO -> x s3 r = x s r).
Proof.
  intros Md Us tf. destruct (uservec_run s Md Us) as (s1 & E1 & Md1 & Sv & Out & Esp & Etp & Est & Epc). exists s1. split_and!; try assumption.
  intros s2 Md2 Ea. destruct (userret_run s2 Md2) as (s3 & E3 & Ld & Em & Ep & Es); [congruence|]. rewrite Ea in *.
  exists s3. split_and!; try assumption. intros Kp r [o Ho]%tf_every. rewrite (Ld r o Ho). etransitivity; [exact (Kp r o Ho)|exact (Sv r o Ho)].
Qed.

(** ** Threads of the kernel *)

Lemma ctx_bounds r o : (r, o) ∈ context_regs -> 0 <= o < 112.
Proof. intros H%list_elem_of_In. cbn in H. intuition; simplify_eq; lia. Qed.

Lemma context_area : area context_regs 112.
Proof. by apply area_by_eval. Qed.

(** The context structures at [a] and [b] have no doubleword in common. *)
Definition apart (s : mach) (a b : Z) : Prop :=
  forall o o', 0 <= o < 112 -> 0 <= o' < 112 -> phys s (a + o) <> phys s (b + o').

Lemma swtch_run s : mapped s (x s A0) 112 -> mapped s (x s A1) 112 -> apart s (x s A0) (x s A1) ->
  exists s', run swtch s = Ok tt s' /\ mode s' = mode s /\ c s' = c s /\
    (forall r o, (r, o) ∈ context_regs -> m s' (phys s (x s A0 + o)) = x s r /\ x s' r = m s (phys s (x s A1 + o))) /\
    pc s' = m s (phys s (x s A1)) /\
    (forall a, (forall r o, (r, o) ∈ context_regs -> a <> phys s (x s A0 + o)) -> m s' a = m s a).
Proof.
  intros Ma Mb Ap. change swtch with (saves A0 context_regs ++ loads A1 context_regs ++ [Ret]).
  destruct (saves_run A0 context_regs 112 s) as (m1 & E1 & In1 & Out1); [apply context_area|done|done|]. erewrite run_app; [|exact E1].
  set (s1 := s <| m := m1 |>).
  destruct (loads_run A1 context_regs 112 s1) as (x2 & E2 & In2 & _); [apply context_area|done|exact Mb|by intros o H%list_elem_of_In; cbn in H; intuition|].
  assert (Ld : forall r o, (r, o) ∈ context_regs -> x2 r = m s (phys s (x s A1 + o))).
  { intros r o H. rewrite (In2 r o H). change (m1 (phys s (x s A1 + o)) = m s (phys s (x s A1 + o))). apply Out1.
    intros r' o' H' E. apply ctx_bounds in H, H'. by apply (Ap o' o). }
  erewrite run_app; [|exact E2]. eexists. split; [reflexivity|]. split_and!; [done|done|..].
  - intros r o H. split; [by apply In1|by apply Ld].
  - rewrite <- (Z.add_0_r (x s A1)). apply (Ld RA 0). by left.
  - exact Out1.
Qed.

(** C7: [swtch] stores the registers a thread needs in its context and
    resumes the other thread from its own; when some later [swtch] goes back,
    from any thread and with the context as it was left, the first thread goes
    on where it called [swtch], with its stack and its callee-saved registers as
    they were. *)
Theorem swtch_resumes s :
  mapped s (x s A0) 112 -> mapped s (x s A1) 112 -> apart s (x s A0) (x s A1) ->
  exists s1, run swtch s = Ok tt s1 /\ c s1 = c s /\
    (forall r o, (r, o) ∈ context_regs -> x s1 r = m s (phys s (x s A1 + o))) /\ pc s1 = m s (phys s (x s A1)) /\
    (forall a, (forall r o, (r, o) ∈ context_regs -> a <> phys s (x s A0 + o)) -> m s1 a = m s a) /\
    forall s2, mode s2 = mode s -> c s2 satp = c s satp -> x s2 A1 = x s A0 ->
      mapped s2 (x s2 A0) 112 -> apart s2 (x s2 A0) (x s2 A1) ->
      (forall r o, (r, o) ∈ context_regs -> m s2 (phys s (x s A0 + o)) = m s1 (phys s (x s A0 + o))) ->
      exists s3, run swtch s2 = Ok tt s3 /\ pc s3 = x s RA /\ forall r o, (r, o) ∈ context_regs -> x s3 r = x s r.
Proof.
  intros Ma Mb Ap. destruct (swtch_run s Ma Mb Ap) as (s1 & E1 & Md & Ec & Io & Pc & Out). exists s1.
  split_and!; try assumption; [by intros; apply Io|]. intros s2 Md2 Es2 Ea Ma2 Ap2 Kp.
  assert (Ph : phys s2 = phys s) by (unfold Asm.phys; by rewrite Md2, Es2).
  destruct (swtch_run s2 Ma2) as (s3 & E3 & _ & _ & Io3 & Pc3 & _); [unfold mapped in *; by rewrite Ph, Ea|done|].
  rewrite Ph, Ea in *. exists s3. split; [exact E3|]. split.
  - rewrite Pc3, <- (Z.add_0_r (x s A0)), (Kp RA) by by left. by apply Io; left.
  - intros r o H. rewrite (proj2 (Io3 r o H)), (Kp r o H). by apply Io.
Qed.

(** ** Traps from the kernel *)

Definition kernel_frame : list (reg * Z) :=
  [(RA, 0); (SP, 8); (GP, 16); (TP, 24); (T0, 32); (T1, 40); (T2, 48); (S0, 56); (S1, 64); (A0, 72); (A1, 80); (A2, 88);
   (A3, 96); (A4, 104); (A5, 112); (A6, 120); (A7, 128); (S2, 136); (S3, 144); (S4, 152); (S5, 160); (S6, 168);
   (S7, 176); (S8, 184); (S9, 192); (S10, 200); (S11, 208); (T3, 216); (T4, 224); (T5, 232); (T6, 240)].

Definition restored : list (reg * Z) := filter (fun p => p.1 <> TP) kernel_frame.

Lemma frame_area : area kernel_frame 256.
Proof. by apply area_by_eval. Qed.

Lemma restored_area : area restored 256.
Proof. by apply area_by_eval. Qed.

Lemma restored_in r o : (r, o) ∈ restored -> (r, o) ∈ kernel_frame.
Proof. by intros [_ H]%list_elem_of_filter. Qed.

Lemma restored_every r : r <> ZERO -> r <> TP -> exists o, (r, o) ∈ restored.
Proof.
  intros Nz Nt. assert (H : exists o, (r, o) ∈ kernel_frame).
  { destruct r; try done; eexists; apply list_elem_of_In; cbn; repeat first [left; reflexivity|right]. }
  destruct H as [o H]. exists o. by apply list_elem_of_filter.
Qed.

Lemma TP_not_restored : TP ∉ map fst restored.
Proof. intros ([r o] & E & [N _]%list_elem_of_filter)%list_elem_of_fmap. by apply N. Qed.

Lemma frame_bounds r o : (r, o) ∈ kernel_frame -> 0 <= o < 256.
Proof. intros H%list_elem_of_In. cbn in H. intuition; simplify_eq; lia. Qed.

(** What the calling convention promises of a compiled function that returns:
    the stack pointer is back and the caller's frame as it was; C code does not
    change the page table of the kernel or leave supervisor mode. *)
Class Compiled (f : M mach unit) := {
  abi : forall s s', f s = Ok tt s' ->
    x s' SP = x s SP /\ mode s' = mode s /\ c s' satp = c s satp /\
    forall o, 0 <= o < 256 -> m s' (phys s (x s SP + o)) = m s (phys s (x s SP + o))
}.

Lemma kernelvec_enter f s : word (x s SP) -> mapped s (x s SP - 256) 256 ->
  exists t, run (kernelvec f) s = (do f ;;; run (loads SP restored ++ [Addi SP SP 256; Sret])) t /\
    mode t = mode s /\ c t = c s /\ x t = <[SP := x s SP - 256]> (x s) /\
    (forall r o, (r, o) ∈ kernel_frame -> m t (phys t (x t SP + o)) = x t r) /\
    (forall a, (forall o, 0 <= o < 256 -> a <> phys s (x s SP - 256 + o)) -> m t a = m s a).
Proof.
  intros Ws Mp. pose proof Mp as (R0 & R1 & _). unfold word in Ws.
  change (kernelvec f) with ([Addi SP SP (-256)] ++ saves SP kernel_frame ++ Call f :: loads SP restored ++ [Addi SP SP 256; Sret]).
  set (s0 := s <| x ::= fun g => <[SP := x s SP - 256]> g |>).
  assert (E0 : run [Addi SP SP (-256)] s = Ok tt s0) by (change (Ok tt (wr SP (u64 (x s SP + -256)) s) = Ok tt s0); by rewrite u64_small by lia).
  erewrite run_app; [|exact E0].
  destruct (saves_run SP kernel_frame 256 s0) as (m1 & E1 & In1 & Out1); [apply frame_area|done|exact Mp|].
  erewrite run_app; [|exact E1]. eexists. split; [reflexivity|]. split_and!; [done|done|done|exact In1|].
  intros a Ha. apply Out1. intros r o H%frame_bounds. by apply Ha.
Qed.

(** C11: a trap that interrupts the kernel leaves no trace in its registers:
    [kernelvec] calls [kerneltrap] with everything on the stack below the
    interrupted frame and memory above as it was; if [kerneltrap] returns, the
    interrupted code goes on with every register as before, except that [tp]
    names the hart it is now on, and with the memory [kerneltrap] left. *)
Theorem kernelvec_transparent f `{!Compiled f} s :
  word (x s SP) -> mapped s (x s SP - 256) 256 ->
  exists t, c t = c s /\ mode t = mode s /\ x t SP = x s SP - 256 /\
    (forall a, (forall o, 0 <= o < 256 -> a <> phys s (x s SP - 256 + o)) -> m t a = m s a) /\
    match f t with
    | Ok _ t' => exists s', run (kernelvec f) s = Ok tt s' /\ m s' = m t' /\ pc s' = c t' sepc /\ x s' TP = x t' TP /\
        forall r, r <> ZERO -> r <> TP -> x s' r = x s r
    | Panic msg => run (kernelvec f) s = Panic msg
    | Block k t' => run (kernelvec f) s = Block k t'
    end.
Proof.
  intros Ws Mp. destruct (kernelvec_enter f s Ws Mp) as (t & E & Md & Ec & Ex & In & Out). pose proof Mp as (R0 & R1 & _).
  exists t. split_and!; try assumption; [by rewrite Ex|]. rewrite E. destruct (f t) as [[] t'|msg|k t'] eqn:Ef; [|unfold bind; by rewrite Ef..]. rewrite (bind_ok _ _ _ _ _ Ef).
  destruct (abi _ _ Ef) as (Esp & Emd & Est & Kp).
  assert (Ph : phys t' = phys t) by (unfold Asm.phys; by rewrite Emd, Est).
  assert (Ph' : phys t = phys s) by (unfold Asm.phys; by rewrite Md, Ec).
  assert (Xsp : x t' SP = x s SP - 256) by by rewrite Esp, Ex.
  destruct (loads_run SP restored 256 t') as (x2 & E2 & In2 & Out2); [apply restored_area|done|unfold mapped in *; by rewrite Ph, Ph', Xsp|..].
  { intros o H%restored_in. rewrite Ph, Esp, Kp by by eapply frame_bounds. by rewrite (In SP o H), Ex. }
  assert (Ld : forall r, r <> ZERO -> r <> TP -> x2 r = x t r).
  { intros r Nz Nt. destruct (restored_every r Nz Nt) as [o H]. rewrite (In2 r o H), Ph, Esp. apply restored_in in H. rewrite Kp by by eapply frame_bounds. by apply In. }
  erewrite run_app; [|exact E2]. eexists. split; [reflexivity|]. split_and!; [done|done|exact (Out2 TP TP_not_restored)|].
  intros r Nz Nt. change (<[SP := u64 (x2 SP + 256)]> x2 r = x s r). destruct (decide (r = SP)) as [->|N].
  - rewrite fn_lookup_insert, Ld, Ex, fn_lookup_insert by done. unfold word in Ws. rewrite u64_small; lia.
  - rewrite fn_lookup_insert_ne, Ld, Ex by done. by rewrite fn_lookup_insert_ne.
Qed.

(** ** The timer of machine mode *)

Lemma machine_mapped s a n : mode s = Machine -> 0 <= a -> a + n <= 2 ^ 64 -> a mod 8 = 0 -> mapped s a n.
Proof. intros Md A B C. split_and!; try done. intros va va' _ _. unfold Asm.phys. by rewrite Md. Qed.

Lemma machine_phys s a : mode s = Machine -> phys s a = a.
Proof. intros Md. unfold Asm.phys. by rewrite Md. Qed.

Lemma machine_sd r o b s : r <> ZERO -> b <> ZERO -> mode s = Machine -> word (x s b + o) -> (x s b + o) mod 8 = 0 ->
  exec translate (Sd r o b) s = Ok tt (s <| m ::= fun f => <[x s b + o := x s r]> f |>).
Proof.
  intros Nr Nb Md W A. unfold exec. rewrite !bind_gets, !rd_x, u64_small by done.
  rewrite mem_store_ok by done. do 2 f_equal. by rewrite machine_phys.
Qed.

Lemma machine_ld r o b s : r <> ZERO -> b <> ZERO -> mode s = Machine -> word (x s b + o) -> (x s b + o) mod 8 = 0 ->
  exec translate (Ld r o b) s = Ok tt (s <| x ::= fun f => <[r := m s (x s b + o)]> f |>).
Proof.
  intros Nr Nb Md W A. unfold exec. rewrite bind_gets, rd_x, u64_small by done.
  rewrite (bind_ok _ _ _ _ _ (mem_load_ok _ _ A)), machine_phys by done. unfold modify. by rewrite wr_x.
Qed.

Lemma machine_saves b l n s : area l n -> b <> ZERO -> mode s = Machine -> 0 <= x s b -> x s b + n <= 2 ^ 64 -> x s b mod 8 = 0 ->
  exists mem, run (saves b l) s = Ok tt (s <| m := mem |>) /\
    (forall r o, (r, o) ∈ l -> mem (x s b + o) = x s r) /\
    (forall a, (forall r o, (r, o) ∈ l -> a <> x s b + o) -> mem a = m s a).
Proof.
  intros Ar Nb Md A B C. destruct (saves_run b l n s Ar Nb (machine_mapped s _ n Md A B C)) as (mem & E & In & Out).
  exists mem. split; [exact E|]. split; intros *; [intros H; rewrite <- (In r o H)|intros Ha; apply Out; intros r o H]; rewrite machine_phys by done; [done|by eapply Ha].
Qed.

Lemma machine_loads b l n s : area l n -> b <> ZERO -> mode s = Machine -> 0 <= x s b -> x s b + n <= 2 ^ 64 -> x s b mod 8 = 0 ->
  b ∉ map fst l ->
  exists xs, run (loads b l) s = Ok tt (s <| x := xs |>) /\
    (forall r o, (r, o) ∈ l -> xs r = m s (x s b + o)) /\ (forall r, r ∉ map fst l -> xs r = x s r).
Proof.
  intros Ar Nb Md A B C Nl. destruct (loads_run b l n s Ar Nb (machine_mapped s _ n Md A B C)) as (xs & E & In & Out).
  - intros o H. destruct Nl. apply list_elem_of_fmap. by exists (b, o).
  - exists xs. split; [exact E|]. split; [|exact Out]. intros r o H. by rewrite (In r o H), machine_phys.
Qed.

(** The scratch area [timerinit] prepares for hart [h]: its register of the
    timer is a doubleword elsewhere. *)
Definition scratch_ok (s : mach) : Prop :=
  let sc := c s mscratch in let cmp := m s (sc + 24) in
  0 <= sc /\ sc + 40 <= 2 ^ 64 /\ sc mod 8 = 0 /\ word cmp /\ cmp mod 8 = 0 /\ (cmp < sc \/ sc + 40 <= cmp).

Definition timer_saved : list (reg * Z) := [(A1, 0); (A2, 8); (A3, 16)].

(** Up to the store into the compare register. *)
Lemma timervec_first s : mode s = Machine -> scratch_ok s -> let sc := c s mscratch in let cmp := m s (sc + 24) in
  exists t, run ([Csrrw A0 mscratch A0] ++ saves A0 timer_saved ++ loads A0 [(A1, 24); (A2, 32)] ++ [Ld A3 0 A1; Add A3 A3 A2; Sd A3 0 A1]) s = Ok tt t /\
    mode t = Machine /\ c t = <[mscratch := x s A0]> (c s) /\ x t A0 = sc /\
    (forall r, r ∉ [A0; A1; A2; A3] -> x t r = x s r) /\
    (forall r o, (r, o) ∈ timer_saved -> m t (sc + o) = x s r) /\ m t cmp = u64 (m s cmp + m s (sc + 32)) /\
    (forall a, a <> cmp -> a <> sc -> a <> sc + 8 -> a <> sc + 16 -> m t a = m s a).
Proof.
  intros Md (S0' & S1' & S8 & Wc & C8 & Dj) sc cmp. fold sc in S0', S1', S8, Wc, C8, Dj. fold cmp in Wc, C8, Dj.
  set (s0 := s <| c ::= fun f => <[mscratch := x s A0]> f |> <| x ::= fun f => <[A0 := sc]> f |>).
  erewrite run_app; [|reflexivity]. fold sc. fold s0.
  destruct (machine_saves A0 timer_saved 40 s0) as (m1 & E1 & In1 & Out1); try done; [by apply area_by_eval|].
  change (x s0 A0) with sc in In1, Out1. change (m s0) with (m s) in Out1. erewrite run_app; [|exact E1].
  assert (O1 : forall a, a <> sc -> a <> sc + 8 -> a <> sc + 16 -> m1 a = m s a).
  { intros a H0 H1 H2. apply Out1. intros r o H%list_elem_of_In. cbn in H. intuition; simplify_eq; lia. }
  destruct (machine_loads A0 [(A1, 24); (A2, 32)] 40 (s0 <| m := m1 |>)) as (x2 & E2 & In2 & Out2); try done; [by apply area_by_eval|notin|].
  assert (Xa1 : x2 A1 = cmp) by (rewrite (In2 A1 24) by isin; change (m1 (sc + 24) = cmp); apply O1; lia).
  assert (Xa2 : x2 A2 = m s (sc + 32)) by (rewrite (In2 A2 32) by isin; change (m1 (sc + 32) = m s (sc + 32)); apply O1; lia).
  erewrite run_app; [|exact E2].
  set (v := u64 (m s cmp + m s (sc + 32))).
  erewrite run_cons; [|apply machine_ld; try done; cbn; rewrite Xa1, Z.add_0_r; done].
  cbn [x m over]. rewrite Xa1, Z.add_0_r, O1 by lia.
  set (s3 := s0 <| m := m1 |> <| x := <[A3 := v]> (<[A3 := m s cmp]> x2) |>).
  erewrite (run_cons _ _ _ s3); [|change (Ok tt (s0 <| m := m1 |> <| x := <[A3 := u64 (m s cmp + x2 A2)]> (<[A3 := m s cmp]> x2) |>) = Ok tt s3); by rewrite Xa2].
  assert (X3 : x s3 A1 = cmp) by exact Xa1.
  erewrite run_cons; [|apply machine_sd; try done; rewrite X3, Z.add_0_r; done]. rewrite X3, Z.add_0_r.
  eexists. split; [reflexivity|]. split_and!; [done|done|cbn; rewrite !fn_lookup_insert_ne, Out2 by (done || notin); done|..]; cbn.
  - intros r H. rewrite list_elem_of_In in H. cbn in H. rewrite !fn_lookup_insert_ne by (intros <-; tauto). rewrite Out2 by (rewrite list_elem_of_In; cbn; tauto).
    cbn. by rewrite fn_lookup_insert_ne by intuition.
  - intros r o H. rewrite fn_lookup_insert_ne, (In1 r o H); apply list_elem_of_In in H; cbn in H; intuition; simplify_eq; done || lia.
  - by rewrite !fn_lookup_insert.
  - intros a Ha H0 H1 H2. rewrite fn_lookup_insert_ne by done. by apply O1.
Qed.

(** C40: a timer interrupt in machine mode is invisible to the code it
    interrupts: [timervec] restores every register and [mscratch], writes only
    the save area and the timer's compare register, which moves on by the
    interval of the scratch area (so that the next interrupt comes), raises the
    supervisor's software interrupt when that is delegated, and returns. *)
Theorem timervec_transparent s :
  mode s = Machine -> scratch_ok s -> let sc := c s mscratch in let cmp := m s (sc + 24) in
  exists s', run timervec s = Ok tt s' /\ (forall r, x s' r = x s r) /\ c s' mscratch = sc /\
    pc s' = c s mepc /\ mode s' = mpp (c s mstatus) /\
    m s' cmp = u64 (m s cmp + m s (sc + 32)) /\
    (forall a, a <> cmp -> a <> sc -> a <> sc + 8 -> a <> sc + 16 -> m s' a = m s a) /\
    (Z.testbit (c s mideleg) 1 = true -> Z.testbit (c s' mip) 1 = true).
Proof.
  intros Md Ok sc cmp. destruct (timervec_first s Md Ok) as (t & E & Mt & Ct & Xt & Rt & Sv & Cm & Out). fold sc in Xt, Sv, Cm, Out. fold cmp in Cm, Out.
  destruct Ok as (S0' & S1' & S8 & _).
  change timervec with (([Csrrw A0 mscratch A0] ++ saves A0 timer_saved ++ loads A0 [(A1, 24); (A2, 32)] ++ [Ld A3 0 A1; Add A3 A3 A2; Sd A3 0 A1]) ++
    [Li A1 2; Csrw sip A1] ++ loads A0 [(A3, 16); (A2, 8); (A1, 0)] ++ [Csrrw A0 mscratch A0; Mret]).
  rewrite (run_app _ _ _ _ E). set (t1 := csr_write sip 2 (wr A1 2 t)).
  rewrite (run_app _ _ _ t1); [|reflexivity].
  assert (X1 : x t1 A0 = sc) by exact Xt.
  destruct (machine_loads A0 [(A3, 16); (A2, 8); (A1, 0)] 40 t1) as (x2 & E2 & In2 & Out2); rewrite ?X1; try done; [by apply area_by_eval|notin|].
  erewrite run_app; [|exact E2]. eexists. split; [reflexivity|].
  rewrite X1 in In2. change (m t1) with (m t) in In2.
  split_and!; [intros r; change (<[A0 := c t mscratch]> x2 r = x s r)|change (x2 A0 = sc)|change (c t mepc = c s mepc)|
    change (mpp (c t mstatus) = mpp (c s mstatus))|exact Cm|exact Out|
    change (Z.testbit (c s mideleg) 1 = true -> Z.testbit (masked (Z.land (c t mideleg) 2) (c t mip) 2) 1 = true)]; rewrite ?Ct.
  - destruct (decide (r = A0)) as [->|N0]; [done|]. rewrite fn_lookup_insert_ne by done.
    destruct (decide (r ∈ [A1; A2; A3])) as [H%list_elem_of_In|H].
    + cbn in H. destruct H as [<-|[<-|[<-|[]]]]; [rewrite (In2 A1 0) by isin|rewrite (In2 A2 8) by isin|rewrite (In2 A3 16) by isin]; apply Sv; isin.
    + rewrite list_elem_of_In in H. cbn in H. rewrite Out2 by (rewrite list_elem_of_In; cbn; tauto).
      change (<[A1 := 2]> (x t) r = x s r). rewrite fn_lookup_insert_ne by (intros <-; tauto). apply Rt. rewrite list_elem_of_In. cbn. intuition.
  - by rewrite Out2 by notin.
  - done.
  - done.
  - intros D. unfold masked. rewrite Z.lor_spec, !Z.land_spec.
    change (<[mscratch := x s A0]> (c s) mideleg) with (c s mideleg). rewrite D. apply orb_true_r.
Qed.

(** ** Boot *)

Lemma mpp_supervisor v : mpp (Z.lor (Z.lor (Z.land v (Z.lnot MSTATUS_MPP_MASK)) MSTATUS_MPP_S) MSTATUS_MIE) = Supervisor.
Proof.
  unfold mpp. rewrite !Z.shiftr_lor, Z.shiftr_land, !Z.land_lor_distr_l, <- Z.land_assoc.
  change (Z.land (Z.shiftr (Z.lnot MSTATUS_MPP_MASK) 11) 3) with 0. by rewrite Z.land_0_r.
Qed.

Context `{Symbols}.

Definition scratch (h : Z) : Z := timer_scratch + 40 * h.

(** What [timerinit] stores for hart [h] in memory [f]. *)
Definition timer_mem (h : Z) (f : Z -> Z) : Z -> Z :=
  <[scratch h + 32 := 1000000]> (<[scratch h + 24 := CLINT_MTIMECMP h]> (<[CLINT_MTIMECMP h := u64 (f CLINT_MTIME + 1000000)]> f)).

Lemma timerinit_run s : let h := c s mhartid in
  mode s = Machine -> 0 <= h < NCPU -> timer_scratch mod 8 = 0 ->
  timerinit translate s = Ok tt (s
    <| m := timer_mem h (m s) |>
    <| c := <[mie := Z.lor (c s mie) MIE_MTIE]> (<[mstatus := Z.lor (c s mstatus) MSTATUS_MIE]>
              (<[mtvec := timervec_addr]> (<[mscratch := scratch h]> (c s)))) |>).
Proof.
  intros h Md Rh Al. unfold NCPU in Rh. unfold timerinit. unfold r_mhartid at 1. rewrite bind_gets. cbn [csr_read]. fold h. rewrite i32_small by lia. fold (scratch h).
  assert (A1' : CLINT_MTIMECMP h mod 8 = 0) by (unfold CLINT_MTIMECMP, CLINT; zdm).
  assert (A2' : scratch h mod 8 = 0) by (unfold scratch; zdm).
  rewrite (bind_ok _ _ _ _ _ (mem_load_ok CLINT_MTIME s eq_refl)). rewrite machine_phys by done.
  rewrite (bind_ok _ _ _ _ _ (mem_store_ok _ _ _ A1')). rewrite machine_phys by done.
  erewrite bind_ok; [|apply mem_store_ok; by rewrite Z.add_mod, A2' by lia]. rewrite machine_phys by done.
  erewrite bind_ok; [|apply mem_store_ok; by rewrite Z.add_mod, A2' by lia]. rewrite machine_phys by done.
  reflexivity.
Qed.

Lemma has_testbit v k : 0 <= k -> Z.testbit v k = true -> has v (Z.shiftl 1 k) = true.
Proof.
  intros Hk Hv. unfold has. destruct (Z.eqb_spec (Z.land v (Z.shiftl 1 k)) 0) as [E|N]; [|done].
  apply (f_equal (fun y => Z.testbit y k)) in E. rewrite Z.land_spec, Hv, Z.shiftl_spec, Z.sub_diag, Z.bits_0 in E by lia. done.
Qed.

Lemma mie_enabled v k : k = 1 \/ k = 5 \/ k = 7 \/ k = 9 ->
  has (Z.lor (masked 65535 v (Z.lor (Z.lor (Z.lor (Z.land v 65535) SIE_SEIE) SIE_STIE) SIE_SSIE)) MIE_MTIE) (Z.shiftl 1 k) = true.
Proof.
  intros K. apply has_testbit; [lia|]. unfold masked. rewrite !Z.lor_spec, !Z.land_spec, !Z.lor_spec.
  destruct K as [->|[->|[->| ->]]]; apply orb_true_iff; [left; apply orb_true_iff; right|left; apply orb_true_iff; right|right; reflexivity|left; apply orb_true_iff; right];
    apply andb_true_iff; (split; [|reflexivity]); rewrite !orb_true_iff; tauto.
Qed.

Lemma timer_mem_read h f : 0 <= h < 8 -> KERNBASE <= timer_scratch ->
  timer_mem h f (CLINT_MTIMECMP h) = u64 (f CLINT_MTIME + 1000000) /\ timer_mem h f (scratch h + 32) = 1000000 /\
  timer_mem h f (scratch h + 24) = CLINT_MTIMECMP h.
Proof.
  intros Rh K. change KERNBASE with 2147483648 in K. unfold timer_mem.
  assert (scratch h + 24 <> CLINT_MTIMECMP h /\ scratch h + 32 <> CLINT_MTIMECMP h) as [N0 N1] by (unfold scratch, CLINT_MTIMECMP, CLINT; lia).
  split_and!; [rewrite !fn_lookup_insert_ne by done; apply fn_lookup_insert|apply fn_lookup_insert|].
  rewrite fn_lookup_insert_ne by lia. apply fn_lookup_insert.
Qed.

(** The registers that a hart has changed on its way to [main]. *)
Definition boot_csrs : list csr := [mstatus; mepc; satp; medeleg; mideleg; mie; pmpaddr0; pmpcfg0; mscratch; mtvec].

(** C12: a hart that starts in [_entry] arrives in [main] in supervisor mode
    with paging off, its number in [tp], a stack of 4096 bytes of its own, all
    traps delegated, the supervisor interrupts (external, timer, software)
    enabled, and a timer that fires in 1000000 cycles, with the scratch area
    [timervec] needs.  Physical memory is open: the one protection range that is
    configured ends at the last address and allows every access.  Of memory only
    the compare register of the hart and two words of its scratch area have
    changed, and no control register beyond [boot_csrs]. *)
Theorem boot_reaches_main s : let h := c s mhartid in
  mode s = Machine -> 0 <= h < NCPU -> timer_scratch mod 8 = 0 -> KERNBASE <= timer_scratch ->
  timer_scratch + 40 * NCPU <= PHYSTOP -> 0 <= stack0 -> stack0 + 4096 * NCPU <= PHYSTOP ->
  exists s', run (entry (start translate)) s = Ok tt s' /\ mode s' = Supervisor /\ pc s' = main_addr /\
    x s' TP = h /\ x s' SP = stack0 + 4096 * h + 4096 /\ c s' satp = 0 /\
    c s' medeleg = 0xffff /\ c s' mideleg = 0xffff /\ c s' pmpaddr0 = 2 ^ 54 - 1 /\ c s' pmpcfg0 = 0xf /\
    has (c s' mie) SIE_SEIE = true /\ has (c s' mie) SIE_STIE = true /\ has (c s' mie) SIE_SSIE = true /\
    has (c s' mie) MIE_MTIE = true /\ c s' mtvec = timervec_addr /\ c s' mscratch = timer_scratch + 40 * h /\
    m s' (CLINT_MTIMECMP h) = u64 (m s CLINT_MTIME + 1000000) /\ m s' (c s' mscratch + 32) = 1000000 /\
    m s' (c s' mscratch + 24) = CLINT_MTIMECMP h /\ scratch_ok s' /\
    (forall a, a <> CLINT_MTIMECMP h -> a <> c s' mscratch + 24 -> a <> c s' mscratch + 32 -> m s' a = m s a) /\
    (forall k, k ∉ boot_csrs -> c s' k = c s k).
Proof.
  intros h Md Rh Al K0 K1 T0' T1'. pose proof Rh as Rh'. unfold NCPU in Rh', K1, T1'. change KERNBASE with 2147483648 in K0. change PHYSTOP with 2281701376 in *.
  set (s0 := s <| x := <[SP := u64 (stack0 + u64 (4096 * u64 (h + 1)))]> (<[A0 := u64 (4096 * u64 (h + 1))]>
    (<[A1 := u64 (h + 1)]> (<[A1 := h]> (<[A0 := 4096]> (<[SP := stack0]> (x s)))))) |>).
  set (s1 := s0 <| c := <[pmpcfg0 := 15]> (<[pmpaddr0 := 18014398509481983]> (<[mie := masked 65535 (c s mie) (Z.lor (Z.lor (Z.lor (Z.land (c s mie) 65535) SIE_SEIE) SIE_STIE) SIE_SSIE)]>
    (<[mideleg := 65535]> (<[medeleg := 65535]> (<[satp := 0]> (<[mepc := main_addr]>
     (<[mstatus := Z.lor (Z.land (c s mstatus) (Z.lnot MSTATUS_MPP_MASK)) MSTATUS_MPP_S]> (c s)))))))) |>).
  assert (Es : start translate s0 = (do timerinit translate ;;; let* h := r_mhartid in do w_tp (u64 (i32 h)) ;;; exec translate Mret) s1) by reflexivity.
  change (entry (start translate)) with ([La SP stack0; Li A0 (1024 * 4); Csrr A1 mhartid; Addi A1 A1 1; Mul A0 A0 A1; Add SP SP A0] ++ [Call (start translate)]).
  rewrite (run_app _ _ _ s0); [|reflexivity].
  pose proof (timerinit_run s1 Md Rh Al) as Et. change (c s1 mhartid) with h in Et.
  erewrite run_cons; [|cbn [exec]; rewrite Es, (bind_ok _ _ _ _ _ Et); reflexivity].
  eexists. split; [reflexivity|].
  destruct (timer_mem_read h (m s) Rh' K0) as (M0 & M1 & M2).
  split_and!; [apply mpp_supervisor|done| | |done..|exact (mie_enabled (c s mie) 9 ltac:(lia))|exact (mie_enabled (c s mie) 5 ltac:(lia))|
    exact (mie_enabled (c s mie) 1 ltac:(lia))|exact (mie_enabled (c s mie) 7 ltac:(lia))|done|done|exact M0|exact M1|exact M2| | |].
  - change (u64 (i32 h) = h). rewrite i32_small, u64_small; lia.
  - change (u64 (stack0 + u64 (4096 * u64 (h + 1))) = stack0 + 4096 * h + 4096). rewrite (u64_small (h + 1)), (u64_small (4096 * _)), u64_small; lia.
  - unfold scratch_ok. change (c _ mscratch) with (scratch h). change (m _ (scratch h + 24)) with (timer_mem h (m s) (scratch h + 24)). rewrite M2.
    unfold word, scratch, CLINT_MTIMECMP, CLINT. split_and!; try lia; zdm.
  - intros a N0 N1 N2. change (timer_mem h (m s) a = m s a). unfold timer_mem. by rewrite !fn_lookup_insert_ne by (intros <-; done).
  - intros k Nk. unfold boot_csrs in Nk. destruct k; try reflexivity; destruct Nk; isin.
Qed.
End Blocks.

(** ** Witnesses: concrete harts *)
Module AsmWitness.
Definition tr (u v : Z) : Z := u + v.
Definition regs (r : reg) : Z := match r with SP => 8192 | A0 => 4096 | A1 => 4352 | _ => 3 end.

(** In user space with page table 5; in the kernel with identity addressing; at
    reset, hart 1. *)
Definition user : mach := mkMach regs (fun k => match k with satp => 5 | _ => 0 end) (fun _ => 7) Supervisor 0.
Definition kernel : mach := mkMach regs (fun _ => 0) (fun a => a + 1) Supervisor 0.
Definition reset : mach := mkMach regs (fun k => match k with mhartid => 1 | _ => 0 end) (fun _ => 7) Machine 0.
Definition timer : mach := mkMach regs (fun k => match k with mscratch => 65536 | mideleg => 2 | _ => 0 end) (fun _ => 1024) Machine 0.

Lemma kernel_mapped a n : 0 <= a -> a + n <= 2 ^ 64 -> a mod 8 = 0 -> mapped tr kernel a n.
Proof. intros A B C. by split_and!. Qed.

Lemma user_trap_round_trip_witness :
  exists s1, Asm.run tr uservec user = Ok tt s1 /\ m s1 (tf_page tr 5 + 112) = 4096 /\ pc s1 = 7 /\
    exists s3, Asm.run tr userret (s1 <| x ::= fun f => <[A0 := 5]> f |>) = Ok tt s3 /\ x s3 SP = 8192 /\ x s3 A0 = 4096.
Proof.
  destruct (user_trap_round_trip tr user eq_refl ltac:(done)) as (s1 & E & Md & Sv & _ & _ & _ & _ & Pc & Rt).
  exists s1. split; [exact E|]. split; [exact (Sv A0 112 ltac:(isin))|]. split; [exact Pc|].
  set (s2 := s1 <| x ::= fun f => <[A0 := 5]> f |>). destruct (Rt s2 Md eq_refl) as (s3 & E3 & _ & _ & _ & _ & Bk).
  exists s3. split; [exact E3|]. specialize (Bk ltac:(by intros)).
  split; [exact (Bk SP ltac:(discriminate))|exact (Bk A0 ltac:(discriminate))].
Defined.

Lemma swtch_resumes_witness :
  exists s1, Asm.run tr swtch kernel = Ok tt s1 /\ x s1 SP = 4361 /\ pc s1 = 4353 /\
    exists s3, Asm.run tr swtch (s1 <| x ::= fun f => <[A1 := 4096]> (<[A0 := 4352]> f) |>) = Ok tt s3 /\ x s3 SP = 8192 /\ pc s3 = 3.
Proof.
  assert (Ap : apart tr kernel 4096 4352) by (intros o o' H H'; change (4096 + o <> 4352 + o'); lia).
  destruct (swtch_resumes tr kernel (kernel_mapped 4096 112 ltac:(lia) ltac:(lia) eq_refl) (kernel_mapped 4352 112 ltac:(lia) ltac:(lia) eq_refl) Ap)
    as (s1 & E & Ec & Ld & Pc & _ & Rt).
  exists s1. split; [exact E|]. split; [exact (Ld SP 8 ltac:(isin))|]. split; [exact Pc|].
  assert (Md : mode s1 = Supervisor) by (revert E; vm_compute; by intros [= <-]).
  set (s2 := s1 <| x ::= fun f => <[A1 := 4096]> (<[A0 := 4352]> f) |>).
  assert (Ph : forall va, phys tr s2 va = va) by (intros va; unfold phys, s2; cbn [c mode over]; rewrite Ec; cbn; by rewrite orb_true_r).
  destruct (Rt s2 Md) as (s3 & E3 & Pc3 & Bk); [cbn; by rewrite Ec|done|..|by intros|].
  - change (mapped tr s2 4352 112). split; [lia|]. split; [lia|]. split; [reflexivity|]. intros va va' _ _ E'. rewrite !Ph in E'. exact E'.
  - intros o o' H H'. rewrite !Ph. change (4352 + o <> 4096 + o'). lia.
  - exists s3. split; [exact E3|]. split; [exact (Bk SP 8 ltac:(isin))|exact Pc3].
Defined.

#[local] Instance ret_compiled : Compiled tr (ret tt).
Proof. split. by intros s s' [= <-]. Qed.

Lemma kernelvec_transparent_witness : exists s', Asm.run tr (kernelvec (ret tt)) kernel = Ok tt s' /\ x s' SP = 8192 /\ x s' T6 = 3.
Proof.
  destruct (kernelvec_transparent tr (ret tt) kernel ltac:(done) (kernel_mapped 7936 256 ltac:(lia) ltac:(lia) eq_refl)) as (t & _ & _ & _ & _ & s' & E & _ & _ & _ & Bk).
  exists s'. split; [exact E|]. split; [exact (Bk SP ltac:(discriminate) ltac:(discriminate))|exact (Bk T6 ltac:(discriminate) ltac:(discriminate))].
Defined.

Lemma timervec_transparent_witness : exists s', Asm.run tr timervec timer = Ok tt s' /\ x s' A0 = 4096 /\ m s' 1024 = 2048.
Proof.
  destruct (timervec_transparent tr timer eq_refl ltac:(split_and!; cbn; done || (left; done))) as (s' & E & Rg & _ & _ & _ & Cm & _).
  exists s'. split; [exact E|]. split; [apply Rg|exact Cm].
Defined.

#[local] Instance symbols : Symbols := { stack0 := 2147500032; timer_scratch := 2147491840; main_addr := 2147488000; timervec_addr := 2147489000 }.

Lemma boot_reaches_main_witness :
  exists s', Asm.run tr (entry (start tr)) reset = Ok tt s' /\ pc s' = 2147488000 /\ x s' SP = 2147508224 /\ x s' TP = 1.
Proof.
  destruct (boot_reaches_main tr reset eq_refl ltac:(done) eq_refl ltac:(done) ltac:(done) ltac:(done) ltac:(done)) as (s' & E & _ & Pc & Tp & Sp & _).
  exists s'. split; [exact E|]. split; [exact Pc|]. split; [exact Sp|exact Tp].
Defined.
End AsmWitness.
