(* ===== verification/Spinlock.v ===== *)
(** * kernel/spinlock.c: spin locks between harts

    Each hart runs the lock routines one shared-memory access at a time, and the
    accesses of different harts interleave in any order.  [pc] says where in
    [acquire] or [release] a hart is; [next] is its next access.  A [struct cpu *]
    is the number of the hart plus one, 0 for none.  The accesses take effect in
    the order they are made: the fences of the code are what ensures it. *)

From Stdlib Require Import ZArith Lia List.
From stdpp Require Import base tactics numbers functions list relations strings.
From S2P Require Import Prelude.

(** ** Data *)

Record spinlock : Type := mkLock { locked : Z; lcpu : Z }.
#[global] Instance eta_spinlock : Eta spinlock := fun l => mkLock (locked l) (lcpu l).

(** Where a hart is. *)
Inductive point : Type :=
  | Out                          (* not in the lock code *)
  | AcqPush (l : nat)            (* [push_off()] *)
  | AcqLocked (l : nat)          (* [holding]: reads [lk->locked] *)
  | AcqCpu (l : nat)             (* [holding]: reads [lk->cpu] *)
  | Spin (l : nat)               (* the atomic swap of the loop *)
  | Own (l : nat)                (* [lk->cpu = mycpu()] *)
  | RelLocked (l : nat)
  | RelCpu (l : nat)
  | RelClear (l : nat)           (* [lk->cpu = 0] *)
  | RelSwap (l : nat)            (* [__sync_lock_release] *)
  | RelPop                       (* [pop_off()] *)
  | Dead (msg : string).         (* in [panic] *)

(** The fields of [struct cpu] that matter, the interrupt bit of [sstatus], and
    the number of [push_off] calls outside of [acquire] not yet undone. *)
Record hart : Type := mkHart {
  noff : Z;
  intena : bool;
  sie : bool;
  pc : point;
  pushed : nat
}.
#[global] Instance eta_hart : Eta hart := fun h => mkHart (noff h) (intena h) (sie h) (pc h) (pushed h).

Record machine : Type := mkMachine { harts : nat -> hart; locks : nat -> spinlock }.
#[global] Instance eta_machine : Eta machine := fun m => mkMachine (harts m) (locks m).

Definition cpu_ptr (i : nat) : Z := Z.of_nat i + 1.

(** ** The routines *)

Definition initlock : spinlock := mkLock 0 0.

(** [old = intr_get(); intr_off(); ...] *)
Definition push_off (h : hart) : hart :=
  let old := sie h in
  let h := h <| sie := false |> in
  let h := if noff h =? 0 then h <| intena := old |> else h in
  h <| noff ::= fun n => n + 1 |>.

Definition pop_off (h : hart) : string + hart :=
  if sie h then inl "pop_off - interruptible"%string
  else if noff h <? 1 then inl "pop_off"%string
  else
    let h := h <| noff ::= fun n => n - 1 |> in
    inr (if (noff h =? 0) && intena h then h <| sie := true |> else h).

Definition set_hart (i : nat) (h : hart) (m : machine) : machine := m <| harts ::= fun f => <[i := h]> f |>.
Definition set_lock (l : nat) (k : spinlock) (m : machine) : machine := m <| locks ::= fun f => <[l := k]> f |>.
Definition goto (i : nat) (p : point) (m : machine) : machine := set_hart i ((harts m i) <| pc := p |>) m.

(** The next access of hart [i], in the order of the code. *)
Definition next (i : nat) (m : machine) : machine :=
  let h := harts m i in
  match pc h with
  | Out | Dead _ => m
  | AcqPush l => set_hart i ((push_off h) <| pc := AcqLocked l |>) m
  | AcqLocked l => if negb (locked (locks m l) =? 0) then goto i (AcqCpu l) m else goto i (Spin l) m
  | AcqCpu l => if lcpu (locks m l) =? cpu_ptr i then goto i (Dead "acquire") m else goto i (Spin l) m
  | Spin l =>
    let old := locked (locks m l) in
    let m := set_lock l ((locks m l) <| locked := 1 |>) m in
    if negb (old =? 0) then goto i (Spin l) m else goto i (Own l) m
  | Own l => goto i Out (set_lock l ((locks m l) <| lcpu := cpu_ptr i |>) m)
  | RelLocked l => if negb (locked (locks m l) =? 0) then goto i (RelCpu l) m else goto i (Dead "release") m
  | RelCpu l => if lcpu (locks m l) =? cpu_ptr i then goto i (RelClear l) m else goto i (Dead "release") m
  | RelClear l => goto i (RelSwap l) (set_lock l ((locks m l) <| lcpu := 0 |>) m)
  | RelSwap l => goto i RelPop (set_lock l ((locks m l) <| locked := 0 |>) m)
  | RelPop =>
    match pop_off h with
    | inl msg => goto i (Dead msg) m
    | inr h => set_hart i (h <| pc := Out |>) m
    end
  end.

(** ** What a hart may do next

    Outside of the lock code it may call [acquire] or [release] on any lock,
    call [push_off], undo one of its own [push_off] calls, take an interrupt if
    they are on, and turn interrupts on or off itself if it has disabled none. *)
Inductive step (m : machine) : machine -> Prop :=
  | step_next i : step m (next i m)
  | step_acquire i l : pc (harts m i) = Out -> step m (goto i (AcqPush l) m)
  | step_release i l : pc (harts m i) = Out -> step m (goto i (RelLocked l) m)
  | step_push i : pc (harts m i) = Out ->
      step m (set_hart i ((push_off (harts m i)) <| pushed ::= S |>) m)
  | step_pop i h : pc (harts m i) = Out -> (0 < pushed (harts m i))%nat -> pop_off (harts m i) = inr h ->
      step m (set_hart i (h <| pushed ::= Nat.pred |>) m)
  | step_pop_panic i msg : pc (harts m i) = Out -> (0 < pushed (harts m i))%nat -> pop_off (harts m i) = inl msg ->
      step m (goto i (Dead msg) m)
  | step_trap i : pc (harts m i) = Out -> sie (harts m i) = true ->
      step m (set_hart i ((harts m i) <| sie := false |>) m)
  | step_intr i b : pc (harts m i) = Out -> noff (harts m i) = 0 ->
      step m (set_hart i ((harts m i) <| sie := b |>) m).

Definition boot (m : machine) : Prop :=
  (forall i, harts m i = mkHart 0 (intena (harts m i)) (sie (harts m i)) Out 0) /\ (forall l, locks m l = initlock).

(** ** Mutual exclusion *)

(** Hart [i] is between the swap that took lock [l] and the swap that gives it
    back. *)
Definition owns (m : machine) (i l : nat) : Prop :=
  pc (harts m i) = Own l \/ pc (harts m i) = RelSwap l \/ locked (locks m l) <> 0 /\ lcpu (locks m l) = cpu_ptr i.

(** The harts that [acquire] or [release] have one level of their own for. *)
Definition busy (p : point) : Z :=
  match p with
  | AcqLocked _ | AcqCpu _ | Spin _ | Own _ | RelSwap _ | RelPop => 1
  | _ => 0
  end.

Definition between (p : point) (l : nat) : Prop := p = Own l \/ p = RelSwap l.

(** A hart that holds [k] locks counts them in [noff], and has interrupts off
    if there are any. *)
Record hart_ok (h : hart) (k : nat) : Prop := {
  h_depth : match pc h with
            | Dead _ => Z.of_nat k + Z.of_nat (pushed h) <= noff h
            | p => noff h = Z.of_nat k + Z.of_nat (pushed h) + busy p
            end;
  h_off : 0 < noff h -> sie h = false;
  h_panic : forall msg, pc h = Dead msg -> msg = "acquire"%string \/ msg = "release"%string
}.

(** [O] is the owner of each lock, [L] the locks of each hart. *)
Record inv (m : machine) (O : nat -> option nat) (L : nat -> list nat) : Prop := {
  i_free : forall l, O l = None -> locks m l = mkLock 0 0;
  i_held : forall l i, O l = Some i -> locked (locks m l) <> 0 /\
    (lcpu (locks m l) = cpu_ptr i \/ lcpu (locks m l) = 0 /\ between (pc (harts m i)) l);
  i_between : forall i l, between (pc (harts m i)) l -> O l = Some i /\ lcpu (locks m l) = 0;
  i_clear : forall i l, pc (harts m i) = RelClear l -> lcpu (locks m l) = cpu_ptr i;
  i_list : forall i, NoDup (L i) /\ forall l, l ∈ L i <-> lcpu (locks m l) = cpu_ptr i;
  i_hart : forall i, hart_ok (harts m i) (length (L i))
}.

Lemma cpu_ptr_inj i j : cpu_ptr i = cpu_ptr j -> i = j.
Proof. unfold cpu_ptr. lia. Qed.

Lemma cpu_ptr_0 i : cpu_ptr i <> 0.
Proof. unfold cpu_ptr. lia. Qed.

Lemma lcpu_owner m O L i l : inv m O L -> lcpu (locks m l) = cpu_ptr i -> O l = Some i /\ locked (locks m l) <> 0.
Proof.
  intros I E. destruct (O l) as [j|] eqn:Ol.
  - destruct (i_held _ _ _ I l j Ol) as [Lk [C|[C _]]]; rewrite E in C; [by apply cpu_ptr_inj in C as ->|by apply cpu_ptr_0 in C].
  - rewrite (i_free _ _ _ I l Ol) in E. symmetry in E. by apply cpu_ptr_0 in E.
Qed.

Lemma owns_owner m O L i l : inv m O L -> owns m i l -> O l = Some i.
Proof.
  intros I [C|[C|[_ C]]]; [apply (i_between _ _ _ I); by left|apply (i_between _ _ _ I); by right|].
  by apply (lcpu_owner _ _ _ _ _ I).
Qed.

(** ** Steps that touch no lock *)

Lemma harts_set i h m j : harts (set_hart i h m) j = if decide (j = i) then h else harts m j.
Proof. cbn. destruct (decide (j = i)) as [->|N]; [apply fn_lookup_insert|by apply fn_lookup_insert_ne]. Qed.

Lemma inv_hart m O L i h : inv m O L ->
  (forall l, between (pc h) l <-> between (pc (harts m i)) l) ->
  (forall l, pc h = RelClear l -> lcpu (locks m l) = cpu_ptr i) ->
  hart_ok h (length (L i)) -> inv (set_hart i h m) O L.
Proof.
  intros I B C Hk. split.
  - apply I.
  - intros l j E. rewrite harts_set. destruct (i_held _ _ _ I l j E) as [Lk [D|[D1 D2]]]; (split; [done|]); [by left|].
    right. split; [done|]. destruct (decide (j = i)) as [->|]; [by apply B|done].
  - intros j l. rewrite harts_set. destruct (decide (j = i)) as [->|]; [rewrite B|]; apply (i_between _ _ _ I).
  - intros j l. rewrite harts_set. destruct (decide (j = i)) as [->|]; [apply C|apply (i_clear _ _ _ I)].
  - apply I.
  - intros j. rewrite harts_set. destruct (decide (j = i)) as [->|]; [done|apply I].
Qed.

Lemma push_off_ok h k p n : hart_ok h k -> (forall msg, pc h <> Dead msg) ->
  (match p with Dead _ => False | _ => Z.of_nat n + busy p = Z.of_nat (pushed h) + busy (pc h) + 1 end) ->
  hart_ok ((push_off h) <| pc := p |> <| pushed := n |>) k.
Proof.
  intros [D O P] Nd E. unfold push_off. split; cbn.
  - destruct (pc h) eqn:Ep; try (by destruct (Nd msg)); destruct p; try done; destruct (noff h =? 0); cbn; cbn in *; lia.
  - intros _. by destruct (noff h =? 0).
  - intros msg ->. done.
Qed.

Lemma pop_off_ok h k p n : hart_ok h k -> (forall msg, pc h <> Dead msg) ->
  (match p with Dead _ => False | _ => Z.of_nat n + busy p = Z.of_nat (pushed h) + busy (pc h) - 1 end) ->
  exists h', pop_off h = inr h' /\ hart_ok (h' <| pc := p |> <| pushed := n |>) k /\ pc h' = pc h /\ pushed h' = pushed h.
Proof.
  intros [D O P] Nd E. unfold pop_off.
  assert (Np : 1 <= noff h) by (destruct (pc h) eqn:Ep; try (by destruct (Nd msg)); destruct p; try done; cbn in *; lia).
  rewrite (O ltac:(lia)). destruct (Z.ltb_spec (noff h) 1); [lia|]. eexists. split; [done|].
  split; [|by destruct (_ && _)]. split; cbn.
  - destruct (pc h) eqn:Ep; try (by destruct (Nd msg)); destruct p; try done; destruct (_ && _); cbn; cbn in *; lia.
  - destruct (Z.eqb_spec (noff h - 1) 0); cbn; [|intros _; apply O; lia]. destruct (intena h); cbn; lia.
  - intros msg ->. done.
Qed.

Lemma goto_ok h k p : hart_ok h k -> (forall msg, pc h <> Dead msg) ->
  (match p with Dead msg => msg = "acquire"%string \/ msg = "release"%string | _ => busy p = busy (pc h) end) ->
  hart_ok (h <| pc := p |>) k.
Proof.
  intros [D O P] Nd E. split; cbn; [|done|by intros msg ->].
  assert (D' : noff h = Z.of_nat k + Z.of_nat (pushed h) + busy (pc h)) by (destruct (pc h) eqn:Ep; done || by destruct (Nd msg)).
  assert (0 <= busy (pc h)) by (by destruct (pc h)). destruct p; cbn [busy] in E |- *; lia.
Qed.

(** ** Steps that touch a lock *)

Lemma locks_set l k m j : locks (set_lock l k m) j = if decide (j = l) then k else locks m j.
Proof. cbn. destruct (decide (j = l)) as [->|N]; [apply fn_lookup_insert|by apply fn_lookup_insert_ne]. Qed.

Lemma fn_at {A} (f : nat -> A) i x j : <[i := x]> f j = if decide (j = i) then x else f j.
Proof. destruct (decide (j = i)) as [->|N]; [apply fn_lookup_insert|by apply fn_lookup_insert_ne]. Qed.

Lemma locks_step i p l k m j : locks (goto i p (set_lock l k m)) j = if decide (j = l) then k else locks m j.
Proof. apply locks_set. Qed.

Lemma harts_step i p l k m j :
  harts (goto i p (set_lock l k m)) j = if decide (j = i) then (harts m i) <| pc := p |> else harts m j.
Proof. exact (harts_set i ((harts m i) <| pc := p |>) (set_lock l k m) j). Qed.

Section LockStep.
Context (m : machine) (O : nat -> option nat) (L : nat -> list nat) (i l : nat) (I : inv m O L).

Lemma take_ok : pc (harts m i) = Spin l -> locked (locks m l) = 0 ->
  inv (goto i (Own l) (set_lock l ((locks m l) <| locked := 1 |>) m)) (<[l := Some i]> O) L.
Proof.
  intros P Lk. assert (Ol : O l = None).
  { destruct (O l) as [j|] eqn:E; [|done]. by destruct (i_held _ _ _ I l j E) as [? _]. }
  assert (Lc : locks m l = mkLock 0 0) by by apply (i_free _ _ _ I).
  split.
  - intros l'. rewrite fn_at, locks_step. destruct (decide (l' = l)); [done|apply I].
  - intros l' j. rewrite fn_at, locks_step, harts_step. destruct (decide (l' = l)) as [->|N].
    + intros [= <-]. rewrite Lc. cbn. split; [done|]. right. rewrite decide_True by done. split; [done|]. by left.
    + intros E. destruct (i_held _ _ _ I l' j E) as [A [B|[B1 B2]]]; (split; [done|]); [by left|right]. split; [done|].
      destruct (decide (j = i)) as [->|]; [|done]. rewrite P in B2. by destruct B2.
  - intros j l'. rewrite harts_step, fn_at, locks_step. destruct (decide (j = i)) as [->|Nj].
    + intros [[= <-]|E]; [|done]. rewrite !decide_True by done. by rewrite Lc.
    + intros B. destruct (i_between _ _ _ I _ _ B) as [E1 E2]. rewrite !decide_False by congruence. done.
  - intros j l'. rewrite harts_step, locks_step. destruct (decide (j = i)) as [->|]; [done|]. intros E.
    destruct (decide (l' = l)) as [->|]; [|by apply (i_clear _ _ _ I)]. cbn. by apply (i_clear _ _ _ I) in E.
  - intros j. destruct (i_list _ _ _ I j) as [N E]. split; [done|]. intros l'. rewrite locks_step, E.
    destruct (decide (l' = l)) as [->|]; done.
  - intros j. rewrite harts_step. destruct (decide (j = i)) as [->|]; [|apply I]. apply goto_ok; [apply I|by rewrite P|by rewrite P].
Qed.

Lemma miss_ok : pc (harts m i) = Spin l -> locked (locks m l) <> 0 ->
  inv (goto i (Spin l) (set_lock l ((locks m l) <| locked := 1 |>) m)) O L.
Proof.
  intros P Lk. unfold goto. apply inv_hart.
  - assert (K : forall l', lcpu (locks (set_lock l ((locks m l) <| locked := 1 |>) m) l') = lcpu (locks m l')).
    { intros l'. rewrite locks_set. by destruct (decide (l' = l)) as [->|]. }
    split.
    + intros l' E. rewrite locks_set. destruct (decide (l' = l)) as [->|]; [|by apply (i_free _ _ _ I)]. by rewrite (i_free _ _ _ I l E) in Lk.
    + intros l' j E. rewrite K. destruct (i_held _ _ _ I l' j E) as [A B]. split; [|done]. rewrite locks_set. by destruct (decide (l' = l)).
    + intros j l'. rewrite K. apply (i_between _ _ _ I).
    + intros j l'. rewrite K. apply (i_clear _ _ _ I).
    + intros j. destruct (i_list _ _ _ I j) as [N E]. split; [done|]. intros l'. by rewrite K, E.
    + apply I.
  - intros l'. cbn. by rewrite P.
  - done.
  - apply goto_ok; [apply I|by cbn; rewrite P|by cbn; rewrite P].
Qed.

Lemma own_ok : pc (harts m i) = Own l ->
  inv (goto i Out (set_lock l ((locks m l) <| lcpu := cpu_ptr i |>) m)) O (<[i := l :: L i]> L).
Proof.
  intros P. destruct (i_between _ _ _ I i l ltac:(by left)) as [Ol Lc]. split.
  - intros l' E. rewrite locks_step, decide_False by congruence. by apply (i_free _ _ _ I).
  - intros l' j E. rewrite locks_step, harts_step. destruct (i_held _ _ _ I l' j E) as [A B]. destruct (decide (l' = l)) as [->|N].
    + split; [done|]. left. cbn. congruence.
    + split; [done|]. destruct B as [B|[B1 B2]]; [by left|right; split; [done|]].
      destruct (decide (j = i)) as [->|]; [|done]. rewrite P in B2. destruct B2 as [[= ?]|]; [congruence|done].
  - intros j l'. rewrite harts_step, locks_step. destruct (decide (j = i)) as [->|Nj]; [by intros [|]|]. intros B.
    destruct (i_between _ _ _ I _ _ B) as [E1 E2]. rewrite decide_False by congruence. done.
  - intros j l'. rewrite harts_step, locks_step. destruct (decide (j = i)) as [->|Nj]; [done|]. intros E%(i_clear _ _ _ I).
    rewrite decide_False; [done|]. intros ->. rewrite Lc in E. symmetry in E. by apply cpu_ptr_0 in E.
  - intros j. rewrite fn_at. destruct (i_list _ _ _ I j) as [N E]. destruct (decide (j = i)) as [->|Nj].
    + split; [constructor; [|done]; rewrite E, Lc; intros C; symmetry in C; by apply cpu_ptr_0 in C|].
      intros l'. rewrite elem_of_cons, locks_step, E. destruct (decide (l' = l)) as [->|]; [cbn; naive_solver|naive_solver].
    + split; [done|]. intros l'. rewrite locks_step, E. destruct (decide (l' = l)) as [->|]; [|done]. cbn.
      rewrite Lc. split; [intros C; symmetry in C; by apply cpu_ptr_0 in C|intros C%cpu_ptr_inj; congruence].
  - intros j. rewrite fn_at, harts_step. destruct (decide (j = i)) as [->|]; [|apply I]. pose proof (i_hart _ _ _ I i) as [D F Q].
    rewrite P in D. split; cbn; [cbn in D; lia|done|done].
Qed.

Lemma clear_ok : pc (harts m i) = RelClear l -> exists L',
  inv (goto i (RelSwap l) (set_lock l ((locks m l) <| lcpu := 0 |>) m)) O L'.
Proof.
  intros P. pose proof (i_clear _ _ _ I i l P) as Lc. destruct (lcpu_owner _ _ _ _ _ I Lc) as [Ol Lk].
  destruct (i_list _ _ _ I i) as [Ni Ei]. destruct (elem_of_Permutation (L i) l) as [[L0 Pm] _]; [by apply Ei|].
  assert (N0 : NoDup (l :: L0)) by by rewrite <- Pm. apply NoDup_cons in N0 as [Nl N0].
  exists (<[i := L0]> L). split.
  - intros l' E. rewrite locks_step, decide_False by congruence. by apply (i_free _ _ _ I).
  - intros l' j E. rewrite locks_step, harts_step. destruct (i_held _ _ _ I l' j E) as [A B]. destruct (decide (l' = l)) as [->|N].
    + split; [done|]. right. split; [done|]. rewrite decide_True by congruence. by right.
    + split; [done|]. destruct B as [B|[B1 B2]]; [by left|right; split; [done|]].
      destruct (decide (j = i)) as [->|]; [|done]. rewrite P in B2. by destruct B2.
  - intros j l'. rewrite harts_step, locks_step. destruct (decide (j = i)) as [->|Nj].
    + intros [|[= <-]]; [done|]. by rewrite decide_True.
    + intros B. destruct (i_between _ _ _ I _ _ B) as [E1 E2]. rewrite decide_False by congruence. done.
  - intros j l'. rewrite harts_step, locks_step. destruct (decide (j = i)) as [->|Nj]; [done|]. intros E%(i_clear _ _ _ I).
    rewrite decide_False; [done|]. intros ->. rewrite Lc in E. apply cpu_ptr_inj in E. congruence.
  - intros j. rewrite fn_at. destruct (decide (j = i)) as [->|Nj].
    + split; [done|]. intros l'. rewrite locks_step. assert (E' : l' ∈ l :: L0 <-> lcpu (locks m l') = cpu_ptr i) by by rewrite <- Pm.
      rewrite elem_of_cons in E'. destruct (decide (l' = l)) as [->|]; [|naive_solver]. cbn. split; [done|]. intros C. symmetry in C. by apply cpu_ptr_0 in C.
    + destruct (i_list _ _ _ I j) as [N E]. split; [done|]. intros l'. rewrite locks_step, E. destruct (decide (l' = l)) as [->|]; [|done]. cbn.
      rewrite Lc. split; [intros C%cpu_ptr_inj; congruence|intros C; symmetry in C; by apply cpu_ptr_0 in C].
  - intros j. rewrite fn_at, harts_step. destruct (decide (j = i)) as [->|]; [|apply I]. pose proof (i_hart _ _ _ I i) as [D F Q].
    rewrite P, Pm in D. split; cbn; [cbn in D; lia|done|done].
Qed.

Lemma give_ok : pc (harts m i) = RelSwap l ->
  inv (goto i RelPop (set_lock l ((locks m l) <| locked := 0 |>) m)) (<[l := None]> O) L.
Proof.
  intros P. destruct (i_between _ _ _ I i l ltac:(by right)) as [Ol Lc].
  assert (E0 : (locks m l) <| locked := 0 |> = mkLock 0 0) by (unfold over; by rewrite Lc). rewrite E0. split.
  - intros l'. rewrite fn_at, locks_step. destruct (decide (l' = l)); [done|apply I].
  - intros l' j. rewrite fn_at, locks_step, harts_step. destruct (decide (l' = l)) as [->|N]; [done|]. intros E.
    destruct (i_held _ _ _ I l' j E) as [A [B|[B1 B2]]]; (split; [done|]); [by left|right; split; [done|]].
    destruct (decide (j = i)) as [->|]; [|done]. rewrite P in B2. destruct B2 as [|[= ?]]; [done|congruence].
  - intros j l'. rewrite harts_step, fn_at, locks_step. destruct (decide (j = i)) as [->|Nj]; [by intros [|]|]. intros B.
    destruct (i_between _ _ _ I _ _ B) as [E1 E2]. rewrite !decide_False by congruence. done.
  - intros j l'. rewrite harts_step, locks_step. destruct (decide (j = i)) as [->|Nj]; [done|]. intros E%(i_clear _ _ _ I).
    rewrite decide_False; [done|]. intros ->. rewrite Lc in E. symmetry in E. by apply cpu_ptr_0 in E.
  - intros j. destruct (i_list _ _ _ I j) as [N E]. split; [done|]. intros l'. rewrite locks_step, E.
    destruct (decide (l' = l)) as [->|]; [by rewrite Lc|done].
  - intros j. rewrite harts_step. destruct (decide (j = i)) as [->|]; [|apply I]. apply goto_ok; [apply I|by rewrite P|by rewrite P].
Qed.
End LockStep.

(** ** Every step keeps the invariant *)

Lemma goto_inv m O L i p : inv m O L -> (forall msg, pc (harts m i) <> Dead msg) ->
  (forall l, ~ between (pc (harts m i)) l) -> (forall l, ~ between p l) ->
  (forall l, p = RelClear l -> lcpu (locks m l) = cpu_ptr i) ->
  (match p with Dead msg => msg = "acquire"%string \/ msg = "release"%string | _ => busy p = busy (pc (harts m i)) end) ->
  inv (goto i p m) O L.
Proof.
  intros I Nd B B' C E. apply inv_hart; [done| |done|apply goto_ok; [apply I|done|done]].
  intros l. cbn. split; intros X; [by apply B' in X|by apply B in X].
Qed.

Ltac goto_tac P := apply goto_inv; [done|by rewrite P|rewrite P; by intros ? [|]|by intros ? [|]|intros ? [= <-] || done|first [by auto | by rewrite P]].

Lemma next_inv i m O L : inv m O L -> exists O' L', inv (next i m) O' L'.
Proof.
  intros I. unfold next. destruct (pc (harts m i)) eqn:P.
  - by exists O, L.
  - exists O, L. apply inv_hart; [done| |done|].
    + intros l'. cbn. rewrite P. split; by intros [|].
    + pose proof (push_off_ok (harts m i) (length (L i)) (AcqLocked l) (pushed (harts m i)) (i_hart _ _ _ I i) ltac:(by rewrite P) ltac:(rewrite P; cbn; lia)) as Hk.
      unfold push_off in *. by destruct (noff _ =? 0).
  - exists O, L. destruct (negb _); goto_tac P.
  - exists O, L. destruct (_ =? _); goto_tac P.
  - destruct (Z.eqb_spec (locked (locks m l)) 0); cbn [negb].
    + exists (<[l := Some i]> O), L. by apply take_ok.
    + exists O, L. by apply miss_ok.
  - eexists O, _. by apply own_ok.
  - exists O, L. destruct (negb _); goto_tac P.
  - exists O, L. destruct (Z.eqb_spec (lcpu (locks m l)) (cpu_ptr i)); goto_tac P. done.
  - destruct (clear_ok m O L i l I P) as [L' I']. by exists O, L'.
  - exists (<[l := None]> O), L. by apply give_ok.
  - exists O, L. destruct (pop_off_ok (harts m i) (length (L i)) Out (pushed (harts m i))) as (h & E & Hk & Ep & En); [apply I|by rewrite P|rewrite P; cbn; lia|].
    rewrite E. apply inv_hart; [done| |done|].
    + intros l'. cbn. rewrite P. split; by intros [|].
    + rewrite <- En in Hk. replace ((h <| pc := Out |>) <| pushed := pushed h |>) with (h <| pc := Out |>) in Hk by done. exact Hk.
  - by exists O, L.
Qed.

Lemma step_inv m m' O L : inv m O L -> step m m' -> exists O' L', inv m' O' L'.
Proof.
  intros I St. destruct St as [i|i l P|i l P|i P|i h P Hp E|i msg P Hp E|i P Si|i b P N].
  - by apply (next_inv i m O L).
  - exists O, L. goto_tac P.
  - exists O, L. goto_tac P.
  - exists O, L. apply inv_hart; [done|intros l; by unfold push_off; destruct (_ =? _)|intros l; unfold push_off; destruct (_ =? _); cbn; by rewrite P|].
    pose proof (push_off_ok (harts m i) (length (L i)) Out (S (pushed (harts m i))) (i_hart _ _ _ I i) ltac:(by rewrite P) ltac:(rewrite P; cbn; lia)) as Hk.
    unfold push_off in *. destruct (noff _ =? 0); cbn in *; unfold over in *; cbn in *; by rewrite P.
  - exists O, L. destruct (pop_off_ok (harts m i) (length (L i)) Out (Nat.pred (pushed (harts m i)))) as (h' & E' & Hk & Ep & En); [apply I|by rewrite P|rewrite P; cbn; lia|].
    rewrite E in E'. injection E' as <-. apply inv_hart; [done|intros l; cbn; by rewrite Ep|intros l; cbn; by rewrite Ep, P|].
    unfold over in *. cbn in *. by rewrite Ep, P, En.
  - destruct (pop_off_ok (harts m i) (length (L i)) Out (Nat.pred (pushed (harts m i)))) as (h' & E' & _); [apply I|by rewrite P|rewrite P; cbn; lia|]. congruence.
  - exists O, L. apply inv_hart; [done|done|intros l; cbn; by rewrite P|]. pose proof (i_hart _ _ _ I i) as [D F Q]. by split.
  - exists O, L. apply inv_hart; [done|done|intros l; cbn; by rewrite P|]. pose proof (i_hart _ _ _ I i) as [D F Q]. split; [done| |done]. cbn. lia.
Qed.

Lemma boot_inv m : boot m -> inv m (fun _ => None) (fun _ => []).
Proof.
  intros [Hh Hl]. split; try done.
  - intros i l. rewrite Hh. by intros [|].
  - intros i l. by rewrite Hh.
  - intros i. split; [constructor|]. intros l. rewrite Hl. split; [by intros ?%elem_of_nil|]. intros C. symmetry in C. by apply cpu_ptr_0 in C.
  - intros i. rewrite Hh. split; cbn; done || lia.
Qed.

Lemma reach_inv m0 m : boot m0 -> rtc step m0 m -> exists O L, inv m O L.
Proof.
  intros B%boot_inv R. assert (I0 : exists O L, inv m0 O L) by (by eexists _, _). clear B.
  induction R as [|? m1 m St R IH]; [done|]. apply IH. destruct I0 as (O & L & I). by eapply step_inv.
Qed.

(** C10: spin locks exclude each other.  However the accesses of the harts
    interleave, and whatever [acquire] and [release] calls they make: no two
    harts own a lock at the same time, a hart that owns one has interrupts off,
    and the only way to panic is to acquire a lock already held or to release
    one that is not: the nesting count of [push_off] never runs out. *)
Theorem spinlocks_exclude m0 m :
  boot m0 -> rtc step m0 m ->
  (forall l i j, owns m i l -> owns m j l -> i = j) /\
  (forall l i, owns m i l -> sie (harts m i) = false) /\
  (forall i msg, pc (harts m i) = Dead msg -> msg = "acquire"%string \/ msg = "release"%string).
Proof.
  intros B R. destruct (reach_inv m0 m B R) as (O & L & I). split_and!.
  - intros l i j A%(owns_owner _ _ _ _ _ I) C%(owns_owner _ _ _ _ _ I). congruence.
  - intros l i A. pose proof (i_hart _ _ _ I i) as [D F Q]. apply F.
    destruct A as [A|[A|[A1 A2]]]; [rewrite A in D; cbn in D; lia..|].
    destruct (i_list _ _ _ I i) as [_ E]. apply E in A2. destruct (L i); [by apply elem_of_nil in A2|].
    destruct (pc (harts m i)); cbn in D; lia.
  - intros i msg E. by apply (h_panic _ _ (i_hart _ _ _ I i)).
Qed.

(** ** Witness: two harts race for lock 0; hart 0 gets it, hart 1 spins. *)
Module SpinWitness.
Definition m0 : machine := mkMachine (fun _ => mkHart 0 false true Out 0) (fun _ => initlock).
Definition m1 : machine :=
  next 1 (next 0 (next 0 (next 1 (next 1 (next 0 (next 0 (goto 1 (AcqPush 0) (goto 0 (AcqPush 0) m0)))))))).

Lemma spinlocks_exclude_witness :
  rtc step m0 m1 /\ owns m1 0 0 /\ pc (harts m1 1) = Spin 0 /\ forall j, owns m1 j 0 -> j = 0%nat.
Proof.
  assert (R : rtc step m0 m1).
  { apply (rtc_l _ _ _ _ (step_acquire m0 0 0 eq_refl)), (rtc_l _ _ _ _ (step_acquire (goto 0 (AcqPush 0) m0) 1 0 eq_refl)). unfold m1.
    repeat (eapply rtc_r; [|apply step_next]). apply rtc_refl. }
  assert (Ow : owns m1 0 0) by (right; right; by split). split_and!; [exact R|exact Ow|done|].
  intros j Hj. destruct (spinlocks_exclude m0 m1) as [Ex _]; [by split|exact R|]. by apply (Ex 0%nat j 0%nat).
Defined.
End SpinWitness.
