(* ===== verification/Virtio.v ===== *)
(** * kernel/virtio_disk.c: the disk driver

    The rings shared with the device, the driver's own records and the buffers
    it has been asked to transfer.  A pointer in a descriptor is the object it
    points to; distinct objects have distinct addresses.  [virtio_disk_rw] sleeps
    in two places, so it is three routines here: up to the notification, the
    test whether the buffer is still with the device, and the rest.  The wakeups
    are recorded in order.  The registers of the device are not represented. *)

From Stdlib Require Import ZArith Lia List.
From stdpp Require Import base tactics numbers list functions sets strings.
From S2P Require Import Prelude.

(** ** virtio.h *)

Definition NUM : Z := 8.
Definition VRING_DESC_F_NEXT : Z := 1.
Definition VRING_DESC_F_WRITE : Z := 2.
Definition VIRTIO_BLK_T_IN : Z := 0.
Definition VIRTIO_BLK_T_OUT : Z := 1.
Definition sizeof_blk_req : Z := 16.
Definition BSIZE : Z := 1024.

(** [&disk.ops[i]], [b->data], [&disk.info[i].status]. *)
Inductive place : Type := PNull | POp (i : Z) | PData (b : Z) | PStatus (i : Z).

Record virtq_desc : Type := mkDesc { d_addr : place; d_len : Z; d_flags : Z; d_next : Z }.
#[global] Instance eta_desc : Eta virtq_desc := fun d => mkDesc (d_addr d) (d_len d) (d_flags d) (d_next d).
Definition desc0 : virtq_desc := mkDesc PNull 0 0 0.

Record blk_req : Type := mkReq { r_type : Z; r_reserved : Z; r_sector : Z }.
Definition req0 : blk_req := mkReq 0 0 0.

(** [struct disk] and what it points to; of a buffer, what the driver uses. *)
Record info_t : Type := mkInfo { i_b : Z; i_status : Z }.
#[global] Instance eta_info : Eta info_t := fun i => mkInfo (i_b i) (i_status i).
Definition info0 : info_t := mkInfo 0 0.

Record vstate : Type := mkVstate {
  desc : list virtq_desc;
  avail_idx : Z;
  avail_ring : list Z;
  dev_used_idx : Z;
  used_ring : list Z;
  free : list Z;
  used_idx : Z;
  info : list info_t;
  ops : list blk_req;
  vdata : Z -> list Z;
  vblockno : Z -> Z;
  vdisk : Z -> Z;
  vwoken : list chan
}.
#[global] Instance eta_vstate : Eta vstate := fun s =>
  mkVstate (desc s) (avail_idx s) (avail_ring s) (dev_used_idx s) (used_ring s) (free s) (used_idx s) (info s) (ops s)
    (vdata s) (vblockno s) (vdisk s) (vwoken s).

(** ** Descriptors *)

Fixpoint first_free (l : list Z) (i : Z) : Z :=
  match l with
  | [] => -1
  | x :: l' => if negb (x =? 0) then i else first_free l' (i + 1)
  end.

Definition alloc_desc : M vstate Z :=
  let* i := gets (fun s => first_free (free s) 0) in
  if i =? -1 then ret (-1)
  else do modify (fun s => s <| free ::= fun l => upd l i 0 |>) ;;; ret i.

Definition vwake (c : chan) : M vstate unit := modify (fun s => s <| vwoken ::= fun l => l ++ [c] |>).

Definition free_desc (i : Z) : M vstate unit :=
  if NUM <=? i then panic "free_desc 1"
  else
    let* x := gets (fun s => at_ 0 (free s) i) in
    if negb (x =? 0) then panic "free_desc 2"
    else
      do modify (fun s => s <| desc ::= fun l => upd l i desc0 |> <| free ::= fun l => upd l i 1 |>) ;;;
      vwake ChDiskFree.

(** At most [NUM] descriptors are in a chain. *)
Fixpoint free_chain_loop (k : nat) (i : Z) : M vstate unit :=
  match k with
  | O => panic "free_chain: fuel"
  | S k' =>
    let* d := gets (fun s => at_ desc0 (desc s) i) in
    do free_desc i ;;;
    if negb (Z.land (d_flags d) VRING_DESC_F_NEXT =? 0) then free_chain_loop k' (d_next d) else ret tt
  end.
Definition free_chain (i : Z) : M vstate unit := free_chain_loop (Z.to_nat NUM) i.

(** The three indices, or nothing with those already taken given back. *)
Definition alloc3_desc : M vstate (option (Z * Z * Z)) :=
  let* i0 := alloc_desc in
  if i0 <? 0 then ret None
  else
    let* i1 := alloc_desc in
    if i1 <? 0 then do free_desc i0 ;;; ret None
    else
      let* i2 := alloc_desc in
      if i2 <? 0 then do free_desc i0 ;;; do free_desc i1 ;;; ret None
      else ret (Some (i0, i1, i2)).

(** ** Requests *)

Definition set_desc (i : Z) (d : virtq_desc) : M vstate unit := modify (fun s => s <| desc ::= fun l => upd l i d |>).
Definition set_info (i : Z) (f : info_t -> info_t) : M vstate unit :=
  modify (fun s => s <| info ::= fun l => upd l i (f (at_ info0 l i)) |>).

(** Up to the notification of the device; it sleeps while there are not three
    descriptors and tries again after.  The first descriptor is the result. *)
Definition rw_start (b : Z) (write : bool) : M vstate Z :=
  let* blockno := gets (fun s => vblockno s b) in
  let sector := u32 (blockno * (BSIZE / 512)) in
  let* r := alloc3_desc in
  match r with
  | None => block ChDiskFree
  | Some (i0, i1, i2) =>
    do modify (fun s => s <| ops ::= fun l =>
        upd l i0 (mkReq (if write then VIRTIO_BLK_T_OUT else VIRTIO_BLK_T_IN) 0 sector) |>) ;;;
    do set_desc i0 (mkDesc (POp i0) sizeof_blk_req VRING_DESC_F_NEXT i1) ;;;
    do set_desc i1 (mkDesc (PData b) BSIZE (Z.lor (if write then 0 else VRING_DESC_F_WRITE) VRING_DESC_F_NEXT) i2) ;;;
    do set_info i0 (fun x => x <| i_status := 255 |>) ;;;
    do set_desc i2 (mkDesc (PStatus i0) 1 VRING_DESC_F_WRITE 0) ;;;
    do modify (fun s => s <| vdisk ::= fun f => <[b := 1]> f |>) ;;;
    do set_info i0 (fun x => x <| i_b := b |>) ;;;
    do modify (fun s => s <| avail_ring ::= fun l => upd l (avail_idx s mod NUM) i0 |>) ;;;
    do modify (fun s => s <| avail_idx ::= fun n => u16 (n + 1) |>) ;;;
    ret i0
  end.

Definition rw_wait (b : Z) : M vstate unit :=
  let* d := gets (fun s => vdisk s b) in
  if d =? 1 then block (ChDiskBuf b) else ret tt.

Definition rw_finish (i0 : Z) : M vstate unit :=
  do set_info i0 (fun x => x <| i_b := 0 |>) ;;;
  free_chain i0.

Definition virtio_disk_rw (b : Z) (write : bool) : M vstate unit :=
  let* i0 := rw_start b write in
  do rw_wait b ;;;
  rw_finish i0.

(** ** The interrupt *)

Fixpoint intr_loop (k : nat) : M vstate unit :=
  match k with
  | O => panic "virtio_disk_intr: fuel"
  | S k' =>
    let* s := get in
    if used_idx s =? dev_used_idx s then ret tt
    else
      let id := at_ 0 (used_ring s) (used_idx s mod NUM) in
      if negb (i_status (at_ info0 (info s) id) =? 0) then panic "virtio_disk_intr status"
      else
        let b := i_b (at_ info0 (info s) id) in
        do modify (fun s => s <| vdisk ::= fun f => <[b := 0]> f |>) ;;;
        do vwake (ChDiskBuf b) ;;;
        do modify (fun s => s <| used_idx ::= fun n => u16 (n + 1) |>) ;;;
        intr_loop k'
  end.

Definition virtio_disk_intr : M vstate unit :=
  let* n := gets (fun s => u16 (dev_used_idx s - used_idx s)) in
  intr_loop (S (Z.to_nat n)).

(** The part of [virtio_disk_init] that sets up memory: three zeroed pages and
    every descriptor free. *)
Definition virtio_disk_init (s : vstate) : vstate :=
  s <| desc := repeat desc0 8 |> <| avail_idx := 0 |> <| avail_ring := repeat 0 8 |>
    <| dev_used_idx := 0 |> <| used_ring := repeat 0 8 |> <| free := repeat 1 8 |>.
