(* ===== verification/VirtioProps.v ===== *)
(** * What the disk driver promises

    Any number of processes start transfers, the device takes the requests and
    answers them in any order, interrupts come at any time.  The driver never
    panics, no descriptor is in two chains, and a transfer that is finished has
    moved exactly its block: what Bio.v takes for one step. *)

From Stdlib Require Import ZArith Lia List.
From stdpp Require Import base tactics numbers list functions sets relations strings.
From S2P Require Import Prelude Ring Virtio.

(** ** Descriptors *)

Definition vlen (s : vstate) : Prop :=
  length (desc s) = 8%nat /\ length (avail_ring s) = 8%nat /\ length (used_ring s) = 8%nat /\
  length (free s) = 8%nat /\ length (info s) = 8%nat /\ length (ops s) = 8%nat.

Definition index (i : Z) : Prop := 0 <= i < NUM.

(** The descriptors of [X] are taken, the others are free. *)
Definition free_ok (s : vstate) (X : list Z) : Prop :=
  forall i, index i -> at_ 0 (free s) i = 0 <-> i ∈ X.

Lemma first_free_run l i0 : forall i, first_free l i = i0 -> 0 <= i ->
  i <= i0 < i + Z.of_nat (length l) /\ at_ 0 l (i0 - i) <> 0 \/ i0 = -1 /\ Forall (fun x => x = 0) l.
Proof.
  induction l as [|x l IH]; intros i E Hi; cbn in E.
  - right. split; [done|constructor].
  - destruct (Z.eqb_spec x 0) as [->|N]; cbn in E.
    + destruct (IH (i + 1) E ltac:(lia)) as [[R A]|[-> F]]; [left|right; split; [done|by constructor]].
      cbn [length]. split; [lia|]. unfold at_ in *. destruct (Z.leb_spec 0 (i0 - (i + 1))); [|lia]. destruct (Z.leb_spec 0 (i0 - i)); [|lia].
      by replace (Z.to_nat (i0 - i)) with (S (Z.to_nat (i0 - (i + 1)))) by lia.
    + subst i0. left. cbn [length]. split; [lia|]. by rewrite Z.sub_diag.
Qed.

(** What allocation and release leave alone. *)
Definition only_desc (s s' : vstate) (X : list Z) : Prop :=
  s' = s <| desc := desc s' |> <| free := free s' |> <| vwoken := vwoken s' |> /\
  length (desc s') = length (desc s) /\ length (free s') = length (free s) /\
  (forall i, i ∈ X -> at_ desc0 (desc s') i = at_ desc0 (desc s) i).

Lemma only_refl s X : only_desc s s X.
Proof. split; [by destruct s|done]. Qed.

Lemma only_trans s1 s2 s3 X : only_desc s1 s2 X -> only_desc s2 s3 X -> only_desc s1 s3 X.
Proof.
  intros (E1 & A1 & B1 & D1) (E2 & A2 & B2 & D2). split_and!; [|congruence..|]; [rewrite E2, E1; done|].
  intros i Hi. rewrite D2, D1 by done. done.
Qed.

Lemma only_less s s' X Y : (forall i, i ∈ X -> i ∈ Y) -> only_desc s s' Y -> only_desc s s' X.
Proof. intros S (E & A & B & D). split_and!; try done. intros i Hi. by apply D, S. Qed.

Lemma alloc_desc_run s X : vlen s -> free_ok s X ->
  exists i s', alloc_desc s = Ok i s' /\ only_desc s s' X /\
    (i = -1 /\ s' = s \/ index i /\ i ∉ X /\ free_ok s' (i :: X)).
Proof.
  intros V F. unfold alloc_desc. rewrite bind_gets. destruct (first_free_run (free s) _ 0 eq_refl ltac:(lia)) as [[R A]|[-> Fz]].
  - set (i := first_free (free s) 0) in *. rewrite Z.sub_0_r in A. destruct V as (_ & _ & _ & Lf & _). rewrite Lf in R.
    destruct (Z.eqb_spec i (-1)); [lia|]. eexists i, _. split; [done|]. split; [split_and!; try done; cbn; [by rewrite length_upd]|].
    right. assert (Ri : index i) by (unfold index, NUM; lia). split_and!; [done|by intros Hi%F|].
    intros j Hj. cbn. rewrite elem_of_cons. unfold index, NUM in *. destruct (Z.eq_dec i j) as [<-|N].
    + rewrite at_upd_eq by lia. split; [by left|done].
    + rewrite at_upd_ne by done. rewrite (F j Hj). split; [by right|]. intros [->|]; done.
  - exists (-1), s. split; [done|]. split; [apply only_refl|by left].
Qed.

Lemma free_desc_run s X i : vlen s -> free_ok s (i :: X) -> index i -> i ∉ X ->
  exists s', free_desc i s = Ok tt s' /\ only_desc s s' X /\ free_ok s' X.
Proof.
  intros V F Ri Ni. unfold free_desc. destruct (Z.leb_spec NUM i); [unfold index in Ri; lia|]. rewrite bind_gets.
  assert (E : at_ 0 (free s) i = 0) by (apply F; set_solver). rewrite E. cbn [Z.eqb negb].
  destruct V as (Ld & _ & _ & Lf & _). unfold index, NUM in Ri. eexists. split; [done|]. split.
  - split_and!; try done; cbn; rewrite ?length_upd; try done. intros j Hj. apply at_upd_ne. intros ->. done.
  - intros j Hj. cbn. unfold index, NUM in Hj. destruct (Z.eq_dec i j) as [<-|N].
    + rewrite at_upd_eq by lia. split; [lia|done].
    + rewrite at_upd_ne by done. rewrite (F j Hj). set_solver.
Qed.

Lemma only_vlen s s' X : vlen s -> only_desc s s' X -> vlen s'.
Proof. intros V (E & A & B & _). unfold vlen in *. rewrite E in *. cbn in *. by rewrite A, B. Qed.
Lemma alloc3_run s X : vlen s -> free_ok s X ->
  exists r s', alloc3_desc s = Ok r s' /\ only_desc s s' X /\
    match r with
    | None => free_ok s' X
    | Some (i0, i1, i2) => index i0 /\ index i1 /\ index i2 /\ i0 ∉ X /\ i1 ∉ i0 :: X /\ i2 ∉ i1 :: i0 :: X /\ free_ok s' (i2 :: i1 :: i0 :: X)
    end.
Proof.
  intros V F. unfold alloc3_desc.
  destruct (alloc_desc_run s X V F) as (i0 & s1 & E0 & O0 & C0). rewrite (bind_ok _ _ _ _ _ E0). pose proof (only_vlen _ _ _ V O0) as V1.
  destruct C0 as [[-> ->]|(R0 & N0 & F0)]; [by exists None, s|]. destruct (Z.ltb_spec i0 0); [unfold index in R0; lia|].
  destruct (alloc_desc_run s1 (i0 :: X) V1 F0) as (i1 & s2 & E1 & O1 & C1). rewrite (bind_ok _ _ _ _ _ E1). pose proof (only_vlen _ _ _ V1 O1) as V2.
  assert (O01 : only_desc s s2 X) by (eapply only_trans; [done|]; eapply only_less; [|exact O1]; set_solver).
  destruct C1 as [[-> ->]|(R1 & N1 & F1)]; cbn [Z.ltb Z.compare].
  { destruct (free_desc_run s1 X i0 V1 F0 R0 N0) as (s3 & E3 & O3 & F3). rewrite (bind_ok _ _ _ _ _ E3). exists None, s3.
    split; [done|]. split; [by eapply only_trans|done]. }
  destruct (Z.ltb_spec i1 0); [unfold index in R1; lia|].
  destruct (alloc_desc_run s2 (i1 :: i0 :: X) V2 F1) as (i2 & s3 & E2 & O2 & C2). rewrite (bind_ok _ _ _ _ _ E2). pose proof (only_vlen _ _ _ V2 O2) as V3.
  assert (O02 : only_desc s s3 X) by (eapply only_trans; [exact O01|]; eapply only_less; [|exact O2]; set_solver).
  destruct C2 as [[-> ->]|(R2 & N2 & F2)]; cbn [Z.ltb Z.compare].
  { assert (F1' : free_ok s2 (i0 :: i1 :: X)) by (intros j Hj; rewrite (F1 j Hj); set_solver).
    destruct (free_desc_run s2 (i1 :: X) i0 V2 F1' R0 ltac:(set_solver)) as (s4 & E4 & O4 & F4). rewrite (bind_ok _ _ _ _ _ E4).
    pose proof (only_vlen _ _ _ V2 O4) as V4. destruct (free_desc_run s4 X i1 V4 F4 R1 ltac:(set_solver)) as (s5 & E5 & O5 & F5).
    rewrite (bind_ok _ _ _ _ _ E5). exists None, s5. split; [done|]. split; [|done].
    eapply only_trans; [exact O01|]. eapply only_trans; [|exact O5]. eapply only_less; [|exact O4]. set_solver. }
  destruct (Z.ltb_spec i2 0); [unfold index in R2; lia|]. exists (Some (i0, i1, i2)), s3. done.
Qed.

(** ** Requests *)

Record req : Type := mkRq { q_b : Z; q_w : bool; q_0 : Z; q_1 : Z; q_2 : Z }.

Definition idxs (r : req) : list Z := [q_0 r; q_1 r; q_2 r].
Definition sector (s : vstate) (b : Z) : Z := u32 (vblockno s b * (BSIZE / 512)).

(** The chain of descriptors of a request, as the device will read it. *)
Record chain_ok (s : vstate) (r : req) : Prop := {
  c_index : index (q_0 r) /\ index (q_1 r) /\ index (q_2 r);
  c_head : at_ desc0 (desc s) (q_0 r) = mkDesc (POp (q_0 r)) sizeof_blk_req VRING_DESC_F_NEXT (q_1 r);
  c_data : at_ desc0 (desc s) (q_1 r) =
    mkDesc (PData (q_b r)) BSIZE (Z.lor (if q_w r then 0 else VRING_DESC_F_WRITE) VRING_DESC_F_NEXT) (q_2 r);
  c_status : at_ desc0 (desc s) (q_2 r) = mkDesc (PStatus (q_0 r)) 1 VRING_DESC_F_WRITE 0;
  c_op : at_ req0 (ops s) (q_0 r) = mkReq (if q_w r then VIRTIO_BLK_T_OUT else VIRTIO_BLK_T_IN) 0 (sector s (q_b r));
  c_buf : i_b (at_ info0 (info s) (q_0 r)) = q_b r
}.

(** The state after the device has answered the request with head [h] and
    status byte [k]: status 0 and an entry in the used ring. *)
Definition answer (h k : Z) (s : vstate) : vstate :=
  s <| info ::= fun l => upd l k ((at_ info0 l k) <| i_status := 0 |>) |>
    <| used_ring ::= fun l => upd l (dev_used_idx s mod NUM) h |>
    <| dev_used_idx ::= fun n => u16 (n + 1) |>.

(** What the driver relies on in the device (sections 2.6 and 5.2 of the virtio
    specification): a chain of request header, data and status byte makes it move
    the data between the buffer and the sectors from the given one on, write
    status 0 and report the head of the chain.  [d] is the disk by first sector. *)
Class Device (serve : Z -> vstate -> (Z -> list Z) -> vstate * (Z -> list Z)) : Prop := {
  serve_ok : forall s d r, chain_ok s r ->
    serve (q_0 r) s d =
      if q_w r then (answer (q_0 r) (q_0 r) s, <[sector s (q_b r) := vdata s (q_b r)]> d)
      else (answer (q_0 r) (q_0 r) (s <| vdata ::= fun f => <[q_b r := d (sector s (q_b r))]> f |>), d)
}.

(** ** The system *)

(** What the callers mean: buffers and a disk on which a transfer happens at
    once, when it is asked for. *)
Record spec : Type := mkSpec { want_buf : Z -> list Z; want_dsk : Z -> list Z }.
#[global] Instance eta_spec : Eta spec := fun x => mkSpec (want_buf x) (want_dsk x).

(** [virtio_disk_rw(b, w)] for a buffer of the block at sector [k]: the block
    becomes what the buffer holds, or the buffer what the block holds. *)
Definition transfer (b : Z) (w : bool) (k : Z) (x : spec) : spec :=
  if w then x <| want_dsk ::= fun f => <[k := want_buf x b]> f |> else x <| want_buf ::= fun f => <[b := want_dsk x k]> f |>.

Record sys : Type := mkSys {
  drv : vstate;               (* the driver and memory *)
  dsk : Z -> list Z;          (* the disk *)
  seen : Z;                   (* how far the device has read the available ring *)
  taken : list Z;             (* the requests it has read and not answered *)
  flight : list req;          (* the requests of processes that have not returned *)
  ideal : spec                (* what the transfers so far mean *)
}.
#[global] Instance eta_sys : Eta sys := fun t => mkSys (drv t) (dsk t) (seen t) (taken t) (flight t) (ideal t).

(** The request that [rw_start] has built. *)
Definition request (s : vstate) (b : Z) (w : bool) (h : Z) : req :=
  let i1 := d_next (at_ desc0 (desc s) h) in
  mkRq b w h i1 (d_next (at_ desc0 (desc s) i1)).

Section System.
Context (serve : Z -> vstate -> (Z -> list Z) -> vstate * (Z -> list Z)) `{!Device serve}.

(** A buffer and a block are in one transfer at a time: bio.c holds the lock of
    the buffer during the call and has one buffer per block.  The owner of a
    buffer that is not in a transfer may change it. *)
Inductive vstep (t : sys) : sys -> Prop :=
  | v_start b w h s' :
      Forall (fun r => q_b r <> b /\ sector (drv t) (q_b r) <> sector (drv t) b) (flight t) ->
      rw_start b w (drv t) = Ok h s' ->
      vstep t (t <| drv := s' |> <| flight := flight t ++ [request s' b w h] |> <| ideal ::= transfer b w (sector (drv t) b) |>)
  | v_full b w c s' : rw_start b w (drv t) = Block c s' -> vstep t (t <| drv := s' |>)
  | v_fetch : seen t <> avail_idx (drv t) ->
      vstep t (t <| taken := taken t ++ [at_ 0 (avail_ring (drv t)) (seen t mod NUM)] |> <| seen := u16 (seen t + 1) |>)
  | v_serve t1 h t2 s' d' : taken t = t1 ++ h :: t2 -> serve h (drv t) (dsk t) = (s', d') ->
      vstep t (t <| drv := s' |> <| dsk := d' |> <| taken := t1 ++ t2 |>)
  | v_intr s' : virtio_disk_intr (drv t) = Ok tt s' -> vstep t (t <| drv := s' |>)
  | v_finish l1 r l2 s' : flight t = l1 ++ r :: l2 -> rw_wait (q_b r) (drv t) = Ok tt (drv t) ->
      rw_finish (q_0 r) (drv t) = Ok tt s' -> vstep t (t <| drv := s' |> <| flight := l1 ++ l2 |>)
  | v_owner b data blockno : Forall (fun r => q_b r <> b) (flight t) ->
      vstep t (t <| drv := (drv t) <| vdata ::= fun f => <[b := data]> f |> <| vblockno ::= fun f => <[b := blockno]> f |> |>
                 <| ideal ::= fun x => x <| want_buf ::= fun f => <[b := data]> f |> |>).

(** ** The invariant *)

Definition owned (l : list req) : list Z := concat (map idxs l).

(** Requests wait in the available ring ([Q]), are with the device ([taken]),
    wait in the used ring ([U]) or are done ([D]). *)
Record vinv (t : sys) (Q U D : list Z) : Prop := {
  n_len : vlen (drv t);
  n_chain : Forall (chain_ok (drv t)) (flight t);
  n_dup : NoDup (owned (flight t));
  n_free : free_ok (drv t) (owned (flight t));
  n_bufs : NoDup (map q_b (flight t));
  n_sect : NoDup (map (fun r => sector (drv t) (q_b r)) (flight t));
  n_heads : map q_0 (flight t) ≡ₚ Q ++ taken t ++ U ++ D;
  n_avail : ring NUM (avail_ring (drv t)) (seen t) Q;
  n_seen : 0 <= seen t < 2 ^ 16 /\ avail_idx (drv t) = u16 (seen t + Z.of_nat (length Q));
  n_used : ring NUM (used_ring (drv t)) (used_idx (drv t)) U;
  n_uidx : 0 <= used_idx (drv t) < 2 ^ 16 /\ dev_used_idx (drv t) = u16 (used_idx (drv t) + Z.of_nat (length U));
  n_wait : forall r, r ∈ flight t -> q_0 r ∈ Q ++ taken t ++ U -> vdisk (drv t) (q_b r) = 1;
  n_done : forall r, r ∈ flight t -> q_0 r ∈ D -> vdisk (drv t) (q_b r) = 0;
  n_moved : forall r, r ∈ flight t -> q_0 r ∈ U ++ D -> i_status (at_ info0 (info (drv t)) (q_0 r)) = 0
}.

(** The buffers and the disk are what the transfers mean, but for the transfers
    whose heads [P] the device has not served yet. *)
Record ideal_ok (t : sys) (P : list Z) : Prop := {
  o_same : forall r, r ∈ flight t -> want_buf (ideal t) (q_b r) = want_dsk (ideal t) (sector (drv t) (q_b r));
  o_buf : forall b, vdata (drv t) b = want_buf (ideal t) b \/ exists r, r ∈ flight t /\ q_b r = b /\ q_w r = false /\ q_0 r ∈ P;
  o_dsk : forall k, dsk t k = want_dsk (ideal t) k \/ exists r, r ∈ flight t /\ sector (drv t) (q_b r) = k /\ q_w r = true /\ q_0 r ∈ P
}.

Lemma ideal_same t t' P P' : ideal_ok t P -> ideal t' = ideal t -> dsk t' = dsk t -> vdata (drv t') = vdata (drv t) -> vblockno (drv t') = vblockno (drv t) ->
  (forall r, r ∈ flight t' -> r ∈ flight t) -> (forall r, r ∈ flight t -> q_0 r ∈ P -> r ∈ flight t' /\ q_0 r ∈ P') -> ideal_ok t' P'.
Proof.
  intros [A B C] Ei Ek Ed Eb F1 F2. assert (Es : forall b, sector (drv t') b = sector (drv t) b) by (intros b; unfold sector; by rewrite Eb).
  split; rewrite ?Ei.
  - intros r Hr. rewrite Es. by apply A, F1.
  - intros b. rewrite Ed. destruct (B b) as [|(r & Hr & E & W & P0)]; [by left|right]. destruct (F2 r Hr P0). by exists r.
  - intros k. rewrite Ek. destruct (C k) as [|(r & Hr & E & W & P0)]; [by left|right]. destruct (F2 r Hr P0). exists r. by rewrite Es.
Qed.

Lemma owned_app l1 l2 : owned (l1 ++ l2) = owned l1 ++ owned l2.
Proof. unfold owned. by rewrite map_app, concat_app. Qed.

Lemma owned_in r l i : r ∈ l -> i ∈ idxs r -> i ∈ owned l.
Proof.
  intros Hr Hi. unfold owned. apply list_elem_of_In, in_concat. exists (idxs r).
  split; [apply in_map, list_elem_of_In, Hr|by apply list_elem_of_In].
Qed.

Lemma owned_heads l : NoDup (owned l) -> NoDup (map q_0 l).
Proof.
  induction l as [|r l IH]; [constructor|]. unfold owned. cbn. rewrite !NoDup_cons. intros (N0 & _ & _ & N). split; [|by apply IH].
  intros (r' & E & Hr')%list_elem_of_fmap. apply N0. rewrite E. do 2 right. apply (owned_in r'); [done|cbn; set_solver].
Qed.

Lemma map_inj_in {A} (f : req -> A) l r r' : NoDup (map f l) -> r ∈ l -> r' ∈ l -> f r = f r' -> r = r'.
Proof.
  intros N. induction l as [|x l IH]; [by intros ?%elem_of_nil|]. cbn in N. apply NoDup_cons in N as [Nx N].
  rewrite !elem_of_cons. intros [->|Hr] [->|Hr'] E; [done| | |by apply IH].
  - destruct Nx. rewrite E. by apply list_elem_of_fmap_2.
  - destruct Nx. rewrite <- E. by apply list_elem_of_fmap_2.
Qed.

Lemma heads_inj l r r' : NoDup (owned l) -> r ∈ l -> r' ∈ l -> q_0 r = q_0 r' -> r = r'.
Proof. intros N%owned_heads. by apply map_inj_in. Qed.

(** There is room in the rings for every request. *)
Lemma flight_small t Q U D : vinv t Q U D -> Z.of_nat (length (flight t)) <= 2.
Proof.
  intros I. assert (L : (length (owned (flight t)) <= 8)%nat).
  { change 8%nat with (length (seqZ 0 8)). apply submseteq_length, NoDup_submseteq; [apply I|]. intros i Hi.
    unfold owned in Hi. apply list_elem_of_In, in_concat in Hi as (x & Hx & Hi). apply in_map_iff in Hx as (r & <- & Hr).
    apply list_elem_of_In in Hr, Hi. pose proof (n_chain _ _ _ _ I) as C. rewrite Forall_forall in C. destruct (C r Hr) as [(A & B & E) _ _ _ _ _].
    apply elem_of_seqZ. unfold index, NUM in *. unfold idxs in Hi. set_solver. }
  assert (E : length (owned (flight t)) = (3 * length (flight t))%nat).
  { generalize (flight t). intros l. induction l as [|r l IH]; [done|]. unfold owned in *. cbn in *. rewrite IH. lia. }
  lia.
Qed.

Lemma queue_small t Q U D : vinv t Q U D -> Z.of_nat (length Q) + Z.of_nat (length (taken t)) + Z.of_nat (length U) <= 2.
Proof.
  intros I. pose proof (flight_small _ _ _ _ I). pose proof (Permutation_length (n_heads _ _ _ _ I)) as P. rewrite length_map, !length_app in P. lia.
Qed.

(** ** Steps of the driver *)

Lemma chain_same s s' r : chain_ok s r ->
  (forall i, i ∈ idxs r -> at_ desc0 (desc s') i = at_ desc0 (desc s) i) ->
  at_ req0 (ops s') (q_0 r) = at_ req0 (ops s) (q_0 r) -> i_b (at_ info0 (info s') (q_0 r)) = i_b (at_ info0 (info s) (q_0 r)) ->
  vblockno s' (q_b r) = vblockno s (q_b r) -> chain_ok s' r.
Proof.
  intros [A B C D E F] Ed Eo Ei Eb. unfold idxs in Ed. split; [done|rewrite Ed by set_solver; done..| |by rewrite Ei].
  rewrite Eo, E. unfold sector. by rewrite Eb.
Qed.

Lemma only_inv t Q U D s' : vinv t Q U D -> only_desc (drv t) s' (owned (flight t)) -> free_ok s' (owned (flight t)) ->
  vinv (t <| drv := s' |>) Q U D.
Proof.
  intros I O F. pose proof O as (E & _ & _ & Ed). split; cbn; try apply I; try done.
  - by eapply only_vlen; [apply I|].
  - pose proof (n_chain _ _ _ _ I) as C. rewrite Forall_forall in *. intros r Hr. apply (chain_same (drv t)); [by apply C|..].
    + intros i Hi. apply Ed. by eapply owned_in.
    + by rewrite E.
    + by rewrite E.
    + by rewrite E.
  - pose proof (n_sect _ _ _ _ I) as S. unfold sector in *. rewrite E. exact S.
  - rewrite E. apply I.
  - rewrite E. apply I.
  - rewrite E. apply I.
  - rewrite E. apply I.
  - rewrite E. apply I.
  - rewrite E. apply I.
  - rewrite E. apply I.
Qed.

(** What [rw_start] writes once it has its descriptors. *)
Definition formatted (b : Z) (w : bool) (i0 i1 i2 : Z) (s : vstate) : vstate :=
  mkVstate
    (upd (upd (upd (desc s) i0 (mkDesc (POp i0) sizeof_blk_req VRING_DESC_F_NEXT i1)) i1
       (mkDesc (PData b) BSIZE (Z.lor (if w then 0 else VRING_DESC_F_WRITE) VRING_DESC_F_NEXT) i2)) i2
       (mkDesc (PStatus i0) 1 VRING_DESC_F_WRITE 0))
    (u16 (avail_idx s + 1)) (upd (avail_ring s) (avail_idx s mod NUM) i0) (dev_used_idx s) (used_ring s) (free s) (used_idx s)
    (let l := upd (info s) i0 ((at_ info0 (info s) i0) <| i_status := 255 |>) in upd l i0 ((at_ info0 l i0) <| i_b := b |>))
    (upd (ops s) i0 (mkReq (if w then VIRTIO_BLK_T_OUT else VIRTIO_BLK_T_IN) 0 (sector s b)))
    (vdata s) (vblockno s) (<[b := 1]> (vdisk s)) (vwoken s).

Lemma rw_start_run b w s X : vlen s -> free_ok s X ->
  exists s', only_desc s s' X /\
    (rw_start b w s = Block ChDiskFree s' /\ free_ok s' X \/
     exists i0 i1 i2, rw_start b w s = Ok i0 (formatted b w i0 i1 i2 s') /\
       index i0 /\ index i1 /\ index i2 /\ i0 ∉ X /\ i1 ∉ i0 :: X /\ i2 ∉ i1 :: i0 :: X /\ free_ok s' (i2 :: i1 :: i0 :: X)).
Proof.
  intros V F. destruct (alloc3_run s X V F) as (r & s' & E & O & C). exists s'. split; [done|].
  unfold rw_start. rewrite bind_gets, (bind_ok _ _ _ _ _ E). destruct r as [[[i0 i1] i2]|]; [right|by left].
  exists i0, i1, i2. split; [|done]. unfold sector. rewrite (proj1 O). done.
Qed.

Lemma formatted_chain b w i0 i1 i2 s : vlen s -> index i0 -> index i1 -> index i2 -> i0 <> i1 -> i0 <> i2 -> i1 <> i2 ->
  chain_ok (formatted b w i0 i1 i2 s) (mkRq b w i0 i1 i2) /\ request (formatted b w i0 i1 i2 s) b w i0 = mkRq b w i0 i1 i2.
Proof.
  intros (Ld & _ & _ & _ & Li & Lo) R0 R1 R2 N01 N02 N12. unfold index, NUM in *.
  assert (D0 : at_ desc0 (desc (formatted b w i0 i1 i2 s)) i0 = mkDesc (POp i0) sizeof_blk_req VRING_DESC_F_NEXT i1).
  { cbn. rewrite !at_upd_ne by congruence. apply at_upd_eq. lia. }
  assert (D1 : at_ desc0 (desc (formatted b w i0 i1 i2 s)) i1 =
    mkDesc (PData b) BSIZE (Z.lor (if w then 0 else VRING_DESC_F_WRITE) VRING_DESC_F_NEXT) i2).
  { cbn. rewrite at_upd_ne by congruence. apply at_upd_eq. rewrite length_upd. lia. }
  split; [split; try done; cbn|].
  - apply at_upd_eq. rewrite !length_upd. lia.
  - apply at_upd_eq. lia.
  - rewrite at_upd_eq by (rewrite length_upd; lia). done.
  - unfold request. rewrite D0. cbn [d_next]. by rewrite D1.
Qed.

Lemma u16_num x : u16 x mod NUM = x mod NUM.
Proof. by apply (u16_ring _ (2 ^ 13)). Qed.

(** A head in one of the queues is the head of a request in flight. *)
Lemma head_owned t Q U D h : vinv t Q U D -> h ∈ Q ++ taken t ++ U ++ D -> exists r, r ∈ flight t /\ q_0 r = h.
Proof. intros I Hh. rewrite <- (n_heads _ _ _ _ I) in Hh. apply list_elem_of_fmap in Hh as (r & -> & Hr). by exists r. Qed.

Lemma formatted_old b w i0 i1 i2 s s' X r : only_desc s s' X -> chain_ok s r -> (forall i, i ∈ idxs r -> i ∈ X) ->
  i0 ∉ X -> i1 ∉ X -> i2 ∉ X ->
  chain_ok (formatted b w i0 i1 i2 s') r /\
  i_status (at_ info0 (info (formatted b w i0 i1 i2 s')) (q_0 r)) = i_status (at_ info0 (info s) (q_0 r)).
Proof.
  intros (E & _ & _ & Ed) C Sub N0 N1 N2. assert (Nh : i0 <> q_0 r) by (intros ->; apply N0, Sub; cbn; set_solver).
  assert (Eo : ops s' = ops s) by by rewrite E. assert (Ei : info s' = info s) by by rewrite E.
  split; [apply (chain_same s); [done|..]|].
  - intros i Hi. cbn. pose proof (Sub i Hi) as Hx. rewrite !at_upd_ne by (intros ->; done). by apply Ed.
  - cbn. by rewrite at_upd_ne, Eo.
  - cbn. by rewrite !at_upd_ne, Ei.
  - cbn. by rewrite E.
  - cbn. by rewrite !at_upd_ne, Ei.
Qed.

Lemma start_inv t Q U D b w i0 i1 i2 s' : vinv t Q U D -> only_desc (drv t) s' (owned (flight t)) ->
  Forall (fun r => q_b r <> b /\ sector (drv t) (q_b r) <> sector (drv t) b) (flight t) ->
  index i0 -> index i1 -> index i2 -> i0 ∉ owned (flight t) -> i1 ∉ i0 :: owned (flight t) -> i2 ∉ i1 :: i0 :: owned (flight t) ->
  free_ok s' (i2 :: i1 :: i0 :: owned (flight t)) ->
  vinv (t <| drv := formatted b w i0 i1 i2 s' |> <| flight := flight t ++ [mkRq b w i0 i1 i2] |> <| ideal ::= transfer b w (sector (drv t) b) |>) (Q ++ [i0]) U D.
Proof.
  intros I O Nb R0 R1 R2 N0 N1 N2 F. pose proof (only_vlen _ _ _ (n_len _ _ _ _ I) O) as V. pose proof (queue_small _ _ _ _ I) as Sm.
  rewrite Forall_forall in Nb. apply not_elem_of_cons in N1 as [N10 N1], N2 as [N21 [N20 N2]%not_elem_of_cons].
  assert (Old : forall r, r ∈ flight t -> chain_ok (formatted b w i0 i1 i2 s') r /\
    i_status (at_ info0 (info (formatted b w i0 i1 i2 s')) (q_0 r)) = i_status (at_ info0 (info (drv t)) (q_0 r))).
  { intros r Hr. apply (formatted_old b w i0 i1 i2 (drv t) s' (owned (flight t))); try done.
    - pose proof (n_chain _ _ _ _ I) as C. rewrite Forall_forall in C. by apply C.
    - intros i. by apply owned_in. }
  assert (Hd : forall r, r ∈ flight t -> q_0 r <> i0) by (intros r Hr <-; apply N0, (owned_in r); [done|cbn; set_solver]).
  assert (Nd : i0 ∉ Q ++ taken t ++ U ++ D) by (intros (r & Hr & E)%(head_owned t Q U D i0 I); by apply (Hd r)).
  destruct (formatted_chain b w i0 i1 i2 s' V R0 R1 R2) as [Cn _]; [congruence..|].
  destruct O as (E & _ & _ & Ed). assert (Ev : vlen (formatted b w i0 i1 i2 s')) by (unfold vlen in *; cbn; by rewrite !length_upd).
  assert (Es : forall c, sector (formatted b w i0 i1 i2 s') c = sector (drv t) c) by (intros c; unfold sector; cbn; by rewrite E).
  split; cbn [drv flight dsk seen taken over].
  - exact Ev.
  - apply Forall_app. split; [apply Forall_forall; intros r Hr; by apply Old|by apply Forall_singleton].
  - rewrite owned_app. apply NoDup_app. split_and!; [apply I|set_solver|]. cbn. repeat (apply NoDup_cons; split; [set_solver|]). constructor.
  - intros i Hi. rewrite owned_app. cbn. rewrite (F i Hi). set_solver.
  - rewrite map_app. apply NoDup_app. split_and!; [apply I| |cbn; apply NoDup_singleton].
    intros x (r & -> & Hr)%list_elem_of_fmap. cbn. rewrite list_elem_of_singleton. by apply Nb.
  - rewrite map_app. apply NoDup_app. split_and!; [|intros x (r & -> & Hr)%list_elem_of_fmap|cbn; apply NoDup_singleton].
    + pose proof (n_sect _ _ _ _ I) as S. erewrite map_ext; [exact S|]. intros r. apply Es.
    + cbn. rewrite list_elem_of_singleton, !Es. by apply Nb.
  - rewrite map_app. cbn. rewrite (n_heads _ _ _ _ I). rewrite <- !app_assoc. apply Permutation_app_head.
    replace (taken t ++ U ++ D ++ [i0]) with ((taken t ++ U ++ D) ++ [i0]) by by rewrite <- !app_assoc. apply Permutation_app_comm.
  - destruct (n_seen _ _ _ _ I) as [_ Ea]. cbn. assert (Er : avail_ring s' = avail_ring (drv t)) by by rewrite E.
    assert (Ei : avail_idx s' = avail_idx (drv t)) by by rewrite E. rewrite Er, Ei, Ea, u16_num. apply ring_append; [done|apply I|unfold NUM; lia].
  - destruct (n_seen _ _ _ _ I) as [Rs Ea]. split; [done|]. cbn. assert (Ei : avail_idx s' = avail_idx (drv t)) by by rewrite E.
    rewrite Ei, Ea, u16_add_l, length_app. f_equal. cbn. lia.
  - cbn. rewrite E. apply I.
  - cbn. rewrite E. apply I.
  - intros r. rewrite elem_of_app, list_elem_of_singleton. intros [Hr| ->] Hq; cbn.
    + rewrite fn_lookup_insert_ne by (intros ->; by apply (Nb r Hr)). rewrite E. apply (n_wait _ _ _ _ I r Hr). pose proof (Hd r Hr). set_solver.
    + apply fn_lookup_insert.
  - intros r. rewrite elem_of_app, list_elem_of_singleton. intros [Hr| ->] Hq; cbn; [|set_solver].
    rewrite fn_lookup_insert_ne by (intros ->; by apply (Nb r Hr)). rewrite E. by apply (n_done _ _ _ _ I r Hr).
  - intros r. rewrite elem_of_app, list_elem_of_singleton. intros [Hr| ->] Hq; [|cbn in Hq; set_solver].
    rewrite (proj2 (Old r Hr)). by apply (n_moved _ _ _ _ I r Hr).
Qed.

(** A transfer that starts is pending; nothing else has changed. *)
Lemma start_ideal t P b w i0 i1 i2 s' : ideal_ok t P -> only_desc (drv t) s' (owned (flight t)) ->
  Forall (fun r => q_b r <> b /\ sector (drv t) (q_b r) <> sector (drv t) b) (flight t) ->
  ideal_ok (t <| drv := formatted b w i0 i1 i2 s' |> <| flight := flight t ++ [mkRq b w i0 i1 i2] |> <| ideal ::= transfer b w (sector (drv t) b) |>) (i0 :: P).
Proof.
  intros [A B C] (E & _) Nb. rewrite Forall_forall in Nb.
  assert (Es : forall c, sector (formatted b w i0 i1 i2 s') c = sector (drv t) c) by (intros c; unfold sector; cbn; by rewrite E).
  assert (Ed : vdata (formatted b w i0 i1 i2 s') = vdata (drv t)) by (cbn; by rewrite E).
  split; cbn [drv flight dsk ideal over].
  - intros r. rewrite elem_of_app, list_elem_of_singleton, Es. intros [Hr| ->]; unfold transfer; destruct w; cbn.
    + rewrite fn_lookup_insert_ne by (intros X; by apply (proj2 (Nb r Hr))). by apply A.
    + rewrite fn_lookup_insert_ne by (intros X; by apply (proj1 (Nb r Hr))). by apply A.
    + by rewrite fn_lookup_insert.
    + by rewrite fn_lookup_insert.
  - intros c. rewrite Ed. destruct (B c) as [Bc|(r & Hr & Eb & W & P0)]; [|right; exists r; set_solver].
    unfold transfer. destruct w; cbn; [by left|]. destruct (decide (b = c)) as [->|N]; [right|left; by rewrite fn_lookup_insert_ne].
    exists (mkRq c false i0 i1 i2). set_solver.
  - intros k. destruct (C k) as [Ck|(r & Hr & Eb & W & P0)]; [|right; exists r; rewrite Es; set_solver].
    unfold transfer. destruct w; cbn; [|by left]. destruct (decide (sector (drv t) b = k)) as [<-|N]; [right|left; by rewrite fn_lookup_insert_ne].
    exists (mkRq b true i0 i1 i2). rewrite Es. set_solver.
Qed.

(** ** Steps of the device *)

Lemma fetch_inv t Q U D : vinv t Q U D -> seen t <> avail_idx (drv t) -> exists Q',
  vinv (t <| taken := taken t ++ [at_ 0 (avail_ring (drv t)) (seen t mod NUM)] |> <| seen := u16 (seen t + 1) |>) Q' U D /\
  (forall h, h ∈ Q ++ taken t -> h ∈ Q' ++ taken t ++ [at_ 0 (avail_ring (drv t)) (seen t mod NUM)]).
Proof.
  intros I N. destruct (n_seen _ _ _ _ I) as [Rs Ea]. destruct Q as [|h Q].
  { destruct N. rewrite Ea, u16_mod. cbn. rewrite Z.add_0_r, Z.mod_small; [done|lia]. }
  destruct (ring_get _ _ _ _ _ (n_avail _ _ _ _ I)) as [Rg Eh]. exists Q. rewrite Eh. split; [|set_solver]. split; cbn [drv flight dsk seen taken over]; try apply I.
  - rewrite (n_heads _ _ _ _ I). rewrite <- !app_assoc. cbn. rewrite !app_assoc. rewrite <- (Permutation_middle ((Q ++ taken t))). rewrite <- !app_assoc. done.
  - eapply ring_mod; [|exact Rg]. by rewrite u16_num.
  - split; [apply u16_bounds|]. rewrite Ea, u16_add_l. f_equal. cbn [length]. lia.
  - intros r Hr Hq. apply (n_wait _ _ _ _ I r Hr). set_solver.
Qed.

(** The device answers request [r]: everything else stays. *)
Lemma answer_chain h s r r' : chain_ok s r' -> chain_ok (answer h (q_0 r) s) r'.
Proof.
  intros C. apply (chain_same s); try done. cbn. unfold at_, upd. destruct (Z.leb_spec 0 (q_0 r)); [|done]. destruct (Z.leb_spec 0 (q_0 r')); [|done].
  rewrite !nth_lookup. destruct (decide (Z.to_nat (q_0 r) = Z.to_nat (q_0 r'))) as [E|N].
  - rewrite E. destruct (Nat.lt_ge_cases (Z.to_nat (q_0 r')) (length (info s))).
    + rewrite list_lookup_insert_eq by done. done.
    + rewrite !lookup_ge_None_2; [done|done|by rewrite length_insert].
  - by rewrite list_lookup_insert_ne.
Qed.

Lemma answer_vlen h k s : vlen s -> vlen (answer h k s).
Proof. unfold vlen. cbn. by rewrite !length_upd. Qed.

Lemma answer_status h r r' s : vlen s -> index (q_0 r) ->
  i_status (at_ info0 (info (answer h (q_0 r) s)) (q_0 r')) =
  if decide (q_0 r' = q_0 r) then 0 else i_status (at_ info0 (info s) (q_0 r')).
Proof.
  intros (_ & _ & _ & _ & Li & _) R. unfold index, NUM in R. cbn. destruct (decide (q_0 r' = q_0 r)) as [->|N].
  - rewrite at_upd_eq by lia. done.
  - by rewrite at_upd_ne.
Qed.

Lemma serve_inv t Q U D t1 r t2 s' d' : vinv t Q U D -> taken t = t1 ++ q_0 r :: t2 -> r ∈ flight t ->
  (forall b, vdisk s' b = vdisk (drv t) b) -> (forall b, sector s' b = sector (drv t) b) -> s' = answer (q_0 r) (q_0 r) ((drv t) <| vdata := vdata s' |>) ->
  vinv (t <| drv := s' |> <| dsk := d' |> <| taken := t1 ++ t2 |>) Q (U ++ [q_0 r]) D.
Proof.
  intros I Et Hr Ev Es Eq. pose proof (queue_small _ _ _ _ I) as Sm. pose proof (n_chain _ _ _ _ I) as C. rewrite Forall_forall in C.
  assert (Ri : index (q_0 r)) by apply (C r Hr). pose proof (n_heads _ _ _ _ I) as Hh. rewrite Et in Hh.
  assert (Nd : NoDup (Q ++ (t1 ++ q_0 r :: t2) ++ U ++ D)) by (rewrite <- Hh; apply owned_heads, I).
  assert (V' : vlen s') by (rewrite Eq; apply answer_vlen; apply I).
  assert (St : forall r', i_status (at_ info0 (info s') (q_0 r')) = if decide (q_0 r' = q_0 r) then 0 else i_status (at_ info0 (info (drv t)) (q_0 r'))).
  { intros r'. rewrite Eq, answer_status; [done|apply I|done]. }
  split; cbn [drv flight dsk seen taken over].
  - exact V'.
  - apply Forall_forall. intros r' Hr'. rewrite Eq. apply answer_chain. by apply (chain_same (drv t)); [apply C|..].
  - apply I.
  - rewrite Eq. apply I.
  - apply I.
  - erewrite map_ext; [apply (n_sect _ _ _ _ I)|]. intros r'. apply Es.
  - rewrite Hh. rewrite <- !app_assoc. apply Permutation_app_head, Permutation_app_head. cbn. rewrite (app_assoc t2 U D), (app_assoc t2 U (_ :: D)).
    apply Permutation_middle.
  - rewrite Eq. apply I.
  - rewrite Eq. apply I.
  - rewrite Eq. cbn. destruct (n_uidx _ _ _ _ I) as [_ Ed]. rewrite Ed, u16_num. apply ring_append; [done|apply I|unfold NUM; lia].
  - destruct (n_uidx _ _ _ _ I) as [Ru Ed]. rewrite Eq. cbn. split; [done|]. rewrite Ed, u16_add_l, length_app. f_equal. cbn. lia.
  - intros r' Hr' Hq. rewrite Ev. apply (n_wait _ _ _ _ I r' Hr'). rewrite Et. set_solver.
  - intros r' Hr' Hq. rewrite Ev. by apply (n_done _ _ _ _ I r' Hr').
  - intros r' Hr' Hq. rewrite St. destruct (decide (q_0 r' = q_0 r)) as [|N]; [done|]. apply (n_moved _ _ _ _ I r' Hr'). set_solver.
Qed.

Lemma serve_step t Q U D t1 h t2 s' d' : vinv t Q U D -> ideal_ok t (Q ++ taken t) -> taken t = t1 ++ h :: t2 -> serve h (drv t) (dsk t) = (s', d') ->
  let t' := t <| drv := s' |> <| dsk := d' |> <| taken := t1 ++ t2 |> in vinv t' Q (U ++ [h]) D /\ ideal_ok t' (Q ++ t1 ++ t2).
Proof.
  intros I [A B C] Et Es t'. destruct (head_owned t Q U D h I) as (r & Hr & <-); [rewrite Et; set_solver|].
  pose proof (n_chain _ _ _ _ I) as Ch. rewrite Forall_forall in Ch. rewrite serve_ok in Es by by apply Ch. rewrite Et in B, C.
  assert (Ib : forall x, x ∈ flight t -> q_b x = q_b r -> x = r) by (intros x Hx E; by eapply (map_inj_in q_b (flight t)); [apply I|..]).
  assert (Is : forall x, x ∈ flight t -> sector (drv t) (q_b x) = sector (drv t) (q_b r) -> x = r).
  { intros x Hx E. by eapply (map_inj_in (fun x => sector (drv t) (q_b x)) (flight t)); [apply I|..]. }
  assert (Pd : forall x, x ∈ flight t -> x <> r -> q_0 x ∈ Q ++ t1 ++ q_0 r :: t2 -> q_0 x ∈ Q ++ t1 ++ t2).
  { intros x Hx N. assert (q_0 x <> q_0 r) by (intros E; apply N; eapply heads_inj; [apply (n_dup _ _ _ _ I)|done..]). set_solver. }
  destruct (q_w r) eqn:W; injection Es as <- <-; (split; [by eapply serve_inv|]); split; cbn [drv flight dsk ideal over t']; try exact A.
  - intros b. destruct (B b) as [|(x & Hx & E & Wx & P0)]; [by left|right]. exists x. split_and!; try done. apply Pd; [done|congruence|done].
  - intros k. destruct (decide (sector (drv t) (q_b r) = k)) as [<-|N].
    + left. rewrite fn_lookup_insert. rewrite <- (A r Hr). destruct (B (q_b r)) as [|(x & Hx & E & Wx & P0)]; [done|]. rewrite (Ib x) in Wx by done. congruence.
    + rewrite fn_lookup_insert_ne by done. destruct (C k) as [|(x & Hx & E & Wx & P0)]; [by left|right]. exists x. split_and!; try done. apply Pd; [done|congruence|done].
  - intros b. cbn. destruct (decide (q_b r = b)) as [<-|N].
    + left. rewrite fn_lookup_insert, (A r Hr). destruct (C (sector (drv t) (q_b r))) as [|(x & Hx & E & Wx & P0)]; [done|]. rewrite (Is x) in Wx by done. congruence.
    + rewrite fn_lookup_insert_ne by done. destruct (B b) as [|(x & Hx & E & Wx & P0)]; [by left|right]. exists x. split_and!; try done. apply Pd; [done|congruence|done].
  - intros k. destruct (C k) as [|(x & Hx & E & Wx & P0)]; [by left|right]. exists x. split_and!; try done. apply Pd; [done|congruence|done].
Qed.

(** ** The interrupt *)

Lemma intr_one t Q h U D r : vinv t Q (h :: U) D -> r ∈ flight t -> q_0 r = h ->
  let s := drv t in
  vinv (t <| drv := s <| vdisk ::= fun f => <[q_b r := 0]> f |> <| vwoken ::= fun l => l ++ [ChDiskBuf (q_b r)] |>
                      <| used_idx ::= fun n => u16 (n + 1) |> |>) Q U (h :: D).
Proof.
  intros I Hr <- s. destruct (ring_get _ _ _ _ _ (n_used _ _ _ _ I)) as [Rg _]. destruct (n_uidx _ _ _ _ I) as [Ru Ed].
  assert (Nd : NoDup (Q ++ taken t ++ (q_0 r :: U) ++ D)) by (rewrite <- (n_heads _ _ _ _ I); apply owned_heads, I).
  assert (Bf : forall r', r' ∈ flight t -> q_0 r' <> q_0 r -> q_b r <> q_b r').
  { intros r' Hr' N E. apply N. f_equal. by eapply (map_inj_in q_b (flight t)); [apply I|..]. }
  assert (Np : q_0 r ∉ Q ++ taken t ++ U).
  { rewrite !NoDup_app in Nd. cbn in Nd. rewrite NoDup_cons in Nd. set_solver. }
  split; cbn [drv flight dsk seen taken over]; try apply I.
  - eapply Forall_impl; [apply (n_chain _ _ _ _ I)|]. intros r' C. by apply (chain_same s).
  - rewrite (n_heads _ _ _ _ I). cbn. do 2 apply Permutation_app_head. apply Permutation_middle.
  - eapply ring_mod; [|exact Rg]. cbn. by rewrite u16_num.
  - split; [apply u16_bounds|]. cbn. subst s. rewrite Ed, u16_add_l. f_equal. cbn [length]. lia.
  - intros r' Hr' Hq. cbn. assert (N : q_0 r' <> q_0 r) by (intros E; by rewrite E in Hq).
    rewrite fn_lookup_insert_ne by by apply Bf. apply (n_wait _ _ _ _ I r' Hr'). set_solver.
  - intros r' Hr' Hq. cbn. destruct (decide (q_0 r' = q_0 r)) as [E|N].
    + assert (r' = r) as -> by (eapply heads_inj; [apply (n_dup _ _ _ _ I)|done..]). apply fn_lookup_insert.
    + rewrite fn_lookup_insert_ne by by apply Bf. apply (n_done _ _ _ _ I r' Hr'). set_solver.
  - intros r' Hr' Hq. apply (n_moved _ _ _ _ I r' Hr'). set_solver.
Qed.

Lemma intr_run U : forall t Q D k, vinv t Q U D -> (length U < k)%nat ->
  exists s' D', intr_loop k (drv t) = Ok tt s' /\ vinv (t <| drv := s' |>) Q [] D' /\ vdata s' = vdata (drv t) /\ vblockno s' = vblockno (drv t).
Proof.
  induction U as [|h U IH]; intros t Q D k I Hk; (destruct k as [|k]; [lia|]); cbn [intr_loop].
  - exists (drv t), D. unfold bind at 1, get. destruct (n_uidx _ _ _ _ I) as [Ru Ed]. cbn [length] in Ed. rewrite Z.add_0_r in Ed.
    rewrite Ed, u16_mod, Z.mod_small, Z.eqb_refl by lia. split; [done|]. split; [by destruct t|done].
  - unfold bind at 1, get. destruct (n_uidx _ _ _ _ I) as [Ru Ed]. pose proof (queue_small _ _ _ _ I) as Sm.
    assert (Ne : (used_idx (drv t) =? dev_used_idx (drv t)) = false).
    { rewrite Ed. replace (used_idx (drv t)) with (u16 (used_idx (drv t) + 0)) at 1 by (rewrite Z.add_0_r, u16_mod, Z.mod_small; lia).
      rewrite u16_same by lia. cbn [length]. apply Z.eqb_neq. lia. }
    rewrite Ne. destruct (ring_get _ _ _ _ _ (n_used _ _ _ _ I)) as [_ ->].
    destruct (head_owned t Q (h :: U) D h I) as (r & Hr & Eh); [set_solver|].
    pose proof (n_moved _ _ _ _ I r Hr ltac:(rewrite Eh; set_solver)) as St. rewrite Eh in St. rewrite St. cbn [Z.eqb negb].
    pose proof (n_chain _ _ _ _ I) as C. rewrite Forall_forall in C. pose proof (c_buf _ _ (C r Hr)) as Eb. rewrite Eh in Eb. rewrite Eb.
    destruct (IH _ Q (h :: D) k (intr_one t Q h U D r I Hr Eh) ltac:(cbn in Hk; lia)) as (s' & D' & E & I'). exists s', D'. split; [exact E|exact I'].
Qed.

Lemma virtio_disk_intr_run t Q U D : vinv t Q U D ->
  exists s' D', virtio_disk_intr (drv t) = Ok tt s' /\ vinv (t <| drv := s' |>) Q [] D' /\ vdata s' = vdata (drv t) /\ vblockno s' = vblockno (drv t).
Proof.
  intros I. unfold virtio_disk_intr. rewrite bind_gets. destruct (n_uidx _ _ _ _ I) as [Ru Ed]. pose proof (queue_small _ _ _ _ I) as Sm.
  apply (intr_run U t Q D); [done|]. rewrite Ed, u16_sub_l. replace (used_idx (drv t) + Z.of_nat (length U) - used_idx (drv t)) with (Z.of_nat (length U)) by lia.
  rewrite u16_mod, Z.mod_small; lia.
Qed.

(** ** The end of a transfer *)

Lemma free_chain_run s0 s r X : vlen s -> chain_ok s0 r -> desc s = desc s0 -> free_ok s (idxs r ++ X) -> NoDup (idxs r ++ X) ->
  exists s', free_chain (q_0 r) s = Ok tt s' /\ only_desc s s' X /\ free_ok s' X.
Proof.
  intros V [(R0 & R1 & R2) D0 D1 D2 _ _] Es F N. rewrite <- Es in D0, D1, D2. unfold idxs in *. cbn in F, N. rewrite !NoDup_cons in N. destruct N as (N0 & N1 & N2 & _).
  destruct (free_desc_run s (q_1 r :: q_2 r :: X) (q_0 r) V F R0 N0) as (s1 & E1 & O1 & F1). pose proof (only_vlen _ _ _ V O1) as V1.
  destruct (free_desc_run s1 (q_2 r :: X) (q_1 r) V1 F1 R1 N1) as (s2 & E2 & O2 & F2). pose proof (only_vlen _ _ _ V1 O2) as V2.
  destruct (free_desc_run s2 X (q_2 r) V2 F2 R2 N2) as (s3 & E3 & O3 & F3). exists s3.
  pose proof O1 as (_ & _ & _ & K1). pose proof O2 as (_ & _ & _ & K2).
  split; [|split; [|done]].
  - unfold free_chain. change (Z.to_nat NUM) with 8%nat. cbn [free_chain_loop]. rewrite bind_gets, D0, (bind_ok _ _ _ _ _ E1). cbn [d_flags d_next].
    change (negb (Z.land VRING_DESC_F_NEXT VRING_DESC_F_NEXT =? 0)) with true. cbv iota. rewrite bind_gets, K1, D1 by set_solver.
    rewrite (bind_ok _ _ _ _ _ E2). cbn [d_flags d_next].
    assert (Z.land (Z.lor (if q_w r then 0 else VRING_DESC_F_WRITE) VRING_DESC_F_NEXT) VRING_DESC_F_NEXT = 1) as -> by by destruct (q_w r).
    cbn [negb Z.eqb]. rewrite bind_gets, K2, K1, D2 by set_solver. by rewrite (bind_ok _ _ _ _ _ E3).
  - eapply only_trans; [eapply only_less; [|exact O1]; set_solver|]. eapply only_trans; [eapply only_less; [|exact O2]; set_solver|done].
Qed.

Lemma owned_perm l1 r l2 : owned (l1 ++ r :: l2) ≡ₚ idxs r ++ owned (l1 ++ l2).
Proof. rewrite !owned_app. change (owned (r :: l2)) with (idxs r ++ owned l2). rewrite !app_assoc. by rewrite (Permutation_app_comm (owned l1)). Qed.

Lemma done_head t Q U D r : vinv t Q U D -> r ∈ flight t -> vdisk (drv t) (q_b r) <> 1 -> q_0 r ∈ D.
Proof.
  intros I Hr Nd. assert (H : q_0 r ∈ Q ++ taken t ++ U ++ D) by (rewrite <- (n_heads _ _ _ _ I); by apply list_elem_of_fmap_2).
  rewrite !app_assoc in H. apply elem_of_app in H as [H|H]; [|done]. destruct Nd. apply (n_wait _ _ _ _ I r Hr). by rewrite !app_assoc.
Qed.

Lemma finish_inv t Q U D l1 r l2 : vinv t Q U D -> flight t = l1 ++ r :: l2 -> q_0 r ∈ D -> exists s' D',
  rw_finish (q_0 r) (drv t) = Ok tt s' /\ vinv (t <| drv := s' |> <| flight := l1 ++ l2 |>) Q U D' /\ vdata s' = vdata (drv t) /\ vblockno s' = vblockno (drv t).
Proof.
  intros I Ef Hd. assert (Hr : r ∈ flight t) by (rewrite Ef; set_solver). assert (Sub : forall x, x ∈ l1 ++ l2 -> x ∈ flight t) by (rewrite Ef; set_solver).
  pose proof (n_chain _ _ _ _ I) as C. rewrite Forall_forall in C. pose proof (n_dup _ _ _ _ I) as Nd. rewrite Ef, owned_perm in Nd.
  assert (Ot : forall x, x ∈ l1 ++ l2 -> q_0 r <> q_0 x).
  { intros x Hx E. apply NoDup_app in Nd as (_ & Nd & _). apply (Nd (q_0 r)); [cbn; set_solver|]. apply (owned_in x); [done|rewrite E; cbn; set_solver]. }
  set (s1 := (drv t) <| info ::= fun l => upd l (q_0 r) ((at_ info0 l (q_0 r)) <| i_b := 0 |>) |>).
  assert (V1 : vlen s1) by (pose proof (n_len _ _ _ _ I) as V; unfold vlen in *; cbn; by rewrite length_upd).
  assert (Ch : forall x, x ∈ l1 ++ l2 -> chain_ok s1 x).
  { intros x Hx. apply (chain_same (drv t)); try done; [by apply C, Sub|]. cbn. by rewrite at_upd_ne by by apply Ot. }
  destruct (free_chain_run (drv t) s1 r (owned (l1 ++ l2)) V1 (C r Hr) eq_refl) as (s' & E & O & F); [|done|].
  { intros i Hi. rewrite <- owned_perm, <- Ef. by apply (n_free _ _ _ _ I). }
  destruct (elem_of_Permutation D (q_0 r)) as [[D' Pd] _]; [done|]. pose proof O as (Es & _ & _ & Kd). exists s', D'.
  split; [exact E|]. split; [|rewrite Es; done]. split; cbn [drv flight dsk seen taken over].
  - by eapply only_vlen.
  - apply Forall_forall. intros x Hx. apply (chain_same s1); [by apply Ch|..]; try (by rewrite Es). intros i Hi. apply Kd. by eapply owned_in.
  - by apply NoDup_app in Nd as (_ & _ & Nd).
  - exact F.
  - pose proof (n_bufs _ _ _ _ I) as B. rewrite Ef, map_app in B. cbn in B. rewrite <- Permutation_middle, NoDup_cons in B. rewrite map_app. apply B.
  - pose proof (n_sect _ _ _ _ I) as B. rewrite Ef, map_app in B. cbn in B. rewrite <- Permutation_middle, NoDup_cons in B. rewrite map_app.
    destruct B as [_ B]. unfold sector in *. rewrite Es. exact B.
  - pose proof (n_heads _ _ _ _ I) as B. rewrite Ef, map_app, Pd in B. cbn in B. rewrite <- Permutation_middle in B. rewrite map_app.
    apply (Permutation_cons_inv (a := q_0 r)). rewrite B. rewrite !app_assoc. by rewrite <- Permutation_middle.
  - rewrite Es. apply I.
  - rewrite Es. apply I.
  - rewrite Es. apply I.
  - rewrite Es. apply I.
  - intros x Hx Hq. rewrite Es. by apply (n_wait _ _ _ _ I x (Sub x Hx)).
  - intros x Hx Hq. rewrite Es. apply (n_done _ _ _ _ I x (Sub x Hx)). rewrite Pd. set_solver.
  - intros x Hx Hq. rewrite Es. cbn. rewrite at_upd_ne by by apply Ot. apply (n_moved _ _ _ _ I x (Sub x Hx)). rewrite Pd. set_solver.
Qed.

Lemma owner_inv t Q U D b x n : vinv t Q U D -> Forall (fun r => q_b r <> b) (flight t) ->
  vinv (t <| drv := (drv t) <| vdata ::= fun f => <[b := x]> f |> <| vblockno ::= fun f => <[b := n]> f |> |>
          <| ideal ::= fun y => y <| want_buf ::= fun f => <[b := x]> f |> |>) Q U D.
Proof.
  intros I Nb. rewrite Forall_forall in Nb. pose proof (n_chain _ _ _ _ I) as C. rewrite Forall_forall in C.
  set (s' := (drv t) <| vdata ::= _ |> <| vblockno ::= _ |>).
  assert (Es : forall r, r ∈ flight t -> sector s' (q_b r) = sector (drv t) (q_b r)).
  { intros r Hr. unfold sector, s'. cbn. by rewrite fn_lookup_insert_ne by (intros E; by apply (Nb r)). }
  split; cbn [drv flight dsk seen taken over]; try apply I.
  - apply Forall_forall. intros r Hr. apply (chain_same (drv t)); try done; [by apply C|]. cbn. by rewrite fn_lookup_insert_ne by (intros E; by apply (Nb r)).
  - erewrite map_ext_in; [apply (n_sect _ _ _ _ I)|]. intros r Hr%list_elem_of_In. by apply Es.
Qed.

(** ** Every step *)

Lemma owner_ideal t P b x n : ideal_ok t P -> Forall (fun r => q_b r <> b) (flight t) ->
  ideal_ok (t <| drv := (drv t) <| vdata ::= fun f => <[b := x]> f |> <| vblockno ::= fun f => <[b := n]> f |> |>
              <| ideal ::= fun y => y <| want_buf ::= fun f => <[b := x]> f |> |>) P.
Proof.
  intros [A B C] Nb. rewrite Forall_forall in Nb. set (s' := (drv t) <| vdata ::= _ |> <| vblockno ::= _ |>).
  assert (Es : forall r, r ∈ flight t -> sector s' (q_b r) = sector (drv t) (q_b r)).
  { intros r Hr. unfold sector, s'. cbn. by rewrite fn_lookup_insert_ne by (intros E; by apply (Nb r)). }
  split; cbn [drv flight dsk ideal over].
  - intros r Hr. rewrite Es by done. cbn. rewrite fn_lookup_insert_ne by (intros E; by apply (Nb r)). by apply A.
  - intros c. cbn. destruct (decide (b = c)) as [->|N]; [left; by rewrite !fn_lookup_insert|]. rewrite !fn_lookup_insert_ne by done. apply B.
  - intros k. destruct (C k) as [|(r & Hr & E & X)]; [by left|right]. exists r. by rewrite Es.
Qed.

Lemma pending_not_done t Q U D h : vinv t Q U D -> h ∈ U ++ D -> h ∉ Q ++ taken t.
Proof.
  intros I Hh Hp. assert (Nd : NoDup ((Q ++ taken t) ++ (U ++ D))) by (rewrite <- app_assoc, <- (n_heads _ _ _ _ I); apply owned_heads, I).
  apply NoDup_app in Nd as (_ & Nd & _). by apply (Nd h).
Qed.

Lemma vstep_inv t t' Q U D : vinv t Q U D -> ideal_ok t (Q ++ taken t) -> vstep t t' -> exists Q' U' D', vinv t' Q' U' D' /\ ideal_ok t' (Q' ++ taken t').
Proof.
  intros I K St. destruct St as [b w h s' Nb E|b w c s' E|N|t1 h t2 s' d' Et Es|s' E|l1 r l2 s' Ef Wt Fi|b x n Nb].
  - destruct (rw_start_run b w (drv t) _ (n_len _ _ _ _ I) (n_free _ _ _ _ I)) as (s1 & O & [[E' _]|(i0 & i1 & i2 & E' & R0 & R1 & R2 & N0 & N1 & N2 & F)]);
      rewrite E in E'; [done|]. injection E' as -> ->. pose proof (only_vlen _ _ _ (n_len _ _ _ _ I) O) as V1.
    destruct (formatted_chain b w i0 i1 i2 s1 V1 R0 R1 R2) as [_ ->]; [set_solver..|].
    exists (Q ++ [i0]), U, D. split; [by apply start_inv|]. pose proof (start_ideal t _ b w i0 i1 i2 s1 K O Nb) as [K1 K2 K3].
    split; [exact K1|intros c; destruct (K2 c) as [|(x & X)]|intros c; destruct (K3 c) as [|(x & X)]]; [by left|right; exists x..|by left|right; exists x]; set_solver.
  - destruct (rw_start_run b w (drv t) _ (n_len _ _ _ _ I) (n_free _ _ _ _ I)) as (s1 & O & [[E' F]|(i0 & i1 & i2 & E' & _)]);
      rewrite E in E'; [|done]. injection E' as -> ->. exists Q, U, D. split; [by apply only_inv|]. destruct O as (Eo & _). by apply (ideal_same t _ (Q ++ taken t)); try done; cbn; rewrite Eo.
  - destruct (fetch_inv t Q U D I N) as (Q' & I' & Hp). exists Q', U, D. split; [done|]. apply (ideal_same t _ (Q ++ taken t)); try done. intros r Hr Hq. split; [done|by apply Hp].
  - exists Q, (U ++ [h]), D. by apply serve_step.
  - destruct (virtio_disk_intr_run t Q U D I) as (s1 & D' & E' & I' & Ed & Eb). rewrite E in E'. injection E' as <-. exists Q, [], D'. split; [done|]. by apply (ideal_same t _ (Q ++ taken t)).
  - unfold rw_wait in Wt. rewrite bind_gets in Wt. destruct (Z.eqb_spec (vdisk (drv t) (q_b r)) 1); [done|].
    assert (Hd : q_0 r ∈ D) by (eapply done_head; [done|rewrite Ef; set_solver|done]).
    destruct (finish_inv t Q U D l1 r l2 I Ef Hd) as (s1 & D' & E' & I' & Ed & Eb). rewrite Fi in E'. injection E' as <-. exists Q, U, D'. split; [done|].
    assert (Np : q_0 r ∉ Q ++ taken t) by (apply (pending_not_done t Q U D); set_solver). apply (ideal_same t _ (Q ++ taken t)); try done; cbn; rewrite Ef; [set_solver|].
    intros x Hx Hq. split; [|done]. assert (x <> r) by (intros ->; done). set_solver.
  - exists Q, U, D. split; [by apply owner_inv|by apply owner_ideal].
Qed.

(** After [virtio_disk_init], with no request anywhere. *)
Definition vboot (t : sys) : Prop :=
  exists s, drv t = virtio_disk_init s /\ used_idx s = 0 /\ length (info s) = 8%nat /\ length (ops s) = 8%nat /\
    seen t = 0 /\ taken t = [] /\ flight t = [] /\ ideal t = mkSpec (vdata s) (dsk t).

Lemma vboot_inv t : vboot t -> vinv t [] [] [] /\ ideal_ok t [].
Proof.
  intros (s & Ed & Eu & Li & Lo & Es & Et & Ef & Ei). split; [|split; rewrite ?Ed, ?Ef, ?Ei; [set_solver|by left..]].
  split; rewrite ?Ed, ?Es, ?Et, ?Ef; cbn; try done; try (by constructor); try set_solver.
  - intros i Hi. cbn. assert (C : i = 0 \/ i = 1 \/ i = 2 \/ i = 3 \/ i = 4 \/ i = 5 \/ i = 6 \/ i = 7) by (unfold index, NUM in Hi; lia).
    split; [|set_solver]. by repeat destruct C as [->|C]; [..|subst i].
  - split; [lia|]. by rewrite Eu.
Qed.

Lemma vreach_inv t0 t : vboot t0 -> rtc vstep t0 t -> exists Q U D, vinv t Q U D /\ ideal_ok t (Q ++ taken t).
Proof.
  intros B R. assert (I0 : exists Q U D, vinv t0 Q U D /\ ideal_ok t0 (Q ++ taken t0)).
  { exists [], [], []. pose proof (vboot_inv t0 B) as [I K]. destruct B as (s & _ & _ & _ & _ & _ & -> & _). done. }
  clear B. induction R as [|? t1 t St R IH]; [done|]. apply IH. destruct I0 as (Q & U & D & I & K). by eapply vstep_inv.
Qed.

(** C4: the disk driver is correct for any number of concurrent transfers, a
    device that answers in any order, and interrupts at any time.  No routine of
    it panics: a transfer starts or waits for descriptors, of which no two
    chains share one, so that at most two are in flight and the rings never
    overflow; and a transfer whose buffer is no longer marked as being with the
    device can be finished.  A buffer that is not with the device, and a block
    whose buffer is not, hold exactly what they would if every transfer since
    the start had happened at once when it was asked for: a write has copied
    the buffer to its block, a read the block to its buffer, and nothing else
    has changed. *)
Theorem disk_driver_correct t0 t :
  vboot t0 -> rtc vstep t0 t ->
  (exists s', virtio_disk_intr (drv t) = Ok tt s') /\
  (forall b w, exists s', rw_start b w (drv t) = Block ChDiskFree s' \/ exists h, rw_start b w (drv t) = Ok h s') /\
  NoDup (owned (flight t)) /\ (length (flight t) <= 2)%nat /\
  (forall r, r ∈ flight t -> vdisk (drv t) (q_b r) <> 1 -> exists s', rw_finish (q_0 r) (drv t) = Ok tt s') /\
  (forall b, (forall r, r ∈ flight t -> q_b r = b -> vdisk (drv t) (q_b r) <> 1) -> vdata (drv t) b = want_buf (ideal t) b) /\
  (forall k, (forall r, r ∈ flight t -> sector (drv t) (q_b r) = k -> vdisk (drv t) (q_b r) <> 1) -> dsk t k = want_dsk (ideal t) k).
Proof.
  intros B R. destruct (vreach_inv t0 t B R) as (Q & U & D & I & K).
  assert (Pd : forall r, r ∈ flight t -> q_0 r ∈ Q ++ taken t -> vdisk (drv t) (q_b r) = 1) by (intros r Hr Hq; apply (n_wait _ _ _ _ I r Hr); set_solver).
  split_and!.
  - destruct (virtio_disk_intr_run t Q U D I) as (s' & _ & E & _). by exists s'.
  - intros b w. destruct (rw_start_run b w (drv t) _ (n_len _ _ _ _ I) (n_free _ _ _ _ I)) as (s1 & _ & [[E _]|(i0 & i1 & i2 & E & _)]);
      eexists; [by left|right; by eexists].
  - apply I.
  - pose proof (flight_small _ _ _ _ I). lia.
  - intros r Hr Nd. pose proof (done_head t Q U D r I Hr Nd) as Hd.
    apply list_elem_of_split in Hr as (l1 & l2 & Ef). destruct (finish_inv t Q U D l1 r l2 I Ef Hd) as (s' & _ & E & _). by exists s'.
  - intros b Nb. destruct (o_buf _ _ K b) as [|(r & Hr & Eb & _ & Hq)]; [done|]. by destruct (Nb r Hr Eb); apply Pd.
  - intros k Nk. destruct (o_dsk _ _ K k) as [|(r & Hr & Ek & _ & Hq)]; [done|]. by destruct (Nk r Hr Ek); apply Pd.
Qed.
End System.

(** ** Witness: a device, and a write that it has finished. *)
Module VirtioWitness.
Definition serve (h : Z) (s : vstate) (d : Z -> list Z) : vstate * (Z -> list Z) :=
  let i1 := d_next (at_ desc0 (desc s) h) in
  let op := at_ req0 (ops s) h in
  match d_addr (at_ desc0 (desc s) i1) with
  | PData b =>
    if r_type op =? VIRTIO_BLK_T_OUT then (answer h h s, <[r_sector op := vdata s b]> d)
    else (answer h h (s <| vdata ::= fun f => <[b := d (r_sector op)]> f |>), d)
  | _ => (s, d)
  end.

#[local] Instance serve_device : Device serve.
Proof. split. intros s d r [_ D0 D1 _ Op _]. unfold serve. rewrite D0, Op. cbn [d_next]. rewrite D1. cbn. by destruct (q_w r). Qed.

Definition s0 : vstate := mkVstate [] 0 [] 0 [] [] 0 (repeat info0 8) (repeat req0 8) (fun b => [b]) (fun b => 40 + b) (fun _ => 0) [].
Definition t0 : sys := mkSys (virtio_disk_init s0) (fun _ => [0]) 0 [] [] (mkSpec (fun b => [b]) (fun _ => [0])).

Definition after {A} (m : M vstate A) (s : vstate) : vstate := match m s with Ok _ s' => s' | _ => s end.

Definition t1 : sys := let s := after (rw_start 3 true) (drv t0) in mkSys s (dsk t0) 0 [] [request s 3 true 0] (transfer 3 true 86 (ideal t0)).
Definition t2 : sys := mkSys (drv t1) (dsk t1) 1 [0] (flight t1) (ideal t1).
Definition t3 : sys := let '(s, d) := serve 0 (drv t2) (dsk t2) in mkSys s d 1 [] (flight t2) (ideal t2).
Definition t4 : sys := mkSys (after virtio_disk_intr (drv t3)) (dsk t3) 1 [] (flight t3) (ideal t3).

Lemma step_eq t t' t'' : vstep serve t t' -> t' = t'' -> vstep serve t t''.
Proof. by intros ? <-. Qed.

Lemma steps : rtc (vstep serve) t0 t4.
Proof.
  apply (rtc_l _ _ t1); [eapply step_eq; [apply (v_start serve t0 3 true 0 (drv t1)); [by apply Forall_nil|]|]; vm_compute; reflexivity|].
  apply (rtc_l _ _ t2); [eapply step_eq; [apply (v_fetch serve t1)|]; vm_compute; [discriminate|reflexivity]|].
  apply (rtc_l _ _ t3); [eapply step_eq; [apply (v_serve serve t2 [] 0 [] (drv t3) (dsk t3))|]; vm_compute; reflexivity|].
  apply rtc_once. eapply step_eq; [apply (v_intr serve t3 (drv t4))|]; vm_compute; reflexivity.
Qed.

Lemma disk_driver_correct_witness :
  rtc (vstep serve) t0 t4 /\ flight t4 = [mkRq 3 true 0 1 2] /\ vdisk (drv t4) 3 = 0 /\
    dsk t4 86 = want_dsk (ideal t4) 86 /\ want_dsk (ideal t4) 86 = [3] /\ exists s', rw_finish 0 (drv t4) = Ok tt s'.
Proof.
  assert (Ef : flight t4 = [mkRq 3 true 0 1 2]) by (vm_compute; reflexivity).
  assert (Ed : vdisk (drv t4) 3 = 0) by (vm_compute; reflexivity).
  destruct (disk_driver_correct serve t0 t4) as (_ & _ & _ & _ & F & _ & K); [by exists s0|exact steps|].
  split; [exact steps|]. split; [exact Ef|]. split; [exact Ed|]. split; [|split; [vm_compute; reflexivity|]].
  - apply K. intros r. rewrite Ef, list_elem_of_singleton. intros -> _. cbn [q_b]. by rewrite Ed.
  - apply (F (mkRq 3 true 0 1 2)); [rewrite Ef; by left|cbn [q_b]; by rewrite Ed].
Defined.
End VirtioWitness.
