(* ===== verification/Proc.v ===== *)
(** * kernel/proc.c: processes

    The process table and the variables of proc.c on top of physical memory,
    with the file layer as a part [F] of the state that is reached through the
    interface [FsOps].  A [struct proc *] is 0 for the null pointer and [i + 1]
    for [&proc[i]].  Each critical section is one step: the spinlocks are
    modelled in Spinlock.v.  [cur] is the process this hart runs, 0 in the
    scheduler.  [sched] hands the processor over: the outcome [Block] keeps the
    state at that moment. *)

From Stdlib Require Import ZArith Lia List.
From stdpp Require Import base tactics numbers list gmap strings.
From S2P Require Import Prelude Riscv CString Kalloc Vm.

(** ** Data of proc.h *)

Inductive procstate : Type := UNUSED | USED | SLEEPING | RUNNABLE | RUNNING | ZOMBIE.

#[global] Instance procstate_eq_dec : EqDecision procstate.
Proof. solve_decision. Defined.

(** Saved registers for [swtch]: ra, sp and the callee-saved s0 to s11. *)
Record context_t : Type := mkContext {
  c_ra : Z;
  c_sp : Z;
  c_s : list Z
}.

Record proc : Type := mkProc {
  state : procstate;
  chan_ : chan;
  killed_ : Z;
  xstate : Z;
  pid : Z;
  parent : Z;
  kstack : Z;
  sz : Z;
  pagetable : Z;
  trapframe : Z;
  context : context_t;
  ofile : list Z;
  cwd : Z;
  name : list Z;
  cpu_heat : Z;
  total_ticks : Z;
  last_scheduled : Z;
  times_skipped : Z;
  heat_level : Z
}.

#[global] Instance eta_proc : Eta proc := fun p =>
  mkProc (state p) (chan_ p) (killed_ p) (xstate p) (pid p) (parent p) (kstack p) (sz p)
    (pagetable p) (trapframe p) (context p) (ofile p) (cwd p) (name p) (cpu_heat p)
    (total_ticks p) (last_scheduled p) (times_skipped p) (heat_level p).

(** Static storage: all zero. *)
Definition proc0 : proc :=
  mkProc UNUSED ChNull 0 0 0 0 0 0 0 0 (mkContext 0 0 (repeat 0 12)) (repeat 0 16) 0 (repeat 0 16) 0 0 0 0 0.

(** Offsets in [struct trapframe]. *)
Definition TF_kernel_satp : Z := 0.
Definition TF_kernel_sp : Z := 8.
Definition TF_kernel_trap : Z := 16.
Definition TF_epc : Z := 24.
Definition TF_kernel_hartid : Z := 32.
Definition TF_sp : Z := 48.
Definition TF_a0 : Z := 112.
Definition TF_a7 : Z := 168.
Definition TF_size : Z := 288.

(** ** Variables of proc.c, trap.c and sysproc.c *)

Record pstate (F : Type) : Type := mkPstate {
  ph : phys;
  procs : list proc;
  nextpid : Z;
  initproc : Z;
  cur : Z;
  total_heat_skips : Z;
  total_schedules : Z;
  total_heat_penalty_ticks : Z;
  log_counter : Z;
  ticks : Z;
  g_total_ticks : Z;
  g_cpu_active_ticks : Z;
  g_interrupt_count : Z;
  g_last_keypress_tick : Z;
  forkret_first : Z;
  last_total_ticks : Z;
  last_cpu_active : Z;
  last_int_count : Z;
  fs : F
}.
Arguments mkPstate {F}.
Arguments ph {F}.
Arguments procs {F}.
Arguments nextpid {F}.
Arguments initproc {F}.
Arguments cur {F}.
Arguments total_heat_skips {F}.
Arguments total_schedules {F}.
Arguments total_heat_penalty_ticks {F}.
Arguments log_counter {F}.
Arguments ticks {F}.
Arguments g_total_ticks {F}.
Arguments g_cpu_active_ticks {F}.
Arguments g_interrupt_count {F}.
Arguments g_last_keypress_tick {F}.
Arguments forkret_first {F}.
Arguments last_total_ticks {F}.
Arguments last_cpu_active {F}.
Arguments last_int_count {F}.
Arguments fs {F}.

#[global] Instance eta_pstate F : Eta (pstate F) := fun s =>
  mkPstate (ph s) (procs s) (nextpid s) (initproc s) (cur s) (total_heat_skips s)
    (total_schedules s) (total_heat_penalty_ticks s) (log_counter s) (ticks s) (g_total_ticks s)
    (g_cpu_active_ticks s) (g_interrupt_count s) (g_last_keypress_tick s) (forkret_first s) (last_total_ticks s) (last_cpu_active s) (last_int_count s) (fs s).

(** What proc.c calls in the file system, on file and inode pointers.  The file
    layer runs on the whole state: it sleeps, wakes processes, and frees the
    pages of pipes. *)
Class FsOps (F : Type) := {
  filedup : Z -> M (pstate F) Z;
  fileclose : Z -> M (pstate F) unit;
  idup : Z -> M (pstate F) Z;
  iput : Z -> M (pstate F) unit;
  begin_op : M (pstate F) unit;
  end_op : M (pstate F) unit;
  namei : list Z -> M (pstate F) Z;
  fsinit : Z -> M (pstate F) unit
}.

(** The address of [forkret], a symbol of the kernel image. *)
Class Entry := { forkret_addr : Z }.

(** Heat constants. *)
Definition HEAT_THRESHOLD_WARM : Z := 500.
Definition HEAT_THRESHOLD_HOT : Z := 1500.
Definition HEAT_THRESHOLD_CRITICAL : Z := 3000.
Definition HEAT_DECAY : Z := 1.
Definition HEAT_SKIP_MAX : Z := 90.
Definition HEAT_SKIP_SCALE : Z := 20.
Definition HEAT_LOG_THROTTLE : Z := 100.

Section Ops.
Context `{Layout} `{Entry} {F : Type} `{FsOps F}.

Definition on_ph : Lens (pstate F) phys := mkLens ph (fun x s => s <| ph := x |>).
Definition vm {A} (m : M phys A) : M (pstate F) A := zoom on_ph m.

(** [*p] and [*p = f(old *p)] for a non-null process pointer. *)
Definition procat (s : pstate F) (p : Z) : proc := at_ proc0 (procs s) (p - 1).
Definition getp {A} (p : Z) (f : proc -> A) : M (pstate F) A := gets (fun s => f (procat s p)).
Definition setp (p : Z) (f : proc -> proc) : M (pstate F) unit :=
  modify (fun s => s <| procs ::= fun l => upd l (p - 1) (f (at_ proc0 l (p - 1))) |>).

Definition myproc : M (pstate F) Z := gets cur.

(** A loop [for (p = proc; p < &proc[NPROC]; p++) body]. *)
Fixpoint for_procs_from (k : nat) (p : Z) (body : Z -> M (pstate F) unit) : M (pstate F) unit :=
  match k with
  | O => ret tt
  | S k' => do body p ;;; for_procs_from k' (p + 1) body
  end.
Definition for_procs (body : Z -> M (pstate F) unit) : M (pstate F) unit :=
  for_procs_from (Z.to_nat NPROC) 1 body.

Definition procinit : M (pstate F) unit :=
  for_procs (fun p => setp p (fun q => q <| state := UNUSED |> <| kstack := KSTACK (p - 1) |>)).

Definition allocpid : M (pstate F) Z :=
  let* pid := gets nextpid in
  do modify (fun s => s <| nextpid := i32 (pid + 1) |>) ;;;
  ret pid.

(** ** Page tables of processes *)

Definition proc_pagetable (p : Z) : M (pstate F) Z :=
  let* pagetable := vm uvmcreate in
  if pagetable =? 0 then ret 0
  else
    let* r := vm (mappages pagetable TRAMPOLINE PGSIZE trampoline (Z.lor PTE_R PTE_X)) in
    if r <? 0 then do vm (uvmfree pagetable 0) ;;; ret 0
    else
      let* tf := getp p trapframe in
      let* r := vm (mappages pagetable TRAPFRAME PGSIZE tf (Z.lor PTE_R PTE_W)) in
      if r <? 0
      then
        do vm (uvmunmap pagetable TRAMPOLINE 1 false) ;;;
        do vm (uvmfree pagetable 0) ;;;
        ret 0
      else ret pagetable.

Definition proc_freepagetable (pagetable sz : Z) : M (pstate F) unit :=
  do vm (uvmunmap pagetable TRAMPOLINE 1 false) ;;;
  do vm (uvmunmap pagetable TRAPFRAME 1 false) ;;;
  vm (uvmfree pagetable sz).

Definition freeproc (p : Z) : M (pstate F) unit :=
  let* tf := getp p trapframe in
  do (if negb (tf =? 0) then vm (kfree tf) else ret tt) ;;;
  do setp p (fun q => q <| trapframe := 0 |>) ;;;
  let* pt := getp p pagetable in
  let* n := getp p sz in
  do (if negb (pt =? 0) then proc_freepagetable pt n else ret tt) ;;;
  setp p (fun q => q <| pagetable := 0 |> <| sz := 0 |> <| pid := 0 |> <| parent := 0 |>
                    <| name ::= fun l => upd l 0 0 |> <| chan_ := ChNull |> <| killed_ := 0 |>
                    <| xstate := 0 |> <| state := UNUSED |>).

(** The first UNUSED slot, 0 if there is none. *)
Fixpoint find_unused (l : list proc) (p : Z) : Z :=
  match l with
  | [] => 0
  | q :: l' => if decide (state q = UNUSED) then p else find_unused l' (p + 1)
  end.

Definition allocproc : M (pstate F) Z :=
  let* p := gets (fun s => find_unused (procs s) 1) in
  if p =? 0 then ret 0
  else
    let* n := allocpid in
    do setp p (fun q => q <| pid := n |> <| state := USED |>) ;;;
    let* tf := vm kalloc in
    do setp p (fun q => q <| trapframe := tf |>) ;;;
    if tf =? 0 then do freeproc p ;;; ret 0
    else
      let* pt := proc_pagetable p in
      do setp p (fun q => q <| pagetable := pt |>) ;;;
      if pt =? 0 then do freeproc p ;;; ret 0
      else
        do setp p (fun q => q <| context := mkContext forkret_addr (u64 (kstack q + PGSIZE)) (repeat 0 12) |>
                            <| cpu_heat := 0 |> <| total_ticks := 0 |> <| last_scheduled := 0 |>) ;;;
        ret p.

(** ** The first process, growing, forking *)

(** [safestrcpy] between two arrays of the kernel. *)
Definition copy_name (dst src : list Z) (n : Z) : list Z :=
  take (length dst) (safestrcpy (dst ++ src) 0 (Z.of_nat (length dst)) n).

Definition str_initcode : list Z := [105; 110; 105; 116; 99; 111; 100; 101; 0].
Definition str_root : list Z := [47; 0].

Definition initcode : list Z := [
  0x17; 0x05; 0x00; 0x00; 0x13; 0x05; 0x45; 0x02;
  0x97; 0x05; 0x00; 0x00; 0x93; 0x85; 0x35; 0x02;
  0x93; 0x08; 0x70; 0x00; 0x73; 0x00; 0x00; 0x00;
  0x93; 0x08; 0x20; 0x00; 0x73; 0x00; 0x00; 0x00;
  0xef; 0xf0; 0x9f; 0xff; 0x2f; 0x69; 0x6e; 0x69;
  0x74; 0x00; 0x00; 0x24; 0x00; 0x00; 0x00; 0x00;
  0x00; 0x00; 0x00; 0x00].

Definition userinit : M (pstate F) unit :=
  let* p := allocproc in
  do modify (fun s => s <| initproc := p |>) ;;;
  let* pt := getp p pagetable in
  do vm (uvmfirst pt initcode (Z.of_nat (length initcode))) ;;;
  do setp p (fun q => q <| sz := PGSIZE |>) ;;;
  let* tf := getp p trapframe in
  do vm (store64 (tf + TF_epc) 0) ;;;
  do vm (store64 (tf + TF_sp) PGSIZE) ;;;
  do setp p (fun q => q <| name ::= fun l => copy_name l str_initcode 16 |>) ;;;
  let* ip := namei str_root in
  setp p (fun q => q <| cwd := ip |> <| state := RUNNABLE |>).

Definition growproc (n : Z) : M (pstate F) Z :=
  let* p := myproc in
  let* sz0 := getp p sz in
  let* pt := getp p pagetable in
  if 0 <? n
  then
    let* sz1 := vm (uvmalloc pt sz0 (u64 (sz0 + n)) PTE_W) in
    if sz1 =? 0 then ret (-1)
    else do setp p (fun q => q <| sz := sz1 |>) ;;; ret 0
  else if n <? 0
  then
    let* sz1 := vm (uvmdealloc pt sz0 (u64 (sz0 + n))) in
    do setp p (fun q => q <| sz := sz1 |>) ;;; ret 0
  else do setp p (fun q => q <| sz := sz0 |>) ;;; ret 0.

(** The loop of [fork] over the open files. *)
Fixpoint dup_files (k : nat) (i p np : Z) : M (pstate F) unit :=
  match k with
  | O => ret tt
  | S k' =>
    let* f := getp p (fun q => at_ 0 (ofile q) i) in
    do (if negb (f =? 0)
        then
          let* f' := filedup f in
          setp np (fun q => q <| ofile ::= fun l => upd l i f' |>)
        else ret tt) ;;;
    dup_files k' (i + 1) p np
  end.

Definition fork : M (pstate F) Z :=
  let* p := myproc in
  let* np := allocproc in
  if np =? 0 then ret (-1)
  else
    let* old := getp p pagetable in
    let* new := getp np pagetable in
    let* n := getp p sz in
    let* r := vm (uvmcopy old new n) in
    if r <? 0 then do freeproc np ;;; ret (-1)
    else
      do setp np (fun q => q <| sz := n |>) ;;;
      let* tf := getp p trapframe in
      let* ntf := getp np trapframe in
      do vm (modify (set_mem (fun m => copy m ntf tf TF_size))) ;;;
      do vm (store64 (ntf + TF_a0) 0) ;;;
      do dup_files (Z.to_nat NOFILE) 0 p np ;;;
      let* ip := getp p cwd in
      let* ip' := idup ip in
      let* nm := getp p name in
      do setp np (fun q => q <| cwd := ip' |> <| name ::= fun l => copy_name l nm 16 |>) ;;;
      let* id := getp np pid in
      do setp np (fun q => q <| parent := p |>) ;;;
      do setp np (fun q => q <| state := RUNNABLE |>) ;;;
      ret id.

(** ** Switching, sleeping, waking *)

(** [sched]; its checks that [p->lock] is the only lock held and that interrupts
    are off are about the locks, which are not part of this state. *)
Definition sched {A} (c : chan) : M (pstate F) A :=
  let* p := myproc in
  let* st := getp p state in
  if decide (st = RUNNING) then panic "sched running" else block c.

Definition yield {A} : M (pstate F) A :=
  let* p := myproc in
  do setp p (fun q => q <| state := RUNNABLE |>) ;;;
  sched ChNull.

Definition sleep {A} (c : chan) : M (pstate F) A :=
  let* p := myproc in
  do setp p (fun q => q <| chan_ := c |> <| state := SLEEPING |>) ;;;
  sched c.

(** What [sleep] does when the process runs again. *)
Definition sleep_return : M (pstate F) unit :=
  let* p := myproc in
  setp p (fun q => q <| chan_ := ChNull |>).

Definition wakeup1 (c : chan) (q : proc) : proc :=
  if decide (state q = SLEEPING) then if decide (chan_ q = c) then q <| state := RUNNABLE |> else q else q.

Definition wakeup (c : chan) : M (pstate F) unit :=
  for_procs (fun p =>
    let* me := myproc in
    if p =? me then ret tt else setp p (wakeup1 c)).

Definition setkilled (p : Z) : M (pstate F) unit := setp p (fun q => q <| killed_ := 1 |>).
Definition killed (p : Z) : M (pstate F) Z := getp p killed_.

(** [kill] stops at the first slot with that pid. *)
Fixpoint kill_from (k : nat) (p n : Z) : M (pstate F) Z :=
  match k with
  | O => ret (-1)
  | S k' =>
    let* id := getp p pid in
    if id =? n
    then
      do setp p (fun q => q <| killed_ := 1 |>) ;;;
      let* st := getp p state in
      do (if decide (st = SLEEPING) then setp p (fun q => q <| state := RUNNABLE |>) else ret tt) ;;;
      ret 0
    else kill_from k' (p + 1) n
  end.
Definition kill (n : Z) : M (pstate F) Z := kill_from (Z.to_nat NPROC) 1 n.

Definition kill_all_user_processes : M (pstate F) unit :=
  for_procs (fun p =>
    let* q := getp p id in
    if negb (bool_decide (state q = UNUSED)) && (2 <? pid q)
    then setp p (fun q => q <| killed_ := 1 |>) else ret tt).

(** ** Exit and wait *)

Definition reparent (p : Z) : M (pstate F) unit :=
  for_procs (fun pp =>
    let* par := getp pp parent in
    if par =? p
    then
      let* ip := gets initproc in
      do setp pp (fun q => q <| parent := ip |>) ;;;
      wakeup (ChProc ip)
    else ret tt).

(** Close the open files of [p] from descriptor [fd] on. *)
Fixpoint close_files (k : nat) (fd p : Z) : M (pstate F) unit :=
  match k with
  | O => ret tt
  | S k' =>
    let* f := getp p (fun q => at_ 0 (ofile q) fd) in
    do (if negb (f =? 0)
        then
          do fileclose f ;;;
          setp p (fun q => q <| ofile ::= fun l => upd l fd 0 |>)
        else ret tt) ;;;
    close_files k' (fd + 1) p
  end.

Definition exit {A} (status : Z) : M (pstate F) A :=
  let* p := myproc in
  let* ip := gets initproc in
  if p =? ip then panic "init exiting"
  else
    do close_files (Z.to_nat NOFILE) 0 p ;;;
    do begin_op ;;;
    let* d := getp p cwd in
    do iput d ;;;
    do end_op ;;;
    do setp p (fun q => q <| cwd := 0 |>) ;;;
    do reparent p ;;;
    let* par := getp p parent in
    do wakeup (ChProc par) ;;;
    do setp p (fun q => q <| xstate := status |> <| state := ZOMBIE |>) ;;;
    sched ChNull.

(** The bytes of a 32-bit int in memory order. *)
Definition int_bytes (v : Z) : list Z :=
  let u := u32 v in [u mod 256; (u / 2 ^ 8) mod 256; (u / 2 ^ 16) mod 256; u / 2 ^ 24].

(** One scan of the table by [wait]: a result, or whether there are children. *)
Fixpoint wait_scan (k : nat) (pp p addr : Z) (havekids : bool) : M (pstate F) (Z + bool) :=
  match k with
  | O => ret (inr havekids)
  | S k' =>
    let* q := getp pp id in
    if parent q =? p
    then
      if decide (state q = ZOMBIE)
      then
        let* pt := getp p pagetable in
        let* r := (if negb (addr =? 0) then vm (copyout pt addr (int_bytes (xstate q)) 4) else ret 0) in
        if r <? 0 then ret (inl (-1))
        else do freeproc pp ;;; ret (inl (pid q))
      else wait_scan k' (pp + 1) p addr true
    else wait_scan k' (pp + 1) p addr havekids
  end.

(** One iteration of the loop of [wait].  When it sleeps, the process runs the
    same iteration again after [sleep_return]. *)
Definition wait (addr : Z) : M (pstate F) Z :=
  let* p := myproc in
  let* r := wait_scan (Z.to_nat NPROC) 1 p addr false in
  match r with
  | inl v => ret v
  | inr havekids =>
    let* k := killed p in
    if negb havekids || negb (k =? 0) then ret (-1) else sleep (ChProc p)
  end.

(** ** The heat-aware scheduler *)

Definition cool (q : proc) : proc :=
  if decide (state q = UNUSED) then q
  else if HEAT_DECAY <? cpu_heat q
  then q <| cpu_heat ::= fun h => u64 (h - HEAT_DECAY) |>
  else q <| cpu_heat := 0 |>.

Definition update_heat : M (pstate F) unit := for_procs (fun p => setp p cool).

(** The percentage of visits on which a process of this heat is passed over,
    with the C conversions: an unsigned quotient assigned to an int. *)
Definition skip_chance (heat : Z) : Z :=
  if HEAT_THRESHOLD_HOT <=? heat
  then
    let c := i32 (u64 (heat - HEAT_THRESHOLD_HOT) / HEAT_SKIP_SCALE) in
    if HEAT_SKIP_MAX <? c then HEAT_SKIP_MAX else c
  else 0.

Definition should_skip (n heat tick : Z) : bool :=
  if HEAT_THRESHOLD_HOT <=? heat
  then u64 (u64 n * tick) mod 100 <? u64 (skip_chance heat)
  else false.

(** The body of the loop for a RUNNABLE process: true when it is to run. *)
Definition sched_visit (current_tick p : Z) : M (pstate F) bool :=
  let* q := getp p id in
  if should_skip (pid q) (cpu_heat q) current_tick
  then
    do setp p (fun q => q <| times_skipped ::= fun n => u64 (n + 1) |>) ;;;
    do modify (fun s => s <| log_counter ::= fun n => u64 (n + 1) |>
                          <| total_heat_skips ::= fun n => u64 (n + 1) |>
                          <| total_heat_penalty_ticks ::= fun n => u64 (n + 1) |>) ;;;
    ret false
  else
    do setp p (fun q => q <| state := RUNNING |> <| last_scheduled := current_tick |>) ;;;
    do modify (fun s => s <| total_schedules ::= fun n => u64 (n + 1) |> <| cur := p |>) ;;;
    ret true.

(** One pass over the table.  [run p] is what happens between the two switches:
    process [p] executes until it calls [sched]. *)
Definition sched_scan (run : Z -> M (pstate F) unit) (current_tick : Z) : M (pstate F) unit :=
  for_procs (fun p =>
    let* st := getp p state in
    if decide (st = RUNNABLE)
    then
      let* go := sched_visit current_tick p in
      if (go : bool)
      then do run p ;;; modify (fun s => s <| cur := 0 |>)
      else ret tt
    else ret tt).

(** One iteration of the scheduler's endless loop. *)
Definition scheduler_pass (run : Z -> M (pstate F) unit) : M (pstate F) unit :=
  let* current_tick := gets ticks in
  do (if current_tick mod 10 =? 0 then update_heat else ret tt) ;;;
  sched_scan run current_tick.

(** [forkret] before it returns to user space. *)
Definition forkret : M (pstate F) unit :=
  let* first := gets forkret_first in
  if negb (first =? 0)
  then do fsinit ROOTDEV ;;; modify (fun s => s <| forkret_first := 0 |>)
  else ret tt.

(** ** Copies to and from user or kernel memory *)

Definition either_copyout (user_dst dst : Z) (src : list Z) (len : Z) : M (pstate F) Z :=
  let* p := myproc in
  if negb (user_dst =? 0)
  then let* pt := getp p pagetable in vm (copyout pt dst src len)
  else
    do vm (modify (set_mem (fun m => write_bytes m dst (take (Z.to_nat len) src)))) ;;;
    ret 0.

(** The result and the bytes stored at the destination. *)
Definition either_copyin (user_src src len : Z) : M (pstate F) (Z * list Z) :=
  let* p := myproc in
  if negb (user_src =? 0)
  then let* pt := getp p pagetable in vm (copyin pt src len)
  else let* l := vm (gets (fun s => read_bytes (mem s) src len)) in ret (0, l).

(** The lines [procdump] prints: pid, state and name. *)
Definition procdump (s : pstate F) : list (Z * procstate * list Z) :=
  map (fun q => (pid q, state q, name q)) (filter (fun q => state q <> UNUSED) (procs s)).

End Ops.
