(* ===== verification/SchedFacts.v ===== *)
(** * The heat-aware scheduler

    What [update_heat], the skip decision and a pass of the scheduler do to
    each process, and how long a hot process can be passed over. *)

From Stdlib Require Import ZArith Lia List.
From stdpp Require Import base tactics numbers list gmap sets strings.
From S2P Require Import Prelude Riscv Kalloc Vm Proc.

(** ** Loops over the process table *)

Section Table.
Context {F : Type}.
Implicit Types (s : pstate F) (p : Z) (q : proc).

Definition isproc p : Prop := 1 <= p <= NPROC.
Definition table_ok s : Prop := Z.of_nat (length (procs s)) = NPROC.

Lemma setp_run p f s :
  setp p f s = Ok tt (s <| procs ::= fun l => upd l (p - 1) (f (at_ proc0 l (p - 1))) |>).
Proof. done. Qed.

Lemma procat_setp p f s s' : table_ok s -> isproc p -> setp p f s = Ok tt s' ->
  procat s' p = f (procat s p) /\ (forall p', p' <> p -> procat s' p' = procat s p') /\ table_ok s'.
Proof.
  intros T P [= <-]. unfold procat, table_ok, isproc, NPROC in *. cbn. split_and!.
  - rewrite at_upd_eq; [done|lia].
  - intros p' N. rewrite at_upd_ne; [done|lia].
  - by rewrite length_upd.
Qed.

(** A loop that touches only the entry of each process it visits. *)
Lemma for_procs_visit (I : pstate F -> Prop) (g : proc -> proc -> Prop) body p s s' :
  (forall p' s s', p' <> p -> I s -> body p' s = Ok tt s' -> I s' /\ procat s' p = procat s p) ->
  (forall s s', I s -> body p s = Ok tt s' -> I s' /\ g (procat s p) (procat s' p)) ->
  isproc p -> I s -> for_procs body s = Ok tt s' -> I s' /\ g (procat s p) (procat s' p).
Proof.
  intros Other Here Hp HI. unfold for_procs, isproc, NPROC in *.
  assert (L : forall k p0 s s', I s -> p0 + Z.of_nat k <= p \/ p < p0 ->
    for_procs_from k p0 body s = Ok tt s' -> I s' /\ procat s' p = procat s p).
  { induction k as [|k IH]; intros p0 x x' Ix Hr; cbn [for_procs_from]; [by intros [= <-]|].
    unfold bind. destruct (body p0 x) as [[] y| |] eqn:E; [|done|done]. intros R.
    destruct (Other p0 x y) as [Iy Ey]; [lia|done|done|].
    destruct (IH (p0 + 1) y x') as [Iz Ez]; [done|lia|done|]. split; [done|congruence]. }
  assert (G : forall k p0 s s', I s -> p0 <= p < p0 + Z.of_nat k ->
    for_procs_from k p0 body s = Ok tt s' -> I s' /\ g (procat s p) (procat s' p)).
  { induction k as [|k IH]; intros p0 x x' Ix Hr; cbn [for_procs_from]; [lia|].
    unfold bind. destruct (body p0 x) as [[] y| |] eqn:E; [|done|done]. intros R.
    destruct (Z.eq_dec p0 p) as [->|N].
    - destruct (Here x y Ix E) as [Iy Ey]. destruct (L k (p + 1) y x') as [Iz Ez]; [done|lia|done|].
      split; [done|by rewrite Ez].
    - destruct (Other p0 x y) as [Iy Ey]; [done..|]. rewrite <- Ey. apply (IH (p0 + 1)); [done|lia|done]. }
  apply G; [done|lia].
Qed.

(** A loop whose body never fails does not fail. *)
Lemma for_procs_total (I : pstate F -> Prop) body s :
  (forall p s, isproc p -> I s -> exists s', body p s = Ok tt s' /\ I s') ->
  I s -> exists s', for_procs body s = Ok tt s' /\ I s'.
Proof.
  intros B Is. unfold for_procs, isproc, NPROC in *.
  assert (L : forall k p0 s, I s -> 1 <= p0 -> p0 + Z.of_nat k <= 65 ->
    exists s', for_procs_from k p0 body s = Ok tt s' /\ I s').
  { induction k as [|k IH]; intros p0 x Ix H1 H2; cbn [for_procs_from]; [by exists x|].
    destruct (B p0 x) as (y & E & Iy); [lia|done|]. unfold bind. rewrite E. apply IH; [done|lia|lia]. }
  apply (L 64%nat 1); [done|lia|lia].
Qed.

(** A loop that assigns to the entries selected by [b] and changes nothing
    else. *)
Lemma for_procs_if (b : Z -> bool) f body s :
  table_ok s ->
  (forall p x, x = s <| procs := procs x |> -> body p x = if b p then setp p (f p) x else Ok tt x) ->
  exists s', for_procs body s = Ok tt s' /\ table_ok s' /\ s' = s <| procs := procs s' |> /\
    (forall p, isproc p -> procat s' p = if b p then f p (procat s p) else procat s p).
Proof.
  intros T B. set (I := fun x => table_ok x /\ x = s <| procs := procs x |>).
  assert (St : forall p x, I x -> I (x <| procs ::= fun l => upd l (p - 1) (f p (at_ proc0 l (p - 1))) |>)).
  { intros p x [Tx Ex]. split; [unfold table_ok in *; cbn; by rewrite length_upd|]. rewrite Ex. done. }
  assert (Bi : forall p x, I x -> exists y, body p x = Ok tt y /\ I y).
  { intros p x Ix. rewrite B by apply Ix. destruct (b p); [|by exists x].
    eexists. split; [apply setp_run|]. by apply St. }
  assert (Is : I s) by (split; [done|by destruct s]).
  destruct (for_procs_total I body s) as (s' & E & T' & E'); [eauto|done|].
  exists s'. split_and!; [done|done|done|]. intros p Hp.
  eapply (for_procs_visit I (fun x y => y = if b p then f p x else x) _ p); [..|done|exact Is|exact E].
  - intros p' x x' N Ix R. destruct (Bi p' x Ix) as (y & R' & Iy). rewrite R in R'. injection R' as <-.
    split; [done|]. rewrite B in R by apply Ix. destruct (b p'); [|by injection R as <-].
    injection R as <-. unfold procat. cbn. by rewrite at_upd_ne by lia.
  - intros x x' Ix R. destruct (Bi p x Ix) as (y & R' & Iy). rewrite R in R'. injection R' as <-.
    split; [done|]. rewrite B in R by apply Ix. destruct (b p); [|by injection R as <-].
    by destruct (procat_setp p (f p) x x' (proj1 Ix) Hp R) as (A & _ & _).
Qed.

Lemma for_procs_map f s :
  table_ok s ->
  exists s', for_procs (fun p => setp p (f p)) s = Ok tt s' /\ table_ok s' /\
    s' = s <| procs := procs s' |> /\ (forall p, isproc p -> procat s' p = f p (procat s p)).
Proof. intros T. by apply (for_procs_if (fun _ => true)). Qed.

(** [wakeup] makes exactly the processes asleep on the channel runnable; the
    caller is not asleep and is passed over. *)
Lemma wakeup_run c s :
  table_ok s ->
  exists s', wakeup c s = Ok tt s' /\ table_ok s' /\ s' = s <| procs := procs s' |> /\
    (forall p, isproc p -> procat s' p = if negb (p =? cur s) then wakeup1 c (procat s p) else procat s p).
Proof.
  intros T. apply (for_procs_if (fun p => negb (p =? cur s)) (fun _ => wakeup1 c)); [done|].
  intros p x E. unfold bind, myproc, gets.
  assert (cur x = cur s) as -> by (rewrite E; done). by destruct (p =? cur s).
Qed.
End Table.

(** ** The decision *)

(** The heat stays far below 2^32 and a process id and a tick count far below
    the point where their product wraps. *)
Definition in_range (n heat tick : Z) : Prop := 0 <= n < 2 ^ 31 /\ 0 <= heat < 2 ^ 32 /\ 0 <= tick < 2 ^ 32.

Lemma skip_chance_eq heat :
  0 <= heat < 2 ^ 32 -> skip_chance heat = Z.max 0 (Z.min 90 ((heat - 1500) / 20)).
Proof.
  intros Hh. unfold skip_chance, HEAT_THRESHOLD_HOT, HEAT_SKIP_SCALE, HEAT_SKIP_MAX.
  destruct (Z.leb_spec 1500 heat); [|zdm].
  rewrite u64_small by lia. rewrite i32_small by zdm.
  destruct (Z.ltb_spec 90 ((heat - 1500) / 20)); zdm.
Qed.

Lemma should_skip_eq n heat tick :
  in_range n heat tick ->
  should_skip n heat tick = ((n * tick) mod 100 <? skip_chance heat).
Proof.
  intros (Hn & Hh & Ht). unfold should_skip, HEAT_THRESHOLD_HOT.
  rewrite skip_chance_eq by done. destruct (Z.leb_spec 1500 heat).
  - rewrite (u64_small n), (u64_small (n * tick)) by nia. rewrite u64_small; [done|].
    split; [lia|]. transitivity 91; [zdm|lia].
  - destruct (Z.ltb_spec ((n * tick) mod 100) (Z.max 0 (Z.min 90 ((heat - 1500) / 20)))); zdm.
Qed.

(** How often the decision falls to "skip" in a list of ticks. *)
Definition skips (n heat : Z) (ts : list Z) : nat := length (filter (fun t => should_skip n heat t = true) ts).

(** Over 100 ticks in a row the residues of a process id prime to 100 are the
    numbers below 100, each once. *)
Lemma residues_permute n t :
  Z.gcd n 100 = 1 -> Permutation ((fun x => (n * x) mod 100) <$> seqZ t 100) (seqZ 0 100).
Proof.
  intros G. apply NoDup_Permutation_bis.
  - apply NoDup_ListNoDup, NoDup_fmap_2_strong; [|apply NoDup_seqZ].
    intros x y Hx Hy E. apply elem_of_seqZ in Hx, Hy.
    assert (D : (100 | n * (x - y))).
    { apply Z.mod_divide; [lia|]. replace (n * (x - y)) with (n * x - n * y) by lia.
      rewrite Zminus_mod, E, Z.sub_diag. done. }
    apply Z.gauss in D; [|by rewrite Z.gcd_comm]. destruct D as [k D]. lia.
  - rewrite length_fmap, !length_seqZ. lia.
  - intros y Hy. apply list_elem_of_In. apply list_elem_of_In, list_elem_of_fmap in Hy as (x & -> & _). apply elem_of_seqZ.
    pose proof (Z.mod_pos_bound (n * x) 100). lia.
Qed.

Lemma count_below c k :
  0 <= c -> length (filter (fun x => x < c) (seqZ 0 (Z.of_nat k))) = Nat.min k (Z.to_nat c).
Proof.
  intros Hc. induction k as [|k IH]; [done|].
  replace (Z.of_nat (S k)) with (Z.of_nat k + 1) by lia.
  rewrite seqZ_app, filter_app, length_app, IH by lia. change (seqZ (0 + Z.of_nat k) 1) with [0 + Z.of_nat k].
  rewrite filter_cons. destruct (decide _); cbn [length filter list_filter]; lia.
Qed.

Lemma count_image {A B} (f : A -> B) (P : A -> Prop) (Q : B -> Prop) `{!forall x, Decision (P x)}
    `{!forall x, Decision (Q x)} (l : list A) :
  (forall x, x ∈ l -> (P x <-> Q (f x))) -> length (filter P l) = length (filter Q (f <$> l)).
Proof.
  induction l as [|x l IH]; intros E; [done|]. rewrite fmap_cons, !filter_cons.
  specialize (IH ltac:(set_solver)). specialize (E x ltac:(set_solver)).
  destruct (decide (P x)), (decide (Q (f x))); cbn; tauto || lia.
Qed.

Lemma skips_over n heat t :
  0 <= n < 2 ^ 31 -> 0 <= heat < 2 ^ 32 -> 0 <= t -> t + 100 <= 2 ^ 32 -> Z.gcd n 100 = 1 ->
  Z.of_nat (skips n heat (seqZ t 100)) = skip_chance heat.
Proof.
  intros Hn Hh H0 H1 G. unfold skips. pose proof (skip_chance_eq heat Hh) as C.
  rewrite (count_image (fun x => (n * x) mod 100) _ (fun y => y < skip_chance heat)).
  - rewrite (Permutation_length (filter_Permutation _ _ _ (residues_permute n t G))).
    change 100 with (Z.of_nat 100). rewrite count_below by lia. change (Z.of_nat 100) with 100 in *.
    rewrite C. lia.
  - intros x Hx%elem_of_seqZ. rewrite should_skip_eq by (unfold in_range; lia). by rewrite Z.ltb_lt.
Qed.

(** ** Passes of the scheduler *)

Section Pass.
Context {F : Type}.
Implicit Types (s : pstate F) (p : Z) (q : proc).

Lemma cool_heat q :
  state q <> UNUSED -> 0 <= cpu_heat q < 2 ^ 64 ->
  cool q = q <| cpu_heat := Z.max 0 (cpu_heat q - 1) |>.
Proof.
  intros N Hh. unfold cool, HEAT_DECAY. destruct (decide (state q = UNUSED)); [done|].
  destruct q; cbn in *. unfold over. destruct (Z.ltb_spec 1 cpu_heat); cbn; [rewrite u64_small by lia|]; cbn; f_equal; lia.
Qed.

Lemma update_heat_run s :
  table_ok s ->
  exists s', update_heat s = Ok tt s' /\ table_ok s' /\ s' = s <| procs := procs s' |> /\
    (forall p, isproc p -> procat s' p = cool (procat s p)).
Proof. intros T. exact (for_procs_map (fun _ => cool) s T). Qed.

(** What the scheduler looks at in a process that waits for the processor. *)
Definition waits (n heat : Z) q : Prop := state q = RUNNABLE /\ pid q = n /\ cpu_heat q = heat.

(** Code that process [me] runs: it may do anything to the table but resize it
    and take a process [p] that waits for the processor out of that state, or
    change its identifier or its heat. *)
Definition leaves {A} me p (m : M (pstate F) A) : Prop := forall s, table_ok s -> cur s = me ->
  match m s with
  | Ok _ s' | Block _ s' => table_ok s' /\ cur s' = me /\ forall n heat, waits n heat (procat s p) -> waits n heat (procat s' p)
  | Panic _ => True
  end.

Definition quiet (run : Z -> M (pstate F) unit) p : Prop :=
  forall me, me <> p -> leaves me p (run me).

Lemma leaves_bind {A B} me p (m : M (pstate F) A) (k : A -> M (pstate F) B) :
  leaves me p m -> (forall a, leaves me p (k a)) -> leaves me p (bind m k).
Proof.
  intros Lm Lk s T C. specialize (Lm s T C). unfold bind. destruct (m s) as [a s1|msg|c s1]; [|done|done]. destruct Lm as (T1 & C1 & W1).
  specialize (Lk a s1 T1 C1). destruct (k a s1) as [b s2|msg|c s2]; [|done|]; destruct Lk as (T2 & C2 & W2); split_and!; auto.
Qed.

Lemma leaves_same {A} me p (m : M (pstate F) A) :
  (forall s, match m s with Ok _ s' | Block _ s' => procs s' = procs s /\ cur s' = cur s | Panic _ => True end) -> leaves me p m.
Proof.
  intros E s T C. specialize (E s). unfold table_ok, procat in *. destruct (m s) as [a s1|msg|c s1]; [|done|]; destruct E as [-> ->]; split_and!; done.
Qed.

Lemma leaves_setp me p p' f : p' <> p \/ (forall n heat q, waits n heat q -> waits n heat (f q)) -> leaves me p (setp p' f).
Proof.
  intros D s T C. rewrite setp_run. unfold table_ok, procat in *. cbn. rewrite length_upd. split_and!; [done|done|]. intros n heat W.
  destruct (Z.eq_dec p' p) as [->|N]; [|by rewrite at_upd_ne by lia]. destruct D as [|D]; [done|].
  destruct (Z.leb_spec 0 (p - 1)) as [P|P]; [|unfold upd; by destruct (Z.leb_spec 0 (p - 1)); [lia|]].
  destruct (Z.lt_ge_cases (p - 1) (Z.of_nat (length (procs s)))) as [Q|Q]; [rewrite at_upd_eq by lia; by apply D|].
  unfold upd. destruct (Z.leb_spec 0 (p - 1)); [|lia]. by rewrite list_insert_ge by lia.
Qed.

Lemma leaves_for_procs me p body : (forall p', leaves me p (body p')) -> leaves me p (for_procs body).
Proof.
  intros L. unfold for_procs. generalize 1. induction (Z.to_nat NPROC) as [|k IH]; intros p0; cbn [for_procs_from]; [by apply leaves_same|].
  apply leaves_bind; [apply L|intros []; apply IH].
Qed.

(** The operations of proc.c that change the entries of other processes. *)
Lemma leaves_wakeup me p c : leaves me p (wakeup c).
Proof.
  apply leaves_for_procs. intros p'. apply leaves_bind; [by apply leaves_same|]. intros a. destruct (p' =? a); [by apply leaves_same|].
  apply leaves_setp. right. intros n heat q (R & W). unfold waits, wakeup1. rewrite R. destruct (decide _); [done|]. by rewrite R.
Qed.

Lemma leaves_kill me p n : leaves me p (kill n).
Proof.
  unfold kill. generalize 1. induction (Z.to_nat NPROC) as [|k IH]; intros p0; cbn [kill_from]; [by apply leaves_same|].
  apply leaves_bind; [by apply leaves_same|]. intros i. destruct (i =? n); [|apply IH].
  apply leaves_bind; [apply leaves_setp; by right|intros _]. apply leaves_bind; [by apply leaves_same|]. intros st.
  apply leaves_bind; [|intros _; by apply leaves_same]. destruct (decide _); [|by apply leaves_same]. apply leaves_setp. right. by intros n' heat q (_ & W).
Qed.

Lemma leaves_kill_all me p : leaves me p kill_all_user_processes.
Proof.
  apply leaves_for_procs. intros p'. apply leaves_bind; [by apply leaves_same|]. intros q. destruct (_ && _); [|by apply leaves_same]. apply leaves_setp. by right.
Qed.

Lemma leaves_reparent me p p0 : leaves me p (reparent p0).
Proof.
  apply leaves_for_procs. intros p'. apply leaves_bind; [by apply leaves_same|]. intros par. destruct (par =? p0); [|by apply leaves_same].
  apply leaves_bind; [by apply leaves_same|]. intros ip. apply leaves_bind; [apply leaves_setp; by right|intros _; apply leaves_wakeup].
Qed.

(** What a process does to its own entry. *)
Lemma leaves_self {A} me p f (k : M (pstate F) A) : me <> p -> leaves me p k -> leaves me p (let* q := myproc in do setp q f ;;; k).
Proof.
  intros N Lk s T C. unfold bind at 1, myproc, gets. rewrite C. by apply (leaves_bind me p (setp me f) (fun _ => k)); [apply leaves_setp; left| | |].
Qed.

Lemma leaves_sched {A} me p c : leaves me p (sched (F := F) (A := A) c).
Proof.
  apply leaves_same. intros s. unfold sched, bind, myproc, getp, gets. by destruct (decide _).
Qed.

Lemma leaves_yield {A} me p : me <> p -> leaves me p (yield (F := F) (A := A)).
Proof. intros N. apply leaves_self; [done|apply leaves_sched]. Qed.

Lemma leaves_sleep {A} me p c : me <> p -> leaves me p (sleep (F := F) (A := A) c).
Proof. intros N. apply leaves_self; [done|apply leaves_sched]. Qed.

(** A process runs the code [m] until it gives the processor up. *)
Definition until_switch {A} (m : M (pstate F) A) : M (pstate F) unit := fun s =>
  match m s with
  | Ok _ s' | Block _ s' => Ok tt s'
  | Panic msg => Panic msg
  end.

Lemma leaves_until {A} me p (m : M (pstate F) A) : leaves me p m -> leaves me p (until_switch m).
Proof. intros L s T C. specialize (L s T C). unfold until_switch. by destruct (m s). Qed.

(** A loop that keeps an invariant. *)
Lemma for_procs_inv (I : pstate F -> Prop) body s s' :
  (forall p x x', I x -> body p x = Ok tt x' -> I x') -> I s -> for_procs body s = Ok tt s' -> I s'.
Proof.
  intros B. unfold for_procs. generalize 1. revert s. induction (Z.to_nat NPROC) as [|k IH]; intros s p0 Is; cbn [for_procs_from]; [by intros [= <-]|].
  unfold bind. destruct (body p0 s) as [[] y| |] eqn:E; [|done|done]. apply IH. by eapply B.
Qed.

Lemma visit_other t p p' s s' b :
  p' <> p -> table_ok s -> sched_visit t p' s = Ok b s' -> table_ok s' /\ procat s' p = procat s p /\ (b = true -> cur s' = p').
Proof.
  intros N T. unfold sched_visit, bind, getp, gets. unfold table_ok, procat, setp, modify in *.
  destruct (should_skip _ _ _); intros [= <- <-]; cbn; rewrite length_upd, at_upd_ne by lia; done.
Qed.

Lemma visit_skip t p s s' b :
  isproc p -> table_ok s -> should_skip (pid (procat s p)) (cpu_heat (procat s p)) t = true ->
  sched_visit t p s = Ok b s' ->
  b = false /\ table_ok s' /\ procat s' p = (procat s p) <| times_skipped ::= fun n => u64 (n + 1) |>.
Proof.
  intros P T Sk. unfold sched_visit, bind, getp, gets. unfold id. rewrite Sk.
  destruct (procat_setp p (fun q => q <| times_skipped ::= fun n => u64 (n + 1) |>) s _ T P (setp_run _ _ _))
    as (A & _ & B). by intros [= <- <-].
Qed.

Lemma scan_skip run t p n heat s s' :
  quiet run p -> isproc p -> table_ok s -> waits n heat (procat s p) -> should_skip n heat t = true ->
  sched_scan run t s = Ok tt s' -> table_ok s' /\ waits n heat (procat s' p).
Proof.
  intros Q P T W Sk E. apply (for_procs_inv (fun x => table_ok x /\ waits n heat (procat x p)) _ s s') in E; try done.
  intros p' x x' [Tx Wx]. unfold bind at 1, getp, gets. destruct (decide _) as [Sx|]; [|by intros [= <-]].
  unfold bind at 1. destruct (sched_visit t p' x) as [b y| |] eqn:V; [|done|done]. destruct (Z.eq_dec p' p) as [->|N].
  - destruct Wx as (R & <- & <-). destruct (visit_skip _ _ _ _ _ P Tx Sk V) as (-> & Ty & Ey). intros [= <-]. split; [done|]. by rewrite Ey.
  - destruct (visit_other _ _ _ _ _ _ N Tx V) as (Ty & Ey & Cy). rewrite <- Ey in Wx. destruct b; [|by intros [= <-]].
    pose proof (Q p' N y Ty (Cy eq_refl)) as L. unfold bind. destruct (run p' y) as [[] z| |]; [|done|done]. destruct L as (Tz & _ & Wz).
    intros [= <-]. split; [exact Tz|]. exact (Wz _ _ Wx).
Qed.

(** Passes in which [p] is passed over, at the ticks listed. *)
Definition heat_at (t : Z) q : Z := if t mod 10 =? 0 then cpu_heat (cool q) else cpu_heat q.

Inductive skipped_passes (run : Z -> M (pstate F) unit) p : list Z -> pstate F -> pstate F -> Prop :=
| sp_nil s : skipped_passes run p [] s s
| sp_cons t ts s s1 s2 :
    scheduler_pass run (s <| ticks := t |>) = Ok tt s1 ->
    should_skip (pid (procat s p)) (heat_at t (procat s p)) t = true ->
    skipped_passes run p ts s1 s2 -> skipped_passes run p (t :: ts) s s2.

Definition coolings (ts : list Z) : Z := Z.of_nat (length (filter (fun t => t mod 10 = 0) ts)).

Lemma pass_skip run t p s s' :
  quiet run p -> isproc p -> table_ok s -> state (procat s p) = RUNNABLE ->
  0 <= cpu_heat (procat s p) < 2 ^ 64 ->
  should_skip (pid (procat s p)) (heat_at t (procat s p)) t = true ->
  scheduler_pass run (s <| ticks := t |>) = Ok tt s' ->
  table_ok s' /\ waits (pid (procat s p)) (heat_at t (procat s p)) (procat s' p).
Proof.
  intros Q P T St Hh Sk. set (s0 := s <| ticks := t |>).
  assert (E0 : procat s0 p = procat s p) by done. assert (T0 : table_ok s0) by done.
  assert (Tk : ticks s0 = t) by done. clearbody s0. unfold scheduler_pass, bind, gets. rewrite Tk.
  unfold heat_at in *. destruct (t mod 10 =? 0).
  - destruct (update_heat_run _ T0) as (s1 & -> & T1 & _ & E1). specialize (E1 p P). rewrite E0 in E1.
    rewrite cool_heat in * by (congruence || done). intros R. apply (scan_skip run t p _ _ s1 s' Q P T1); [by rewrite E1|done|done].
  - intros R. apply (scan_skip run t p _ _ s0 s' Q P T0); [by rewrite E0|done|done].
Qed.

Lemma skipped_bound run p ts s s' :
  quiet run p -> isproc p -> Forall (fun t => 0 <= t < 2 ^ 32) ts ->
  skipped_passes run p ts s s' -> table_ok s -> state (procat s p) = RUNNABLE ->
  0 <= pid (procat s p) < 2 ^ 31 -> 0 <= cpu_heat (procat s p) < 2 ^ 32 ->
  table_ok s' /\ state (procat s' p) = RUNNABLE /\
  cpu_heat (procat s' p) = cpu_heat (procat s p) - coolings ts /\
  (ts <> [] -> 1520 <= cpu_heat (procat s' p)).
Proof.
  intros Q P Ft St. revert Ft. induction St as [s|t ts s s1 s2 E Sk R IH]; intros Ft T Ru Hp Hh.
  { split_and!; try done. unfold coolings. cbn. lia. }
  apply Forall_cons in Ft as [Ht Ft].
  assert (Hat : 0 <= heat_at t (procat s p) < 2 ^ 32 /\
     heat_at t (procat s p) = Z.max 0 (cpu_heat (procat s p) - if t mod 10 =? 0 then 1 else 0)).
  { unfold heat_at. destruct (t mod 10 =? 0); [rewrite cool_heat by (congruence || lia); cbn; lia|lia]. }
  destruct (pass_skip run t p s s1 Q P T Ru ltac:(lia) Sk E) as (T1 & R1 & P1 & H1).
  rewrite should_skip_eq, skip_chance_eq in Sk by (unfold in_range; tauto || lia).
  assert (Hs : 1520 <= heat_at t (procat s p)) by (pose proof (Z.mod_pos_bound (pid (procat s p) * t) 100); zbool; zdm).
  destruct IH as (T2 & Ru2 & H2 & B2); rewrite ?P1, ?H1; try done; try lia. rewrite H1 in H2.
  assert (C : coolings (t :: ts) = (if t mod 10 =? 0 then 1 else 0) + coolings ts).
  { unfold coolings. rewrite filter_cons. destruct (decide (t mod 10 = 0)) as [D|D];
      [apply Z.eqb_eq in D as ->|apply Z.eqb_neq in D as ->]; cbn [length]; lia. }
  split_and!; try done; [lia|]. intros _. destruct ts as [|t' ts]; [|by apply B2].
  rewrite H2. unfold coolings. cbn. lia.
Qed.

End Pass.

(** ** Properties *)

Section Properties.
Context {F : Type}.
Implicit Types (s : pstate F) (p : Z).

(** C25: what the scheduler does with a RUNNABLE process it visits.  A process
    of heat below 1520 always runs; a hotter one is passed over exactly when
    pid * tick mod 100 is below min (90, (heat - 1500) / 20).  Passing over
    only counts it; running marks it RUNNING and current.  No other process
    changes. *)
Theorem sched_visit_correct t p s :
  table_ok s -> isproc p -> in_range (pid (procat s p)) (cpu_heat (procat s p)) t ->
  let q := procat s p in
  exists s', let skip := (1500 <=? cpu_heat q) && ((pid q * t) mod 100 <? Z.min 90 ((cpu_heat q - 1500) / 20)) in
    sched_visit t p s = Ok (negb skip) s' /\
    procat s' p = (if skip then q <| times_skipped := u64 (times_skipped q + 1) |>
                   else q <| state := RUNNING |> <| last_scheduled := t |>) /\
    (forall p', p' <> p -> procat s' p' = procat s p') /\
    cur s' = (if skip then cur s else p) /\
    total_schedules s' = (if skip then total_schedules s else u64 (total_schedules s + 1)) /\
    total_heat_skips s' = (if skip then u64 (total_heat_skips s + 1) else total_heat_skips s) /\
    ph s' = ph s /\ fs s' = fs s.
Proof.
  intros T P R q. pose proof R as (Hn & Hh & Ht). fold q in Hn, Hh.
  assert (E : should_skip (pid q) (cpu_heat q) t =
    (1500 <=? cpu_heat q) && ((pid q * t) mod 100 <? Z.min 90 ((cpu_heat q - 1500) / 20))).
  { rewrite should_skip_eq, skip_chance_eq by done.
    destruct (Z.leb_spec 1500 (cpu_heat q)); cbn [andb].
    - f_equal. zdm.
    - apply Z.ltb_ge. pose proof (Z.mod_pos_bound (pid q * t) 100). zdm. }
  rewrite <- E. unfold sched_visit, bind, getp, gets, id. fold q.
  destruct (should_skip (pid q) (cpu_heat q) t).
  - destruct (procat_setp p (fun q => q <| times_skipped ::= fun n => u64 (n + 1) |>) s _ T P (setp_run _ _ _))
      as (A & B & _). eexists. split_and!; [reflexivity|exact A|exact B|done..].
  - destruct (procat_setp p (fun q => q <| state := RUNNING |> <| last_scheduled := t |>) s _ T P (setp_run _ _ _))
      as (A & B & _). eexists. split_and!; [reflexivity|exact A|exact B|done..].
Qed.

(** C35: the throttling is proportional.  If the process id is prime to 100 then
    in any 100 consecutive ticks the decision falls against the process exactly
    min (90, (heat - 1500) / 20) times, so at least ten ticks are left to it. *)
Theorem skip_share n heat t :
  0 <= n < 2 ^ 31 -> 0 <= heat < 2 ^ 32 -> 0 <= t -> t + 100 <= 2 ^ 32 -> Z.gcd n 100 = 1 ->
  Z.of_nat (skips n heat (seqZ t 100)) = Z.max 0 (Z.min 90 ((heat - 1500) / 20)) /\
  (skips n heat (seqZ t 100) <= 90)%nat.
Proof.
  intros Hn Hh H0 H1 G. pose proof (skips_over n heat t Hn Hh H0 H1 G) as E.
  rewrite skip_chance_eq in E by done. split; [done|lia].
Qed.

(** The throttling is not fair to every process id: one that is a multiple
    of 20 or of 25 is passed over at every tick as long as its heat is 3300 or
    more. *)
Theorem unlucky_pid_always_skipped n heat t :
  in_range n heat t -> 3300 <= heat -> n mod 20 = 0 \/ n mod 25 = 0 -> should_skip n heat t = true.
Proof.
  intros R Hh Hn. rewrite should_skip_eq by done. destruct R as (_ & Hh' & _).
  rewrite skip_chance_eq by done. apply Z.ltb_lt. replace (Z.max 0 _) with 90 by zdm.
  destruct Hn as [Hn|Hn].
  - apply Z.mod_divide in Hn as [k ->]; [|lia].
    replace (k * 20 * t) with (20 * (k * t)) by lia. change 100 with (20 * 5).
    rewrite Z.mul_mod_distr_l by lia. pose proof (Z.mod_pos_bound (k * t) 5). lia.
  - apply Z.mod_divide in Hn as [k ->]; [|lia].
    replace (k * 25 * t) with (25 * (k * t)) by lia. change 100 with (25 * 4).
    rewrite Z.mul_mod_distr_l by lia. pose proof (Z.mod_pos_bound (k * t) 4). lia.
Qed.

(** C15: no RUNNABLE process is passed over for ever.  In a sequence of passes
    in each of which it is, its heat falls by one for every pass made at a tick
    divisible by ten and is still at least 1520 at the end; so there are at
    most heat - 1520 such passes.  The processes that run in between ([quiet])
    may change its entry, as [kill], [reparent], [wakeup] and
    [kill_all_user_processes] do ([leaves_kill] and the lemmas after it), but
    may not stop it from waiting for the processor, nor change its identifier
    or its heat. *)
Theorem skipping_ends run p ts s s' :
  quiet run p -> isproc p -> table_ok s -> Forall (fun t => 0 <= t < 2 ^ 32) ts ->
  state (procat s p) = RUNNABLE -> 0 <= pid (procat s p) < 2 ^ 31 -> 0 <= cpu_heat (procat s p) < 2 ^ 32 ->
  skipped_passes run p ts s s' ->
  state (procat s' p) = RUNNABLE /\ cpu_heat (procat s' p) = cpu_heat (procat s p) - coolings ts /\
  coolings ts <= Z.max 0 (cpu_heat (procat s p) - 1520).
Proof.
  intros Q P T Ft Ru Hp Hh S. destruct (skipped_bound run p ts s s' Q P Ft S T Ru Hp Hh) as (_ & R' & H' & B).
  split_and!; [done|done|]. destruct ts; [unfold coolings; cbn; lia|]. specialize (B ltac:(done)). lia.
Qed.

(** [update_heat] cools every process that exists by one, never below zero,
    and changes nothing else: not the free slots, not any other field. *)
Theorem update_heat_correct s :
  table_ok s -> (forall p, isproc p -> 0 <= cpu_heat (procat s p) < 2 ^ 64) ->
  exists s', update_heat s = Ok tt s' /\ s' = s <| procs := procs s' |> /\ table_ok s' /\
    forall p, isproc p -> procat s' p =
      if decide (state (procat s p) = UNUSED) then procat s p
      else (procat s p) <| cpu_heat := Z.max 0 (cpu_heat (procat s p) - 1) |>.
Proof.
  intros T Hh. destruct (update_heat_run s T) as (s' & E & T' & O & A). exists s'. split_and!; try done.
  intros p P. rewrite A by done. destruct (decide _) as [U|U]; [|by apply cool_heat; auto].
  unfold cool. by destruct (decide _).
Qed.
End Properties.

(** ** Witnesses: one hot process with an unlucky id. *)

Module SchedWitness.

Definition hot : proc := proc0 <| state := RUNNABLE |> <| pid := 100 |> <| cpu_heat := 1600 |>.
Definition st : pstate unit :=
  mkPstate (mkPhys (mkRam (fun _ => 0)) (mkKmem 0 0 0)) (hot :: repeat proc0 63) 101 0 0 0 0 0 0 7 0 0 0 0 1 0 0 0 tt.

Lemma table_st : table_ok st.
Proof. done. Qed.

Lemma sched_visit_correct_witness :
  exists s', sched_visit 7 1 st = Ok false s' /\ procat s' 1 = hot <| times_skipped := u64 (0 + 1) |> /\
    (forall p', p' <> 1 -> procat s' p' = procat st p') /\ cur s' = 0 /\ total_schedules s' = 0 /\
    total_heat_skips s' = u64 (0 + 1) /\ ph s' = ph st /\ fs s' = fs st.
Proof. apply (sched_visit_correct 7 1 st); [done|by vm_compute|]. repeat split; by vm_compute. Defined.

Lemma skip_share_witness :
  Z.of_nat (skips 7 2500 (seqZ 42 100)) = Z.max 0 (Z.min 90 ((2500 - 1500) / 20)) /\
  (skips 7 2500 (seqZ 42 100) <= 90)%nat.
Proof. apply (skip_share 7 2500 42); lia || by vm_compute. Defined.

Lemma unlucky_pid_always_skipped_witness : should_skip 40 4000 12345 = true.
Proof. apply (unlucky_pid_always_skipped 40 4000 12345); [repeat split; by vm_compute|lia|by left]. Defined.

(** A second process that kills the first one and everything else, and yields. *)
Definition other : proc := proc0 <| state := RUNNABLE |> <| pid := 3 |>.
Definition st2 : pstate unit := st <| procs ::= fun l => upd l 1 other |>.
Definition meddle (me : Z) : M (pstate unit) unit := until_switch (do kill 100 ;;; do kill_all_user_processes ;;; do reparent me ;;; yield (A := unit)).

Lemma meddle_quiet : quiet meddle 1.
Proof.
  intros me N. apply leaves_until. apply leaves_bind; [apply leaves_kill|intros _]. apply leaves_bind; [apply leaves_kill_all|intros _].
  apply leaves_bind; [apply leaves_reparent|intros _; by apply leaves_yield].
Qed.

Lemma skipping_ends_witness :
  exists s', skipped_passes meddle 1 [10; 11; 20] st2 s' /\ killed_ (procat s' 1) = 1 /\
    state (procat s' 1) = RUNNABLE /\ cpu_heat (procat s' 1) = 1600 - coolings [10; 11; 20] /\
    coolings [10; 11; 20] <= Z.max 0 (1600 - 1520).
Proof.
  assert (exists s', skipped_passes meddle 1 [10; 11; 20] st2 s' /\ killed_ (procat s' 1) = 1) as (s' & S & Kl).
  { eexists. split; [repeat (eapply sp_cons; [vm_compute; reflexivity|by vm_compute|]); apply sp_nil|by vm_compute]. }
  exists s'. split; [exact S|]. split; [exact Kl|].
  refine (skipping_ends meddle 1 _ st2 _ meddle_quiet _ _ _ _ _ _ S).
  - by vm_compute.
  - by vm_compute.
  - repeat constructor; lia.
  - by vm_compute.
  - by vm_compute.
  - by vm_compute.
Defined.

Lemma update_heat_correct_witness :
  exists s', update_heat st = Ok tt s' /\ s' = st <| procs := procs s' |> /\ table_ok s' /\
    forall p, isproc p -> procat s' p =
      if decide (state (procat st p) = UNUSED) then procat st p
      else (procat st p) <| cpu_heat := Z.max 0 (cpu_heat (procat st p) - 1) |>.
Proof.
  apply (update_heat_correct st); [done|]. intros p Hp. unfold procat, isproc, NPROC, at_ in *.
  destruct (Z.leb_spec 0 (p - 1)); [|lia].
  assert (Fa : Forall (fun q => 0 <= cpu_heat q < 2 ^ 64) (procs st)) by (repeat constructor; by vm_compute).
  rewrite Forall_forall in Fa. apply Fa. apply list_elem_of_In, nth_In. change (length (procs st)) with 64%nat. lia.
Defined.

End SchedWitness.
