(* ===== verification/Sysproc.v ===== *)
(** * System calls: arguments, dispatch, and the calls of sysproc.c

    kernel/syscall.c reads the arguments from the saved registers in the
    process's trapframe page, so they are loads of physical memory.
    kernel/sysproc.c holds the calls on processes, the lazy [sbrk] and
    [getactivity].  The calls of sysfile.c are reached through the interface
    [SysfileOps]. *)

From Stdlib Require Import ZArith Lia List.
From stdpp Require Import base tactics numbers list gmap strings.
From S2P Require Import Prelude Riscv CString Kalloc Vm Proc.

(** System call numbers. *)
Definition SYS_fork : Z := 1.
Definition SYS_exit : Z := 2.
Definition SYS_wait : Z := 3.
Definition SYS_pipe : Z := 4.
Definition SYS_read : Z := 5.
Definition SYS_kill : Z := 6.
Definition SYS_exec : Z := 7.
Definition SYS_fstat : Z := 8.
Definition SYS_chdir : Z := 9.
Definition SYS_dup : Z := 10.
Definition SYS_getpid : Z := 11.
Definition SYS_sbrk : Z := 12.
Definition SYS_sleep : Z := 13.
Definition SYS_uptime : Z := 14.
Definition SYS_open : Z := 15.
Definition SYS_write : Z := 16.
Definition SYS_mknod : Z := 17.
Definition SYS_unlink : Z := 18.
Definition SYS_link : Z := 19.
Definition SYS_mkdir : Z := 20.
Definition SYS_close : Z := 21.
Definition SYS_getactivity : Z := 22.

(** The calls of sysfile.c. *)
Class SysfileOps (F : Type) := {
  sys_pipe : M (pstate F) Z;
  sys_read : M (pstate F) Z;
  sys_exec : M (pstate F) Z;
  sys_fstat : M (pstate F) Z;
  sys_chdir : M (pstate F) Z;
  sys_dup : M (pstate F) Z;
  sys_open : M (pstate F) Z;
  sys_write : M (pstate F) Z;
  sys_mknod : M (pstate F) Z;
  sys_unlink : M (pstate F) Z;
  sys_link : M (pstate F) Z;
  sys_mkdir : M (pstate F) Z;
  sys_close : M (pstate F) Z
}.

(** ** struct activity *)

Record activity : Type := mkActivity {
  cpu_percent : Z;
  mem_percent : Z;
  user_activity : Z;
  interrupts : Z;
  act_state : Z;
  timestamp : list Z
}.

(** Its 52 bytes: five ints and 32 characters. *)
Definition activity_bytes (a : activity) : list Z :=
  int_bytes (cpu_percent a) ++ int_bytes (mem_percent a) ++ int_bytes (user_activity a) ++
  int_bytes (interrupts a) ++ int_bytes (act_state a) ++ timestamp a.

(** Two decimal digits at [b]. *)
Definition fmt_int (t : list Z) (b n : Z) : list Z :=
  if n <? 10 then upd (upd t b 48) (b + 1) (u8 (n + 48))
  else upd (upd t b (u8 (Z.quot n 10 + 48))) (b + 1) (u8 (Z.rem n 10 + 48)).

(** "2025-12-22 " *)
Definition str_date : list Z := [50; 48; 50; 53; 45; 49; 50; 45; 50; 50; 32; 0].

(** The text of the time [ticks]; [t0] is what the array held before. *)
Definition make_timestamp (t0 : list Z) (ticks : Z) : list Z :=
  let seconds_running := ticks / 10 in
  let total_min := u64 (30 + seconds_running / 60) in
  let total_hour := u64 (19 + total_min / 60) in
  let s := i32 (seconds_running mod 60) in
  let m := i32 (total_min mod 60) in
  let h := i32 (total_hour mod 24) in
  let t := copy_name t0 str_date 32 in
  let t := fmt_int t 11 h in
  let t := upd t 13 58 in
  let t := fmt_int t 14 m in
  let t := upd t 16 58 in
  let t := fmt_int t 17 s in
  upd t 19 0.

Section Ops.
Context `{Layout} `{Entry} {F : Type} `{FsOps F} `{SysfileOps F}.

(** ** Arguments *)

Definition argraw (n : Z) : M (pstate F) Z :=
  let* p := myproc in
  let* tf := getp p trapframe in
  if (0 <=? n) && (n <=? 5) then vm (load64 (tf + TF_a0 + 8 * n)) else panic "argraw".

Definition argint (n : Z) : M (pstate F) Z :=
  let* v := argraw n in ret (i32 v).

Definition argaddr (n : Z) : M (pstate F) Z := argraw n.

(** The value at [addr] in the current process, with the result. *)
Definition fetchaddr (addr : Z) : M (pstate F) (Z * Z) :=
  let* p := myproc in
  let* n := getp p sz in
  if (n <=? addr) || (n <? u64 (addr + 8)) then ret (-1, 0)
  else
    let* pt := getp p pagetable in
    let* '(r, b) := vm (copyin pt addr 8) in
    if negb (r =? 0) then ret (-1, 0) else ret (0, load 8 b 0).

(** The length of the string read and the buffer. *)
Definition fetchstr (addr max : Z) : M (pstate F) (Z * list Z) :=
  let* p := myproc in
  let* pt := getp p pagetable in
  let* '(r, b) := vm (copyinstr pt addr max) in
  if r <? 0 then ret (-1, b)
  else ret (match strlen (Z.to_nat max) b 0 with Some n => n | None => -1 end, b).

Definition argstr (n max : Z) : M (pstate F) (Z * list Z) :=
  let* addr := argaddr n in fetchstr addr max.

(** ** sysproc.c *)

Definition sys_exit : M (pstate F) Z :=
  let* n := argint 0 in exit n.

Definition sys_getpid : M (pstate F) Z :=
  let* p := myproc in
  let* n := getp p pid in
  ret (u64 n).

Definition sys_fork : M (pstate F) Z :=
  let* r := fork in ret (u64 r).

Definition sys_wait : M (pstate F) Z :=
  let* p := argaddr 0 in
  let* r := wait p in
  ret (u64 r).

Definition sys_sbrk : M (pstate F) Z :=
  let* n := argint 0 in
  let* p := myproc in
  let* addr := getp p sz in
  if 0 <? n then do setp p (fun q => q <| sz ::= fun x => u64 (x + n) |>) ;;; ret addr
  else if n <? 0
  then
    let* r := growproc n in
    if r <? 0 then ret (u64 (-1)) else ret addr
  else ret addr.

(** The loop of [sys_sleep]; after a wakeup it is run again with the same
    [ticks0] and [n]. *)
Definition sleep_loop (ticks0 n : Z) : M (pstate F) Z :=
  let* now := gets ticks in
  if u64 (now - ticks0) <? u64 n
  then
    let* p := myproc in
    let* k := killed p in
    if negb (k =? 0) then ret (u64 (-1)) else sleep ChTicks
  else ret 0.

Definition sys_sleep : M (pstate F) Z :=
  let* n := argint 0 in
  let* now := gets ticks in
  sleep_loop (u32 now) (if n <? 0 then 0 else n).

Definition sys_kill : M (pstate F) Z :=
  let* n := argint 0 in
  let* r := kill n in
  ret (u64 r).

Definition sys_uptime : M (pstate F) Z :=
  let* now := gets ticks in ret (u32 now).

(** The percentages and flags from the counters. *)
Definition make_activity (delta_total delta_active delta_int free_mem total_mem now keypress : Z)
    (t0 : list Z) : activity :=
  let cpu := if delta_total =? 0 then 0 else i32 (u64 (delta_active * 100) / delta_total) in
  let memp := if total_mem =? 0 then 0 else i32 (u64 (u64 (total_mem - free_mem) * 100) / total_mem) in
  let user := if u64 (now - keypress) <? 100 then 1 else 0 in
  mkActivity cpu memp user (i32 delta_int)
    (if (20 <? cpu) || (user =? 1) || (30 <? memp) then 1 else 0)
    (make_timestamp t0 now).

(** [t0] is what the stack held where [act.timestamp] is. *)
Definition sys_getactivity (t0 : list Z) : M (pstate F) Z :=
  let* addr := argaddr 0 in
  let* current_total := gets g_total_ticks in
  let* current_active := gets g_cpu_active_ticks in
  let* current_int := gets g_interrupt_count in
  let* lt := gets last_total_ticks in
  let* la := gets last_cpu_active in
  let* li := gets last_int_count in
  do modify (fun s => s <| last_total_ticks := current_total |> <| last_cpu_active := current_active |>
                        <| last_int_count := current_int |>) ;;;
  let* '(free_mem, total_mem) := vm get_memory_stats in
  let* now := gets ticks in
  let* key := gets g_last_keypress_tick in
  let act := make_activity (u64 (current_total - lt)) (u64 (current_active - la)) (u64 (current_int - li))
               free_mem total_mem now key t0 in
  let* p := myproc in
  let* pt := getp p pagetable in
  let* r := vm (copyout pt addr (activity_bytes act) 52) in
  ret (if r <? 0 then u64 (-1) else 0).

(** ** Dispatch *)

Definition syscalls (t0 : list Z) : list (option (M (pstate F) Z)) :=
  [None; Some sys_fork; Some sys_exit; Some sys_wait; Some sys_pipe; Some sys_read; Some sys_kill;
   Some sys_exec; Some sys_fstat; Some sys_chdir; Some sys_dup; Some sys_getpid; Some sys_sbrk;
   Some sys_sleep; Some sys_uptime; Some sys_open; Some sys_write; Some sys_mknod; Some sys_unlink;
   Some sys_link; Some sys_mkdir; Some sys_close; Some (sys_getactivity t0)].

Definition syscall (t0 : list Z) : M (pstate F) unit :=
  let* p := myproc in
  let* tf := getp p trapframe in
  let* a7 := vm (load64 (tf + TF_a7)) in
  let num := i32 a7 in
  match (if (0 <? num) && (num <? Z.of_nat (length (syscalls t0))) then at_ None (syscalls t0) num else None) with
  | Some f =>
    let* r := f in
    let* tf := getp p trapframe in
    vm (store64 (tf + TF_a0) r)
  | None => vm (store64 (tf + TF_a0) (u64 (-1)))
  end.

End Ops.
