(* ===== verification/Trap.v ===== *)
(** * kernel/trap.c: interrupts, exceptions, system calls

    The registers the handlers read are the record [regs]; the claim register
    of the interrupt controller is its field [irq].  A handler that yields or
    exits ends in [Block]; when a process that yielded runs again it goes on
    with [usertrapret]. *)

From Stdlib Require Import ZArith Lia List.
From stdpp Require Import base tactics numbers list gmap strings.
From S2P Require Import Prelude Riscv Kalloc Vm Proc.

Record regs : Type := mkRegs {
  scause : Z;
  sepc : Z;
  stval : Z;
  sstatus : Z;
  satp : Z;
  hart : Z;
  irq : Z
}.

Definition SSTATUS_SPP : Z := Z.shiftl 1 8.
Definition SSTATUS_SPIE : Z := Z.shiftl 1 5.
Definition SSTATUS_SIE : Z := Z.shiftl 1 1.
Definition SATP_SV39 : Z := Z.shiftl 8 60.
Definition MAKE_SATP (pagetable : Z) : Z := Z.lor SATP_SV39 (Z.shiftr pagetable 12).

Definition INTR_BIT : Z := 0x8000000000000000.
Definition TIMER_CAUSE : Z := 0x8000000000000001.

(** What the handlers call in the drivers and in syscall.c. *)
Class TrapOps (F : Type) := {
  uartintr : M (pstate F) unit;
  virtio_disk_intr : M (pstate F) unit;
  syscall : M (pstate F) unit
}.

(** The addresses of [usertrap], [uservec] and [userret] in the kernel image. *)
Class TrapEntry := { usertrap_addr : Z; uservec_addr : Z; userret_addr : Z }.

(** What the return to user space loads into the registers. *)
Record uret : Type := mkUret {
  u_stvec : Z;
  u_sstatus : Z;
  u_sepc : Z;
  u_satp : Z;
  u_pc : Z
}.

Section Ops.
Context `{Layout} `{Entry} {F : Type} `{FsOps F} `{TrapOps F} `{TrapEntry}.

Definition clockintr : M (pstate F) unit :=
  do modify (fun s => s <| ticks ::= fun t => u64 (t + 1) |>) ;;;
  wakeup ChTicks.

(** A supervisor external interrupt: interrupt bit set, low byte 9. *)
Definition is_external (c : Z) : bool := has c INTR_BIT && (Z.land c 0xff =? 9).

Definition devintr (r : regs) : M (pstate F) Z :=
  if is_external (scause r)
  then
    do (if irq r =? UART0_IRQ then uartintr
        else if irq r =? VIRTIO0_IRQ then virtio_disk_intr
        else ret tt) ;;;
    ret 1
  else if scause r =? TIMER_CAUSE
  then
    do (if hart r =? 0 then clockintr else ret tt) ;;;
    ret 2
  else ret 0.

Definition usertrapret (r : regs) : M (pstate F) uret :=
  let* p := myproc in
  let* tf := getp p trapframe in
  let* ks := getp p kstack in
  do vm (store64 (tf + TF_kernel_satp) (satp r)) ;;;
  do vm (store64 (tf + TF_kernel_sp) (u64 (ks + PGSIZE))) ;;;
  do vm (store64 (tf + TF_kernel_trap) usertrap_addr) ;;;
  do vm (store64 (tf + TF_kernel_hartid) (hart r)) ;;;
  let* epc := vm (load64 (tf + TF_epc)) in
  let* pt := getp p pagetable in
  ret (mkUret (TRAMPOLINE + (uservec_addr - trampoline))
              (Z.lor (Z.land (sstatus r) (Z.lnot SSTATUS_SPP)) SSTATUS_SPIE)
              epc (MAKE_SATP pt)
              (TRAMPOLINE + (userret_addr - trampoline))).

Definition heat_up (n : Z) (p : Z) : M (pstate F) unit :=
  setp p (fun q => q <| cpu_heat ::= fun h => u64 (h + n) |>).

(** The counters of the activity monitor on a timer interrupt. *)
Definition count_tick (p : Z) : M (pstate F) unit :=
  do modify (fun s => s <| g_total_ticks ::= fun n => u64 (n + 1) |>) ;;;
  let* st := getp p state in
  if negb (p =? 0) && bool_decide (st = RUNNING)
  then modify (fun s => s <| g_cpu_active_ticks ::= fun n => u64 (n + 1) |>) else ret tt.

(** The load and store page faults. *)
Definition page_fault (p fault_va : Z) : M (pstate F) unit :=
  let* n := getp p sz in
  if n <=? fault_va then setkilled p
  else
    let* pt := getp p pagetable in
    let* e := vm (lazy_alloc pt fault_va) in
    if e <? 0 then setkilled p else ret tt.

(** The dispatch of [usertrap]; the result is [which_dev]. *)
Definition usertrap_cause (p : Z) (r : regs) : M (pstate F) Z :=
  if scause r =? 8
  then
    let* k := killed p in
    if negb (k =? 0) then exit (-1)
    else
      let* tf := getp p trapframe in
      let* epc := vm (load64 (tf + TF_epc)) in
      do vm (store64 (tf + TF_epc) (u64 (epc + 4))) ;;;
      do syscall ;;;
      ret 0
  else
    let* which_dev := devintr r in
    if negb (which_dev =? 0)
    then
      do modify (fun s => s <| g_interrupt_count ::= fun n => u64 (n + 1) |>) ;;;
      ret which_dev
    else if is_external (scause r)
    then
      let* which_dev := devintr r in
      if which_dev =? 2
      then
        let* p := myproc in
        do (if negb (p =? 0)
            then
              do heat_up 5 p ;;;
              setp p (fun q => q <| total_ticks ::= fun n => u64 (n + 1) |>)
            else ret tt) ;;;
        yield
      else ret which_dev
    else if (scause r =? 13) || (scause r =? 15)
    then do page_fault p (stval r) ;;; ret 0
    else do setkilled p ;;; ret 0.

Definition usertrap (r : regs) : M (pstate F) uret :=
  if has (sstatus r) SSTATUS_SPP then panic "usertrap: not from user mode"
  else
    let* p := myproc in
    let* tf := getp p trapframe in
    do vm (store64 (tf + TF_epc) (sepc r)) ;;;
    let* which_dev := usertrap_cause p r in
    let* k := killed p in
    if negb (k =? 0) then exit (-1)
    else if which_dev =? 2
    then
      do count_tick p ;;;
      do (if negb (p =? 0) then heat_up 1 p else ret tt) ;;;
      yield
    else usertrapret r.

Definition kerneltrap (r : regs) : M (pstate F) unit :=
  if negb (has (sstatus r) SSTATUS_SPP) then panic "kerneltrap: not from supervisor mode"
  else if has (sstatus r) SSTATUS_SIE then panic "kerneltrap: interrupts enabled"
  else
    let* which_dev := devintr r in
    if which_dev =? 0 then panic "kerneltrap"
    else
      do modify (fun s => s <| g_interrupt_count ::= fun n => u64 (n + 1) |>) ;;;
      let* p := myproc in
      do (if which_dev =? 2 then count_tick p else ret tt) ;;;
      let* st := getp p state in
      if (which_dev =? 2) && negb (p =? 0) && bool_decide (st = RUNNING)
      then do heat_up 1 p ;;; yield
      else ret tt.

End Ops.
