(* ===== verification/TrapFacts.v ===== *)
(** * What a trap does to a process

    The heat of a process changes only on timer interrupts; a page fault on an
    untouched page below the process size is resolved and the instruction is
    tried again; a fault above it kills the process. *)

From Stdlib Require Import ZArith Lia List.
From stdpp Require Import base tactics numbers list gmap sets strings.
From S2P Require Import Prelude Riscv Kalloc Vm VmFacts VmUser Proc SchedFacts Trap.

Section Heat.
Context `{Layout} `{Entry} {F : Type} `{FsOps F}.
Implicit Types (s : pstate F) (p : Z).

(** The heat and the tick count of every process. *)
Definition heats s : list (Z * Z) := map (fun q => (cpu_heat q, total_ticks q)) (procs s).

Lemma heats_setp s p (g : proc -> proc) :
  heats (s <| procs ::= fun l => upd l (p - 1) (g (at_ proc0 l (p - 1))) |>) =
  upd (heats s) (p - 1) (cpu_heat (g (procat s p)), total_ticks (g (procat s p))).
Proof.
  unfold heats, procat, upd, at_. cbn. destruct (0 <=? p - 1); [|done]. by rewrite list_fmap_insert.
Qed.

Lemma keeps_setp p g :
  (forall q, cpu_heat (g q) = cpu_heat q /\ total_ticks (g q) = total_ticks q) -> keeps heats (setp p g).
Proof.
  intros E s. change (heats (s <| procs ::= fun l => upd l (p - 1) (g (at_ proc0 l (p - 1))) |>) = heats s).
  rewrite heats_setp. destruct (E (procat s p)) as [-> ->].
  rewrite <- (upd_same (0, 0) (heats s) (p - 1)) at 2. f_equal. unfold procat, heats, at_.
  destruct (0 <=? p - 1); [|done].
  by rewrite <- (map_nth (fun q => (cpu_heat q, total_ticks q)) (procs s) proc0).
Qed.

Lemma keeps_vm {A} (m : M phys A) : keeps heats (vm m).
Proof. intros s. unfold vm, zoom. by destruct (m _). Qed.

Lemma keeps_getp {A} p (g : proc -> A) : keeps heats (getp p g).
Proof. done. Qed.

Lemma keeps_for_procs body : (forall p, keeps heats (body p)) -> keeps heats (for_procs body).
Proof.
  intros K. unfold for_procs. generalize 1. induction (Z.to_nat NPROC) as [|k IH]; intros p; cbn [for_procs_from];
    auto with keeps.
Qed.
End Heat.

#[export] Hint Resolve keeps_vm keeps_getp keeps_for_procs : keeps.
#[export] Hint Extern 3 (keeps heats (setp _ _)) => (apply keeps_setp; intros []; by vm_compute) : keeps.
#[export] Hint Extern 3 (keeps heats (modify _)) => (apply keeps_modify; intros []; done) : keeps.

(** What the handlers rely on in the file layer and the drivers: none of them
    touches the heat of a process. *)
Class HeatSafe (F : Type) `{FsOps F} `{TrapOps F} : Prop := {
  fileclose_heats f : keeps heats (fileclose (F := F) f);
  iput_heats ip : keeps heats (iput (F := F) ip);
  begin_op_heats : keeps heats (begin_op (F := F));
  end_op_heats : keeps heats (end_op (F := F));
  uartintr_heats : keeps heats (uartintr (F := F));
  virtio_disk_intr_heats : keeps heats (virtio_disk_intr (F := F))
}.
#[export] Hint Extern 1 (keeps heats (fileclose _)) => apply fileclose_heats : keeps.
#[export] Hint Extern 1 (keeps heats (iput _)) => apply iput_heats : keeps.
#[export] Hint Extern 1 (keeps heats begin_op) => apply begin_op_heats : keeps.
#[export] Hint Extern 1 (keeps heats end_op) => apply end_op_heats : keeps.
#[export] Hint Extern 1 (keeps heats uartintr) => apply uartintr_heats : keeps.
#[export] Hint Extern 1 (keeps heats virtio_disk_intr) => apply virtio_disk_intr_heats : keeps.

Section Traps.
Context `{Layout} `{Entry} {F : Type} `{HeatSafe F} `{TrapEntry}.
Implicit Types (s : pstate F) (p : Z) (r : regs).

Lemma keeps_wakeup c : keeps heats (wakeup (F := F) c).
Proof.
  apply keeps_for_procs. intros p. unfold myproc. keeps. apply keeps_setp. intros q. unfold wakeup1.
  destruct (decide _); [destruct (decide _)|]; done.
Qed.
Hint Resolve keeps_wakeup : keeps.

Lemma keeps_reparent p : keeps heats (reparent (F := F) p).
Proof. apply keeps_for_procs. intros pp. keeps. Qed.
Hint Resolve keeps_reparent : keeps.

Lemma keeps_close_files k fd p : keeps heats (close_files (F := F) k fd p).
Proof. revert fd. induction k; intros fd; cbn [close_files]; keeps. Qed.
Hint Resolve keeps_close_files : keeps.

Lemma keeps_sched {A} c : keeps heats (sched (F := F) (A := A) c).
Proof. unfold sched, myproc. keeps. Qed.
Hint Resolve keeps_sched : keeps.

Lemma keeps_yield {A} : keeps heats (yield (F := F) (A := A)).
Proof. unfold yield, myproc. keeps. Qed.
Hint Resolve keeps_yield : keeps.

Lemma keeps_exit {A} n : keeps heats (exit (F := F) (A := A) n).
Proof. unfold exit, myproc. keeps. Qed.
Hint Resolve keeps_exit : keeps.

Lemma keeps_usertrapret r : keeps heats (usertrapret (F := F) r).
Proof. unfold usertrapret, myproc. keeps. Qed.
Hint Resolve keeps_usertrapret : keeps.

Lemma keeps_page_fault p va : keeps heats (page_fault (F := F) p va).
Proof. unfold page_fault, setkilled. keeps. Qed.
Hint Resolve keeps_page_fault : keeps.

Lemma keeps_devintr r : keeps heats (devintr (F := F) r).
Proof. unfold devintr, clockintr. keeps. Qed.

(** [devintr] recognises every external interrupt, so the branch of [usertrap]
    that looks for one again is never reached. *)
Lemma devintr_external r s d s' :
  devintr r s = Ok d s' ->
  d = if is_external (scause r) then 1 else if scause r =? TIMER_CAUSE then 2 else 0.
Proof.
  unfold devintr, bind, ret. destruct (is_external (scause r)); [|destruct (scause r =? TIMER_CAUSE)];
    intros E; repeat case_match; by simplify_eq/=.
Qed.

(** The dispatch without the branch that is never reached. *)
Lemma usertrap_cause_live p r s :
  scause r <> 8 ->
  usertrap_cause p r s =
  (let* which_dev := devintr r in
   if negb (which_dev =? 0)
   then
     do modify (fun s => s <| g_interrupt_count ::= fun n => u64 (n + 1) |>) ;;; ret which_dev
   else if (scause r =? 13) || (scause r =? 15) then do page_fault p (stval r) ;;; ret 0
   else do setkilled p ;;; ret 0) s.
Proof.
  intros N. unfold usertrap_cause. apply Z.eqb_neq in N as ->. unfold bind at 1. symmetry. unfold bind at 1.
  destruct (devintr r s) as [d s'| |] eqn:E; [|done|done]. apply devintr_external in E as ->.
  by destruct (is_external (scause r)), (scause r =? TIMER_CAUSE).
Qed.

Lemma keeps_usertrap_cause p r : scause r <> 8 -> keeps heats (usertrap_cause (F := F) p r).
Proof.
  intros N s. rewrite usertrap_cause_live by done. revert s.
  change (keeps heats (let* which_dev := devintr r in
   if negb (which_dev =? 0)
   then
     do modify (fun s => s <| g_interrupt_count ::= fun n => u64 (n + 1) |>) ;;; ret which_dev
   else if (scause r =? 13) || (scause r =? 15) then do page_fault p (stval r) ;;; ret 0
   else do setkilled p ;;; ret 0)).
  unfold setkilled. keeps. apply keeps_devintr.
Qed.
Lemma usertrap_cause_timer p r s s' : scause r <> 8 -> usertrap_cause p r s = Ok 2 s' -> scause r = TIMER_CAUSE.
Proof.
  intros N. rewrite usertrap_cause_live by done. unfold bind at 1.
  destruct (devintr r s) as [d x| |] eqn:E; [|done|done]. apply devintr_external in E as ->.
  destruct (Z.eqb_spec (scause r) TIMER_CAUSE); [done|]. destruct (is_external (scause r)); cbn [Z.eqb negb].
  - by intros [= ].
  - unfold bind, ret. intros E. repeat case_match; by simplify_eq/=.
Qed.

(** The heats after a timer interrupt: one more for the current process. *)
Definition heated p (l : list (Z * Z)) : list (Z * Z) :=
  upd l (p - 1) (u64 ((at_ (0, 0) l (p - 1)).1 + 1), (at_ (0, 0) l (p - 1)).2).

Lemma heats_at s p : at_ (0, 0) (heats s) (p - 1) = (cpu_heat (procat s p), total_ticks (procat s p)).
Proof.
  unfold heats, procat, at_. destruct (0 <=? p - 1); [|done].
  by rewrite <- (map_nth (fun q => (cpu_heat q, total_ticks q)) (procs s) proc0).
Qed.

Lemma heat_up_run p s : exists s', heat_up 1 p s = Ok tt s' /\ heats s' = heated p (heats s).
Proof.
  eexists. split; [apply setp_run|]. rewrite heats_setp. unfold heated. by rewrite heats_at.
Qed.

Lemma keeps_count_tick p : keeps heats (count_tick (F := F) p).
Proof. unfold count_tick. keeps. Qed.

Lemma usertrap_heats r s :
  scause r <> 8 ->
  match usertrap r s with
  | Ok _ s' | Block _ s' =>
    heats s' = heats s \/ scause r = TIMER_CAUSE /\ heats s' = heated (cur s) (heats s)
  | Panic _ => True
  end.
Proof.
  intros N. unfold usertrap. destruct (has (sstatus r) SSTATUS_SPP); [done|]. unfold bind at 1, myproc, gets.
  set (p := cur s). unfold bind at 1, getp, gets. set (tf := trapframe (procat s p)).
  pose proof (keeps_vm (store64 (tf + TF_epc) (sepc r)) s) as K1. unfold bind at 1.
  destruct (vm _ s) as [[] s1| |c s1]; [|done|by left].
  pose proof (keeps_usertrap_cause p r N s1) as K2. unfold bind at 1.
  destruct (usertrap_cause p r s1) as [d s2| |c s2] eqn:Ec; [|done|left; congruence].
  unfold bind at 1. cbn [killed]. unfold killed, getp, gets. destruct (negb (killed_ (procat s2 p) =? 0)).
  { pose proof (keeps_exit (A := uret) (-1) s2) as K3. destruct (exit (-1) s2); [left; congruence|done|left; congruence]. }
  destruct (Z.eqb_spec d 2) as [->|].
  2:{ pose proof (keeps_usertrapret r s2) as K3. destruct (usertrapret r s2); [left; congruence|done|left; congruence]. }
  apply usertrap_cause_timer in Ec; [|done].
  pose proof (keeps_count_tick p s2) as K3. unfold bind at 1. destruct (count_tick p s2) as [[] s3| |c s3]; [|done|left; congruence].
  unfold bind at 1. destruct (Z.eqb_spec p 0) as [E0|Np]; cbn [negb].
  { pose proof (keeps_yield (A := uret) s3) as K4. cbn [ret]. destruct (yield s3); [left; congruence|done|left; congruence]. }
  destruct (heat_up_run p s3) as (s4 & -> & E4). pose proof (keeps_yield (A := uret) s4) as K4.
  destruct (yield s4); [right|done|right]; (split; [done|]); congruence.
Qed.

End Traps.

(** ** Page faults *)

Section Fault.
Context `{LO : LayoutOk} `{Entry} {F : Type} `{FsOps F} `{TrapOps F} `{TrapEntry}.
Implicit Types (s : pstate F) (p : Z) (r : regs) (T : gmap (list Z) Z).
#[local] Opaque load store.

(** The state after a routine of vm.c has changed memory. *)
Definition with_ph s (x : phys) : pstate F := s <| ph := x |>.

Lemma vm_store64 a v s : vm (store64 a v) s = Ok tt (with_ph s (with_mem (ph s) (store 8 (mem (ph s)) a v))).
Proof. done. Qed.

Lemma vm_load64 a s : vm (load64 a) s = Ok (load 8 (mem (ph s)) a) s.
Proof. by destruct s. Qed.

Lemma ph_with_ph s x : ph (with_ph s x) = x.
Proof. done. Qed.

Lemma procat_with_ph s x p : procat (with_ph s x) p = procat s p.
Proof. done. Qed.

Lemma with_ph_twice s x y : with_ph (with_ph s x) y = with_ph s y.
Proof. done. Qed.

(** The four words [usertrapret] stores. *)
Definition ret_mem r s p : ram :=
  let tf := trapframe (procat s p) in
  store 8 (store 8 (store 8 (store 8 (mem (ph s)) (tf + TF_kernel_satp) (satp r))
    (tf + TF_kernel_sp) (u64 (kstack (procat s p) + PGSIZE)))
    (tf + TF_kernel_trap) usertrap_addr) (tf + TF_kernel_hartid) (hart r).

Lemma usertrapret_run r s :
  let p := cur s in let q := procat s p in
  usertrapret r s =
  Ok (mkUret (TRAMPOLINE + (uservec_addr - trampoline))
             (Z.lor (Z.land (sstatus r) (Z.lnot SSTATUS_SPP)) SSTATUS_SPIE)
             (load 8 (mem (ph s)) (trapframe q + TF_epc)) (MAKE_SATP (pagetable q))
             (TRAMPOLINE + (userret_addr - trampoline)))
     (with_ph s (with_mem (ph s) (ret_mem r s p))).
Proof.
  intros p q. unfold usertrapret, bind, myproc, getp, gets. fold p.
  rewrite !vm_store64, vm_load64, !ph_with_ph, !procat_with_ph, !with_ph_twice. cbn [mem kmem with_mem]. fold q.
  rewrite !load_store_ne by (unfold TF_kernel_satp, TF_kernel_sp, TF_kernel_trap, TF_kernel_hartid, TF_epc; lia).
  reflexivity.
Qed.

Lemma ret_mem_outside r s p : same_outside (trapframe (procat s p)) (mem (ph s)) (ret_mem r s p).
Proof.
  unfold ret_mem. do 4 (eapply same_outside_trans; [|apply same_outside_store;
    unfold PGSIZE, TF_kernel_satp, TF_kernel_sp, TF_kernel_trap, TF_kernel_hartid; lia]).
  by intros i Hi.
Qed.
Lemma with_mem_twice x m m' : with_mem (with_mem x m) m' = with_mem x m'.
Proof. done. Qed.

(** The process [p] that took the trap: its page table, its trapframe page, and
    a free page [pg]. *)
Record faulting s p T (pg : Z) (l : list Z) : Prop := {
  fa_cur : cur s = p;
  fa_alive : killed_ (procat s p) = 0;
  fa_vm : vm_inv (ph s) (pagetable (procat s p)) T (pg :: l);
  fa_user : user_ok (mem (ph s)) T (pg :: l);
  fa_tf : private T (pg :: l) (trapframe (procat s p));
  fa_apart : forall va, readable (mem (ph s)) T va = true ->
    PTE2PA (pte_of (mem (ph s)) T va) <> trapframe (procat s p)
}.

(** A store to the trapframe page keeps all of it, and what the user sees. *)
Lemma faulting_store s p T pg l m' :
  faulting s p T pg l -> same_outside (trapframe (procat s p)) (mem (ph s)) m' ->
  faulting (with_ph s (with_mem (ph s) m')) p T pg l /\
  (forall va, pte_of m' T va = pte_of (mem (ph s)) T va) /\
  (forall va, user_byte m' T va = user_byte (mem (ph s)) T va).
Proof.
  intros [Fc Fa Fv Fu Ft Fx] O.
  destruct (write_private (ph s) _ T (pg :: l) (trapframe (procat s p)) m' Fv Ft O) as [I' S'].
  assert (Rd : forall va, readable m' T va = readable (mem (ph s)) T va) by (intros; unfold readable; by rewrite S').
  split_and!; [split; try done| |].
  - by apply (user_ok_same (ph s)).
  - intros va. cbn. rewrite Rd, S'. apply Fx.
  - apply S'.
  - intros va. apply user_byte_keep; [by rewrite S'|by rewrite Rd|].
    intros R i Hi. apply O. specialize (Fx va R).
    destruct (readable_spec _ _ _ _ Fu R) as (_ & _ & _ & (P & _ & _)).
    pose proof (pages_apart _ _ (proj1 P) (proj1 (proj1 Ft)) Fx). unfold PGSIZE in *. lia.
Qed.

Lemma page_fault_run s p T pg l va :
  faulting s p T pg l -> (3 <= length l)%nat -> 0 <= va < sz (procat s p) -> va < MAXVA ->
  has (pte_of (mem (ph s)) T va) PTE_V = false ->
  exists x T' l', page_fault p va s = Ok tt (with_ph s x) /\
    vm_inv x (pagetable (procat s p)) T' l' /\ (forall y, private T (pg :: l) y -> private T' l' y) /\
    (forall y, 0 <= y < MAXVA -> pte_of (mem x) T' y =
       if y / 4096 =? va / 4096 then leaf pg URW else pte_of (mem (ph s)) T y) /\
    (forall i, pg <= i < pg + PGSIZE -> bget (mem x) i = 0) /\
    (forall i, ~ owned T (pg :: l) i -> bget (mem x) i = bget (mem (ph s)) i).
Proof.
  intros Fa Len Hva Hm V. unfold page_fault, bind, getp, gets.
  destruct (Z.leb_spec (sz (procat s p)) va); [lia|].
  destruct (lazy_alloc_fresh (ph s) _ T l pg va (fa_vm _ _ _ _ _ Fa) ltac:(lia) V)
    as (r & x & T' & l' & E & I' & Su & Mono & C & Fr & Y).
  destruct C as [(-> & Pg & Pt & Zr)|(_ & _ & L3 & _)]; [|cbn in L3; lia].
  exists x, T', l'. split_and!; try done. unfold vm, zoom. cbn [lget on_ph]. by rewrite E.
Qed.
Lemma devintr_fault r s : scause r = 13 \/ scause r = 15 -> devintr r s = Ok 0 s.
Proof. unfold devintr. by intros [-> | ->]. Qed.

(** What the user sees after a step that maps one zeroed page at [va] and
    otherwise leaves the pages of the user alone. *)
Lemma mapped_zero_page m m' T T' pg l va :
  user_ok m T (pg :: l) -> page_ok pg -> 0 <= va < MAXVA -> has (pte_of m T va) PTE_V = false ->
  (forall y, 0 <= y < MAXVA -> pte_of m' T' y = if y / 4096 =? va / 4096 then leaf pg URW else pte_of m T y) ->
  (forall i, pg <= i < pg + PGSIZE -> bget m' i = 0) ->
  (forall y, readable m T y = true -> forall i, PTE2PA (pte_of m T y) <= i < PTE2PA (pte_of m T y) + PGSIZE ->
     bget m' i = bget m i) ->
  writable m' T' va = true /\
  forall y, user_byte m' T' y = if y / 4096 =? va / 4096 then Some 0 else user_byte m T y.
Proof.
  intros O P Hva V Pt Zr Fr. pose proof (page_ok_pa pg P) as [Rp Ap].
  destruct (leaf_facts pg URW Rp Ap ltac:(by vm_compute)) as (L1 & L2 & L3 & L4 & _).
  assert (Hl : forall k, k = PTE_V \/ k = PTE_U \/ k = PTE_W -> has (leaf pg URW) k = true).
  { intros k Hk. rewrite L4 by (destruct Hk as [->|[->| ->]]; by vm_compute).
    by destruct Hk as [->|[->| ->]]. }
  assert (Rg : forall y, y / 4096 = va / 4096 -> 0 <= y < MAXVA).
  { intros y E. change MAXVA with (4096 * 67108864) in *. zdm. }
  assert (W : forall y, y / 4096 = va / 4096 -> writable m' T' y = true).
  { intros y E. specialize (Rg y E). unfold writable, readable. rewrite Pt by done. rewrite E, Z.eqb_refl, !Hl by auto.
    zcase; done || lia. }
  split; [by apply W|]. intros y. destruct (Z.eqb_spec (y / 4096) (va / 4096)) as [E|N].
  - specialize (W y E). unfold writable in W. apply andb_true_iff in W as [Rd _].
    unfold user_byte. rewrite Rd. unfold user_pa. rewrite Pt by (by apply Rg). rewrite E, Z.eqb_refl, L1.
    f_equal. apply Zr. unfold PGSIZE. zdm.
  - assert (Ey : 0 <= y < MAXVA -> pte_of m' T' y = pte_of m T y).
    { intros Hy. rewrite Pt by done. by apply Z.eqb_neq in N as ->. }
    unfold user_byte. assert (readable m' T' y = readable m T y) as ->.
    { unfold readable. destruct (Z.leb_spec 0 y), (Z.ltb_spec y MAXVA); try done. by rewrite Ey. }
    destruct (readable m T y) eqn:Rd; [|done]. destruct (readable_spec _ _ _ _ O Rd) as (Hy & _).
    assert (Hm : 0 <= y < MAXVA) by (change TRAPFRAME with (MAXVA - 8192) in Hy; lia).
    unfold user_pa. rewrite Ey by done. f_equal. apply (Fr y Rd). unfold PGSIZE. zdm.
Qed.
Lemma fault_resolved r s p T pg l :
  faulting s p T pg l -> (3 <= length l)%nat -> 0 <= stval r < sz (procat s p) -> stval r < MAXVA ->
  has (pte_of (mem (ph s)) T (stval r)) PTE_V = false -> has (sstatus r) SSTATUS_SPP = false ->
  scause r = 13 \/ scause r = 15 -> 0 <= sepc r < 2 ^ 64 ->
  exists u x T' l', usertrap r s = Ok u (with_ph s x) /\ u_sepc u = sepc r /\
    u_satp u = MAKE_SATP (pagetable (procat s p)) /\
    vm_inv x (pagetable (procat s p)) T' l' /\ writable (mem x) T' (stval r) = true /\
    (forall va, user_byte (mem x) T' va =
       if va / 4096 =? stval r / 4096 then Some 0 else user_byte (mem (ph s)) T va).
Proof.
  intros Fa Len Hva Hm V Spp Sc Hpc. set (tf := trapframe (procat s p)).
  set (m1 := store 8 (mem (ph s)) (tf + TF_epc) (sepc r)).
  assert (O1 : same_outside tf (mem (ph s)) m1) by (apply same_outside_store; unfold TF_epc, PGSIZE; lia).
  destruct (faulting_store s p T pg l m1 Fa O1) as (Fa1 & Pt1 & B1).
  set (s1 := with_ph s (with_mem (ph s) m1)) in *.
  destruct (page_fault_run s1 p T pg l (stval r) Fa1 Len Hva Hm) as (x & T' & l' & E & I' & Mono & Pt & Zr & Fr).
  { cbn. by rewrite Pt1. }
  assert (Ptf : private T' l' tf) by apply Mono, Fa.
  set (m3 := ret_mem r (with_ph s1 x) p).
  assert (O3 : same_outside tf (mem x) m3) by apply (ret_mem_outside r (with_ph s1 x) p).
  destruct (write_private x _ T' l' tf m3 I' Ptf O3) as [I3 S3].
  assert (Atf : forall i, tf <= i < tf + PGSIZE -> bget (mem x) i = bget m1 i).
  { intros i Hi. rewrite Fr; [done|]. intros Ow. by eapply (owned_page _ _ _ _ tf); [apply Fa1|apply Fa|exact Ow|]. }
  assert (Ep : load 8 (mem x) (tf + TF_epc) = sepc r).
  { etrans; [|apply (load_store_word_eq (mem (ph s)) (tf + TF_epc)); exact Hpc].
    apply load_ext. intros i Hi. apply Atf. unfold TF_epc, PGSIZE in *. lia. }
  eexists _, (with_mem x m3), T', l'. split.
  { unfold usertrap. rewrite Spp. unfold bind at 1, myproc, gets. rewrite (fa_cur _ _ _ _ _ Fa).
    unfold bind at 1, getp, gets. unfold bind at 1. rewrite vm_store64. fold tf m1 s1.
    unfold bind at 1. rewrite usertrap_cause_live by (destruct Sc as [-> | ->]; lia).
    unfold bind at 1. rewrite devintr_fault by done. cbn [Z.eqb negb].
    assert ((scause r =? 13) || (scause r =? 15) = true) as -> by (by destruct Sc as [-> | ->]).
    unfold bind at 1. rewrite E. unfold ret at 1. unfold bind at 1, killed, getp, gets.
    assert (killed_ (procat (with_ph s1 x) p) = 0) as -> by apply Fa. cbn [Z.eqb negb].
    rewrite usertrapret_run.
    assert (cur (with_ph s1 x) = p) as -> by apply Fa. reflexivity. }
  cbn [u_sepc u_satp]. split; [exact Ep|]. split; [reflexivity|]. split; [exact I3|].
  assert (Pp : page_ok pg).
  { pose proof (inv_ok _ _ (vm_kmem _ _ _ _ (fa_vm _ _ _ _ _ Fa))) as Fo. by apply Forall_cons in Fo as [? _]. }
  assert (Npg : pg <> tf).
  { intros ->. destruct (fa_tf _ _ _ _ _ Fa) as (_ & N & _). fold tf in N. set_solver. }
  assert (Far : forall z i, z mod PGSIZE = 0 -> z <> tf -> z <= i < z + PGSIZE ->
     bget m3 i = bget (mem x) i /\ bget m1 i = bget (mem (ph s)) i).
  { intros z i Az Nz Hi. pose proof (pages_apart z tf Az (proj1 (proj1 Ptf)) Nz).
    unfold PGSIZE in *. split; [apply O3|apply O1]; unfold PGSIZE; lia. }
  apply (mapped_zero_page (mem (ph s)) m3 T T' pg l (stval r)); try done; [apply Fa|lia|..].
  - intros y Hy. rewrite S3, Pt by done. cbn. by rewrite Pt1.
  - intros i Hi. destruct (Far pg i (proj1 Pp) Npg Hi) as [-> _]. by apply Zr.
  - intros y Rd i Hi. destruct (readable_spec _ _ _ _ (fa_user _ _ _ _ _ Fa) Rd) as (_ & _ & _ & Py).
    destruct (Far _ i (proj1 (proj1 Py)) (fa_apart _ _ _ _ _ Fa y Rd) Hi) as [-> <-].
    apply Fr. intros Ow. by eapply (owned_page _ _ _ _ _ i (fa_vm _ _ _ _ _ Fa1) Py).
Qed.

End Fault.

(** ** Timer interrupts *)

Section Timer.
Context `{Layout} `{Entry} {F : Type} `{FsOps F} `{TrapOps F} `{TrapEntry}.
Implicit Types (s : pstate F) (p : Z) (r : regs).

Lemma devintr_timer r s :
  table_ok s -> scause r = TIMER_CAUSE ->
  exists s', devintr r s = Ok 2 s' /\ table_ok s' /\
    s' = s <| procs := procs s' |> <| ticks := if hart r =? 0 then u64 (ticks s + 1) else ticks s |> /\
    (forall p, isproc p -> procat s' p =
       if (hart r =? 0) && negb (p =? cur s) then wakeup1 ChTicks (procat s p) else procat s p).
Proof.
  intros T Sc. unfold devintr. rewrite Sc. change (is_external TIMER_CAUSE) with false.
  change (TIMER_CAUSE =? TIMER_CAUSE) with true. unfold bind. destruct (hart r =? 0); cbn [andb].
  - set (s1 := s <| ticks ::= fun t => u64 (t + 1) |>). change (clockintr s) with (wakeup ChTicks s1).
    destruct (wakeup_run ChTicks s1 T) as (s' & -> & T' & E & Pr). exists s'. split_and!; [done|done|rewrite E; done|exact Pr].
  - exists s. split_and!; try done. by destruct s.
Qed.

(** The process after a tick: one degree hotter, and runnable. *)
Lemma tick_run p s :
  table_ok s -> isproc p -> cur s = p ->
  exists s', (do count_tick p ;;; do (if negb (p =? 0) then heat_up 1 p else ret tt) ;;; @yield F uret) s = Block ChNull s' /\
    procat s' p = (procat s p) <| cpu_heat := u64 (cpu_heat (procat s p) + 1) |> <| state := RUNNABLE |> /\
    (forall p', p' <> p -> procat s' p' = procat s p') /\ table_ok s' /\
    s' = s <| procs := procs s' |> <| g_total_ticks := u64 (g_total_ticks s + 1) |>
           <| g_cpu_active_ticks := if decide (state (procat s p) = RUNNING) then u64 (g_cpu_active_ticks s + 1)
                                    else g_cpu_active_ticks s |>.
Proof.
  intros T P C. assert (N : (p =? 0) = false) by (apply Z.eqb_neq; unfold isproc in P; lia). rewrite N. cbn [negb].
  assert (exists s1, count_tick p s = Ok tt s1 /\ procs s1 = procs s /\
    s1 = s <| procs := procs s1 |> <| g_total_ticks := u64 (g_total_ticks s + 1) |>
           <| g_cpu_active_ticks := if decide (state (procat s p) = RUNNING) then u64 (g_cpu_active_ticks s + 1)
                                    else g_cpu_active_ticks s |>) as (s1 & E1 & Ep & E1').
  { unfold count_tick, bind, modify, getp, gets. rewrite N. cbn [negb andb].
    change (procat (s <| g_total_ticks ::= _ |>) p) with (procat s p).
    destruct (decide (state (procat s p) = RUNNING)) as [R|R];
      [rewrite bool_decide_true by done|rewrite bool_decide_false by done]; eexists; (split_and!; [reflexivity|done|by destruct s]). }
  assert (T1 : table_ok s1) by (unfold table_ok; by rewrite Ep).
  assert (Pr : forall x, procat s1 x = procat s x) by (intros; unfold procat; by rewrite Ep).
  assert (C1 : cur s1 = p) by (rewrite E1'; exact C).
  unfold bind at 1. rewrite E1. unfold bind at 1, heat_up. rewrite setp_run.
  destruct (procat_setp p (fun q => q <| cpu_heat ::= fun h => u64 (h + 1) |>) s1 _ T1 P (setp_run _ _ _)) as (A2 & B2 & T2).
  set (s2 := s1 <| procs ::= _ |>) in *. assert (C2 : cur s2 = p) by done.
  unfold yield, bind at 1, myproc, gets. rewrite C2. unfold bind at 1. rewrite setp_run.
  destruct (procat_setp p (fun q => q <| state := RUNNABLE |>) s2 _ T2 P (setp_run _ _ _)) as (A3 & B3 & T3).
  set (s3 := s2 <| procs ::= _ |>) in *. assert (C3 : cur s3 = p) by done.
  unfold sched, bind, myproc, getp, gets. rewrite C3, A3. cbn [state over]. exists s3. split_and!.
  - done.
  - by rewrite A3, A2, Pr.
  - intros p' N'. by rewrite B3, B2, Pr.
  - done.
  - transitivity (s1 <| procs := procs s3 |>); [reflexivity|]. clearbody s3. by rewrite E1'.
Qed.
End Timer.
