(* ===== verification/TrapProps.v ===== *)
(** * What traps guarantee

    The theorems about kernel/trap.c and the scheduling fields it maintains,
    and a machine state on which each of them applies. *)

From Stdlib Require Import ZArith Lia List.
From stdpp Require Import base tactics numbers list gmap sets strings.
From S2P Require Import Prelude Riscv Kalloc Vm VmFacts VmUser VmProps Proc SchedFacts Trap TrapFacts.

(** ** Properties *)

Section Properties.
Context `{LO : LayoutOk} `{Entry} {F : Type} `{FsOps F} `{TrapOps F} `{TrapEntry}.
Implicit Types (s : pstate F) (p : Z) (r : regs) (T : gmap (list Z) Z).

(** C26: a timer interrupt taken in user mode, by a process that is not marked
    as killed, makes the running process one degree hotter and RUNNABLE and gives up the processor; hart 0 advances the
    clock and wakes exactly the processes asleep on it; the counters of the
    activity monitor advance; no other process changes. *)
Theorem usertrap_timer_correct r s p :
  table_ok s -> isproc p -> cur s = p -> killed_ (procat s p) = 0 ->
  has (sstatus r) SSTATUS_SPP = false -> scause r = TIMER_CAUSE ->
  exists s', usertrap r s = Block ChNull s' /\
    procat s' p = (procat s p) <| cpu_heat := u64 (cpu_heat (procat s p) + 1) |> <| state := RUNNABLE |> /\
    (forall p', isproc p' -> p' <> p ->
       procat s' p' = if hart r =? 0 then wakeup1 ChTicks (procat s p') else procat s p') /\
    ticks s' = (if hart r =? 0 then u64 (ticks s + 1) else ticks s) /\
    g_interrupt_count s' = u64 (g_interrupt_count s + 1) /\
    g_total_ticks s' = u64 (g_total_ticks s + 1) /\
    g_cpu_active_ticks s' = (if decide (state (procat s p) = RUNNING) then u64 (g_cpu_active_ticks s + 1)
                             else g_cpu_active_ticks s).
Proof.
  intros T P C K Spp Sc. unfold usertrap. rewrite Spp. unfold bind at 1, myproc, gets. rewrite C.
  unfold bind at 1, getp, gets. unfold bind at 1. rewrite vm_store64. set (s1 := with_ph s _).
  unfold bind at 1. rewrite usertrap_cause_live by (rewrite Sc; by vm_compute).
  destruct (devintr_timer r s1 T Sc) as (s2 & E2 & T2 & D2 & P2).
  unfold bind at 1. rewrite E2. cbn [Z.eqb negb]. unfold bind at 1, modify, ret at 1.
  set (s3 := s2 <| g_interrupt_count ::= _ |>).
  assert (Pr : forall x, procat s3 x = procat s2 x) by done.
  assert (Cu : cur s3 = p) by (change (cur s2 = p); rewrite D2; exact C).
  assert (Pp : procat s2 p = procat s p).
  { rewrite P2 by done. change (cur s1) with (cur s). rewrite C, Z.eqb_refl, andb_false_r. done. }
  unfold bind at 1, killed, getp, gets. rewrite Pr, Pp, K. cbn [Z.eqb negb].
  destruct (tick_run p s3 T2 P Cu) as (s' & E & A & B & _ & D).
  exists s'. rewrite !Pr, Pp in *. split_and!; [exact E|exact A|..].
  - intros p' P' N. rewrite B, Pr, P2 by done. change (cur s1) with (cur s). rewrite C.
    apply Z.eqb_neq in N as ->. by rewrite andb_true_r.
  - rewrite D. change (ticks s2 = if hart r =? 0 then u64 (ticks s + 1) else ticks s). by rewrite D2.
  - rewrite D. change (u64 (g_interrupt_count s2 + 1) = u64 (g_interrupt_count s + 1)). by rewrite D2.
  - rewrite D. change (u64 (g_total_ticks s2 + 1) = u64 (g_total_ticks s + 1)). by rewrite D2.
  - rewrite D. cbn [g_cpu_active_ticks over].
    assert (E' : g_cpu_active_ticks s3 = g_cpu_active_ticks s) by (change (g_cpu_active_ticks s2 = g_cpu_active_ticks s); by rewrite D2).
    change (g_cpu_active_ticks (over g_cpu_active_ticks _ _)) with
      (if decide (state (procat s p) = RUNNING) then u64 (g_cpu_active_ticks s3 + 1) else g_cpu_active_ticks s3).
    by rewrite E'.
Qed.



(** The state in which [exit] is entered after a bad fault: the pc is saved in
    the trapframe and the process is marked killed. *)
Definition condemned r s p : pstate F :=
  s <| ph := set_mem (fun m => store 8 m (trapframe (procat s p) + TF_epc) (sepc r)) (ph s) |>
    <| procs := upd (procs s) (p - 1) ((procat s p) <| killed_ := 1 |>) |>.

(** C38: a load or store fault at or above the size of the process kills it, and
    so does any unexpected exception: [exit] is entered with status -1 in the
    state that differs from the one before the trap in the killed flag of the
    process and the pc saved in its trapframe, and in nothing else. *)
Theorem bad_fault_kills r s p :
  cur s = p -> table_ok s -> isproc p -> has (sstatus r) SSTATUS_SPP = false ->
  (scause r = 13 \/ scause r = 15) /\ sz (procat s p) <= stval r \/
  scause r <> 13 /\ scause r <> 15 /\ scause r <> 8 /\ scause r <> TIMER_CAUSE /\ is_external (scause r) = false ->
  usertrap r s = exit (-1) (condemned r s p) /\ killed_ (procat (condemned r s p) p) = 1.
Proof.
  intros C T P Spp Why. unfold usertrap. rewrite Spp. unfold bind at 1, myproc, gets. rewrite C.
  unfold bind at 1, getp, gets. unfold bind at 1. rewrite vm_store64. set (s1 := with_ph s _).
  assert (N8 : scause r <> 8) by (destruct Why as [[[-> | ->] _]|(_ & _ & ? & _)]; done || lia).
  unfold bind at 1. rewrite usertrap_cause_live by done.
  assert (Dv : devintr r s1 = Ok 0 s1).
  { unfold devintr. destruct Why as [[[-> | ->] _]|(_ & _ & _ & Nt & ->)]; [done|done|].
    by apply Z.eqb_neq in Nt as ->. }
  unfold bind at 1. rewrite Dv. cbn [Z.eqb negb].
  destruct (procat_setp p (fun q => q <| killed_ := 1 |>) s1 _ T P (setp_run _ _ _)) as (A & B & _).
  set (s2 := s1 <| procs ::= _ |>) in *.
  assert (E : (if (scause r =? 13) || (scause r =? 15) then do page_fault p (stval r) ;;; ret 0
               else do setkilled p ;;; ret 0) s1 = Ok 0 s2).
  { destruct Why as [[Hs Hz]|(H13 & H15 & _)].
    - assert ((scause r =? 13) || (scause r =? 15) = true) as -> by (by destruct Hs as [-> | ->]).
      unfold page_fault, bind, getp, gets. change (procat s1 p) with (procat s p).
      destruct (Z.leb_spec (sz (procat s p)) (stval r)); [done|lia].
    - apply Z.eqb_neq in H13 as ->, H15 as ->. done. }
  rewrite E. unfold bind at 1, killed, getp, gets. rewrite A. cbn [killed_ over Z.eqb negb].
  split; [done|]. change (killed_ (procat s2 p) = 1). by rewrite A.
Qed.
End Properties.

(** ** Witnesses

    Process 1 has the address space [VmWitness.parent] and its trapframe in
    page 20; process 2 sleeps on the clock. *)

Module TrapWitness.
Import VmWitness.
#[local] Existing Instance lay.
#[local] Existing Instance lay_ok.

#[local] Instance entry : Entry := { forkret_addr := KERNBASE }.
#[local] Instance trap_entry : TrapEntry :=
  { usertrap_addr := KERNBASE; uservec_addr := KERNBASE; userret_addr := KERNBASE }.
#[local] Instance fs_ops : FsOps unit := {
  filedup f := ret f; fileclose _ := ret tt; idup i := ret i; iput _ := ret tt;
  begin_op := ret tt; end_op := ret tt; namei _ := ret 1; fsinit _ := ret tt
}.
#[local] Instance trap_ops : TrapOps unit :=
  { uartintr := ret tt; virtio_disk_intr := ret tt; syscall := ret tt }.

Definition proc1 : proc :=
  proc0 <| state := RUNNING |> <| pid := 3 |> <| sz := 12288 |> <| pagetable := pg 0 |> <| trapframe := pg 20 |>.
Definition proc2 : proc := proc0 <| state := SLEEPING |> <| pid := 4 |> <| chan_ := ChTicks |>.
Definition st : pstate unit :=
  mkPstate space (proc1 :: proc2 :: repeat proc0 62) 5 1 1 0 0 0 0 7 0 0 0 0 0 0 0 0 tt.

Definition at_cause (c va : Z) : regs := mkRegs c 100 va 0 0 0 0.

Lemma usertrap_timer_correct_witness :
  exists s', usertrap (at_cause TIMER_CAUSE 0) st = Block ChNull s' /\
    procat s' 1 = proc1 <| cpu_heat := u64 (0 + 1) |> <| state := RUNNABLE |> /\
    (forall p', isproc p' -> p' <> 1 -> procat s' p' = wakeup1 ChTicks (procat st p')) /\
    ticks s' = u64 (7 + 1) /\ g_interrupt_count s' = u64 (0 + 1) /\ g_total_ticks s' = u64 (0 + 1) /\
    g_cpu_active_ticks s' = u64 (0 + 1).
Proof. apply (usertrap_timer_correct (at_cause TIMER_CAUSE 0) st 1); done || by vm_compute. Defined.




Lemma bad_fault_kills_witness :
  usertrap (at_cause 13 12288) st = exit (-1) (condemned (at_cause 13 12288) st 1) /\
  killed_ (procat (condemned (at_cause 13 12288) st 1) 1) = 1.
Proof.
  apply (bad_fault_kills (at_cause 13 12288) st 1); [done|done|by vm_compute|by vm_compute|].
  left. split; [by left|by vm_compute].
Defined.

End TrapWitness.
