(* ===== verification/Sleeplock.v ===== *)
(** * kernel/sleeplock.c: locks held across sleeps

    A component that uses sleep locks keeps in its state the pid of the running
    process and the wakeups it has issued ([Wakes]); the process layer applies
    those to the process table when the component returns (File.v).  A lock is
    reached inside the component's state through a [Lens]. *)

From Stdlib Require Import ZArith Lia List.
From stdpp Require Import base list.
From S2P Require Import Prelude.

Record sleeplock : Type := mkSleeplock {
  locked : Z;
  lpid : Z
}.

Class Wakes (S : Type) := {
  mypid : S -> Z;
  woken : chan -> S -> S
}.

Definition initsleeplock : sleeplock := mkSleeplock 0 0.

Section Ops.
Context {S : Type} `{Wakes S} (lk : Lens S sleeplock) (c : chan).

(** One iteration of the loop: it sleeps while the lock is held. *)
Definition acquiresleep : M S unit :=
  let* l := gets (lget lk) in
  if negb (locked l =? 0) then block c
  else
    let* me := gets mypid in
    modify (lset lk (mkSleeplock 1 me)).

Definition releasesleep : M S unit :=
  do modify (lset lk (mkSleeplock 0 0)) ;;;
  modify (woken c).

Definition holdingsleep : M S bool :=
  gets (fun s => negb (locked (lget lk s) =? 0) && (lpid (lget lk s) =? mypid s)).
End Ops.

#[export] Hint Unfold acquiresleep releasesleep holdingsleep : xv6.
