(* ===== verification/Bio.v ===== *)
(** * kernel/bio.c: the buffer cache

    The buffers of [bcache.buf] with the list head as one more element
    ([head], index NBUF), linked through [b_prev] and [b_next] as in the code.
    A [struct buf *] is an index.  The disk under the cache is the array of its
    blocks; [writes] is the history of the blocks written, oldest first, from
    which the states a crash can leave are read off. *)

From Stdlib Require Import ZArith Lia List.
From stdpp Require Import base list strings.
From S2P Require Import Prelude Riscv Sleeplock.

Record buf : Type := mkBuf {
  b_valid : Z;
  b_dev : Z;
  b_blockno : Z;
  b_lock : sleeplock;
  b_refcnt : Z;
  b_prev : Z;
  b_next : Z;
  b_data : list Z
}.

#[global] Instance eta_buf : Eta buf := fun b =>
  mkBuf (b_valid b) (b_dev b) (b_blockno b) (b_lock b) (b_refcnt b) (b_prev b) (b_next b) (b_data b).

Definition buf0 : buf := mkBuf 0 0 0 (mkSleeplock 0 0) 0 0 0 zeros.

Definition disk : Type := Z -> list Z.
Definition disk_set (d : disk) (b : Z) (x : list Z) : disk := fun i => if i =? b then x else d i.

Record bstate : Type := mkBstate {
  me : Z;
  wakeups : list chan;
  bufs : list buf;
  dsk : disk;
  writes : list (Z * list Z)
}.

#[global] Instance eta_bstate : Eta bstate := fun s =>
  mkBstate (me s) (wakeups s) (bufs s) (dsk s) (writes s).

#[global] Instance bio_wakes : Wakes bstate := {
  mypid := me;
  woken c s := s <| wakeups ::= fun l => l ++ [c] |>
}.

Definition head : Z := NBUF.

Definition bufat (s : bstate) (b : Z) : buf := at_ buf0 (bufs s) b.
Definition getb {A} (b : Z) (f : buf -> A) : M bstate A := gets (fun s => f (bufat s b)).
Definition put (b : Z) (f : buf -> buf) (s : bstate) : bstate :=
  s <| bufs ::= fun l => upd l b (f (at_ buf0 l b)) |>.
Definition setb (b : Z) (f : buf -> buf) : M bstate unit := modify (put b f).

Definition b_lock_of (b : Z) : Lens bstate sleeplock :=
  mkLens (fun s => b_lock (bufat s b)) (fun l => put b (fun x => x <| b_lock := l |>)).
Definition b_chan (b : Z) : chan := ChSleeplock b.

(** [b] becomes the first of the list. *)
Definition push_front (b : Z) : M bstate unit :=
  let* first := getb head b_next in
  do setb b (fun x => x <| b_next := first |> <| b_prev := head |>) ;;;
  do setb first (fun x => x <| b_prev := b |>) ;;;
  setb head (fun x => x <| b_next := b |>).

Fixpoint binit_from (k : nat) (b : Z) : M bstate unit :=
  match k with
  | O => ret tt
  | S k' =>
    do setb b (fun x => x <| b_lock := initsleeplock |>) ;;;
    do push_front b ;;;
    binit_from k' (b + 1)
  end.

Definition binit : M bstate unit :=
  do setb head (fun x => x <| b_prev := head |> <| b_next := head |>) ;;;
  binit_from (Z.to_nat NBUF) 0.

(** Follow [link] from [b] to the first buffer that satisfies [ok]; [None] when
    the head comes first.  The list has NBUF buffers. *)
Fixpoint scan (link : buf -> Z) (ok : buf -> bool) (k : nat) (b : Z) (s : bstate) : option Z :=
  match k with
  | O => None
  | S k' =>
    if b =? head then None
    else if ok (bufat s b) then Some b
    else scan link ok k' (link (bufat s b)) s
  end.

Definition cached (dev blockno : Z) (x : buf) : bool := (b_dev x =? dev) && (b_blockno x =? blockno).
Definition unused (x : buf) : bool := b_refcnt x =? 0.

(** When the buffer is locked the result is [Block], with the reference counted
    already: the process goes on with [acquiresleep], not with [bget] anew. *)
Definition bget_ (dev blockno : Z) : M bstate Z :=
  let* hit := gets (fun s => scan b_next (cached dev blockno) (Z.to_nat NBUF) (b_next (bufat s head)) s) in
  match hit with
  | Some b =>
    do setb b (fun x => x <| b_refcnt ::= fun n => u32 (n + 1) |>) ;;;
    do acquiresleep (b_lock_of b) (b_chan b) ;;;
    ret b
  | None =>
    let* lru := gets (fun s => scan b_prev unused (Z.to_nat NBUF) (b_prev (bufat s head)) s) in
    match lru with
    | Some b =>
      do setb b (fun x => x <| b_dev := dev |> <| b_blockno := blockno |> <| b_valid := 0 |> <| b_refcnt := 1 |>) ;;;
      do acquiresleep (b_lock_of b) (b_chan b) ;;;
      ret b
    | None => panic "bget: no buffers"
    end
  end.

(** The transfer of one block once the device has answered; the ring of
    requests is in Virtio.v. *)
Definition virtio_disk_rw (b : Z) (write : bool) : M bstate unit :=
  let* x := getb b id in
  if write
  then modify (fun s => s <| dsk ::= fun d => disk_set d (b_blockno x) (b_data x) |>
                          <| writes ::= fun l => l ++ [(b_blockno x, b_data x)] |>)
  else
    let* d := gets dsk in
    setb b (fun x => x <| b_data := d (b_blockno x) |>).

Definition bread (dev blockno : Z) : M bstate Z :=
  let* b := bget_ dev blockno in
  let* v := getb b b_valid in
  do (if v =? 0
      then do virtio_disk_rw b false ;;; setb b (fun x => x <| b_valid := 1 |>)
      else ret tt) ;;;
  ret b.

Definition bwrite (b : Z) : M bstate unit :=
  let* h := holdingsleep (b_lock_of b) in
  if negb h then panic "bwrite" else virtio_disk_rw b true.

(** Take [b] out of the list and put it in front. *)
Definition relink (b : Z) : M bstate unit :=
  let* nx := getb b b_next in
  let* pv := getb b b_prev in
  do setb nx (fun x => x <| b_prev := pv |>) ;;;
  do setb pv (fun x => x <| b_next := nx |>) ;;;
  push_front b.

Definition brelse (b : Z) : M bstate unit :=
  let* h := holdingsleep (b_lock_of b) in
  if negb h then panic "brelse"
  else
    do releasesleep (b_lock_of b) (b_chan b) ;;;
    do setb b (fun x => x <| b_refcnt ::= fun n => u32 (n - 1) |>) ;;;
    let* n := getb b b_refcnt in
    if n =? 0 then relink b else ret tt.

Definition bpin (b : Z) : M bstate unit := setb b (fun x => x <| b_refcnt ::= fun n => u32 (n + 1) |>).
Definition bunpin (b : Z) : M bstate unit := setb b (fun x => x <| b_refcnt ::= fun n => u32 (n - 1) |>).

(** The cache at boot over a disk [d], run by process [p]. *)
Definition boot (p : Z) (d : disk) : bstate := mkBstate p [] (repeat buf0 31) d [].
