(* ===== verification/BioFacts.v ===== *)
(** * The buffer cache keeps its promises

    The doubly linked list of bio.c is a list of all buffers; the cache holds at
    most one copy of a block; a buffer nobody uses holds what the disk holds.
    [binv s H P] says this of a state in which the running process holds the
    buffers [H] and the log has pinned the blocks [P]. *)

From Stdlib Require Import ZArith Lia List.
From stdpp Require Import base tactics numbers list sets strings.
From S2P Require Import Prelude Riscv Sleeplock Bio.

(** ** Buffers of a state *)

Section Put.
Implicit Types (s : bstate) (b x : Z).

Lemma bufat_put s b f x :
  length (bufs s) = 31%nat -> 0 <= b <= 30 ->
  bufat (put b f s) x = if x =? b then f (bufat s b) else bufat s x.
Proof.
  intros L B. unfold bufat, put. cbn. destruct (Z.eqb_spec x b) as [->|N].
  - apply at_upd_eq. lia.
  - by apply at_upd_ne.
Qed.

Lemma length_put s b f : length (bufs (put b f s)) = length (bufs s).
Proof. unfold put. cbn. by rewrite length_upd. Qed.

Lemma dsk_put s b f : dsk (put b f s) = dsk s.
Proof. done. Qed.
End Put.

(** ** The linked list *)

Section Ring.
Implicit Types (s : bstate) (a b x z : Z) (l : list Z).

(** From [a] the buffers [l] follow, then [z]; both directions. *)
Fixpoint lseg s a l z : Prop :=
  match l with
  | [] => b_next (bufat s a) = z /\ b_prev (bufat s z) = a
  | x :: l' => b_next (bufat s a) = x /\ b_prev (bufat s x) = a /\ lseg s x l' z
  end.

Lemma lseg_app s a l1 b l2 z : lseg s a (l1 ++ b :: l2) z <-> lseg s a l1 b /\ lseg s b l2 z.
Proof.
  revert a. induction l1 as [|x l1 IH]; intros a; cbn; [tauto|]. rewrite IH. tauto.
Qed.

Lemma lseg_frame s s' a l z :
  (forall x, x ∈ a :: l -> b_next (bufat s' x) = b_next (bufat s x)) ->
  (forall x, x ∈ l ++ [z] -> b_prev (bufat s' x) = b_prev (bufat s x)) ->
  lseg s a l z -> lseg s' a l z.
Proof.
  revert a. induction l as [|x l IH]; intros a Hn Hp; cbn.
  - rewrite Hn, Hp by set_solver. done.
  - intros (A & B & C). rewrite Hn, Hp by set_solver. split_and!; [done|done|].
    apply IH; [intros; apply Hn; set_solver|intros; apply Hp; set_solver|done].
Qed.

Lemma lseg_next s a l z : lseg s a l z -> b_next (bufat s a) = List.hd z l.
Proof. destruct l; cbn; tauto. Qed.

Lemma scan_next s ok a l :
  lseg s a l head -> head ∉ l -> scan b_next ok (length l) (b_next (bufat s a)) s = List.find (fun b => ok (bufat s b)) l.
Proof.
  revert a. induction l as [|x l IH]; intros a L N; cbn; [done|].
  destruct L as (-> & _ & L). apply not_elem_of_cons in N as [Nx N].
  destruct (Z.eqb_spec x head); [congruence|]. destruct (ok (bufat s x)); [done|]. by apply IH.
Qed.

Lemma scan_prev s ok l z :
  lseg s head l z -> head ∉ l ->
  scan b_prev ok (length l) (b_prev (bufat s z)) s = List.find (fun b => ok (bufat s b)) (rev l).
Proof.
  revert z. induction l as [|x l IH] using rev_ind; intros z L N; [done|].
  apply lseg_app in L as [L1 [_ E]]. rewrite E, rev_unit, length_app. cbn [length].
  rewrite Nat.add_1_r. cbn. apply not_elem_of_app in N as [N Nx].
  destruct (Z.eqb_spec x head); [set_solver|]. destruct (ok (bufat s x)); [done|]. by apply IH.
Qed.

(** The list of all buffers, most recently used first. *)
Definition ring s : Prop := exists l, lseg s head l head /\ Permutation l (seqZ 0 30).

Lemma ring_range l : Permutation l (seqZ 0 30) -> forall x, x ∈ l <-> 0 <= x < 30.
Proof. intros E x. rewrite E, elem_of_seqZ. lia. Qed.

Lemma ring_NoDup l : Permutation l (seqZ 0 30) -> NoDup l /\ length l = 30%nat /\ head ∉ l.
Proof.
  intros E. split_and!.
  - rewrite E. apply NoDup_seqZ.
  - rewrite E. by rewrite length_seqZ.
  - rewrite (ring_range l E). unfold head, NBUF, MAXOPBLOCKS. lia.
Qed.
(** [s'] links [y] to [x] and is otherwise linked as [s]. *)
Definition relinked s s' y x : Prop :=
  (forall i, b_next (bufat s' i) = if i =? y then x else b_next (bufat s i)) /\
  (forall i, b_prev (bufat s' i) = if i =? x then y else b_prev (bufat s i)).

Lemma lseg_prev s l z a : lseg s a l z -> b_prev (bufat s z) = List.last l a.
Proof.
  revert a. induction l as [|x l IH]; intros a; cbn [lseg]; [by intros [_ ->]|].
  intros (_ & _ & L). rewrite (IH _ L). destruct l; [done|]. apply (f_equal (fun o => o)).
  change (List.last (z0 :: l) x = List.last (z0 :: l) a). clear.
  revert z0. induction l as [|y l IH]; intros z0; [done|]. apply IH.
Qed.

(** Linking the two halves around an element takes it out of the list. *)
Lemma lseg_unlink s s' l1 b l2 :
  lseg s head (l1 ++ b :: l2) head -> NoDup (head :: l1 ++ b :: l2) ->
  relinked s s' (b_prev (bufat s b)) (b_next (bufat s b)) -> lseg s' head (l1 ++ l2) head.
Proof.
  intros L N [Rn Rp]. apply lseg_app in L as [L1 L2]. apply NoDup_cons in N as [Nh N].
  apply NoDup_app in N as (N1 & N12 & N2). apply NoDup_cons in N2 as [Nb N2].
  pose proof (lseg_prev _ _ _ _ L1) as Ep. pose proof (lseg_next _ _ _ _ L2) as En.
  rewrite Ep, En in *. clear Ep En.
  destruct l1 as [|y l1 _] using rev_ind; destruct l2 as [|x l2]; cbn [List.last List.hd lseg app] in *.
  - rewrite Rn, Rp. rewrite !Z.eqb_refl. done.
  - rewrite Rn, Rp, !Z.eqb_refl. split_and!; [done..|]. destruct L2 as (_ & _ & L2).
    revert L2. apply lseg_frame; intros i Hi; rewrite ?Rn, ?Rp.
    + destruct (Z.eqb_spec i head); [set_solver|done].
    + destruct (Z.eqb_spec i x) as [->|]; [|done]. apply NoDup_cons in N2. set_solver.
  - rewrite List.last_last in *. rewrite app_nil_r. apply lseg_app. apply lseg_app in L1 as [L1 _].
    split; [|cbn; rewrite Rn, Rp, !Z.eqb_refl; done].
    revert L1. apply lseg_frame; intros i Hi; rewrite ?Rn, ?Rp.
    + destruct (Z.eqb_spec i y) as [->|]; [|done]. exfalso. apply NoDup_app in N1. set_solver.
    + destruct (Z.eqb_spec i head); [set_solver|done].
  - rewrite List.last_last in *. rewrite <- app_assoc. cbn [app]. apply lseg_app. cbn [lseg].
    apply lseg_app in L1 as [L1 _]. destruct L2 as (_ & _ & L2).
    apply NoDup_app in N1 as (N1 & Ny & _). apply NoDup_cons in N2 as [Nx N2].
    rewrite Rn, Rp, !Z.eqb_refl. split_and!; [|done|done|].
    + revert L1. apply lseg_frame; intros i Hi; rewrite ?Rn, ?Rp.
      * destruct (Z.eqb_spec i y) as [->|]; [|done]. exfalso. set_solver.
      * destruct (Z.eqb_spec i x) as [->|]; [|done]. exfalso. set_solver.
    + revert L2. apply lseg_frame; intros i Hi; rewrite ?Rn, ?Rp.
      * destruct (Z.eqb_spec i y) as [->|]; [|done]. exfalso. set_solver.
      * destruct (Z.eqb_spec i x) as [->|]; [|done]. exfalso. set_solver.
Qed.

Lemma lseg_push s s' b l :
  lseg s head l head -> NoDup (head :: b :: l) -> 
  (forall i, b_next (bufat s' i) = if i =? head then b else if i =? b then b_next (bufat s head) else b_next (bufat s i)) ->
  (forall i, b_prev (bufat s' i) = if i =? b_next (bufat s head) then b else if i =? b then head else b_prev (bufat s i)) ->
  lseg s' head (b :: l) head.
Proof.
  intros L N Rn Rp. apply NoDup_cons in N as [Nh N]. apply NoDup_cons in N as [Nb N].
  rewrite (lseg_next _ _ _ _ L) in *. cbn [lseg].
  assert (b <> List.hd head l) by (destruct l; cbn in *; set_solver).
  rewrite Rn, Rp, Z.eqb_refl. destruct (Z.eqb_spec b (List.hd head l)); [done|]. rewrite Z.eqb_refl.
  split_and!; [done..|]. destruct l as [|x l]; cbn [List.hd lseg] in *.
  - rewrite Rn, Rp, !Z.eqb_refl. destruct (Z.eqb_spec b head); [set_solver|done].
  - destruct L as (_ & _ & L). rewrite Rn, Rp, !Z.eqb_refl. destruct (Z.eqb_spec b head); [set_solver|].
    split_and!; [done..|]. apply NoDup_cons in N as [Nx N].
    revert L. apply lseg_frame; intros i Hi; rewrite ?Rn, ?Rp.
    + destruct (Z.eqb_spec i head); [set_solver|]. destruct (Z.eqb_spec i b); [set_solver|done].
    + destruct (Z.eqb_spec i x); [set_solver|]. destruct (Z.eqb_spec i b); [set_solver|done].
Qed.
End Ring.

(** ** The invariant *)

(** A buffer without its place in the list. *)
Definition pay (x : buf) : buf := x <| b_prev := 0 |> <| b_next := 0 |>.

Definition isbuf (b : Z) : Prop := 0 <= b < 30.

Definition count (x : Z) (l : list Z) : Z := if decide (x ∈ l) then 1 else 0.

(** One buffer: either never used, or the only copy of its block; held by this
    process exactly if in [H]; [unused] exactly if neither held nor pinned; if
    unused then as on the disk. *)
Record buf_ok (s : bstate) (H P : list Z) (b : Z) (x : buf) : Prop := {
  ok_used : b_dev x = ROOTDEV /\ b_valid x = 1 \/ b_dev x = 0 /\ b_refcnt x = 0 /\ b ∉ H;
  ok_lock : b_lock x = if decide (b ∈ H) then mkSleeplock 1 (me s) else mkSleeplock 0 0;
  ok_ref : b_dev x = ROOTDEV -> b_refcnt x = count b H + count (b_blockno x) P;
  ok_clean : b_dev x = ROOTDEV -> b ∉ H -> b_blockno x ∉ P -> b_data x = dsk s (b_blockno x);
  ok_size : length (b_data x) = 1024%nat
}.

Record binv (s : bstate) (H P : list Z) : Prop := {
  bi_len : length (bufs s) = 31%nat;
  bi_ring : ring s;
  bi_held : NoDup H /\ forall b, b ∈ H -> isbuf b;
  bi_pins : NoDup P /\ forall k, k ∈ P -> exists b, isbuf b /\ cached ROOTDEV k (bufat s b) = true;
  bi_buf : forall b, isbuf b -> buf_ok s H P b (bufat s b);
  bi_uniq : forall b b' k, isbuf b -> isbuf b' -> cached ROOTDEV k (bufat s b) = true ->
            cached ROOTDEV k (bufat s b') = true -> b = b';
  bi_disk : forall k, length (dsk s k) = 1024%nat
}.

Section Inv.
Implicit Types (s : bstate) (b k : Z) (H P : list Z).

Lemma cached_eq dev k (x : buf) : cached dev k x = true <-> b_dev x = dev /\ b_blockno x = k.
Proof. unfold cached. rewrite andb_true_iff, !Z.eqb_eq. done. Qed.

Lemma pay_eq (x y : buf) : pay x = pay y ->
  b_dev x = b_dev y /\ b_valid x = b_valid y /\ b_blockno x = b_blockno y /\ b_lock x = b_lock y /\
  b_refcnt x = b_refcnt y /\ b_data x = b_data y.
Proof. destruct x, y. cbn. by intros [= -> -> -> -> -> ->]. Qed.

Lemma buf_ok_pay s H P b (x y : buf) : pay x = pay y -> buf_ok s H P b x -> buf_ok s H P b y.
Proof. intros (E1 & E2 & E3 & E4 & E5 & E6)%pay_eq []. split; rewrite <- ?E1, <- ?E2, <- ?E3, <- ?E4, <- ?E5, <- ?E6; done. Qed.

Lemma cached_pay dev k (x y : buf) : pay x = pay y -> cached dev k x = cached dev k y.
Proof. intros (E1 & _ & E3 & _)%pay_eq. unfold cached. by rewrite E1, E3. Qed.

(** What the cache and the disk together hold for a block. *)
Definition bview s k : list Z :=
  match List.find (fun b => cached ROOTDEV k (bufat s b)) (seqZ 0 30) with
  | Some b => b_data (bufat s b)
  | None => dsk s k
  end.

Lemma in_bufs b : In b (seqZ 0 30) <-> isbuf b.
Proof. rewrite <- list_elem_of_In, elem_of_seqZ. unfold isbuf. lia. Qed.

Lemma bview_hit s H P b k : binv s H P -> isbuf b -> cached ROOTDEV k (bufat s b) = true -> bview s k = b_data (bufat s b).
Proof.
  intros I B C. unfold bview. destruct (List.find _ _) as [b'|] eqn:E.
  - apply find_some in E as [B' C']. apply in_bufs in B'. by rewrite (bi_uniq _ _ _ I b' b k).
  - apply in_bufs, (find_none _ _ E) in B. congruence.
Qed.

Lemma bview_miss s k : (forall b, isbuf b -> cached ROOTDEV k (bufat s b) = false) -> bview s k = dsk s k.
Proof.
  intros N. unfold bview. destruct (List.find _ _) as [b'|] eqn:E; [|done].
  apply find_some in E as [B' C']. apply in_bufs in B'. rewrite N in C'; done.
Qed.

Lemma cached_dec s k : (exists b, isbuf b /\ cached ROOTDEV k (bufat s b) = true) \/ 
  forall b, isbuf b -> cached ROOTDEV k (bufat s b) = false.
Proof.
  destruct (List.find (fun b => cached ROOTDEV k (bufat s b)) (seqZ 0 30)) as [b|] eqn:E.
  - apply find_some in E as [B C]. left. exists b. by rewrite <- in_bufs.
  - right. intros b B. apply (find_none _ _ E). by apply in_bufs.
Qed.

(** A step that changes the buffer [b] and the sets [H] and [P] at [b] only. *)
Lemma binv_step s s' b H H' P P' :
  binv s H P -> isbuf b -> length (bufs s') = 31%nat -> ring s' -> me s' = me s ->
  (forall x, isbuf x -> x <> b -> pay (bufat s' x) = pay (bufat s x)) ->
  (forall x, x <> b -> x ∈ H' <-> x ∈ H) -> NoDup H' -> (forall x, x ∈ H' -> isbuf x) ->
  (forall k, k <> b_blockno (bufat s' b) -> k ∈ P' <-> k ∈ P) -> NoDup P' ->
  (forall x, isbuf x -> x <> b -> b_dev (bufat s x) = ROOTDEV -> b_blockno (bufat s x) <> b_blockno (bufat s' b)) ->
  (b_blockno (bufat s b) = b_blockno (bufat s' b) \/ b_blockno (bufat s b) ∉ P \/ b_dev (bufat s b) = 0) ->
  (forall k, k <> b_blockno (bufat s' b) -> dsk s' k = dsk s k) -> (forall k, length (dsk s' k) = 1024%nat) ->
  b_dev (bufat s' b) = ROOTDEV -> buf_ok s' H' P' b (bufat s' b) -> binv s' H' P'.
Proof.
  intros I B L R Me Pay Hx NH RH Pk NP U Ev D Dl Dev Ok.
  assert (C : forall x k, isbuf x -> x <> b -> cached ROOTDEV k (bufat s' x) = cached ROOTDEV k (bufat s x)).
  { intros. by apply cached_pay, Pay. }
  split; [done|done|done| | | |done].
  - split; [done|]. intros k K. destruct (Z.eq_dec k (b_blockno (bufat s' b))) as [->|N].
    + exists b. split; [done|]. by apply cached_eq.
    + apply (Pk k N) in K as K'. destruct (bi_pins _ _ _ I) as [_ E]. destruct (E k K') as (x & X & Cx).
      exists x. split; [done|]. rewrite C; [done..|]. intros ->. apply cached_eq in Cx as [? ?].
      destruct Ev as [|[|]]; [congruence..|]. unfold ROOTDEV in *. congruence.
  - intros x X. destruct (Z.eq_dec x b) as [->|N]; [done|].
    apply (buf_ok_pay _ _ _ _ (bufat s x)); [symmetry; by apply Pay|].
    destruct (bi_buf _ _ _ I x X) as [u lk rf cl sz]. split; [..|done].
    + destruct u as [|(? & ? & ?)]; [by left|right]. by rewrite Hx.
    + rewrite lk, Me. destruct (decide (x ∈ H)), (decide (x ∈ H')); try done; exfalso; by apply Hx in n || apply n, Hx.
    + intros E. rewrite (rf E). specialize (U x X N E). specialize (Pk _ U). unfold count.
      destruct (decide (x ∈ H)), (decide (x ∈ H')); try (exfalso; by (apply n, Hx || apply Hx in n));
      destruct (decide (b_blockno (bufat s x) ∈ P)), (decide (b_blockno (bufat s x) ∈ P')); tauto || done.
    + intros E N1 N2. specialize (U x X N E). rewrite D by done. apply cl; [done|by rewrite <- Hx|by rewrite <- Pk].
  - intros x y k X Y. destruct (Z.eq_dec x b) as [->|Nx], (Z.eq_dec y b) as [->|Ny]; [done|..].
    + rewrite (C y), !cached_eq by done. intros [_ <-] [? E]. by apply U in E.
    + rewrite (C x), !cached_eq by done. intros [? E] [_ <-]. by apply U in E.
    + rewrite !C by done. by apply (bi_uniq _ _ _ I).
Qed.
Lemma bview_intro s H P k v :
  binv s H P -> (forall b, isbuf b -> cached ROOTDEV k (bufat s b) = true -> b_data (bufat s b) = v) ->
  ((forall b, isbuf b -> cached ROOTDEV k (bufat s b) = false) -> dsk s k = v) -> bview s k = v.
Proof.
  intros I A N. destruct (cached_dec s k) as [(b & B & C)|C].
  - rewrite (bview_hit s H P b k) by done. by apply A.
  - rewrite bview_miss by done. by apply N.
Qed.

Lemma ring_put s b f :
  length (bufs s) = 31%nat -> 0 <= b <= 30 -> (forall x, b_next (f x) = b_next x /\ b_prev (f x) = b_prev x) ->
  ring s -> ring (put b f s).
Proof.
  intros L B F (l & S & Pm). exists l. split; [|done]. revert S.
  apply lseg_frame; intros x _; rewrite bufat_put by done; destruct (Z.eqb_spec x b) as [->|]; by try apply F.
Qed.

(** If every buffer is in use, the pins and the held buffers are NBUF many. *)
Lemma all_used s H P : binv s H P -> (forall b, isbuf b -> unused (bufat s b) = false) -> (30 <= length H + length P)%nat.
Proof.
  intros I U.
  assert (E : Permutation (filter (fun b => b ∈ H) (seqZ 0 30) ++ filter (fun b => b ∉ H) (seqZ 0 30)) (seqZ 0 30))
    by apply filter_app_complement.
  apply Permutation_length in E. rewrite length_app, length_seqZ in E. change (Z.to_nat 30) with 30%nat in E.
  rewrite <- E. apply Nat.add_le_mono.
  - apply submseteq_length, NoDup_submseteq; [apply NoDup_filter, NoDup_seqZ|].
    intros b [? _]%list_elem_of_filter. done.
  - rewrite <- (length_map (fun b => b_blockno (bufat s b))).
    assert (Q : forall b, b ∈ filter (fun b => b ∉ H) (seqZ 0 30) -> isbuf b /\ b_dev (bufat s b) = ROOTDEV /\ b_blockno (bufat s b) ∈ P).
    { intros b [N B]%list_elem_of_filter. apply elem_of_seqZ in B. assert (isbuf b) as Hb by (unfold isbuf; lia).
      specialize (U b Hb). unfold unused in U. apply Z.eqb_neq in U. destruct (bi_buf _ _ _ I b Hb) as [u _ rf _ _].
      destruct u as [[D _]|(_ & ? & _)]; [|done]. rewrite (rf D) in U. unfold count in U.
      destruct (decide (b ∈ H)); [done|]. destruct (decide (_ ∈ P)); done. }
    apply submseteq_length, NoDup_submseteq.
    + apply NoDup_fmap_2_strong; [|apply NoDup_filter, NoDup_seqZ].
      intros b b' (B & D & _)%Q (B' & D' & _)%Q K. apply (bi_uniq _ _ _ I b b' (b_blockno (bufat s b))); try done; by apply cached_eq.
    + intros k (b & -> & (_ & _ & ?)%Q)%list_elem_of_fmap. done.
Qed.
(** ** The operations *)

Lemma put_put s b f g :
  length (bufs s) = 31%nat -> 0 <= b <= 30 -> put b f (put b g s) = put b (fun x => f (g x)) s.
Proof.
  intros L B. unfold put, over. cbn. rewrite at_upd_eq by lia. f_equal.
  unfold upd. destruct (0 <=? b); [|done]. by rewrite list_insert_insert_eq.
Qed.

Lemma acquire_run s b : b_lock (bufat s b) = mkSleeplock 0 0 ->
  acquiresleep (b_lock_of b) (b_chan b) s = Ok tt (put b (fun x => x <| b_lock := mkSleeplock 1 (me s) |>) s).
Proof. intros E. unfold acquiresleep, bind, gets. cbn [b_lock_of lget]. by rewrite E. Qed.

Lemma bget_hit s H P b k :
  binv s H P -> isbuf b -> cached ROOTDEV k (bufat s b) = true -> b ∉ H ->
  bget_ ROOTDEV k s =
  Ok b (put b (fun x => x <| b_refcnt ::= fun n => u32 (n + 1) |> <| b_lock := mkSleeplock 1 (me s) |>) s).
Proof.
  intros I B C N. destruct (bi_ring _ _ _ I) as (l & L & Pm). destruct (ring_NoDup l Pm) as (_ & Ln & Nh).
  unfold bget_, bind at 1, gets. replace (Z.to_nat NBUF) with (length l) by done.
  rewrite (scan_next _ _ _ l) by done. destruct (List.find _ l) as [b'|] eqn:E.
  - apply find_some in E as [B' C']. apply list_elem_of_In, (ring_range l Pm) in B'.
    rewrite (bi_uniq _ _ _ I b' b k) by done. unfold bind at 1, setb, modify.
    unfold bind. rewrite acquire_run.
    + unfold ret. f_equal. rewrite put_put; [done|apply (bi_len _ _ _ I)|unfold isbuf in B; lia].
    + rewrite bufat_put, Z.eqb_refl by (apply (bi_len _ _ _ I) || (unfold isbuf in B; lia)).
      etransitivity; [apply (ok_lock _ _ _ _ _ (bi_buf _ _ _ I b B))|by rewrite decide_False].
  - assert (In b l) as Hb by (apply list_elem_of_In, (ring_range l Pm); done).
    apply (find_none _ _ E) in Hb. congruence.
Qed.

Lemma bget_miss s H P k :
  binv s H P -> (forall b, isbuf b -> cached ROOTDEV k (bufat s b) = false) -> (length H + length P < 30)%nat ->
  exists b, isbuf b /\ unused (bufat s b) = true /\ b ∉ H /\
    bget_ ROOTDEV k s =
    Ok b (put b (fun x => x <| b_dev := ROOTDEV |> <| b_blockno := k |> <| b_valid := 0 |> <| b_refcnt := 1 |>
                            <| b_lock := mkSleeplock 1 (me s) |>) s).
Proof.
  intros I C Q. destruct (bi_ring _ _ _ I) as (l & L & Pm). destruct (ring_NoDup l Pm) as (_ & Ln & Nh).
  unfold bget_, bind at 1, gets. replace (Z.to_nat NBUF) with (length l) by done.
  rewrite (scan_next _ _ _ l) by done. destruct (List.find _ l) as [b'|] eqn:E.
  { apply find_some in E as [B' C']. apply list_elem_of_In, (ring_range l Pm) in B'. rewrite C in C'; done. }
  unfold bind at 1. rewrite (scan_prev _ _ l) by done. destruct (List.find _ (rev l)) as [b|] eqn:E'.
  - apply find_some in E' as [B U]. apply in_rev, list_elem_of_In, (ring_range l Pm) in B.
    destruct (bi_buf _ _ _ I b B) as [u lk rf cl sz].
    assert (Nb : b ∉ H).
    { destruct u as [[D _]|(_ & _ & ?)]; [|done]. unfold unused in U. rewrite (rf D) in U. unfold count in U.
      destruct (decide (b ∈ H)); [|done]. destruct (decide (_ ∈ P)); done. }
    exists b. split_and!; [done..|]. unfold bind at 1, setb, modify.
    unfold bind. rewrite acquire_run.
    + unfold ret. f_equal. rewrite put_put; [done|apply (bi_len _ _ _ I)|unfold isbuf in B; lia].
    + rewrite bufat_put, Z.eqb_refl by (apply (bi_len _ _ _ I) || (unfold isbuf in B; lia)).
      etransitivity; [apply (ok_lock _ _ _ _ _ (bi_buf _ _ _ I b B))|by rewrite decide_False].
  - exfalso. enough (30 <= length H + length P)%nat by lia. apply (all_used s H P I). intros b B. apply (find_none _ _ E').
    rewrite <- in_rev. by apply list_elem_of_In, (ring_range l Pm).
Qed.
(** [s'] is [s] but for the state of the cache; the held buffers [H] and what
    every block holds are the same. *)
Record quiet s s' H : Prop := {
  q_me : me s' = me s;
  q_dsk : dsk s' = dsk s;
  q_writes : writes s' = writes s;
  q_held : forall x, x ∈ H -> pay (bufat s' x) = pay (bufat s x);
  q_view : forall k, bview s' k = bview s k
}.

Lemma u32_count (x y : Z) (l l' : list Z) : x ∉ l -> u32 (count x l + count y l' + 1) = 1 + count y l'.
Proof. intros. unfold count. destruct (decide (x ∈ l)); [done|]. by destruct (decide (y ∈ l')). Qed.

Lemma count_cons_eq (x : Z) (l : list Z) : count x (x :: l) = 1.
Proof. unfold count. rewrite decide_True; [done|set_solver]. Qed.

(** A step that writes the buffer [b] in place. *)
Lemma quiet_put s s' b f H P H' P' :
  binv s H P -> binv s' H' P' -> isbuf b -> s' = put b f s -> b ∉ H ->
  (forall k, bview s' k = bview s k) -> quiet s s' H.
Proof.
  intros I I' B -> N V. split; [done|done|done| |done]. intros x Hx. rewrite bufat_put.
  - destruct (Z.eqb_spec x b); [congruence|done].
  - apply (bi_len _ _ _ I).
  - unfold isbuf in B. lia.
Qed.

Lemma hit_inv s H P b k f :
  binv s H P -> isbuf b -> cached ROOTDEV k (bufat s b) = true -> b ∉ H ->
  f = (fun x => x <| b_refcnt ::= fun n => u32 (n + 1) |> <| b_lock := mkSleeplock 1 (me s) |>) ->
  binv (put b f s) (b :: H) P.
Proof.
  intros I B C N ->. apply cached_eq in C as [D K]. assert (R : 0 <= b <= 30) by (unfold isbuf in B; lia).
  pose proof (bi_len _ _ _ I) as L. destruct (bi_held _ _ _ I) as [NH RH].
  apply (binv_step s _ b H (b :: H) P P); rewrite ?bufat_put, ?Z.eqb_refl by done; try done.
  - by rewrite length_put.
  - apply ring_put; [done|done|by intros []|apply (bi_ring _ _ _ I)].
  - intros x X Nx. rewrite bufat_put by done. by destruct (Z.eqb_spec x b).
  - set_solver.
  - by apply NoDup_cons.
  - intros x [->|]%elem_of_cons; auto.
  - apply (bi_pins _ _ _ I).
  - intros x X Nx Dx E. apply Nx, (bi_uniq _ _ _ I x b k); try done; apply cached_eq; [|done].
    split; [done|]. rewrite <- K. exact E.
  - by left.
  - apply (bi_disk _ _ _ I).
  - destruct (bi_buf _ _ _ I b B) as [u lk rf cl sz]. split; try done.
    + left. split; [done|]. by destruct u as [[_ ?]|[? _]]; [|unfold ROOTDEV in *; congruence].
    + rewrite decide_True by set_solver. done.
    + intros _. rewrite count_cons_eq. change (u32 (b_refcnt (bufat s b) + 1) = 1 + count (b_blockno (bufat s b)) P).
      rewrite rf by done. by apply u32_count.
    + intros _ Hn. exfalso. set_solver.
Qed.

Lemma miss_inv s H P b k f :
  binv s H P -> isbuf b -> unused (bufat s b) = true -> b ∉ H ->
  (forall b, isbuf b -> cached ROOTDEV k (bufat s b) = false) ->
  f = (fun x => x <| b_dev := ROOTDEV |> <| b_blockno := k |> <| b_valid := 1 |> <| b_refcnt := 1 |>
                  <| b_lock := mkSleeplock 1 (me s) |> <| b_data := dsk s k |>) ->
  binv (put b f s) (b :: H) P.
Proof.
  intros I B U N C ->. assert (R : 0 <= b <= 30) by (unfold isbuf in B; lia).
  pose proof (bi_len _ _ _ I) as L. destruct (bi_held _ _ _ I) as [NH RH].
  assert (Nk : k ∉ P).
  { intros K. destruct (bi_pins _ _ _ I) as [_ E]. destruct (E k K) as (x & X & Cx). rewrite C in Cx; done. }
  destruct (bi_buf _ _ _ I b B) as [u lk rf cl sz].
  apply (binv_step s _ b H (b :: H) P P); rewrite ?bufat_put, ?Z.eqb_refl by done; try done.
  - by rewrite length_put.
  - apply ring_put; [done|done|by intros []|apply (bi_ring _ _ _ I)].
  - intros x X Nx. rewrite bufat_put by done. by destruct (Z.eqb_spec x b).
  - set_solver.
  - by apply NoDup_cons.
  - intros x [->|]%elem_of_cons; auto.
  - apply (bi_pins _ _ _ I).
  - intros x X Nx Dx E. specialize (C x X). unfold cached in C. rewrite Dx, Z.eqb_refl in C.
    apply Z.eqb_neq in C. done.
  - destruct u as [[D _]|[D _]]; [|by right; right]. right. left. intros Kp. unfold unused in U. rewrite rf in U by done.
    unfold count in U. destruct (decide (_ ∈ P)); [|done]. by destruct (decide (b ∈ H)).
  - apply (bi_disk _ _ _ I).
  - split; try done.
    + by left.
    + by rewrite decide_True by set_solver.
    + intros _. rewrite count_cons_eq. unfold count. by rewrite decide_False.
    + apply (bi_disk _ _ _ I).
Qed.

(** What [bread] leaves: the block [k] in a buffer [b] the process holds. *)
Definition got s H P k b s' : Prop :=
  binv s' (b :: H) P /\ quiet s s' H /\ b ∉ H /\ wakeups s' = wakeups s /\
  isbuf b /\ cached ROOTDEV k (bufat s' b) = true /\ b_data (bufat s' b) = bview s k.

Lemma bread_hit s H P b k :
  binv s H P -> isbuf b -> cached ROOTDEV k (bufat s b) = true -> b ∉ H ->
  exists s', bread ROOTDEV k s = Ok b s' /\ got s H P k b s'.
Proof.
  intros I B C N. pose proof (bi_len _ _ _ I) as L. assert (R : 0 <= b <= 30) by (unfold isbuf in B; lia).
  pose proof (hit_inv s H P b k _ I B C N eq_refl) as I'. set (s' := put _ _ s) in I'.
  assert (Bu : forall x, pay (bufat s' x) = pay (bufat s x) \/ x = b).
  { intros x. unfold s'. rewrite bufat_put by done. destruct (Z.eqb_spec x b); auto. }
  assert (Bd : b_data (bufat s' b) = b_data (bufat s b) /\ forall y, cached ROOTDEV y (bufat s' b) = cached ROOTDEV y (bufat s b)).
  { unfold s'. rewrite bufat_put, Z.eqb_refl by done. done. }
  exists s'. unfold got. split_and!; try done.
  - unfold bread, bind at 1. rewrite (bget_hit s H P b k) by done. fold s'. unfold bind at 1, getb, gets.
    assert (b_valid (bufat s' b) = 1) as ->; [|done].
    destruct (ok_used _ _ _ _ _ (bi_buf _ _ _ I' b B)) as [[_ ?]|(_ & _ & X)]; [done|set_solver].
  - eapply quiet_put; [exact I|exact I'|done|reflexivity|done|]. intros y. fold s'.
    apply (bview_intro s' (b :: H) P); [done|..].
    + intros x X Cx. destruct (Bu x) as [E| ->].
      * rewrite (cached_pay _ _ _ _ E) in Cx. rewrite (bview_hit s H P x y) by done. by apply pay_eq in E as (_ & _ & _ & _ & _ & ?).
      * destruct Bd as [-> Cb]. rewrite Cb in Cx. by rewrite (bview_hit s H P b y).
    + intros Cx. rewrite bview_miss; [done|]. intros x X. specialize (Cx x X). destruct (Bu x) as [E| ->].
      * by rewrite <- (cached_pay _ _ _ _ E).
      * by rewrite <- (proj2 Bd).
  - by rewrite (proj2 Bd).
  - rewrite (proj1 Bd). symmetry. by apply (bview_hit s H P).
Qed.

Lemma unused_clean s H P b : binv s H P -> isbuf b -> unused (bufat s b) = true -> b_dev (bufat s b) = ROOTDEV ->
  b_data (bufat s b) = dsk s (b_blockno (bufat s b)).
Proof.
  intros I B U D. destruct (bi_buf _ _ _ I b B) as [u lk rf cl sz]. unfold unused in U. rewrite rf in U by done.
  unfold count in U. destruct (decide (b ∈ H)); destruct (decide (_ ∈ P)); try done. by apply cl.
Qed.

Lemma bread_miss s H P k :
  binv s H P -> (forall b, isbuf b -> cached ROOTDEV k (bufat s b) = false) -> (length H + length P < 30)%nat ->
  exists b s', bread ROOTDEV k s = Ok b s' /\ got s H P k b s'.
Proof.
  intros I C Q. pose proof (bi_len _ _ _ I) as L. destruct (bget_miss s H P k I C Q) as (b & B & U & N & E).
  assert (R : 0 <= b <= 30) by (unfold isbuf in B; lia).
  pose proof (miss_inv s H P b k _ I B U N C eq_refl) as I'. set (s' := put _ _ s) in I'.
  assert (Sb : forall x, bufat s' x = if x =? b then bufat s' b else bufat s x).
  { intros x. unfold s'. rewrite !bufat_put by done. rewrite Z.eqb_refl. by destruct (x =? b). }
  assert (Bd : b_data (bufat s' b) = dsk s k /\ b_dev (bufat s' b) = ROOTDEV /\ b_blockno (bufat s' b) = k).
  { unfold s'. rewrite bufat_put, Z.eqb_refl by done. done. }
  exists b, s'. unfold got. split_and!; try done.
  - unfold bread, bind at 1. rewrite E. unfold bind at 1, getb, gets. rewrite bufat_put, Z.eqb_refl by done.
    cbn [b_valid over Z.eqb]. unfold virtio_disk_rw, getb, setb, bind, gets, modify, ret.
    cbn [b_valid over Z.eqb]. rewrite !put_put by (rewrite ?length_put; done). done.
  - eapply quiet_put; [exact I|exact I'|done|reflexivity|done|]. intros y. fold s'.
    apply (bview_intro s' (b :: H) P); [done|..].
    + intros x X Cx. revert Cx. rewrite (Sb x). destruct (Z.eqb_spec x b) as [Ex|Nx]; intros Cx.
      * apply cached_eq in Cx as [_ Ek]. destruct Bd as (Ed & _ & Eb). rewrite Ed, <- Ek, Eb. symmetry. by apply bview_miss.
      * by rewrite (bview_hit s H P x y).
    + intros Cx. destruct (cached_dec s y) as [(x & X & Cy)|Cy]; [|by rewrite bview_miss].
      specialize (Cx x X). rewrite Sb in Cx. destruct (Z.eqb_spec x b) as [Ex|Nx]; [rewrite Ex in Cy|congruence].
      rewrite (bview_hit s H P b y) by done. apply cached_eq in Cy as [Dy <-]. symmetry. by apply (unused_clean s H P).
  - apply cached_eq. tauto.
  - destruct Bd as [-> _]. symmetry. by apply bview_miss.
Qed.

Lemma bread_spec s H P k :
  binv s H P -> (forall b, b ∈ H -> b_blockno (bufat s b) <> k) -> (length H + length P < 30)%nat \/ k ∈ P ->
  exists b s', bread ROOTDEV k s = Ok b s' /\ got s H P k b s'.
Proof.
  intros I Nk Q. destruct (cached_dec s k) as [(b & B & C)|C].
  - exists b. apply bread_hit; [done..|]. intros Hb. apply cached_eq in C as [_ ?]. by apply (Nk b).
  - apply bread_miss; [done..|]. destruct Q as [|Kp]; [done|]. destruct (bi_pins _ _ _ I) as [_ E].
    destruct (E k Kp) as (x & X & Cx). rewrite C in Cx; done.
Qed.
Lemma proj_put {A} (g : buf -> A) s b f i :
  length (bufs s) = 31%nat -> 0 <= b <= 30 ->
  g (bufat (put b f s) i) = if i =? b then g (f (bufat s b)) else g (bufat s i).
Proof. intros. rewrite bufat_put by done. by destruct (i =? b). Qed.

Lemma proj_put_same {A} (g : buf -> A) s b f i :
  length (bufs s) = 31%nat -> 0 <= b <= 30 -> (forall x, g (f x) = g x) ->
  g (bufat (put b f s) i) = g (bufat s i).
Proof. intros ? ? E. rewrite proj_put by done. destruct (Z.eqb_spec i b) as [->|]; [apply E|done]. Qed.

Lemma relink_spec s b :
  length (bufs s) = 31%nat -> ring s -> isbuf b ->
  exists s', relink b s = Ok tt s' /\ ring s' /\ length (bufs s') = 31%nat /\
    (forall x, pay (bufat s' x) = pay (bufat s x)) /\
    me s' = me s /\ dsk s' = dsk s /\ writes s' = writes s /\ wakeups s' = wakeups s.
Proof.
  intros L (l & Sg & Pm) B. assert (Bl : b ∈ l) by (by apply (ring_range l Pm)).
  destruct (ring_NoDup l Pm) as (Nd & Ln & Nh). apply list_elem_of_split in Bl as (l1 & l2 & ->).
  pose proof Sg as Sg'. apply lseg_app in Sg' as [S1 S2].
  assert (Rg : forall x, x ∈ l1 ++ b :: l2 -> 0 <= x <= 30) by (intros x X; apply (ring_range _ Pm) in X; lia).
  assert (R : 0 <= b <= 30) by (unfold isbuf in B; lia).
  assert (Rh : 0 <= head <= 30) by done.
  assert (Rn : 0 <= b_next (bufat s b) <= 30).
  { rewrite (lseg_next _ _ _ _ S2). destruct l2; cbn; [done|]. apply Rg. set_solver. }
  assert (Rp : 0 <= b_prev (bufat s b) <= 30).
  { rewrite (lseg_prev _ _ _ _ S1). destruct l1 as [|y l1 _] using rev_ind; [done|].
    rewrite List.last_last. apply Rg. set_solver. }
  unfold relink, push_front, getb, setb, bind, gets, modify. eexists. split; [reflexivity|].
  set (s1 := put (b_prev _) _ _).
  assert (L1 : length (bufs s1) = 31%nat) by (unfold s1; by rewrite !length_put).
  assert (Re : relinked s s1 (b_prev (bufat s b)) (b_next (bufat s b))).
  { split; intros i; unfold s1.
    - rewrite (proj_put b_next) by (rewrite ?length_put; done). destruct (i =? _); [done|].
      by rewrite (proj_put_same b_next).
    - rewrite (proj_put_same b_prev) by (rewrite ?length_put; done). by rewrite (proj_put b_prev). }
  pose proof (lseg_unlink s s1 l1 b l2 Sg (NoDup_cons_2 _ _ Nh Nd) Re) as Sg1.
  assert (Rf : 0 <= b_next (bufat s1 head) <= 30).
  { rewrite (lseg_next _ _ _ _ Sg1). destruct (l1 ++ l2) as [|y l] eqn:E; [done|]. cbn. apply Rg.
    assert (y ∈ l1 ++ l2) by (rewrite E; set_solver). set_solver. }
  split_and!.
  - exists (b :: l1 ++ l2). split; [|rewrite <- Pm; apply Permutation_middle].
    apply (lseg_push s1); [done|..].
    + rewrite Permutation_middle. by apply NoDup_cons.
    + intros i. rewrite (proj_put b_next) by (rewrite ?length_put; done). destruct (i =? head); [done|].
      rewrite (proj_put_same b_next) by (rewrite ?length_put; done).
      rewrite (proj_put b_next) by (rewrite ?length_put; done). done.
    + intros i. rewrite (proj_put_same b_prev) by (rewrite ?length_put; done).
      rewrite (proj_put b_prev) by (rewrite ?length_put; done). destruct (i =? b_next _); [done|].
      rewrite (proj_put b_prev) by (rewrite ?length_put; done). done.
  - by rewrite !length_put.
  - intros x. do 3 (rewrite (proj_put_same pay); [|by rewrite ?length_put|done|done]).
    unfold s1. by do 2 (rewrite (proj_put_same pay); [|by rewrite ?length_put|done|done]).
  - done.
  - done.
  - done.
  - done.
Qed.
Lemma bview_ext s s' :
  (forall x, isbuf x -> b_dev (bufat s' x) = b_dev (bufat s x) /\ b_blockno (bufat s' x) = b_blockno (bufat s x) /\
                        b_data (bufat s' x) = b_data (bufat s x)) -> dsk s' = dsk s ->
  forall k, bview s' k = bview s k.
Proof.
  intros E D k. unfold bview. rewrite D.
  assert (F : forall l, (forall x, In x l -> isbuf x) ->
    List.find (fun b => cached ROOTDEV k (bufat s' b)) l = List.find (fun b => cached ROOTDEV k (bufat s b)) l).
  { intros l. induction l as [|x l IH]; intros Hl; cbn; [done|]. unfold cached at 1 3.
    destruct (E x (Hl x (or_introl eq_refl))) as (-> & -> & _). rewrite IH; [done|]. intros; apply Hl; by right. }
  rewrite F by (intros; by apply in_bufs). destruct (List.find _ _) as [x|] eqn:Ef; [|done].
  apply find_some in Ef as [X _]. apply in_bufs in X. by destruct (E x X) as (_ & _ & ->).
Qed.

Lemma binv_perm s H H' P : Permutation H H' -> binv s H P -> binv s H' P.
Proof.
  intros E [? ? [? ?] ? Bf ? ?]. assert (El : forall x, x ∈ H' <-> x ∈ H) by (intros x; by rewrite E).
  split; try done.
  - split; [by rewrite <- E|]. intros b Hb. apply El in Hb. auto.
  - intros b B. destruct (Bf b B) as [u lk rf cl sz]. specialize (El b). split; [|..|by rewrite El|done].
    + by rewrite El.
    + rewrite lk. apply decide_ext. by rewrite El.
    + intros D. rewrite (rf D). unfold count. f_equal. apply decide_ext. by rewrite El.
Qed.

Lemma holding_held s H P b : binv s H P -> isbuf b -> holdingsleep (b_lock_of b) s = Ok (bool_decide (b ∈ H)) s.
Proof.
  intros I B. unfold holdingsleep, gets. cbn [b_lock_of lget]. f_equal.
  rewrite (ok_lock _ _ _ _ _ (bi_buf _ _ _ I b B)). cbn [mypid bio_wakes].
  destruct (decide (b ∈ H)); cbn.
  - by rewrite Z.eqb_refl, bool_decide_eq_true_2.
  - by rewrite bool_decide_eq_false_2.
Qed.

Lemma ring_ext s s' : (forall x, bufat s' x = bufat s x) -> ring s -> ring s'.
Proof.
  intros E (l & S & Pm). exists l. split; [|done]. revert S. apply lseg_frame; intros; by rewrite E.
Qed.

(** The release before the list is touched. *)
Lemma released_inv s s' H P b :
  binv s (b :: H) P -> b_blockno (bufat s b) ∈ P \/ b_data (bufat s b) = dsk s (b_blockno (bufat s b)) ->
  length (bufs s') = 31%nat -> ring s' -> me s' = me s -> dsk s' = dsk s ->
  (forall x, pay (bufat s' x) = pay (if x =? b then (bufat s b) <| b_lock := mkSleeplock 0 0 |>
                                       <| b_refcnt := count (b_blockno (bufat s b)) P |> else bufat s x)) ->
  binv s' H P.
Proof.
  intros I Cl L R Me D Py. destruct (bi_held _ _ _ I) as [NH RH]. apply NoDup_cons in NH as [Nb NH].
  assert (B : isbuf b) by (apply RH; set_solver).
  destruct (bi_buf _ _ _ I b B) as [u lk rf cl sz].
  assert (Dv : b_dev (bufat s b) = ROOTDEV) by (destruct u as [[? _]|(_ & _ & []%not_elem_of_cons)]; done).
  pose proof (Py b) as Pb. rewrite Z.eqb_refl in Pb. apply pay_eq in Pb as (E1 & E2 & E3 & E4 & E5 & E6).
  change (b_dev (bufat s' b) = b_dev (bufat s b)) in E1. change (b_valid (bufat s' b) = b_valid (bufat s b)) in E2.
  change (b_blockno (bufat s' b) = b_blockno (bufat s b)) in E3. change (b_data (bufat s' b) = b_data (bufat s b)) in E6.
  apply (binv_step s s' b (b :: H) H P P); try done; rewrite ?E3; try done.
  - intros x X Nx. rewrite Py. by destruct (Z.eqb_spec x b).
  - set_solver.
  - intros. apply RH. set_solver.
  - apply (bi_pins _ _ _ I).
  - intros x X Nx Dx E. apply Nx, (bi_uniq _ _ _ I x b (b_blockno (bufat s b))); try done; by apply cached_eq.
  - by left.
  - by rewrite D.
  - rewrite D. apply (bi_disk _ _ _ I).
  - congruence.
  - split; rewrite ?E1, ?E2, ?E3, ?E4, ?E5, ?E6.
    + left. split; [done|]. by destruct u as [[_ ?]|[? _]]; [|unfold ROOTDEV in *; congruence].
    + by rewrite decide_False.
    + intros _. change (count (b_blockno (bufat s b)) P = count b H + count (b_blockno (bufat s b)) P).
      unfold count at 2. by rewrite decide_False.
    + rewrite D. intros _ _ ?. by destruct Cl.
    + done.
Qed.

Lemma brelse_spec s H P b :
  binv s (b :: H) P -> b_blockno (bufat s b) ∈ P \/ b_data (bufat s b) = dsk s (b_blockno (bufat s b)) ->
  exists s', brelse b s = Ok tt s' /\ binv s' H P /\ quiet s s' H /\ wakeups s' = wakeups s ++ [b_chan b].
Proof.
  intros I Cl. destruct (bi_held _ _ _ I) as [NH RH]. apply NoDup_cons in NH as [Nb NH].
  assert (B : isbuf b) by (apply RH; set_solver). assert (R : 0 <= b <= 30) by (unfold isbuf in B; lia).
  pose proof (bi_len _ _ _ I) as L. destruct (bi_buf _ _ _ I b B) as [u lk rf cl sz].
  assert (D : b_dev (bufat s b) = ROOTDEV) by (destruct u as [[? _]|(_ & _ & []%not_elem_of_cons)]; done).
  specialize (rf D). rewrite count_cons_eq in rf. unfold brelse, bind at 1.
  rewrite (holding_held s (b :: H) P b I B), bool_decide_eq_true_2 by set_solver. cbn [negb].
  unfold releasesleep, setb, getb, gets, bind, modify. cbn [b_lock_of lset].
  set (s0 := put b _ s). set (s1 := put b _ (woken (b_chan b) s0)).
  assert (L0 : length (bufs (woken (b_chan b) s0)) = 31%nat) by (change (length (bufs s0) = 31%nat); unfold s0; by rewrite length_put).
  assert (L1 : length (bufs s1) = 31%nat) by (unfold s1; by rewrite length_put).
  assert (S1 : forall x, bufat s1 x = if x =? b then (bufat s b) <| b_lock := mkSleeplock 0 0 |>
                 <| b_refcnt := count (b_blockno (bufat s b)) P |> else bufat s x).
  { intros x. unfold s1. rewrite bufat_put by done. change (bufat (woken (b_chan b) s0)) with (bufat s0). unfold s0.
    rewrite !bufat_put, Z.eqb_refl by done. destruct (x =? b); [|done]. unfold over. cbn. f_equal. rewrite rf.
    unfold count. by destruct (decide (b_blockno (bufat s b) ∈ P)). }
  assert (R1 : ring s1).
  { apply ring_put; [done|done|by intros []|]. apply (ring_ext s0); [done|]. apply ring_put; [done|done|by intros []|apply (bi_ring _ _ _ I)]. }
  assert (X : exists s', (if b_refcnt (bufat s1 b) =? 0 then relink b else ret tt) s1 = Ok tt s' /\ ring s' /\
    length (bufs s') = 31%nat /\ (forall x, pay (bufat s' x) = pay (bufat s1 x)) /\
    me s' = me s1 /\ dsk s' = dsk s1 /\ writes s' = writes s1 /\ wakeups s' = wakeups s1).
  { destruct (_ =? 0); [by apply relink_spec|]. by exists s1. }
  destruct X as (s' & E & R' & L' & Py & Me & Dk & Wr & Wk). exists s'.
  assert (Py' : forall x, pay (bufat s' x) = pay (if x =? b then (bufat s b) <| b_lock := mkSleeplock 0 0 |>
                 <| b_refcnt := count (b_blockno (bufat s b)) P |> else bufat s x)) by (intros x; by rewrite Py, S1).
  split_and!; [exact E| |split|]; try done.
  - by apply (released_inv s s' H P b).
  - intros x Hx. rewrite Py'. destruct (Z.eqb_spec x b); [congruence|done].
  - apply bview_ext; [|done]. intros x _. specialize (Py' x). apply pay_eq in Py' as (-> & _ & -> & _ & _ & ->).
    by destruct (Z.eqb_spec x b) as [->|].
Qed.
Lemma held_dev s H P b : binv s H P -> b ∈ H -> isbuf b /\ b_dev (bufat s b) = ROOTDEV /\ b_valid (bufat s b) = 1.
Proof.
  intros I Hb. assert (B : isbuf b) by (by apply (bi_held _ _ _ I)). split; [done|].
  by destruct (ok_used _ _ _ _ _ (bi_buf _ _ _ I b B)) as [|(_ & _ & ?)].
Qed.

Lemma binv_pin_perm s H P P' : Permutation P P' -> binv s H P -> binv s H P'.
Proof.
  intros E [? ? ? [? Pi] Bf ? ?]. assert (El : forall x, x ∈ P' <-> x ∈ P) by (intros x; by rewrite E).
  split; try done.
  - split; [by rewrite <- E|]. intros k K. apply El in K. auto.
  - intros b B. destruct (Bf b B) as [u lk rf cl sz]. split; [done|done| |by rewrite El|done].
    intros D. rewrite (rf D). unfold count. f_equal. apply decide_ext. by rewrite El.
Qed.

(** A change of a held buffer that keeps its block and its lock. *)
Lemma held_step s s' b f H P P' :
  binv s H P -> b ∈ H -> (forall x, bufat s' x = if x =? b then f (bufat s b) else bufat s x) ->
  length (bufs s') = 31%nat -> ring s' -> me s' = me s ->
  (forall k, k <> b_blockno (bufat s b) -> dsk s' k = dsk s k) -> (forall k, length (dsk s' k) = 1024%nat) ->
  (forall k, k <> b_blockno (bufat s b) -> k ∈ P' <-> k ∈ P) -> NoDup P' ->
  (forall x, b_dev (f x) = b_dev x /\ b_blockno (f x) = b_blockno x /\ b_valid (f x) = b_valid x /\ b_lock (f x) = b_lock x) ->
  b_refcnt (f (bufat s b)) = 1 + count (b_blockno (bufat s b)) P' -> length (b_data (f (bufat s b))) = 1024%nat ->
  binv s' H P'.
Proof.
  intros I Hb Sb L R Me D Dl Pk NP F Rf Sz. destruct (held_dev s H P b I Hb) as (B & Dv & Va).
  destruct (bi_held _ _ _ I) as [NH RH]. destruct (bi_buf _ _ _ I b B) as [u lk rf cl sz].
  destruct (F (bufat s b)) as (F1 & F2 & F3 & F4).
  assert (Eb : bufat s' b = f (bufat s b)) by (by rewrite Sb, Z.eqb_refl).
  apply (binv_step s s' b H H P P'); try done; rewrite ?Eb, ?F2; try done.
  - intros x X Nx. rewrite Sb. by destruct (Z.eqb_spec x b).
  - intros x X Nx Dx E. apply Nx, (bi_uniq _ _ _ I x b (b_blockno (bufat s b))); try done; by apply cached_eq.
  - by left.
  - congruence.
  - split; rewrite ?F1, ?F2, ?F3, ?F4, ?Me; try done.
    + by left.
    + intros _. rewrite Rf. f_equal. unfold count. by rewrite decide_True.
Qed.

Lemma held_ref s H P b : binv s H P -> b ∈ H -> b_refcnt (bufat s b) = 1 + count (b_blockno (bufat s b)) P.
Proof.
  intros I Hb. destruct (held_dev s H P b I Hb) as (B & Dv & Va). rewrite (ok_ref _ _ _ _ _ (bi_buf _ _ _ I b B)) by done.
  f_equal. unfold count. by rewrite decide_True.
Qed.

(** Writing the data of a held buffer. *)
Lemma setdata_spec s H P b d :
  binv s H P -> b ∈ H -> length d = 1024%nat -> let s' := put b (fun x => x <| b_data := d |>) s in
  binv s' H P /\ (forall k, bview s' k = if k =? b_blockno (bufat s b) then d else bview s k).
Proof.
  intros I Hb Ld s'. destruct (held_dev s H P b I Hb) as (B & Dv & Va). pose proof (bi_len _ _ _ I) as L.
  assert (R : 0 <= b <= 30) by (unfold isbuf in B; lia).
  assert (Sb : forall x, bufat s' x = if x =? b then (bufat s b) <| b_data := d |> else bufat s x)
    by (intros x; unfold s'; by rewrite bufat_put).
  assert (I' : binv s' H P).
  { apply (held_step s s' b (fun x => x <| b_data := d |>) H P P); try done.
    - unfold s'. by rewrite length_put.
    - apply ring_put; [done|done|by intros []|apply (bi_ring _ _ _ I)].
    - apply (bi_disk _ _ _ I).
    - apply (bi_pins _ _ _ I).
    - by apply (held_ref s H). }
  split; [done|]. intros k. apply (bview_intro s' H P); [done|..].
  - intros x X. rewrite Sb. destruct (Z.eqb_spec x b) as [->|N]; intros [Dx Kx]%cached_eq.
    + change (b_blockno (bufat s b) = k) in Kx. by rewrite Kx, Z.eqb_refl.
    + destruct (Z.eqb_spec k (b_blockno (bufat s b))) as [E|].
      * exfalso. apply N, (bi_uniq _ _ _ I x b k); try done; by apply cached_eq.
      * symmetry. apply (bview_hit s H P x k); [done|done|by apply cached_eq].
  - intros C. destruct (Z.eqb_spec k (b_blockno (bufat s b))) as [->|N].
    + specialize (C b B). rewrite Sb, Z.eqb_refl in C. unfold cached in C.
      change (((b_dev (bufat s b) =? ROOTDEV) && (b_blockno (bufat s b) =? b_blockno (bufat s b))) = false) in C.
      by rewrite Dv, !Z.eqb_refl in C.
    + symmetry. change (bview s k = dsk s k). apply bview_miss. intros x X. specialize (C x X). rewrite Sb in C.
      destruct (Z.eqb_spec x b) as [Ex|]; [rewrite Ex|done]. unfold cached. apply Z.eqb_neq in N. rewrite Z.eqb_sym in N.
      by rewrite N, andb_false_r.
Qed.

Lemma bwrite_spec s H P b :
  binv s H P -> b ∈ H -> exists s', bwrite b s = Ok tt s' /\ binv s' H P /\
    s' = s <| dsk := disk_set (dsk s) (b_blockno (bufat s b)) (b_data (bufat s b)) |>
           <| writes := writes s ++ [(b_blockno (bufat s b), b_data (bufat s b))] |> /\
    (forall k, bview s' k = bview s k).
Proof.
  intros I Hb. destruct (held_dev s H P b I Hb) as (B & Dv & Va). destruct (bi_buf _ _ _ I b B) as [u lk rf cl sz].
  unfold bwrite, bind at 1. rewrite (holding_held s H P b I B), bool_decide_eq_true_2 by done. cbn [negb].
  eexists. split; [reflexivity|]. set (s' := over writes _ _).
  assert (I' : binv s' H P).
  { apply (held_step s s' b (fun x => x) H P P); try done.
    - intros x. destruct (Z.eqb_spec x b) as [->|]; done.
    - apply (bi_len _ _ _ I).
    - apply (ring_ext s); [done|]. apply (bi_ring _ _ _ I).
    - intros k N. change (disk_set (dsk s) (b_blockno (bufat s b)) (b_data (bufat s b)) k = dsk s k).
      unfold disk_set. by apply Z.eqb_neq in N as ->.
    - intros k. change (length (disk_set (dsk s) (b_blockno (bufat s b)) (b_data (bufat s b)) k) = 1024%nat).
      unfold disk_set. destruct (k =? _); [done|apply (bi_disk _ _ _ I)].
    - apply (bi_pins _ _ _ I).
    - by apply (held_ref s H). }
  split_and!; [done|done|]. intros k. apply (bview_intro s' H P); [done|..].
  - intros x X C. symmetry. by apply (bview_hit s H P).
  - intros C. rewrite bview_miss by done. change (disk_set (dsk s) (b_blockno (bufat s b)) (b_data (bufat s b)) k = dsk s k).
    unfold disk_set. destruct (Z.eqb_spec k (b_blockno (bufat s b))) as [->|]; [|done].
    specialize (C b B). change (cached ROOTDEV (b_blockno (bufat s b)) (bufat s b) = false) in C.
    unfold cached in C. by rewrite Dv, !Z.eqb_refl in C.
Qed.
(** A change of the reference count of a held buffer. *)
Lemma refcnt_spec s H P P' b g :
  binv s H P -> b ∈ H -> g (b_refcnt (bufat s b)) = 1 + count (b_blockno (bufat s b)) P' ->
  (forall k, k <> b_blockno (bufat s b) -> k ∈ P' <-> k ∈ P) -> NoDup P' ->
  let s' := put b (fun x => x <| b_refcnt ::= g |>) s in
  binv s' H P' /\ (forall k, bview s' k = bview s k) /\
  (forall x, b_data (bufat s' x) = b_data (bufat s x) /\ b_blockno (bufat s' x) = b_blockno (bufat s x)).
Proof.
  intros I Hb Rf Pk NP s'. destruct (held_dev s H P b I Hb) as (B & Dv & Va). pose proof (bi_len _ _ _ I) as L.
  assert (R : 0 <= b <= 30) by (unfold isbuf in B; lia).
  assert (Sb : forall x, bufat s' x = if x =? b then (bufat s b) <| b_refcnt ::= g |> else bufat s x)
    by (intros x; unfold s'; by rewrite bufat_put).
  assert (Sd : forall x, b_dev (bufat s' x) = b_dev (bufat s x) /\ b_blockno (bufat s' x) = b_blockno (bufat s x) /\
                 b_data (bufat s' x) = b_data (bufat s x)).
  { intros x. rewrite Sb. destruct (Z.eqb_spec x b) as [Ex|]; [by rewrite Ex|done]. }
  split_and!.
  - apply (held_step s s' b (fun x => x <| b_refcnt ::= g |>) H P P'); try done.
    + unfold s'. by rewrite length_put.
    + apply ring_put; [done|done|by intros []|apply (bi_ring _ _ _ I)].
    + apply (bi_disk _ _ _ I).
    + apply (bi_buf _ _ _ I b B).
  - by apply bview_ext.
  - intros x. destruct (Sd x) as (_ & ? & ?). done.
Qed.

Lemma bpin_spec s H P b :
  binv s H P -> b ∈ H -> b_blockno (bufat s b) ∉ P ->
  exists s', bpin b s = Ok tt s' /\ binv s' H (b_blockno (bufat s b) :: P) /\
    s' = put b (fun x => x <| b_refcnt ::= fun n => u32 (n + 1) |>) s /\ (forall k, bview s' k = bview s k) /\
    (forall x, b_data (bufat s' x) = b_data (bufat s x) /\ b_blockno (bufat s' x) = b_blockno (bufat s x)).
Proof.
  intros I Hb N. eexists. split; [reflexivity|].
  destruct (refcnt_spec s H P (b_blockno (bufat s b) :: P) b (fun n => u32 (n + 1)) I Hb) as (I' & V & D); [..|done].
  - rewrite (held_ref s H P b), count_cons_eq by done. unfold count. by rewrite decide_False.
  - set_solver.
  - apply NoDup_cons. split; [done|apply (bi_pins _ _ _ I)].
Qed.

Lemma bunpin_spec s H P b :
  binv s H (b_blockno (bufat s b) :: P) -> b ∈ H ->
  exists s', bunpin b s = Ok tt s' /\ binv s' H P /\
    s' = put b (fun x => x <| b_refcnt ::= fun n => u32 (n - 1) |>) s /\ (forall k, bview s' k = bview s k) /\
    (forall x, b_data (bufat s' x) = b_data (bufat s x) /\ b_blockno (bufat s' x) = b_blockno (bufat s x)).
Proof.
  intros I Hb. eexists. split; [reflexivity|]. destruct (bi_pins _ _ _ I) as [[N NP]%NoDup_cons _].
  destruct (refcnt_spec s H (b_blockno (bufat s b) :: P) P b (fun n => u32 (n - 1)) I Hb) as (I' & V & D); [..|done].
  - rewrite (held_ref s H (b_blockno (bufat s b) :: P) b), count_cons_eq by done. unfold count. by rewrite decide_False.
  - set_solver.
  - done.
Qed.

(** ** Boot *)

Definition booted p d z : bstate :=
  mkBstate p [] (map (fun b => mkBuf 0 0 0 (mkSleeplock 0 0) 0
    (if b =? 29 then head else if b =? head then 0 else b + 1)
    (if b =? 0 then head else if b =? head then 29 else b - 1) z) (seqZ 0 31)) d [].

Lemma binit_run p d z :
  binit (mkBstate p [] (repeat (mkBuf 0 0 0 (mkSleeplock 0 0) 0 0 0 z) 31) d []) = Ok tt (booted p d z).
Proof. by vm_compute. Qed.

Lemma booted_ring p d z : ring (booted p d z).
Proof. exists (rev (seqZ 0 30)). split; [vm_compute; tauto|]. apply Permutation_sym, Permutation_rev. Qed.

Lemma booted_buf p d z b : isbuf b -> pay (bufat (booted p d z) b) = pay (mkBuf 0 0 0 (mkSleeplock 0 0) 0 0 0 z).
Proof.
  intros B. unfold bufat, at_, booted, isbuf in *. cbn [bufs]. destruct (Z.leb_spec 0 b); [|lia].
  rewrite nth_lookup, list_lookup_fmap, lookup_seqZ_lt by lia. done.
Qed.

Lemma binit_spec p d : (forall k, length (d k) = 1024%nat) ->
  exists s, binit (boot p d) = Ok tt s /\ binv s [] [] /\ me s = p /\ dsk s = d /\ writes s = [] /\ wakeups s = [] /\
    forall k, bview s k = d k.
Proof.
  intros Ld. exists (booted p d zeros). split; [apply binit_run|].
  assert (Lz : length zeros = 1024%nat) by done. generalize dependent zeros. intros z Lz.
  assert (N : forall k b, isbuf b -> cached ROOTDEV k (bufat (booted p d z) b) = false).
  { intros k b B. by rewrite (cached_pay _ _ _ _ (booted_buf p d z b B)). }
  split_and!; [|done|done|done|done|intros k; by apply bview_miss, N].
  split; [done|apply booted_ring|split; [constructor|set_solver]|split; [constructor|set_solver]| | |done].
  - intros b B. eapply buf_ok_pay; [symmetry; exact (booted_buf p d z b B)|].
    split; try done. right. split_and!; [done|done|set_solver].
  - intros b b' k B B' C. by rewrite N in C.
Qed.
End Inv.

(** ** Property *)

(** C23: with a buffer to spare, [bread] returns a locked buffer with the current
    contents of the block, and the contents of every block stay as they were; the
    cache still holds one copy of each block, in a well-formed list.  What is then
    put in the buffer and written with [bwrite] is on the disk, and is what the
    block holds once the buffer is released; no other block changes. *)
Theorem buffer_write_through s H P k d :
  binv s H P -> (forall b, b ∈ H -> b_blockno (bufat s b) <> k) -> (length H + length P < 30)%nat -> length d = 1024%nat ->
  exists b s1 s2 s3, bread ROOTDEV k s = Ok b s1 /\ binv s1 (b :: H) P /\ b_data (bufat s1 b) = bview s k /\
    (forall i, bview s1 i = bview s i) /\ dsk s1 = dsk s /\
    bwrite b (put b (fun x => x <| b_data := d |>) s1) = Ok tt s2 /\ brelse b s2 = Ok tt s3 /\ binv s3 H P /\
    writes s3 = writes s ++ [(k, d)] /\ dsk s3 = disk_set (dsk s) k d /\
    (forall i, bview s3 i = if i =? k then d else bview s i).
Proof.
  intros I N Cap Ld. destruct (bread_spec s H P k I N (or_introl Cap)) as (b & s1 & E1 & I1 & Q1 & Nb & _ & B & C & D).
  apply cached_eq in C as [_ K]. assert (Hb : b ∈ b :: H) by set_solver. pose proof (bi_len _ _ _ I1) as L1.
  destruct (setdata_spec s1 (b :: H) P b d I1 Hb Ld) as [I2 V2]. set (s1' := put b _ s1) in *.
  assert (Eb : bufat s1' b = (bufat s1 b) <| b_data := d |>).
  { unfold s1'. rewrite bufat_put, Z.eqb_refl; [done|done|unfold isbuf in B; lia]. }
  destruct (bwrite_spec s1' (b :: H) P b I2 Hb) as (s2 & E2 & I3 & Es & V3).
  assert (Kb : b_blockno (bufat s1' b) = k) by (by rewrite Eb). assert (Db : b_data (bufat s1' b) = d) by (by rewrite Eb).
  rewrite Kb, Db in Es. destruct (brelse_spec s2 H P b I3) as (s3 & E3 & I4 & Q4 & _).
  { right. rewrite Es. change (b_data (bufat s1' b) = disk_set (dsk s1') k d (b_blockno (bufat s1' b))).
    rewrite Kb, Db. unfold disk_set. by rewrite Z.eqb_refl. }
  exists b, s1, s2, s3. split_and!; try done.
  - apply (q_view _ _ _ Q1).
  - apply (q_dsk _ _ _ Q1).
  - rewrite (q_writes _ _ _ Q4), Es. change (writes s1 ++ [(k, d)] = writes s ++ [(k, d)]). by rewrite (q_writes _ _ _ Q1).
  - rewrite (q_dsk _ _ _ Q4), Es. change (disk_set (dsk s1) k d = disk_set (dsk s) k d). by rewrite (q_dsk _ _ _ Q1).
  - intros i. rewrite (q_view _ _ _ Q4), V3, V2, K, (q_view _ _ _ Q1). done.
Qed.

Module BioWitness.

Lemma buffer_write_through_witness :
  exists s, binv s [] [] /\
  exists b s1 s2 s3, bread ROOTDEV 7 s = Ok b s1 /\ binv s1 [b] [] /\ b_data (bufat s1 b) = bview s 7 /\
    (forall i, bview s1 i = bview s i) /\ dsk s1 = dsk s /\
    bwrite b (put b (fun x => x <| b_data := zeros |>) s1) = Ok tt s2 /\ brelse b s2 = Ok tt s3 /\ binv s3 [] [] /\
    writes s3 = writes s ++ [(7, zeros)] /\ dsk s3 = disk_set (dsk s) 7 zeros /\
    (forall i, bview s3 i = if i =? 7 then zeros else bview s i).
Proof.
  destruct (binit_spec 1 (fun _ => zeros) ltac:(done)) as (s & _ & I & _). exists s. split; [done|].
  apply (buffer_write_through s [] [] 7 zeros); [done|intros b Hb; by apply not_elem_of_nil in Hb|cbn; lia|done].
Defined.
End BioWitness.
