(* ===== verification/Log.v ===== *)
(** * kernel/log.c: the redo log

    The log on top of the buffer cache.  [log.lh] is the number of logged blocks
    and their numbers; the header block on disk holds the same two in the layout
    of [struct logheader]: an int, then LOGSIZE ints. *)

From Stdlib Require Import ZArith Lia List.
From stdpp Require Import base list strings.
From S2P Require Import Prelude Riscv Sleeplock Bio.

Record lstate : Type := mkLstate {
  bst : bstate;
  start : Z;
  size : Z;
  outstanding : Z;
  committing : Z;
  ldev : Z;
  lh_n : Z;
  lh_block : list Z
}.

#[global] Instance eta_lstate : Eta lstate := fun s =>
  mkLstate (bst s) (start s) (size s) (outstanding s) (committing s) (ldev s) (lh_n s) (lh_block s).

Definition on_bst : Lens lstate bstate := mkLens bst (fun x s => s <| bst := x |>).
Definition bio {A} (m : M bstate A) : M lstate A := zoom on_bst m.

(** [sizeof(struct logheader)]. *)
Definition sizeof_logheader : Z := 4 + 4 * LOGSIZE.

(** [memmove(to->data, from->data, BSIZE)] between two buffers. *)
Definition copy_data (to from : Z) : M lstate unit :=
  let* d := bio (getb from b_data) in
  bio (setb to (fun x => x <| b_data := d |>)).

(** The bodies of the two loops over the logged blocks: log block to home
    location, cache to log block. *)
Definition install_one (tail : Z) (recovering : bool) : M lstate unit :=
  let* dev := gets ldev in
  let* st := gets start in
  let* lbuf := bio (bread dev (u32 (st + tail + 1))) in
  let* bn := gets (fun s => at_ 0 (lh_block s) tail) in
  let* dbuf := bio (bread dev (u32 bn)) in
  do copy_data dbuf lbuf ;;;
  do bio (bwrite dbuf) ;;;
  do (if recovering then ret tt else bio (bunpin dbuf)) ;;;
  do bio (brelse lbuf) ;;;
  bio (brelse dbuf).

Definition write_log_one (tail : Z) : M lstate unit :=
  let* dev := gets ldev in
  let* st := gets start in
  let* to := bio (bread dev (u32 (st + tail + 1))) in
  let* bn := gets (fun s => at_ 0 (lh_block s) tail) in
  let* from := bio (bread dev (u32 bn)) in
  do copy_data to from ;;;
  do bio (bwrite to) ;;;
  do bio (brelse from) ;;;
  bio (brelse to).

(** [for (tail = 0; tail < n; tail++) body]. *)
Fixpoint for_tail (k : nat) (tail : Z) (body : Z -> M lstate unit) : M lstate unit :=
  match k with
  | O => ret tt
  | S k' => do body tail ;;; for_tail k' (tail + 1) body
  end.

Definition install_trans (recovering : bool) : M lstate unit :=
  let* n := gets lh_n in for_tail (Z.to_nat n) 0 (fun tail => install_one tail recovering).

(** The int at index [i] of the header block: 0 is [n], [i + 1] is [block[i]]. *)
Definition head_int (d : list Z) (i : Z) : Z := i32 (load 4 d (4 * i)).

Fixpoint read_blocks (k : nat) (i : Z) (d : list Z) (l : list Z) : list Z :=
  match k with
  | O => l
  | S k' => read_blocks k' (i + 1) d (upd l i (head_int d (i + 1)))
  end.

Definition read_head : M lstate unit :=
  let* dev := gets ldev in
  let* st := gets start in
  let* buf := bio (bread dev (u32 st)) in
  let* d := bio (getb buf b_data) in
  do modify (fun s => s <| lh_n := head_int d 0 |>) ;;;
  do modify (fun s => s <| lh_block ::= read_blocks (Z.to_nat (lh_n s)) 0 d |>) ;;;
  bio (brelse buf).

Fixpoint write_blocks (k : nat) (i : Z) (l : list Z) (d : list Z) : list Z :=
  match k with
  | O => d
  | S k' => write_blocks k' (i + 1) l (store 4 d (4 * (i + 1)) (at_ 0 l i))
  end.

Definition write_head : M lstate unit :=
  let* dev := gets ldev in
  let* st := gets start in
  let* buf := bio (bread dev (u32 st)) in
  let* n := gets lh_n in
  let* l := gets lh_block in
  do bio (setb buf (fun x => x <| b_data ::= fun d => write_blocks (Z.to_nat n) 0 l (store 4 d 0 n) |>)) ;;;
  do bio (bwrite buf) ;;;
  bio (brelse buf).

Definition recover_from_log : M lstate unit :=
  do read_head ;;;
  do install_trans true ;;;
  do modify (fun s => s <| lh_n := 0 |>) ;;;
  write_head.

Definition initlog (dev logstart nlog : Z) : M lstate unit :=
  if BSIZE <=? sizeof_logheader then panic "initlog: too big logheader"
  else
    do modify (fun s => s <| start := i32 logstart |> <| size := i32 nlog |> <| ldev := dev |>) ;;;
    recover_from_log.

(** One iteration of the loop; when it sleeps it is run again after a wakeup. *)
Definition begin_op : M lstate unit :=
  let* s := get in
  if negb (committing s =? 0) then block ChLog
  else if LOGSIZE <? i32 (lh_n s + (outstanding s + 1) * MAXOPBLOCKS) then block ChLog
  else modify (fun s => s <| outstanding ::= fun n => i32 (n + 1) |>).

Definition write_log : M lstate unit :=
  let* n := gets lh_n in for_tail (Z.to_nat n) 0 write_log_one.

Definition commit : M lstate unit :=
  let* n := gets lh_n in
  if 0 <? n
  then
    do write_log ;;;
    do write_head ;;;
    do install_trans false ;;;
    do modify (fun s => s <| lh_n := 0 |>) ;;;
    write_head
  else ret tt.

Definition end_op : M lstate unit :=
  do modify (fun s => s <| outstanding ::= fun n => i32 (n - 1) |>) ;;;
  let* s := get in
  if negb (committing s =? 0) then panic "log.committing"
  else if outstanding s =? 0
  then
    do modify (fun s => s <| committing := 1 |>) ;;;
    do commit ;;;
    do modify (fun s => s <| committing := 0 |>) ;;;
    bio (modify (woken ChLog))
  else bio (modify (woken ChLog)).

(** The index of [b] in the first [k] logged blocks from [i] on, or [i + k]. *)
Fixpoint find_block (k : nat) (i b : Z) (l : list Z) : Z :=
  match k with
  | O => i
  | S k' => if u32 (at_ 0 l i) =? b then i else find_block k' (i + 1) b l
  end.

Definition log_write (b : Z) : M lstate unit :=
  let* s := get in
  if (LOGSIZE <=? lh_n s) || (i32 (size s - 1) <=? lh_n s) then panic "too big a transaction"
  else if outstanding s <? 1 then panic "log_write outside of trans"
  else
    let* bn := bio (getb b b_blockno) in
    let i := find_block (Z.to_nat (lh_n s)) 0 bn (lh_block s) in
    do modify (fun s => s <| lh_block ::= fun l => upd l i (i32 bn) |>) ;;;
    if i =? lh_n s
    then do bio (bpin b) ;;; modify (fun s => s <| lh_n ::= fun n => i32 (n + 1) |>)
    else ret tt.

(** The log before [initlog]: static storage. *)
Definition log0 (b : bstate) : lstate := mkLstate b 0 0 0 0 0 0 (repeat 0 30).
