(* ===== verification/LogFacts.v ===== *)
(** * What the log does to the disk

    Each routine of log.c as the list of blocks it writes, in order, and what it
    leaves in the cache.  The blocks of the log itself are the [size] blocks from
    [start] on: the header, then one block per logged block. *)

From Stdlib Require Import ZArith Lia List.
From stdpp Require Import base tactics numbers list sets strings.
From S2P Require Import Prelude Riscv Sleeplock Bio BioFacts Log.

(** The disk after a sequence of writes. *)
Definition replay (d : disk) (w : list (Z * list Z)) : disk := foldl (fun d x => disk_set d x.1 x.2) d w.

Section Steps.
Implicit Types (s : lstate) (b : bstate) (H P : list Z) (k : Z).

Lemma bio_run {A} (m : M bstate A) s a b : m (bst s) = Ok a b -> bio m s = Ok a (s <| bst := b |>).
Proof. intros E. unfold bio, zoom. cbn. by rewrite E. Qed.

(** Without holding it, a block that is not pinned is as on the disk. *)
Lemma bview_clean b H P k :
  binv b H P -> k ∉ P -> (forall x, x ∈ H -> b_blockno (bufat b x) <> k) -> bview b k = dsk b k.
Proof.
  intros I N Nh. apply (bview_intro b H P); [done| |done]. intros x X [D K]%cached_eq.
  rewrite <- K. apply (bi_buf _ _ _ I x X); [done| |by rewrite K]. intros Hx. by apply (Nh x).
Qed.

(** The cache [b'] and what was written since [b]. *)
Record wrote b b' (w : list (Z * list Z)) : Prop := {
  w_me : me b' = me b;
  w_dsk : dsk b' = replay (dsk b) w;
  w_writes : writes b' = writes b ++ w;
  w_view : forall k, bview b' k = replay (bview b) w k
}.

Lemma wrote_nil b : wrote b b [].
Proof. split; try done. by rewrite app_nil_r. Qed.

Lemma replay_app d w w' : replay d (w ++ w') = replay (replay d w) w'.
Proof. apply foldl_app. Qed.

Lemma replay_ext d d' w k : (forall k, d k = d' k) -> replay d w k = replay d' w k.
Proof.
  revert d d'. induction w as [|x w IH]; intros d d' E; [apply E|]. apply IH. intros i. unfold disk_set.
  destruct (i =? _); [done|apply E].
Qed.

Lemma wrote_trans b1 b2 b3 w w' : wrote b1 b2 w -> wrote b2 b3 w' -> wrote b1 b3 (w ++ w').
Proof.
  intros [m d e v] [m' d' e' v']. split.
  - congruence.
  - by rewrite d', d, replay_app.
  - by rewrite e', e, app_assoc.
  - intros k. rewrite v', replay_app. by apply replay_ext.
Qed.

Lemma copy_data_run t f s :
  copy_data t f s = Ok tt (s <| bst := put t (fun x => x <| b_data := b_data (bufat (bst s) f) |>) (bst s) |>).
Proof. done. Qed.

(** Copying one held buffer to another and writing it. *)
Lemma copy_write b P H t f :
  binv b H P -> t ∈ H -> f ∈ H -> t <> f ->
  exists b2, bwrite t (put t (fun x => x <| b_data := b_data (bufat b f) |>) b) = Ok tt b2 /\ binv b2 H P /\
    wrote b b2 [(b_blockno (bufat b t), b_data (bufat b f))] /\
    bufat b2 f = bufat b f /\ bufat b2 t = (bufat b t) <| b_data := b_data (bufat b f) |>.
Proof.
  intros I Ht Hf N. pose proof (bi_len _ _ _ I) as L.
  destruct (held_dev b _ P t I Ht) as (Bt & Dt & _). destruct (held_dev b _ P f I Hf) as (Bf & Df & _).
  assert (Rt : 0 <= t <= 30) by (unfold isbuf in Bt; lia).
  pose proof (setdata_spec b _ P t (b_data (bufat b f)) I Ht (ok_size _ _ _ _ _ (bi_buf _ _ _ I f Bf))) as [I1 V1].
  set (b1 := put t _ b) in *.
  assert (Et : bufat b1 t = (bufat b t) <| b_data := b_data (bufat b f) |>) by (unfold b1; by rewrite bufat_put, Z.eqb_refl).
  assert (Ef : bufat b1 f = bufat b f) by (unfold b1; rewrite bufat_put by done; by destruct (Z.eqb_spec f t)).
  destruct (bwrite_spec b1 _ P t I1 Ht) as (b2 & E2 & I2 & -> & V2). rewrite Et in *.
  eexists. split; [exact E2|]. split_and!; [done| |exact Ef|exact Et]. split; [done|done|done|].
  intros k. rewrite V2, V1. done.
Qed.

Lemma quiet_wrote b b' H : quiet b b' H -> wrote b b' [].
Proof. intros []. split; [done|done|by rewrite app_nil_r|done]. Qed.

Lemma got_first b P k x b' : got b [] P k x b' ->
  binv b' [x] P /\ wrote b b' [] /\ b_blockno (bufat b' x) = k /\ b_data (bufat b' x) = bview b k.
Proof. intros (I & Q & _ & _ & _ & C & D). apply cached_eq in C as [_ C]. split_and!; [done|by eapply quiet_wrote|done|done]. Qed.

Lemma got_second b P y k x b' : got b [y] P k x b' ->
  binv b' [x; y] P /\ wrote b b' [] /\ b_blockno (bufat b' x) = k /\ b_data (bufat b' x) = bview b k /\ x <> y /\
  b_blockno (bufat b' y) = b_blockno (bufat b y) /\ b_data (bufat b' y) = b_data (bufat b y).
Proof.
  intros (I & Q & N & _ & _ & C & D). apply cached_eq in C as [_ C].
  destruct (pay_eq _ _ (q_held _ _ _ Q y ltac:(set_solver))) as (_ & _ & Eb & _ & _ & Ed).
  split_and!; [done|by eapply quiet_wrote|done|done|set_solver|done|done].
Qed.

(** Releasing a buffer whose contents are on the disk or pinned. *)
Lemma release b H P x :
  binv b (x :: H) P -> b_blockno (bufat b x) ∈ P \/ b_data (bufat b x) = dsk b (b_blockno (bufat b x)) ->
  exists b', brelse x b = Ok tt b' /\ binv b' H P /\ wrote b b' [] /\
    (forall y, y ∈ H -> b_blockno (bufat b' y) = b_blockno (bufat b y) /\ b_data (bufat b' y) = b_data (bufat b y)).
Proof.
  intros I C. destruct (brelse_spec b H P x I C) as (b' & E & I' & Q & _). exists b'.
  split_and!; [done|done|by eapply quiet_wrote|]. intros y Y.
  destruct (pay_eq _ _ (q_held _ _ _ Q y Y)) as (_ & _ & Eb & _ & _ & Ed). done.
Qed.

Lemma write_log_one_spec s P tail to from :
  binv (bst s) [] P -> ldev s = ROOTDEV -> u32 (start s + tail + 1) = to -> u32 (at_ 0 (lh_block s) tail) = from ->
  to ∉ P -> from ∈ P -> (length P < 30)%nat ->
  exists b', write_log_one tail s = Ok tt (s <| bst := b' |>) /\ binv b' [] P /\
    wrote (bst s) b' [(to, bview (bst s) from)].
Proof.
  intros I Dv Et Ef Nt Hf Cap. set (b := bst s) in *. unfold write_log_one, bind at 1 2, gets. rewrite Dv, Et.
  destruct (bread_spec b [] P to I ltac:(set_solver) ltac:(cbn; left; lia)) as (t & b1 & E1 & G1).
  apply got_first in G1 as (I1 & W1 & Kt & Dt). unfold bind at 1. erewrite bio_run by exact E1.
  unfold bind at 1. change (at_ 0 (lh_block (s <| bst := b1 |>)) tail) with (at_ 0 (lh_block s) tail). rewrite Ef.
  assert (Ntf : to <> from) by (intros ->; done).
  destruct (bread_spec b1 [t] P from I1) as (f & b2 & E2 & G2); [|by right|].
  { intros x ->%list_elem_of_singleton. congruence. }
  apply got_second in G2 as (I2 & W2 & Kf & Df & Nft & Kt2 & Dt2).
  unfold bind at 1. erewrite bio_run by exact E2. unfold bind at 1. rewrite copy_data_run.
  destruct (copy_write b2 P [f; t] t f I2 ltac:(set_solver) ltac:(set_solver) ltac:(done)) as (b3 & E3 & I3 & W3 & Bf & Bt).
  unfold bind at 1. erewrite bio_run by exact E3.
  destruct (release b3 [t] P f I3) as (b4 & E4 & I4 & W4 & H4); [left; by rewrite Bf, Kf|].
  unfold bind at 1. erewrite bio_run by exact E4. destruct (H4 t ltac:(set_solver)) as [Kt4 Dt4].
  destruct (release b4 [] P t I4) as (b5 & E5 & I5 & W5 & _).
  { right. rewrite Kt4, Dt4, (w_dsk _ _ _ W4), (w_dsk _ _ _ W3), Bt. cbn. unfold disk_set.
    change (b_data (bufat b2 f) = if b_blockno (bufat b2 t) =? b_blockno (bufat b2 t) then b_data (bufat b2 f) else dsk b2 (b_blockno (bufat b2 t))).
    by rewrite Z.eqb_refl. }
  erewrite bio_run by exact E5. exists b5. split_and!; [done|done|].
  assert (Ev : [(to, bview b from)] = [] ++ [] ++ [(b_blockno (bufat b2 t), b_data (bufat b2 f))] ++ [] ++ []).
  { cbn. rewrite Kt2, Kt, Df. do 2 f_equal. by rewrite (w_view _ _ _ W1). }
  rewrite Ev. repeat (eapply wrote_trans; [eassumption|]). done.
Qed.
(** Between the write and the releases: unpin unless recovering. *)
Lemma maybe_unpin (rec : bool) b H P P' x :
  binv b H P -> x ∈ H -> (if rec then P' = P else P = b_blockno (bufat b x) :: P') ->
  exists b', (if rec then ret tt else bunpin x) b = Ok tt b' /\ binv b' H P' /\ wrote b b' [] /\
    (forall y, b_blockno (bufat b' y) = b_blockno (bufat b y) /\ b_data (bufat b' y) = b_data (bufat b y)).
Proof.
  intros I Hx E. destruct rec as [|]; [subst P'; exists b; split_and!; try done; apply wrote_nil|].
  subst P. destruct (bunpin_spec b H P' x I Hx) as (b' & E & I' & -> & V & D). eexists. split; [exact E|].
  split_and!; [done| |]. { split; [done|done|by rewrite app_nil_r|done]. }
  intros y. destruct (D y) as [-> ->]. done.
Qed.

Lemma bio_if (rec : bool) (m : M bstate unit) s : (if rec then ret tt else bio m) s = bio (if rec then ret tt else m) s.
Proof. destruct rec; [|done]. destruct s. done. Qed.

Lemma install_one_spec (rec : bool) s P P' tail to from :
  binv (bst s) [] P -> ldev s = ROOTDEV -> u32 (start s + tail + 1) = from -> u32 (at_ 0 (lh_block s) tail) = to ->
  from ∉ P -> from <> to -> (if rec then P' = P else P = to :: P') -> to ∈ P \/ (length P < 29)%nat -> (length P < 30)%nat ->
  exists b', install_one tail rec s = Ok tt (s <| bst := b' |>) /\ binv b' [] P' /\
    wrote (bst s) b' [(to, bview (bst s) from)].
Proof.
  intros I Dv Ef Et Nf Nft Ep Cap Cap0. set (b := bst s) in *. unfold install_one, bind at 1 2, gets. rewrite Dv, Ef.
  destruct (bread_spec b [] P from I ltac:(set_solver) ltac:(cbn; left; lia)) as (l & b1 & E1 & G1).
  pose proof (bview_clean b [] P from I Nf ltac:(set_solver)) as Cl.
  apply got_first in G1 as (I1 & W1 & Kl & Dl). unfold bind at 1. erewrite bio_run by exact E1.
  unfold bind at 1. change (at_ 0 (lh_block (s <| bst := b1 |>)) tail) with (at_ 0 (lh_block s) tail). rewrite Et.
  destruct (bread_spec b1 [l] P to I1) as (d & b2 & E2 & G2); [|destruct Cap; [by right|left; cbn; lia]|].
  { intros x ->%list_elem_of_singleton. congruence. }
  apply got_second in G2 as (I2 & W2 & Kd & Dd & Ndl & Kl2 & Dl2).
  unfold bind at 1. erewrite bio_run by exact E2. unfold bind at 1. rewrite copy_data_run.
  destruct (copy_write b2 P [d; l] d l I2 ltac:(set_solver) ltac:(set_solver) ltac:(done)) as (b3 & E3 & I3 & W3 & Bl & Bd).
  unfold bind at 1. erewrite bio_run by exact E3. unfold bind at 1. rewrite bio_if.
  assert (Kd3 : b_blockno (bufat b3 d) = to) by (by rewrite Bd).
  destruct (maybe_unpin rec b3 [d; l] P P' d I3 ltac:(set_solver)) as (b4 & E4 & I4 & W4 & H4); [by rewrite Kd3|].
  erewrite bio_run by exact E4. destruct (H4 l) as [Kl4 Dl4]. destruct (H4 d) as [Kd4 Dd4].
  assert (D4 : dsk b4 = disk_set (dsk b) to (bview b from)).
  { rewrite (w_dsk _ _ _ W4), (w_dsk _ _ _ W3), (w_dsk _ _ _ W2), (w_dsk _ _ _ W1). cbn. by rewrite Kd, Dl2, Dl. }
  destruct (release b4 [d] P' l (binv_perm _ _ [l; d] _ ltac:(apply perm_swap) I4)) as (b5 & E5 & I5 & W5 & H5).
  { right. rewrite Kl4, Dl4, D4, Bl, Kl2, Kl, Dl2, Dl, Cl. unfold disk_set. by destruct (Z.eqb_spec from to). }
  unfold bind at 1. erewrite bio_run by exact E5. destruct (H5 d ltac:(set_solver)) as [Kd5 Dd5].
  destruct (release b5 [] P' d I5) as (b6 & E6 & I6 & W6 & _).
  { right. rewrite Kd5, Dd5, Kd4, Dd4, (w_dsk _ _ _ W5), D4, Kd3, Bd. cbn. unfold disk_set. rewrite Z.eqb_refl.
    change (b_data (bufat b2 l) = bview b from). by rewrite Dl2, Dl. }
  erewrite bio_run by exact E6. exists b6. split_and!; [done|done|].
  assert (Ev : [(to, bview b from)] = [] ++ [] ++ [(b_blockno (bufat b2 d), b_data (bufat b2 l))] ++ [] ++ [] ++ []).
  { cbn. by rewrite Kd, Dl2, Dl. }
  rewrite Ev. repeat (eapply wrote_trans; [eassumption|]). done.
Qed.
(** ** The header block *)

Definition hdr (n : Z) (l d : list Z) : list Z := write_blocks (Z.to_nat n) 0 l (store 4 d 0 n).

Lemma length_write_blocks n i l d : length (write_blocks n i l d) = length d.
Proof. revert i d. induction n as [|n IH]; intros i d; [done|]. cbn. by rewrite IH, length_store. Qed.

Lemma length_hdr n l d : length (hdr n l d) = length d.
Proof. unfold hdr. by rewrite length_write_blocks, length_store. Qed.

Lemma write_blocks_other n i l d j :
  0 <= j -> 0 <= i -> 4 * j + 4 <= 4 * (i + 1) \/ 4 * (i + 1 + Z.of_nat n) <= 4 * j ->
  load 4 (write_blocks n i l d) (4 * j) = load 4 d (4 * j).
Proof.
  revert i d. induction n as [|n IH]; intros i d J I O; [done|]. cbn [write_blocks].
  rewrite IH by lia. apply load_store_ne. lia.
Qed.

Lemma write_blocks_at n i l d j :
  0 <= i -> i <= j < i + Z.of_nat n -> (4 * (i + Z.of_nat n + 1) <= Z.of_nat (length d)) ->
  load 4 (write_blocks n i l d) (4 * (j + 1)) = u32 (at_ 0 l j).
Proof.
  revert i d. induction n as [|n IH]; intros i d I J L; [lia|]. cbn [write_blocks].
  destruct (Z.eq_dec j i) as [->|N].
  - rewrite write_blocks_other by lia. rewrite load_store_eq; [done|]. intros x Hx. unfold inb, bytes_store. lia.
  - apply IH; [lia|lia|]. rewrite length_store. lia.
Qed.

Lemma i32_u32 x : - 2 ^ 31 <= x < 2 ^ 31 -> i32 (u32 x) = x.
Proof. intros. unfold i32, u32. rewrite Zplus_mod_idemp_l, Z.mod_small; lia. Qed.

Lemma head_int_n n l d : 0 <= n <= 30 -> length d = 1024%nat -> head_int (hdr n l d) 0 = n.
Proof.
  intros N L. unfold head_int, hdr. rewrite write_blocks_other by lia. rewrite load_store_eq.
  - rewrite <- (i32_u32 n) at 2 by lia. done.
  - intros x Hx. unfold inb, bytes_store. lia.
Qed.

Lemma head_int_block n l d i :
  0 <= i < n -> n <= 30 -> length d = 1024%nat -> 0 <= at_ 0 l i < 2 ^ 31 -> head_int (hdr n l d) (i + 1) = at_ 0 l i.
Proof.
  intros I N L R. unfold head_int, hdr. rewrite write_blocks_at by (rewrite ?length_store; lia). apply i32_u32. lia.
Qed.

Lemma length_read_blocks (k : nat) i d l : length (read_blocks k i d l) = length l.
Proof. revert i l. induction k as [|k IH]; intros i l; [done|]. cbn. by rewrite IH, length_upd. Qed.

Lemma read_blocks_other (k : nat) i d l j : j < i -> at_ 0 (read_blocks k i d l) j = at_ 0 l j.
Proof. revert i l. induction k as [|k IH]; intros i l J; [done|]. cbn. rewrite IH by lia. apply at_upd_ne. lia. Qed.

Lemma read_blocks_at (k : nat) i d l j :
  0 <= i -> i <= j < i + Z.of_nat k -> i + Z.of_nat k <= Z.of_nat (length l) -> at_ 0 (read_blocks k i d l) j = head_int d (j + 1).
Proof.
  revert i l. induction k as [|k IH]; intros i l I J L; [lia|]. cbn [read_blocks].
  destruct (Z.eq_dec j i) as [->|N]; [|apply IH; rewrite ?length_upd; lia].
  rewrite read_blocks_other by lia. apply at_upd_eq. lia.
Qed.

Lemma write_head_spec s P st :
  binv (bst s) [] P -> ldev s = ROOTDEV -> u32 (start s) = st -> st ∉ P -> (length P < 30)%nat ->
  exists b', write_head s = Ok tt (s <| bst := b' |>) /\ binv b' [] P /\
    wrote (bst s) b' [(st, hdr (lh_n s) (lh_block s) (bview (bst s) st))].
Proof.
  intros I Dv Es Ns Cap. set (b := bst s) in *. unfold write_head, bind at 1 2, gets. rewrite Dv, Es.
  destruct (bread_spec b [] P st I ltac:(set_solver) ltac:(cbn; left; lia)) as (x & b1 & E1 & G1).
  apply got_first in G1 as (I1 & W1 & Kx & Dx). unfold bind at 1. erewrite bio_run by exact E1. unfold bind at 1 2.
  set (d := hdr (lh_n s) (lh_block s) (bview b st)).
  destruct (held_dev b1 [x] P x I1 ltac:(set_solver)) as (B & _ & _). pose proof (bi_len _ _ _ I1) as L1.
  assert (R : 0 <= x <= 30) by (unfold isbuf in B; lia).
  assert (Ld : length d = 1024%nat) by (unfold d; rewrite length_hdr, <- Dx; apply (bi_buf _ _ _ I1 x B)).
  destruct (setdata_spec b1 [x] P x d I1 ltac:(set_solver) Ld) as [I2 V2]. set (b2 := put x _ b1) in *.
  assert (E2 : setb x (fun y => y <| b_data ::= fun d => write_blocks (Z.to_nat (lh_n s)) 0 (lh_block s) (store 4 d 0 (lh_n s)) |>) b1 = Ok tt b2).
  { unfold setb, modify, b2, put, d, hdr. rewrite <- Dx. done. }
  unfold bind at 1. erewrite bio_run by exact E2.
  assert (Bx : bufat b2 x = (bufat b1 x) <| b_data := d |>) by (unfold b2; by rewrite bufat_put, Z.eqb_refl).
  destruct (bwrite_spec b2 [x] P x I2 ltac:(set_solver)) as (b3 & E3 & I3 & Eb3 & V3).
  unfold bind at 1. erewrite bio_run by exact E3.
  assert (Bx3 : bufat b3 x = (bufat b1 x) <| b_data := d |>) by (by rewrite Eb3).
  destruct (release b3 [] P x I3) as (b4 & E4 & I4 & W4 & _).
  { right. rewrite Eb3. change (b_data (bufat b2 x) = disk_set (dsk b2) (b_blockno (bufat b2 x)) (b_data (bufat b2 x)) (b_blockno (bufat b2 x))).
    unfold disk_set. by rewrite Z.eqb_refl. }
  erewrite bio_run by exact E4. exists b4. split_and!; [done|done|].
  change [(st, d)] with ([] ++ [(st, d)] ++ []). eapply wrote_trans; [eassumption|]. eapply wrote_trans; [|eassumption].
  assert (Ex : (b_blockno (bufat b2 x), b_data (bufat b2 x)) = (st, d)) by (rewrite Bx; by rewrite <- Kx).
  injection Ex as Ex1 Ex2. rewrite Ex1, Ex2 in Eb3. split; [by rewrite Eb3..|].
  intros k. rewrite V3, V2, Kx. done.
Qed.
Lemma read_head_spec s P st :
  binv (bst s) [] P -> ldev s = ROOTDEV -> u32 (start s) = st -> st ∉ P -> (length P < 30)%nat ->
  let d := bview (bst s) st in
  exists b', read_head s = Ok tt (s <| lh_n := head_int d 0 |> <| lh_block ::= read_blocks (Z.to_nat (head_int d 0)) 0 d |>
                                   <| bst := b' |>) /\ binv b' [] P /\ wrote (bst s) b' [].
Proof.
  intros I Dv Es Ns Cap d. set (b := bst s) in *. unfold read_head, bind at 1 2, gets. rewrite Dv, Es.
  destruct (bread_spec b [] P st I ltac:(set_solver) ltac:(cbn; left; lia)) as (x & b1 & E1 & G1).
  pose proof (bview_clean b [] P st I Ns ltac:(set_solver)) as Cl.
  apply got_first in G1 as (I1 & W1 & Kx & Dx). unfold bind at 1. erewrite bio_run by exact E1. unfold bind at 1.
  assert (E2 : bio (getb x b_data) (s <| bst := b1 |>) = Ok d (s <| bst := b1 |>)).
  { unfold bio, zoom, getb, gets. cbn [lget lset on_bst]. change (bst (s <| bst := b1 |>)) with b1. rewrite Dx. by destruct s. }
  rewrite E2. unfold bind, modify.
  destruct (release b1 [] P x I1) as (b2 & E3 & I2 & W2 & _).
  { right. by rewrite Dx, Kx, (w_dsk _ _ _ W1). }
  erewrite bio_run by exact E3. exists b2. split_and!; [by destruct s|done|].
  change (@nil (Z * list Z)) with (@nil (Z * list Z) ++ []). by eapply wrote_trans.
Qed.

(** ** The loops *)

Definition blk s (i : Z) : Z := u32 (at_ 0 (lh_block s) i).
Definition logged s : list Z := map (blk s) (seqZ 0 (lh_n s)).

Lemma seqZ_next t (k : nat) : seqZ t (Z.of_nat (S k)) = t :: seqZ (t + 1) (Z.of_nat k).
Proof. rewrite seqZ_cons by lia. do 2 f_equal; lia. Qed.

Lemma write_log_loop s P (k : nat) tail :
  binv (bst s) [] P -> ldev s = ROOTDEV -> (length P < 30)%nat ->
  (forall i, tail <= i < tail + Z.of_nat k -> u32 (start s + i + 1) = start s + i + 1 /\ start s + i + 1 ∉ P /\ blk s i ∈ P) ->
  exists b', for_tail k tail write_log_one s = Ok tt (s <| bst := b' |>) /\ binv b' [] P /\
    wrote (bst s) b' (map (fun i => (start s + i + 1, bview (bst s) (blk s i))) (seqZ tail (Z.of_nat k))).
Proof.
  revert s tail. induction k as [|k IH]; intros s tail I Dv Cap G.
  - exists (bst s). split_and!; [by destruct s|done|apply wrote_nil].
  - destruct (G tail ltac:(lia)) as (G1 & G2 & G3).
    destruct (write_log_one_spec s P tail (start s + tail + 1) (blk s tail)) as (b1 & E1 & I1 & W1); try done.
    cbn [for_tail]. unfold bind. rewrite E1. destruct (IH (s <| bst := b1 |>) (tail + 1)) as (b2 & E2 & I2 & W2); try done.
    { intros i Hi. apply (G i). lia. }
    exists b2. split_and!; [by rewrite E2|done|]. rewrite seqZ_next. cbn [map].
    refine (wrote_trans _ b1 _ [_] _ W1 _).
    erewrite map_ext_in; [exact W2|]. intros i Hi. apply list_elem_of_In, elem_of_seqZ in Hi.
    change ((start s + i + 1, bview (bst s) (blk s i)) = (start s + i + 1, bview b1 (blk s i))). f_equal. rewrite (w_view _ _ _ W1). cbn. unfold disk_set.
    destruct (G i ltac:(lia)) as (_ & _ & Gi). destruct (Z.eqb_spec (blk s i) (start s + tail + 1)) as [E|]; [|done].
    rewrite E in Gi. done.
Qed.

Lemma install_loop (rec : bool) s Q (k : nat) tail :
  let P := (if rec then [] else map (blk s) (seqZ tail (Z.of_nat k))) ++ Q in
  binv (bst s) [] P -> ldev s = ROOTDEV -> (length P < 30)%nat -> (if rec then (length P < 29)%nat else True) ->
  (forall i, tail <= i < tail + Z.of_nat k ->
     u32 (start s + i + 1) = start s + i + 1 /\ start s + i + 1 ∉ P /\
     forall j, tail <= j < tail + Z.of_nat k -> start s + i + 1 <> blk s j) ->
  exists b', for_tail k tail (fun t => install_one t rec) s = Ok tt (s <| bst := b' |>) /\ binv b' [] Q /\
    wrote (bst s) b' (map (fun i => (blk s i, bview (bst s) (start s + i + 1))) (seqZ tail (Z.of_nat k))).
Proof.
  revert s tail. induction k as [|k IH]; intros s tail P I Dv Cap Cap' G.
  - exists (bst s). split_and!; [by destruct s|by destruct rec|apply wrote_nil].
  - destruct (G tail ltac:(lia)) as (G1 & G2 & G3). subst P. rewrite seqZ_next in *. cbn [map app] in *.
    set (P' := (if rec then [] else map (blk s) (seqZ (tail + 1) (Z.of_nat k))) ++ Q).
    destruct (install_one_spec rec s ((if rec then [] else blk s tail :: map (blk s) (seqZ (tail + 1) (Z.of_nat k))) ++ Q) P'
                tail (blk s tail) (start s + tail + 1)) as (b1 & E1 & I1 & W1); try done.
    { apply G3. lia. } { by destruct rec. } { destruct rec; [by right|left; set_solver]. }
    cbn [for_tail]. unfold bind. rewrite E1. destruct (IH (s <| bst := b1 |>) (tail + 1)) as (b2 & E2 & I2 & W2); try done.
    { destruct rec; [done|]. cbn [app length] in Cap. unfold P' in *. change (length P' < 30)%nat. unfold P'. lia. }
    { by destruct rec. }
    { intros i Hi. destruct (G i ltac:(lia)) as (Gi1 & Gi2 & Gi3). split_and!; [done| |intros; apply Gi3; lia].
      destruct rec; [done|]. set_solver. }
    exists b2. split_and!; [by rewrite E2|done|].
    refine (wrote_trans _ b1 _ [_] _ W1 _).
    erewrite map_ext_in; [exact W2|]. intros i Hi. apply list_elem_of_In, elem_of_seqZ in Hi.
    change ((blk s i, bview (bst s) (start s + i + 1)) = (blk s i, bview b1 (start s + i + 1))). f_equal. rewrite (w_view _ _ _ W1). cbn. unfold disk_set.
    destruct (Z.eqb_spec (start s + i + 1) (blk s tail)) as [E|]; [|done]. destruct (G i ltac:(lia)) as (_ & _ & Gi).
    exfalso. apply (Gi tail); [lia|done].
Qed.
End Steps.
