(* ===== verification/LogProps.v ===== *)
(** * Transactions survive crashes

    [commit] writes the log blocks, the header, the home blocks and the header
    again.  A crash keeps a prefix of those writes; after a restart the disk
    outside the log is as before the transaction or as after it, whatever the
    prefix, and however often the recovery is itself cut short. *)

From Stdlib Require Import ZArith Lia List.
From stdpp Require Import base tactics numbers list sets relations strings.
From S2P Require Import Prelude Riscv Sleeplock Bio BioFacts Log LogFacts.

(** ** Replaying writes *)

Section Replay.
Implicit Types (d : disk) (w : list (Z * list Z)) (k : Z).

Lemma replay_out d w k : k ∉ map fst w -> replay d w k = d k.
Proof.
  revert d. induction w as [|[i v] w IH]; intros d N; [done|]. cbn in *. apply not_elem_of_cons in N as [Ni N].
  rewrite IH by done. unfold disk_set. by destruct (Z.eqb_spec k i).
Qed.

Lemma replay_in d w k v : NoDup (map fst w) -> (k, v) ∈ w -> replay d w k = v.
Proof.
  revert d. induction w as [|[i v'] w IH]; intros d N K; [set_solver|]. cbn in N. apply NoDup_cons in N as [Ni N].
  apply elem_of_cons in K as [[= -> ->]|K]; [|by apply IH].
  change (replay (disk_set d i v') w i = v'). rewrite replay_out by done. unfold disk_set. by rewrite Z.eqb_refl.
Qed.

Lemma replay_len d w : (forall k, length (d k) = 1024%nat) -> Forall (fun x => length x.2 = 1024%nat) w ->
  forall k, length (replay d w k) = 1024%nat.
Proof.
  revert d. induction w as [|x w IH]; intros d L F k; [apply L|]. apply Forall_cons in F as [Fx F].
  apply IH; [|done]. intros i. unfold disk_set. by destruct (i =? x.1).
Qed.

(** Writes of functions of an index. *)
Lemma fst_map (f : Z -> Z) (g : Z -> list Z) l : map fst (map (fun i => (f i, g i)) l) = map f l.
Proof. rewrite map_map. done. Qed.

Lemma replay_map d (f : Z -> Z) (g : Z -> list Z) l i :
  NoDup (map f l) -> i ∈ l -> replay d (map (fun i => (f i, g i)) l) (f i) = g i.
Proof.
  intros N I. apply replay_in; [by rewrite fst_map|]. apply (list_elem_of_fmap_2 (fun i => (f i, g i))), I.
Qed.
End Replay.

Lemma bview_len b H P k : binv b H P -> length (bview b k) = 1024%nat.
Proof.
  intros I. destruct (cached_dec b k) as [(x & X & C)|C].
  - rewrite (bview_hit b H P x) by done. apply (bi_buf _ _ _ I x X).
  - rewrite bview_miss by done. apply (bi_disk _ _ _ I).
Qed.

(** ** The log on disk *)

Section OnDisk.
Context (st sz : Z).
Implicit Types (d : disk) (k i : Z).

Definition in_log k : Prop := st <= k < st + sz.

Definition d_n d : Z := head_int (d st) 0.
Definition d_block d i : Z := head_int (d st) (i + 1).

(** A well-formed log: distinct blocks outside the log. *)
Record dlog d : Prop := {
  dl_geom : 0 < st /\ 1 <= sz <= 30 /\ st + sz < 2 ^ 31;
  dl_n : 0 <= d_n d <= sz - 1;
  dl_block : forall i, 0 <= i < d_n d -> 0 <= d_block d i < 2 ^ 31 /\ ~ in_log (d_block d i);
  dl_nodup : NoDup (map (d_block d) (seqZ 0 (d_n d)));
  dl_len : forall k, length (d k) = 1024%nat
}.

(** What recovery writes: the logged blocks to their homes, then the header
    with its count cleared. *)
Definition clear d : list Z := hdr 0 [] (d st).
Definition redo d : list (Z * list Z) := map (fun i => (d_block d i, d (st + i + 1))) (seqZ 0 (d_n d)).
Definition recovery d : list (Z * list Z) := redo d ++ [(st, clear d)].

Lemma hdr_0 l l' x : hdr 0 l x = hdr 0 l' x.
Proof. done. Qed.

Lemma d_n_clear d : dlog d -> d_n (disk_set d st (clear d)) = 0.
Proof.
  intros D. unfold d_n, disk_set. rewrite Z.eqb_refl. apply head_int_n; [lia|apply (dl_len _ D)].
Qed.

Lemma redo_home d k : dlog d -> k ∈ map fst (redo d) -> ~ in_log k.
Proof.
  intros D. unfold redo. rewrite fst_map. intros (i & -> & I)%list_elem_of_fmap. apply elem_of_seqZ in I.
  apply (dl_block _ D). lia.
Qed.

Lemma recovery_len d : dlog d -> Forall (fun x => length x.2 = 1024%nat) (recovery d).
Proof.
  intros D. apply Forall_app. split; [|constructor; [|constructor]].
  - apply Forall_forall. intros x (i & -> & _)%list_elem_of_fmap. apply (dl_len _ D).
  - unfold clear. cbn. rewrite length_hdr. apply (dl_len _ D).
Qed.

(** Writes outside the log leave the log alone. *)
Lemma dlog_home d w :
  dlog d -> (forall k, k ∈ map fst w -> ~ in_log k) -> Forall (fun x => length x.2 = 1024%nat) w ->
  dlog (replay d w) /\ d_n (replay d w) = d_n d /\ (forall i, d_block (replay d w) i = d_block d i) /\
  forall k, in_log k -> replay d w k = d k.
Proof.
  intros D O L. assert (E : forall k, in_log k -> replay d w k = d k).
  { intros k K. apply replay_out. intros I. by apply (O k). }
  destruct (dl_geom _ D) as (G1 & G2 & G3). assert (Es : replay d w st = d st) by (apply E; unfold in_log; lia).
  assert (En : d_n (replay d w) = d_n d) by (unfold d_n; by rewrite Es).
  assert (Eb : forall i, d_block (replay d w) i = d_block d i) by (intros; unfold d_block; by rewrite Es).
  split_and!; try done. destruct D. split; try done.
  - by rewrite En.
  - intros i I. rewrite Eb. rewrite En in I. auto.
  - rewrite En. erewrite map_ext; [done|]. apply Eb.
  - by apply replay_len.
Qed.
Lemma prefix_snoc {A} (w l : list A) x : w `prefix_of` l ++ [x] -> w `prefix_of` l \/ w = l ++ [x].
Proof.
  intros [k E]. destruct k as [|y k _] using rev_ind; [right; by rewrite app_nil_r in E|].
  left. exists k. rewrite app_assoc in E. by apply app_inj_tail in E as [? _].
Qed.

Lemma home_not_st k : sz >= 1 -> ~ in_log k -> k <> st.
Proof. unfold in_log. lia. Qed.

(** Outside the log, clearing the header does nothing. *)
Lemma recovery_home d k : dlog d -> ~ in_log k -> replay d (recovery d) k = replay d (redo d) k.
Proof.
  intros D K. unfold recovery. rewrite replay_app. cbn. unfold disk_set.
  destruct (Z.eqb_spec k st) as [->|]; [|done]. exfalso. destruct (dl_geom _ D). apply K. unfold in_log. lia.
Qed.

(** Redoing after a part of the redo. *)
Lemma redo_again d w k : dlog d -> w `prefix_of` redo d -> replay (replay d w) (redo d) k = replay d (redo d) k.
Proof.
  intros D [w' E]. pose proof (dl_nodup _ D) as N.
  assert (Nd : NoDup (map fst (redo d))) by (unfold redo; by rewrite fst_map).
  destruct (decide (k ∈ map fst (redo d))) as [I|I].
  - apply list_elem_of_fmap in I as ([k' v] & -> & I). cbn. by rewrite !(replay_in _ _ _ _ Nd I).
  - rewrite !(replay_out _ (redo d)) by done. apply replay_out. intros X. apply I. rewrite E, map_app. set_solver.
Qed.

(** After a crash during recovery, recovery comes to the same disk. *)
Lemma recovery_restart d w :
  dlog d -> w `prefix_of` recovery d ->
  dlog (replay d w) /\ forall k, ~ in_log k -> replay (replay d w) (recovery (replay d w)) k = replay d (recovery d) k.
Proof.
  intros D W. pose proof (recovery_len d D) as L. destruct (prefix_snoc _ _ _ W) as [W'|E].
  - assert (Fw : Forall (fun x => length x.2 = 1024%nat) w).
    { destruct W as [r E]. rewrite E in L. by apply Forall_app in L as [? _]. }
    assert (Hw : forall k, k ∈ map fst w -> ~ in_log k).
    { intros k K. apply (redo_home d k D). destruct W' as [r E]. rewrite E, map_app. set_solver. }
    destruct (dlog_home d w D Hw Fw) as (D' & En & Eb & Ek). split; [done|]. intros k K.
    rewrite !recovery_home by done. rewrite <- (redo_again d w k D W'). f_equal. unfold redo at 1. rewrite En.
    apply map_ext_in. intros i Hi. apply list_elem_of_In, elem_of_seqZ in Hi. rewrite Eb, Ek; [done|].
    destruct (dl_n _ D), (dl_geom _ D). unfold in_log. lia.
  - subst w. change (redo d ++ [(st, clear d)]) with (recovery d). set (d' := replay d (recovery d)).
    destruct (dlog_home d (redo d) D (fun k => redo_home d k D)) as (D1 & En & Eb & Ek).
    { by apply Forall_app in L as [? _]. }
    assert (Es : d' st = clear d).
    { unfold d', recovery. rewrite replay_app. cbn. unfold disk_set. by rewrite Z.eqb_refl. }
    assert (N0 : d_n d' = 0) by (unfold d_n; rewrite Es; apply head_int_n; [lia|apply (dl_len _ D)]).
    assert (D' : dlog d').
    { split; rewrite ?N0; [apply (dl_geom _ D)|destruct (dl_geom _ D); lia|lia|constructor|].
      by apply replay_len, L; [apply (dl_len _ D)]. }
    split; [done|]. intros k K. rewrite (recovery_home d' k D' K). unfold redo. by rewrite N0.
Qed.
End OnDisk.

(** ** The log in memory *)

Record linv (s : lstate) (H : list Z) : Prop := {
  li_binv : binv (bst s) H (logged s);
  li_dev : ldev s = ROOTDEV;
  li_geom : 0 < start s /\ 1 <= size s <= 30 /\ start s + size s < 2 ^ 31;
  li_n : 0 <= lh_n s <= size s - 1;
  li_len : length (lh_block s) = 30%nat;
  li_blocks : forall i, 0 <= i < lh_n s -> 0 <= at_ 0 (lh_block s) i < 2 ^ 31 /\ ~ in_log (start s) (size s) (at_ 0 (lh_block s) i)
}.

Lemma blk_small s i H : linv s H -> 0 <= i < lh_n s -> blk s i = at_ 0 (lh_block s) i /\ ~ in_log (start s) (size s) (blk s i).
Proof.
  intros L I. destruct (li_blocks _ _ L i I) as [R N]. assert (E : blk s i = at_ 0 (lh_block s) i) by (apply u32_small; lia).
  by rewrite E.
Qed.

(** A restart: a fresh cache over the disk, then the recovery of [initlog]. *)
Definition restart (p : Z) (d : disk) (st sz : Z) : res lstate unit :=
  match binit (boot p d) with
  | Ok _ b => initlog ROOTDEV st sz (log0 b)
  | Panic m => Panic m
  | Block c b => Block c (log0 b)
  end.

Section Recover.
Context (st sz : Z).

Lemma recover_run b d :
  dlog st sz d -> binv b [] [] -> (forall k, bview b k = d k) -> dsk b = d -> writes b = [] ->
  exists s', initlog ROOTDEV st sz (log0 b) = Ok tt s' /\ linv s' [] /\ lh_n s' = 0 /\ start s' = st /\ size s' = sz /\
    outstanding s' = 0 /\ committing s' = 0 /\
    writes (bst s') = recovery st d /\ dsk (bst s') = replay d (recovery st d).
Proof.
  intros D I V Dk Wr. destruct (dl_geom _ _ _ D) as (G1 & G2 & G3). destruct (dl_n _ _ _ D) as [N1 N2].
  unfold initlog. change (BSIZE <=? sizeof_logheader) with false. cbn match. unfold bind at 1, modify.
  rewrite !i32_small by lia. set (s0 := over ldev _ _). unfold recover_from_log, bind at 1.
  assert (Us : u32 st = st) by (apply u32_small; lia).
  destruct (read_head_spec s0 [] st I eq_refl Us ltac:(set_solver) ltac:(cbn; lia)) as (b1 & E1 & I1 & W1).
  rewrite E1. rewrite (V st : bview (bst s0) st = d st). change (head_int (d st) 0) with (d_n st d). set (s1 := over bst _ _).
  assert (Bk : forall i, 0 <= i < d_n st d -> blk s1 i = d_block st d i).
  { intros i Hi. unfold blk. change (lh_block s1) with (read_blocks (Z.to_nat (d_n st d)) 0 (d st) (repeat 0 30)).
    rewrite read_blocks_at by (rewrite ?repeat_length; lia). apply u32_small. destruct (dl_block _ _ _ D i Hi). unfold d_block in *. lia. }
  assert (V1 : forall k, bview b1 k = d k) by (intros k; rewrite (w_view _ _ _ W1); apply V).
  destruct (install_loop true s1 [] (Z.to_nat (d_n st d)) 0) as (b2 & E2 & I2 & W2); try done.
  { cbn. lia. } { cbn. lia. }
  { intros i Hi. change (start s1) with st. split_and!; [apply u32_small; lia|set_solver|]. intros j Hj. rewrite Bk by lia.
    intros E. destruct (dl_block _ _ _ D j ltac:(lia)) as [_ X]. apply X. rewrite <- E. unfold in_log. lia. }
  unfold bind at 1, install_trans, bind at 1, gets. change (lh_n s1) with (d_n st d). rewrite E2. unfold bind, modify.
  rewrite Z2Nat.id in W2 by done.
  assert (Rd : map (fun i => (blk s1 i, bview (bst s1) (start s1 + i + 1))) (seqZ 0 (d_n st d)) = redo st d).
  { apply map_ext_in. intros i Hi. apply list_elem_of_In, elem_of_seqZ in Hi. rewrite Bk by lia. f_equal. apply V1. }
  rewrite Rd in W2. set (s2 := over lh_n _ _).
  destruct (write_head_spec s2 [] st I2 eq_refl Us ltac:(set_solver) ltac:(cbn; lia)) as (b3 & E3 & I3 & W3).
  assert (Hd : bview (bst s2) st = d st).
  { change (bview b2 st = d st). rewrite (w_view _ _ _ W2). rewrite replay_out; [apply V1|]. intros K.
    apply (redo_home st sz) in K; [|done]. apply K. unfold in_log. lia. }
  rewrite Hd in W3. rewrite (hdr_0 _ [] _ : hdr (lh_n s2) _ _ = clear st d) in W3.
  exists (s2 <| bst := b3 |>). split; [exact E3|].
  assert (W : wrote b b3 (recovery st d)).
  { change (recovery st d) with ([] ++ redo st d ++ [(st, clear st d)]). eapply wrote_trans; [exact W1|].
    eapply wrote_trans; [exact W2|exact W3]. }
  split_and!; try done.
  - split; try done; [cbn; lia|change (length (read_blocks (Z.to_nat (d_n st d)) 0 (d st) (repeat 0 30)) = 30%nat); by rewrite length_read_blocks|cbn; lia].
  - change (writes b3 = recovery st d). by rewrite (w_writes _ _ _ W), Wr.
  - change (dsk b3 = replay d (recovery st d)). by rewrite (w_dsk _ _ _ W), Dk.
Qed.

Lemma restart_run p d :
  dlog st sz d -> exists s', restart p d st sz = Ok tt s' /\ linv s' [] /\ lh_n s' = 0 /\ start s' = st /\ size s' = sz /\
    outstanding s' = 0 /\ committing s' = 0 /\
    writes (bst s') = recovery st d /\ dsk (bst s') = replay d (recovery st d).
Proof.
  intros D. destruct (binit_spec p d (dl_len _ _ _ D)) as (b & E & I & _ & Dk & Wr & _ & V).
  unfold restart. rewrite E. by apply recover_run.
Qed.
End Recover.

(** ** Commit *)

Section Commit.
Implicit Types (s : lstate) (k i : Z).

(** The four groups of writes of [commit]. *)
Definition log_part s : list (Z * list Z) :=
  map (fun i => (start s + i + 1, bview (bst s) (blk s i))) (seqZ 0 (lh_n s)).
Definition head_part s : list Z := hdr (lh_n s) (lh_block s) (bview (bst s) (start s)).
Definition home_part s : list (Z * list Z) := map (fun i => (blk s i, bview (bst s) (blk s i))) (seqZ 0 (lh_n s)).
Definition commit_writes s : list (Z * list Z) :=
  if 0 <? lh_n s
  then log_part s ++ [(start s, head_part s)] ++ home_part s ++ [(start s, hdr 0 [] (head_part s))] else [].

Lemma log_part_at s i d : 0 <= i < lh_n s -> replay d (log_part s) (start s + i + 1) = bview (bst s) (blk s i).
Proof.
  intros I. apply (replay_map d (fun i => start s + i + 1) (fun i => bview (bst s) (blk s i))); [|apply elem_of_seqZ; lia].
  apply NoDup_fmap_2; [intros ? ? ?; lia|apply NoDup_seqZ].
Qed.

Lemma log_part_dom s k : k ∈ map fst (log_part s) -> start s < k <= start s + lh_n s.
Proof. unfold log_part. rewrite fst_map. intros (i & -> & I)%list_elem_of_fmap. apply elem_of_seqZ in I. lia. Qed.

Lemma logged_home s k H : linv s H -> k ∈ logged s -> ~ in_log (start s) (size s) k.
Proof.
  intros L (i & -> & I)%list_elem_of_fmap. apply elem_of_seqZ in I. apply (blk_small s i H L). lia.
Qed.

Lemma logged_length s H : linv s H -> (length (logged s) < 30)%nat.
Proof. intros L. unfold logged. rewrite length_map, length_seqZ. destruct (li_n _ _ L), (li_geom _ _ L). lia. Qed.

Lemma commit_run s : linv s [] ->
  exists b', commit s = Ok tt (s <| lh_n := 0 |> <| bst := b' |>) /\ binv b' [] [] /\ wrote (bst s) b' (commit_writes s).
Proof.
  intros L. destruct (li_geom _ _ L) as (G1 & G2 & G3). destruct (li_n _ _ L) as [N1 N2]. pose proof (li_binv _ _ L) as I.
  pose proof (logged_length s [] L) as Cap. pose proof (li_dev _ _ L) as Dv.
  unfold commit, commit_writes, bind at 1, gets. destruct (Z.ltb_spec 0 (lh_n s)) as [Np|Nz].
  2: { assert (E0 : lh_n s = 0) by lia. exists (bst s). unfold logged in I. rewrite E0 in I.
       split_and!; [|done|apply wrote_nil]. destruct s. cbn in E0. by subst. }
  assert (Nin : forall i, 0 <= i < lh_n s -> start s + i + 1 ∉ logged s).
  { intros i Hi K. apply (logged_home s _ [] L) in K. apply K. unfold in_log. lia. }
  assert (Nst : start s ∉ logged s).
  { intros K. apply (logged_home s _ [] L) in K. apply K. unfold in_log. lia. }
  destruct (write_log_loop s (logged s) (Z.to_nat (lh_n s)) 0) as (b1 & E1 & I1 & W1); try done.
  { intros i Hi. split_and!; [apply u32_small; lia|apply Nin; lia|]. apply list_elem_of_fmap. exists i. split; [done|]. apply elem_of_seqZ. lia. }
  rewrite Z2Nat.id in W1 by lia. change (map _ (seqZ 0 (lh_n s))) with (log_part s) in W1.
  unfold bind at 1, write_log, bind at 1, gets. rewrite E1.
  assert (Us : u32 (start s) = start s) by (apply u32_small; lia).
  destruct (write_head_spec (s <| bst := b1 |>) (logged s) (start s)) as (b2 & E2 & I2 & W2); try done.
  unfold bind at 1. rewrite E2. change ((s <| bst := b1 |>) <| bst := b2 |>) with (s <| bst := b2 |>).
  assert (Hs : bview b1 (start s) = bview (bst s) (start s)).
  { rewrite (w_view _ _ _ W1). apply replay_out. intros K%log_part_dom. lia. }
  change (hdr _ _ _) with (hdr (lh_n s) (lh_block s) (bview b1 (start s))) in W2. rewrite Hs in W2. fold (head_part s) in W2.
  destruct (install_loop false (s <| bst := b2 |>) [] (Z.to_nat (lh_n s)) 0) as (b3 & E3 & I3 & W3); try done.
  { rewrite app_nil_r, Z2Nat.id by lia. exact I2. }
  { rewrite app_nil_r, Z2Nat.id by lia. exact Cap. }
  { intros i Hi. rewrite app_nil_r, Z2Nat.id by lia. split_and!; [apply u32_small; cbn; lia|apply Nin; lia|].
    intros j Hj E. change (start s + i + 1 = blk s j) in E. apply (Nin i ltac:(lia)). rewrite E. apply list_elem_of_fmap. exists j.
    split; [done|]. apply elem_of_seqZ. lia. }
  rewrite Z2Nat.id in W3 by lia. unfold bind at 1, install_trans, bind at 1, gets. change (lh_n (s <| bst := b2 |>)) with (lh_n s).
  assert (Hp : map (fun i => (blk (s <| bst := b2 |>) i, bview b2 (start s + i + 1))) (seqZ 0 (lh_n s)) = home_part s).
  { apply map_ext_in. intros i Hi. apply list_elem_of_In, elem_of_seqZ in Hi. change (blk (s <| bst := b2 |>) i) with (blk s i). f_equal.
    rewrite (w_view _ _ _ W2). cbn. unfold disk_set. destruct (Z.eqb_spec (start s + i + 1) (start s)); [lia|].
    rewrite (w_view _ _ _ W1). apply log_part_at. lia. }
  change (wrote b2 b3 (map (fun i => (blk (s <| bst := b2 |>) i, bview b2 (start s + i + 1))) (seqZ 0 (lh_n s)))) in W3. rewrite Hp in W3.
  rewrite E3. unfold bind, modify. change ((s <| bst := b2 |>) <| bst := b3 |>) with (s <| bst := b3 |>).
  destruct (write_head_spec (s <| bst := b3 |> <| lh_n := 0 |>) [] (start s)) as (b4 & E4 & I4 & W4); try done; [set_solver|cbn; lia|].
  assert (Hd : bview b3 (start s) = head_part s).
  { rewrite (w_view _ _ _ W3), replay_out.
    - rewrite (w_view _ _ _ W2). cbn. unfold disk_set. by rewrite Z.eqb_refl.
    - unfold home_part. rewrite fst_map. exact Nst. }
  change (hdr _ _ _) with (hdr 0 [] (bview b3 (start s))) in W4. rewrite Hd in W4.
  exists b4. split; [by rewrite E4; destruct s|]. split; [done|].
  eapply wrote_trans; [exact W1|]. eapply wrote_trans; [exact W2|]. eapply wrote_trans; [exact W3|exact W4].
Qed.
(** The disk once the header is written, with the transaction in the log. *)
Definition logged_disk s : disk := replay (dsk (bst s)) (log_part s ++ [(start s, head_part s)]).

Lemma logged_disk_st s : logged_disk s (start s) = head_part s.
Proof. unfold logged_disk. rewrite replay_app. cbn. unfold disk_set. by rewrite Z.eqb_refl. Qed.

Lemma parts_len s : linv s [] ->
  Forall (fun x => length x.2 = 1024%nat) (log_part s) /\ length (head_part s) = 1024%nat.
Proof.
  intros L. split.
  - apply Forall_forall. intros x (i & -> & _)%list_elem_of_fmap. apply (bview_len _ _ _ _ (li_binv _ _ L)).
  - unfold head_part. rewrite length_hdr. apply (bview_len _ _ _ _ (li_binv _ _ L)).
Qed.

Lemma logged_disk_log s : linv s [] ->
  d_n (start s) (logged_disk s) = lh_n s /\
  (forall i, 0 <= i < lh_n s -> d_block (start s) (logged_disk s) i = blk s i /\
                                logged_disk s (start s + i + 1) = bview (bst s) (blk s i)).
Proof.
  intros L. destruct (li_geom _ _ L) as (G1 & G2 & G3). destruct (li_n _ _ L) as [N1 N2].
  pose proof (bview_len _ _ _ (start s) (li_binv _ _ L)) as Lv.
  unfold d_n, d_block. rewrite logged_disk_st. split; [apply head_int_n; [lia|done]|]. intros i Hi.
  destruct (blk_small s i [] L Hi) as [-> _]. split.
  - apply head_int_block; [lia|lia|done|]. by apply (li_blocks _ _ L).
  - unfold logged_disk. rewrite replay_app. cbn. unfold disk_set. destruct (Z.eqb_spec (start s + i + 1) (start s)); [lia|].
    rewrite log_part_at by lia. by destruct (blk_small s i [] L Hi) as [-> _].
Qed.

Lemma logged_disk_ok s : linv s [] ->
  dlog (start s) (size s) (logged_disk s) /\
  recovery (start s) (logged_disk s) = home_part s ++ [(start s, hdr 0 [] (head_part s))] /\
  forall k, ~ in_log (start s) (size s) k -> replay (logged_disk s) (recovery (start s) (logged_disk s)) k = bview (bst s) k.
Proof.
  intros L. destruct (li_geom _ _ L) as (G1 & G2 & G3). destruct (li_n _ _ L) as [N1 N2].
  destruct (logged_disk_log s L) as [En Eb]. destruct (parts_len s L) as [Fl Fh].
  assert (Em : map (d_block (start s) (logged_disk s)) (seqZ 0 (lh_n s)) = logged s).
  { apply map_ext_in. intros i Hi. apply list_elem_of_In, elem_of_seqZ in Hi. apply Eb. lia. }
  assert (D : dlog (start s) (size s) (logged_disk s)).
  { split; rewrite ?En; try done.
    - intros i Hi. destruct (Eb i Hi) as [-> _]. destruct (blk_small s i [] L Hi) as [E N]. split; [|done].
      rewrite E. by apply (li_blocks _ _ L).
    - rewrite Em. apply (bi_pins _ _ _ (li_binv _ _ L)).
    - apply replay_len; [apply (bi_disk _ _ _ (li_binv _ _ L))|]. apply Forall_app. split; [done|]. by constructor. }
  assert (Er : redo (start s) (logged_disk s) = home_part s).
  { unfold redo. rewrite En. apply map_ext_in. intros i Hi. apply list_elem_of_In, elem_of_seqZ in Hi.
    destruct (Eb i ltac:(lia)) as [-> ->]. done. }
  split_and!; [done|unfold recovery, clear; by rewrite Er, logged_disk_st|].
  intros k K. rewrite (recovery_home _ _ _ _ D K), Er. destruct (decide (k ∈ logged s)) as [I|I].
  - apply list_elem_of_fmap in I as (i & -> & I). unfold home_part.
    apply (replay_map _ (blk s) (fun i => bview (bst s) (blk s i))); [|done]. apply (bi_pins _ _ _ (li_binv _ _ L)).
  - rewrite replay_out by (unfold home_part; by rewrite fst_map). unfold logged_disk. rewrite replay_out.
    + symmetry. apply (bview_clean _ [] (logged s)); [apply (li_binv _ _ L)|done|set_solver].
    + rewrite map_app. intros [X%log_part_dom|X]%elem_of_app; [apply K; unfold in_log; lia|].
      apply list_elem_of_singleton in X. apply K. unfold in_log. cbn in X. lia.
Qed.
(** Nothing but log blocks written: the disk still has the empty log. *)
Lemma unlogged_disk_ok s w :
  linv s [] -> head_int (dsk (bst s) (start s)) 0 = 0 -> w `prefix_of` log_part s ->
  let d := replay (dsk (bst s)) w in
  dlog (start s) (size s) d /\
  forall k, ~ in_log (start s) (size s) k -> replay d (recovery (start s) d) k = dsk (bst s) k.
Proof.
  intros L E0 [r Ew] d. destruct (li_geom _ _ L) as (G1 & G2 & G3). destruct (li_n _ _ L) as [N1 N2].
  destruct (parts_len s L) as [Fl _]. rewrite Ew in Fl. apply Forall_app in Fl as [Fw _].
  assert (O : forall k, k ∈ map fst w -> start s < k <= start s + lh_n s).
  { intros k K. apply log_part_dom. rewrite Ew, map_app. set_solver. }
  assert (En : d_n (start s) d = 0).
  { unfold d_n, d. rewrite replay_out; [done|]. intros K%O. lia. }
  assert (D : dlog (start s) (size s) d).
  { split; rewrite ?En; [done|lia|lia|constructor|]. apply replay_len; [apply (bi_disk _ _ _ (li_binv _ _ L))|done]. }
  split; [done|]. intros k K. rewrite (recovery_home _ _ _ _ D K). unfold redo. rewrite En. change (d k = dsk (bst s) k).
  apply replay_out. intros X%O. apply K. unfold in_log. lia.
Qed.

Lemma prefix_app_cases {A} (w l1 l2 : list A) :
  w `prefix_of` l1 ++ l2 -> (w `prefix_of` l1) \/ exists w', w = l1 ++ w' /\ w' `prefix_of` l2.
Proof.
  revert w. induction l1 as [|x l1 IH]; intros w P; [right; by exists w|].
  destruct w as [|y w]; [left; apply prefix_nil|]. apply prefix_cons_inv_1 in P as E; subst.
  apply prefix_cons_inv_2, IH in P as [P|(w' & -> & P)]; [left; by apply prefix_cons|right; by exists w'].
Qed.

(** What a crash after the writes [w] of [commit] leaves: a log whose recovery
    gives the old blocks before the header is written, the new ones after. *)
Lemma crash_state s w :
  linv s [] -> head_int (dsk (bst s) (start s)) 0 = 0 -> w `prefix_of` commit_writes s ->
  let d := replay (dsk (bst s)) w in
  dlog (start s) (size s) d /\
  forall k, ~ in_log (start s) (size s) k ->
    replay d (recovery (start s) d) k = (if decide (length w <= Z.to_nat (lh_n s))%nat then dsk (bst s) else bview (bst s)) k.
Proof.
  intros L E0 W d. assert (Ll : length (log_part s) = Z.to_nat (lh_n s)) by (unfold log_part; by rewrite length_map, length_seqZ).
  unfold commit_writes in W. destruct (Z.ltb_spec 0 (lh_n s)) as [Np|Nz].
  2: { apply prefix_nil_inv in W as ->. rewrite decide_True by (cbn; lia).
       apply (unlogged_disk_ok s []); [done|done|apply prefix_nil]. }
  rewrite app_assoc in W. apply prefix_app_cases in W as [W|(w' & -> & W)].
  - apply prefix_snoc in W as [W|E].
    + rewrite decide_True; [by apply unlogged_disk_ok|]. rewrite <- Ll. by apply prefix_length.
    + destruct (logged_disk_ok s L) as (D & _ & V). rewrite decide_False by (rewrite E, length_app, Ll; cbn; lia).
      subst w. done.
  - destruct (logged_disk_ok s L) as (D & Er & V).
    rewrite decide_False by (rewrite !length_app, Ll; cbn; lia).
    unfold d. rewrite replay_app. fold (logged_disk s).
    destruct (recovery_restart _ _ (logged_disk s) w' D) as [D' V']; [by rewrite Er|]. split; [done|].
    intros k K. by rewrite V', V.
Qed.

(** Any number of crashes during recovery: each restart of the machine runs the
    code of [initlog] on what the last one left, and is cut short somewhere. *)
Inductive crashes (p st sz : Z) (d : disk) : disk -> Prop :=
| crash_none : crashes p st sz d d
| crash_again d1 s1 w :
    crashes p st sz d d1 -> restart p d1 st sz = Ok tt s1 -> w `prefix_of` writes (bst s1) ->
    crashes p st sz d (replay d1 w).

Lemma crashes_recover p st sz d d' :
  dlog st sz d -> crashes p st sz d d' ->
  dlog st sz d' /\ forall k, ~ in_log st sz k -> replay d' (recovery st d') k = replay d (recovery st d) k.
Proof.
  intros D C. induction C as [|d1 s1 w C [D1 V1] R W]; [done|].
  destruct (restart_run st sz p d1 D1) as (s2 & E & _ & _ & _ & _ & _ & _ & Wr & _). rewrite R in E. injection E as <-.
  rewrite Wr in W. destruct (recovery_restart st sz d1 w D1 W) as [D2 V2]. split; [done|]. intros k K. by rewrite V2, V1.
Qed.
(** In the cache, [commit] changes nothing outside the log. *)
Lemma commit_writes_view s k : linv s [] -> ~ in_log (start s) (size s) k ->
  replay (bview (bst s)) (commit_writes s) k = bview (bst s) k.
Proof.
  intros L K. destruct (li_geom _ _ L) as (G1 & G2 & G3). destruct (li_n _ _ L) as [N1 N2].
  assert (Ks : (k =? start s) = false) by (apply Z.eqb_neq; unfold in_log in K; lia).
  unfold commit_writes. destruct (0 <? lh_n s); [|done]. rewrite !replay_app. cbn. unfold disk_set at 1. rewrite Ks.
  destruct (decide (k ∈ logged s)) as [(i & -> & I)%list_elem_of_fmap|I].
  - unfold home_part. apply (replay_map _ (blk s) (fun i => bview (bst s) (blk s i))); [|done].
    apply (bi_pins _ _ _ (li_binv _ _ L)).
  - rewrite (replay_out _ (home_part s)) by (unfold home_part; by rewrite fst_map). unfold disk_set. rewrite Ks.
    apply replay_out. intros X%log_part_dom. apply K. unfold in_log. lia.
Qed.
End Commit.

(** ** Logging a block *)

Section LogWrite.
Implicit Types (s : lstate) (b : Z).

Lemma find_block_spec (k : nat) i b l :
  let j := find_block k i b l in
  i <= j <= i + Z.of_nat k /\ (j < i + Z.of_nat k -> u32 (at_ 0 l j) = b) /\
  (j = i + Z.of_nat k -> forall x, i <= x < j -> u32 (at_ 0 l x) <> b).
Proof.
  revert i. induction k as [|k IH]; intros i; cbn; [split_and!; intros; lia|].
  destruct (Z.eqb_spec (u32 (at_ 0 l i)) b) as [E|N]; [split_and!; intros; lia || done|].
  specialize (IH (i + 1)) as (A & B & C). split; [lia|]. split; [intros; apply B; lia|].
  intros Ej x Hx. destruct (Z.eq_dec x i) as [->|]; [done|]. apply C; lia.
Qed.

(** A state in which only the log header and the pins have changed. *)
Definition same_blocks s s' : Prop :=
  me (bst s') = me (bst s) /\ dsk (bst s') = dsk (bst s) /\ writes (bst s') = writes (bst s) /\
  (forall k, bview (bst s') k = bview (bst s) k) /\
  (forall x, b_data (bufat (bst s') x) = b_data (bufat (bst s) x) /\
             b_blockno (bufat (bst s') x) = b_blockno (bufat (bst s) x)) /\
  start s' = start s /\ size s' = size s /\ outstanding s' = outstanding s /\ committing s' = committing s.

Lemma log_write_spec s H b :
  linv s H -> b ∈ H -> outstanding s >= 1 -> lh_n s < size s - 1 ->
  let k := b_blockno (bufat (bst s) b) in
  0 <= k < 2 ^ 31 -> ~ in_log (start s) (size s) k ->
  exists s', log_write b s = Ok tt s' /\ linv s' H /\ same_blocks s s' /\
    logged s' = if decide (k ∈ logged s) then logged s else logged s ++ [k].
Proof.
  intros L Hb Out Cap k Rk Nk. destruct (li_geom _ _ L) as (G1 & G2 & G3). destruct (li_n _ _ L) as [N1 N2].
  unfold log_write, bind at 1, get. unfold LOGSIZE, MAXOPBLOCKS. rewrite (i32_small (size s - 1)) by lia.
  destruct (Z.leb_spec (10 * 3) (lh_n s)); [lia|]. destruct (Z.leb_spec (size s - 1) (lh_n s)); [lia|]. cbn [orb].
  destruct (Z.ltb_spec (outstanding s) 1); [lia|]. unfold bind at 1, bio at 1, zoom, getb, gets. cbn [lget on_bst].
  fold k. destruct (find_block_spec (Z.to_nat (lh_n s)) 0 k (lh_block s)) as (J1 & J2 & J3).
  set (j := find_block _ _ _ _) in *. rewrite Z2Nat.id in * by done. unfold bind at 1, modify. rewrite (i32_small k) by lia.
  destruct (Z.eqb_spec j (lh_n s)) as [Ej|Nj].
  - assert (Nin : k ∉ logged s).
    { intros (x & E & X)%list_elem_of_fmap. apply elem_of_seqZ in X. apply (J3 ltac:(lia) x ltac:(lia)). by rewrite E. }
    rewrite decide_False by done.
    destruct (bpin_spec (bst s) H (logged s) b (li_binv _ _ L) Hb Nin) as (b' & E & I' & -> & V & D).
    unfold bind. erewrite bio_run by exact E.
    eexists. split; [reflexivity|]. set (s' := over lh_n _ _).
    assert (En : lh_n s' = lh_n s + 1) by (change (i32 (lh_n s + 1) = lh_n s + 1); apply i32_small; lia).
    assert (El : logged s' = logged s ++ [k]).
    { unfold logged. rewrite En, seqZ_app, map_app by lia. f_equal.
      - apply map_ext_in. intros x X. apply list_elem_of_In, elem_of_seqZ in X. unfold blk. f_equal. apply at_upd_ne. lia.
      - change (map (blk s') [lh_n s] = [k]). cbn. f_equal. unfold blk. change (lh_block s') with (upd (lh_block s) j k).
        rewrite Ej, at_upd_eq; [apply u32_small; lia|]. rewrite (li_len _ _ L). lia. }
    split_and!; [|done|done]. split; try done.
    + rewrite El. eapply binv_pin_perm; [|exact I']. apply Permutation_cons_append.
    + apply (li_dev _ _ L).
    + rewrite En. change (size s') with (size s). lia.
    + change (length (upd (lh_block s) j k) = 30%nat). rewrite length_upd. apply (li_len _ _ L).
    + intros i Hi. rewrite En in Hi. change (lh_block s') with (upd (lh_block s) j k).
      destruct (Z.eq_dec i (lh_n s)) as [->|Ni].
      * rewrite Ej, at_upd_eq by (rewrite (li_len _ _ L); lia). done.
      * rewrite at_upd_ne by lia. apply (li_blocks _ _ L). lia.
  - specialize (J2 ltac:(lia)). destruct (blk_small s j H L ltac:(lia)) as [Ej _].
    assert (Ek : at_ 0 (lh_block s) j = k) by (rewrite <- Ej; exact J2).
    rewrite decide_True by (apply list_elem_of_fmap; exists j; split; [by symmetry|apply elem_of_seqZ; lia]).
    exists s. assert (Es : s <| lh_block ::= fun l => upd l j k |> = s).
    { destruct s. unfold over. cbn in *. f_equal. rewrite <- Ek. apply upd_same. }
    unfold ret. split_and!; [|done|done|done].
    f_equal. rewrite <- Es at 3. by destruct s.
Qed.
End LogWrite.

(** ** Reserving log space *)

Section Reserve.
Implicit Types (s : lstate) (u : list Z).

(** The file-system calls in progress and the cache below: [u] counts, for each
    call, the blocks it has added to the log.  A call adds at most MAXOPBLOCKS. *)
Inductive lstep : lstate * list Z -> lstate * list Z -> Prop :=
| ls_begin s s' u : begin_op s = Ok tt s' -> lstep (s, u) (s', 0 :: u)
| ls_log s s' u i n b :
    u !! i = Some n -> n < MAXOPBLOCKS -> log_write b s = Ok tt s' -> lstep (s, u) (s', <[i := n + (lh_n s' - lh_n s)]> u)
| ls_end s s' u i n : u !! i = Some n -> end_op s = Ok tt s' -> lstep (s, u) (s', delete i u)
| ls_bio s u b' : lstep (s, u) (s <| bst := b' |>, u).

(** What the calls in progress may still add. *)
Definition reserved u : Z := foldr (fun n r => (MAXOPBLOCKS - n) + r) 0 u.

Record room (s : lstate) (u : list Z) : Prop := {
  rm_out : outstanding s = Z.of_nat (length u);
  rm_committing : committing s = 0;
  rm_n : 0 <= lh_n s;
  rm_u : Forall (fun n => 0 <= n <= MAXOPBLOCKS) u;
  rm_sum : lh_n s + reserved u <= LOGSIZE;
  rm_few : (length u <= 3)%nat
}.

Lemma reserved_cons n u : reserved (n :: u) = (10 - n) + reserved u.
Proof. done. Qed.

Lemma reserved_nonneg u : Forall (fun n => 0 <= n <= MAXOPBLOCKS) u -> 0 <= reserved u.
Proof. induction 1; [done|]. rewrite reserved_cons. unfold MAXOPBLOCKS in *. lia. Qed.

Lemma reserved_le u : Forall (fun n => 0 <= n <= MAXOPBLOCKS) u -> reserved u <= 10 * Z.of_nat (length u).
Proof. induction 1; [done|]. rewrite reserved_cons. cbn [length]. lia. Qed.

Lemma reserved_insert u i n n' : u !! i = Some n -> reserved (<[i := n']> u) = reserved u + n - n'.
Proof.
  revert i. induction u as [|x u IH]; intros [|i] E; try done.
  - injection E as ->. cbn [insert list_insert]. rewrite !reserved_cons. lia.
  - change (<[S i := n']> (x :: u)) with (x :: <[i := n']> u). rewrite !reserved_cons, (IH i E). lia.
Qed.

Lemma reserved_delete u i n : u !! i = Some n -> reserved (delete i u) = reserved u - (10 - n).
Proof.
  revert i. induction u as [|x u IH]; intros [|i] E; try done.
  - injection E as ->. cbn [delete list_delete]. rewrite !reserved_cons. lia.
  - change (delete (S i) (x :: u)) with (x :: delete i u). rewrite !reserved_cons, (IH i E). lia.
Qed.

(** The routines under [commit] work on the cache, not on the header. *)
Section Frame.
Context {X : Type} (f : lstate -> X) (Hf : forall s b, f (s <| bst := b |>) = f s).

Lemma keeps_bio {A} (m : M bstate A) : keeps f (bio m).
Proof using Hf. intros s. unfold bio, zoom. destruct (m _); [apply Hf|done|apply Hf]. Qed.
Hint Resolve keeps_bio : keeps.

Lemma keeps_for_tail body k t : (forall t, keeps f (body t)) -> keeps f (for_tail k t body).
Proof using Type. intros K. revert t. induction k; intros t; cbn [for_tail]; keeps. Qed.

Lemma keeps_write_head : keeps f write_head.
Proof using Hf. unfold write_head. keeps. Qed.

Lemma keeps_install rec : keeps f (install_trans rec).
Proof using Hf. unfold install_trans. keeps. apply keeps_for_tail. intros t. unfold install_one, copy_data. keeps. Qed.

Lemma keeps_write_log : keeps f write_log.
Proof using Hf. unfold write_log. keeps. apply keeps_for_tail. intros t. unfold write_log_one, copy_data. keeps. Qed.
End Frame.

(** [commit] empties the header and keeps the counters. *)
Lemma commit_clears s s' : commit s = Ok tt s' -> 0 <= lh_n s ->
  lh_n s' = 0 /\ outstanding s' = outstanding s /\ committing s' = committing s.
Proof.
  intros E N. assert (K : keeps (fun s => (outstanding s, committing s)) commit).
  { unfold commit. keeps; try (apply keeps_write_log || apply keeps_write_head || apply keeps_install); try done. }
  specialize (K s). rewrite E in K. injection K as K1 K2. split; [|done]. revert E.
  unfold commit, bind at 1, gets. destruct (Z.ltb_spec 0 (lh_n s)); [|unfold ret; intros [= <-]; lia].
  unfold bind at 1. destruct (write_log s) as [[] s1| |]; [|done|done]. unfold bind at 1.
  destruct (write_head s1) as [[] s2| |]; [|done|done]. unfold bind at 1.
  destruct (install_trans false s2) as [[] s3| |]; [|done|done]. unfold bind, modify. intros E.
  pose proof (keeps_write_head lh_n ltac:(done) (s3 <| lh_n := 0 |>)) as K. rewrite E in K. by rewrite K.
Qed.

Lemma log_write_adds s s' b : log_write b s = Ok tt s' -> 0 <= lh_n s ->
  (lh_n s' = lh_n s \/ lh_n s' = lh_n s + 1 /\ lh_n s < LOGSIZE) /\ outstanding s' = outstanding s /\ committing s' = committing s.
Proof.
  unfold log_write, bind at 1, get. destruct (Z.leb_spec LOGSIZE (lh_n s)); [done|]. cbn [orb].
  destruct (_ <=? lh_n s); [done|]. destruct (_ <? 1); [done|]. unfold bind at 1, bio at 1, zoom, getb, gets. cbn [lget on_bst].
  unfold bind at 1, modify. destruct (_ =? lh_n s); [|unfold ret; intros [= <-]; by split; [left|]].
  unfold bind, bio, zoom, bpin, setb, modify. cbn [lget lset on_bst]. intros [= <-] N.
  split; [right|done]. split; [|done]. change (i32 (lh_n s + 1) = lh_n s + 1). apply i32_small. unfold LOGSIZE, MAXOPBLOCKS in *. lia.
Qed.

Lemma room_begin s s' u : room s u -> begin_op s = Ok tt s' -> room s' (0 :: u).
Proof.
  intros [o c n fu sm fw]. unfold begin_op, bind, get. rewrite c. cbn [Z.eqb negb].
  pose proof (reserved_nonneg u fu) as R0. pose proof (reserved_le u fu) as R1. unfold LOGSIZE, MAXOPBLOCKS in *.
  rewrite o, i32_small by lia. destruct (Z.ltb_spec (10 * 3) (lh_n s + (Z.of_nat (length u) + 1) * 10)); [done|].
  unfold modify. intros [= <-]. split; try done.
  - change (i32 (outstanding s + 1) = Z.of_nat (length (0 :: u))). rewrite o, i32_small by lia. cbn [length]. lia.
  - constructor; [unfold MAXOPBLOCKS; lia|done].
  - rewrite reserved_cons. change (lh_n s + (10 - 0 + reserved u) <= 30). lia.
  - cbn [length]. lia.
Qed.

Lemma room_log s s' u i n b :
  room s u -> u !! i = Some n -> n < MAXOPBLOCKS -> log_write b s = Ok tt s' -> room s' (<[i := n + (lh_n s' - lh_n s)]> u).
Proof.
  intros [o c nn fu sm fw] U N E. destruct (log_write_adds s s' b E nn) as (A & Eo & Ec).
  assert (0 <= n <= MAXOPBLOCKS) by (by apply (proj1 (Forall_lookup _ _) fu i)).
  split; rewrite ?Eo, ?Ec, ?length_insert; try done.
  - lia.
  - apply Forall_insert; [done|]. lia.
  - rewrite (reserved_insert u i n) by done. lia.
Qed.

Lemma end_op_counts s s' : end_op s = Ok tt s' -> committing s = 0 -> 0 <= lh_n s ->
  outstanding s' = i32 (outstanding s - 1) /\ committing s' = 0 /\ (lh_n s' = lh_n s \/ lh_n s' = 0).
Proof.
  intros E C N. revert E. unfold end_op, bind at 1, modify at 1. unfold bind at 1, get.
  change (committing (s <| outstanding ::= ?g |>)) with (committing s). rewrite C. cbn [Z.eqb negb].
  set (s1 := s <| outstanding ::= _ |>). destruct (outstanding s1 =? 0).
  - unfold bind at 1, modify at 1. unfold bind at 1. destruct (commit _) as [[] s2| |] eqn:E; [|done|done].
    apply commit_clears in E as (A & B & _); [|done]. unfold bind, modify, bio, zoom. intros [= <-]. split_and!; [exact B|done|by right].
  - unfold bio, zoom, modify. cbn [lget lset on_bst]. intros [= <-]. split_and!; [done|exact C|by left].
Qed.

Lemma room_end s s' u i n : room s u -> u !! i = Some n -> end_op s = Ok tt s' -> room s' (delete i u).
Proof.
  intros [o c nn fu sm fw] U E. destruct (end_op_counts s s' E c nn) as (Eo & Ec & En).
  assert (0 <= n <= MAXOPBLOCKS) by (by apply (proj1 (Forall_lookup _ _) fu i)). unfold MAXOPBLOCKS in *.
  pose proof (length_delete u i (mk_is_Some _ _ U)) as Ld. pose proof (lookup_lt_Some _ _ _ U).
  split; try done.
  - rewrite Eo, o, i32_small by lia. rewrite Ld. lia.
  - destruct En; lia.
  - by apply Forall_delete.
  - rewrite (reserved_delete u i n) by done. pose proof (reserved_nonneg u fu). destruct En; lia.
  - lia.
Qed.

Lemma lstep_room x y : lstep x y -> room x.1 x.2 -> room y.1 y.2.
Proof.
  intros S R. destruct S; cbn [fst snd] in *;
    [eapply room_begin; eassumption|eapply room_log; eassumption|eapply room_end; eassumption|].
  by destruct R; split.
Qed.
End Reserve.

(** ** Properties *)

(** C1: [commit] returns, and leaves every block outside the log on disk as the
    cache had it.  If the machine stops after any prefix of the writes it issues,
    and then any number of restarts are themselves cut short after any prefix of
    their writes, the next complete restart returns with an empty log and, outside
    the log, with the disk before the transaction if the header had not been
    written, and with all blocks of the transaction otherwise. *)
Theorem commit_crash_safe s p :
  linv s [] -> head_int (dsk (bst s) (start s)) 0 = 0 ->
  exists b' w, commit s = Ok tt (s <| lh_n := 0 |> <| bst := b' |>) /\ writes b' = writes (bst s) ++ w /\
    (forall k, dsk b' k = bview b' k) /\ (forall k, ~ in_log (start s) (size s) k -> dsk b' k = bview (bst s) k) /\
    forall w1 d, w1 `prefix_of` w -> crashes p (start s) (size s) (replay (dsk (bst s)) w1) d ->
      exists s', restart p d (start s) (size s) = Ok tt s' /\ linv s' [] /\ lh_n s' = 0 /\
        forall k, ~ in_log (start s) (size s) k ->
          dsk (bst s') k = (if decide (length w1 <= Z.to_nat (lh_n s))%nat then dsk (bst s) else bview (bst s)) k.
Proof.
  intros L E0. destruct (commit_run s L) as (b' & E & I & W). exists b', (commit_writes s).
  assert (C : forall k, dsk b' k = bview b' k).
  { intros k. symmetry. apply (bview_clean b' [] []); [done|set_solver|set_solver]. }
  split_and!; [done|apply (w_writes _ _ _ W)|done| |].
  - intros k K. rewrite C, (w_view _ _ _ W). by apply commit_writes_view.
  - intros w1 d P Cr. destruct (crash_state s w1 L E0 P) as [D V].
    destruct (crashes_recover _ _ _ _ _ D Cr) as [D' V'].
    destruct (restart_run _ _ p d D') as (s' & E' & L' & N' & _ & _ & _ & _ & _ & Dk). exists s'.
    split; [exact E'|]. split; [exact L'|]. split; [exact N'|]. intros k K. rewrite Dk, (V' k K). exact (V k K).
Qed.

(** C24: every call of the file system that has added fewer than MAXOPBLOCKS
    blocks finds the log below LOGSIZE blocks, whatever other calls do: what is
    logged and what is still reserved never exceed LOGSIZE together, in any
    interleaving of [begin_op], [log_write], [end_op] and work on the cache.  So
    [log_write] reports an oversized transaction only when the log on disk has
    no more than LOGSIZE blocks, header included. *)
Theorem log_space_reserved s0 s u i n b :
  room s0 [] -> rtc lstep (s0, []) (s, u) -> u !! i = Some n -> n < MAXOPBLOCKS ->
  lh_n s + reserved u <= LOGSIZE /\ lh_n s < LOGSIZE /\
  (log_write b s = Panic "too big a transaction" -> i32 (size s - 1) <= lh_n s < LOGSIZE).
Proof.
  intros R0 Rt U N. assert (R : room s u).
  { change (room (s, u).1 (s, u).2). remember (s, u) as y eqn:Ey. clear Ey U. remember (s0, []) as x eqn:Ex.
    assert (Rx : room x.1 x.2) by (by subst). clear Ex R0. induction Rt as [|x y z St _ IH]; [done|]. apply IH. by apply (lstep_room x y). }
  assert (Ln : lh_n s < LOGSIZE).
  { pose proof (rm_sum _ _ R) as Sm. pose proof (reserved_delete u i n U) as Rd.
    pose proof (reserved_nonneg (delete i u) ltac:(apply Forall_delete, (rm_u _ _ R))). unfold MAXOPBLOCKS in *. lia. }
  split_and!; [apply (rm_sum _ _ R)|done|]. unfold log_write, bind at 1, get.
  destruct (Z.leb_spec LOGSIZE (lh_n s)); [lia|]. cbn [orb]. destruct (Z.leb_spec (i32 (size s - 1)) (lh_n s)); [done|].
  destruct (_ <? 1); [done|]. unfold bind at 1, bio at 1, zoom, getb, gets. cbn [lget on_bst].
  unfold bind at 1, modify. by destruct (_ =? lh_n s).
Qed.

(** [begin_op] admits a call when the log has room for all of its blocks. *)
Lemma begin_op_run s : committing s = 0 -> 0 <= lh_n s -> 0 <= outstanding s -> lh_n s + (outstanding s + 1) * MAXOPBLOCKS <= LOGSIZE ->
  begin_op s = Ok tt (s <| outstanding := outstanding s + 1 |>).
Proof.
  intros C N O R. unfold begin_op, bind, get. rewrite C. unfold LOGSIZE, MAXOPBLOCKS in *. rewrite i32_small by lia.
  destruct (Z.ltb_spec (10 * 3) (lh_n s + (outstanding s + 1) * 10)); [lia|]. cbn [negb Z.eqb]. unfold modify.
  change (s <| outstanding ::= fun n => i32 (n + 1) |>) with (s <| outstanding := i32 (outstanding s + 1) |>). rewrite i32_small by lia. done.
Qed.

(** Three calls begin on an empty log. *)
Lemma three_begin s : committing s = 0 -> lh_n s = 0 -> outstanding s = 0 ->
  (do begin_op ;;; do begin_op ;;; begin_op) s = Ok tt (s <| outstanding := 3 |>) /\ rtc lstep (s, []) (s <| outstanding := 3 |>, [0; 0; 0]).
Proof.
  intros C N O.
  assert (B : forall k, 0 <= k <= 2 -> begin_op (s <| outstanding := k |>) = Ok tt (s <| outstanding := k + 1 |>)).
  { intros k Rk. rewrite begin_op_run; cbn; rewrite ?N, ?C; try done; unfold LOGSIZE, MAXOPBLOCKS; lia. }
  assert (E0 : s = s <| outstanding := 0 |>) by (rewrite <- O; by destruct s). rewrite E0 at 1 3. split.
  - rewrite (bind_ok _ _ _ _ _ (B 0 ltac:(lia))), (bind_ok _ _ _ _ _ (B 1 ltac:(lia))). exact (B 2 ltac:(lia)).
  - do 3 (eapply rtc_l; [apply ls_begin, B; lia|]). constructor.
Qed.

(** ** Witnesses *)

Module LogWitness.

Definition blank : disk := fun _ => zeros.

Lemma blank_log : dlog 2 30 blank.
Proof.
  assert (N : d_n 2 blank = 0) by (by vm_compute).
  split; rewrite ?N; [lia|lia|lia|constructor|done].
Qed.

(** A transaction of one block on a disk of zeros. *)
Lemma one_block v : length v = 1024%nat -> exists s, linv s [] /\ lh_n s = 1 /\ start s = 2 /\ size s = 30 /\
  (forall k, dsk (bst s) k = zeros) /\ bview (bst s) 50 = v.
Proof.
  intros Lv. destruct (restart_run 2 30 1 blank blank_log) as (s0 & _ & L0 & N0 & St & Sz & _ & _ & Wr & Dk).
  assert (Dz : forall k, dsk (bst s0) k = zeros).
  { intros k. assert (Er : recovery 2 blank = [(2, zeros)]) by (by vm_compute). rewrite Dk, Er.
    change (disk_set blank 2 zeros k = zeros). unfold disk_set. by destruct (k =? 2). }
  assert (E0 : logged s0 = []) by (unfold logged; by rewrite N0). pose proof (li_binv _ _ L0) as I0. rewrite E0 in I0.
  destruct (bread_spec (bst s0) [] [] 50 I0 ltac:(set_solver) ltac:(cbn; left; lia)) as (x & b1 & _ & G).
  apply got_first in G as (I1 & W1 & Kx & _).
  destruct (setdata_spec b1 [x] [] x v I1 ltac:(set_solver) Lv) as [I2 V2]. set (b2 := put x _ b1) in *.
  assert (Kx2 : b_blockno (bufat b2 x) = 50).
  { destruct (held_dev b1 [x] [] x I1 ltac:(set_solver)) as (B & _). unfold b2.
    rewrite bufat_put, Z.eqb_refl; [exact Kx|apply (bi_len _ _ _ I1)|unfold isbuf in B; lia]. }
  set (s2 := s0 <| outstanding := 1 |> <| bst := b2 |>).
  assert (L2 : linv s2 [x]).
  { destruct L0. split; try done. change (logged s2) with (logged s0). by rewrite E0. }
  destruct (log_write_spec s2 [x] x L2) as (s3 & _ & L3 & (_ & Dk3 & _ & V3 & B3 & St3 & Sz3 & _) & E3);
    [set_solver|done|change (lh_n s0 < size s0 - 1); lia|change (0 <= b_blockno (bufat b2 x) < 2 ^ 31); lia|
     change (~ in_log (start s0) (size s0) (b_blockno (bufat b2 x))); unfold in_log; lia|].
  change (logged s2) with (logged s0) in E3. change (b_blockno (bufat (bst s2) x)) with (b_blockno (bufat b2 x)) in E3.
  rewrite Kx2, E0, decide_False in E3 by set_solver. cbn in E3.
  assert (N3 : lh_n s3 = 1).
  { apply (f_equal length) in E3. unfold logged in E3. rewrite length_map, length_seqZ in E3. cbn in E3. lia. }
  pose proof (li_binv _ _ L3) as I3. destruct (B3 x) as [_ Kx3].
  destruct (brelse_spec (bst s3) [] (logged s3) x I3) as (b4 & _ & I4 & Q4 & _).
  { left. rewrite E3, Kx3. change (b_blockno (bufat b2 x) ∈ [50]). rewrite Kx2. set_solver. }
  exists (s3 <| bst := b4 |>). split; [|split_and!].
  - destruct L3. by split.
  - done.
  - change (start s3 = 2). rewrite St3. exact St.
  - change (size s3 = 30). rewrite Sz3. exact Sz.
  - intros k. change (dsk b4 k = zeros). rewrite (q_dsk _ _ _ Q4), Dk3. change (dsk b2 k = zeros).
    unfold b2. rewrite dsk_put, (w_dsk _ _ _ W1). apply Dz.
  - change (bview b4 50 = v). rewrite (q_view _ _ _ Q4), V3. change (bview b2 50 = v).
    rewrite V2, Kx. done.
Qed.

Lemma commit_crash_safe_witness :
  exists s, lh_n s = 1 /\ bview (bst s) 50 = repeat 7 1024 /\
  exists b' w, commit s = Ok tt (s <| lh_n := 0 |> <| bst := b' |>) /\ writes b' = writes (bst s) ++ w /\
    (forall k, dsk b' k = bview b' k) /\ (forall k, ~ in_log (start s) (size s) k -> dsk b' k = bview (bst s) k) /\
    forall w1 d, w1 `prefix_of` w -> crashes 1 (start s) (size s) (replay (dsk (bst s)) w1) d ->
      exists s', restart 1 d (start s) (size s) = Ok tt s' /\ linv s' [] /\ lh_n s' = 0 /\
        forall k, ~ in_log (start s) (size s) k ->
          dsk (bst s') k = (if decide (length w1 <= Z.to_nat (lh_n s))%nat then dsk (bst s) else bview (bst s)) k.
Proof.
  destruct (one_block (repeat 7 1024) eq_refl) as (s & L & N & St & Sz & Dz & V). exists s. split_and!; [done|done|].
  apply (commit_crash_safe s 1 L). rewrite Dz. by vm_compute.
Defined.

(** Three calls in progress after a restart. *)
Lemma log_space_reserved_witness :
  exists s0 s, restart 1 blank 2 30 = Ok tt s0 /\ rtc lstep (s0, []) (s, [0; 0; 0]) /\
    lh_n s + reserved [0; 0; 0] <= LOGSIZE /\ lh_n s < LOGSIZE /\
    (log_write 0 s = Panic "too big a transaction" -> i32 (size s - 1) <= lh_n s < LOGSIZE).
Proof.
  destruct (restart_run 2 30 1 blank blank_log) as (s0 & E & _ & N0 & _ & _ & O0 & C0 & _).
  destruct (three_begin s0 C0 N0 O0) as [_ R].
  exists s0, (s0 <| outstanding := 3 |>). split; [exact E|]. split; [exact R|]. clear E.
  apply (log_space_reserved s0 _ [0; 0; 0] 0 0 0); [|exact R|reflexivity|reflexivity].
  split; rewrite ?O0, ?C0, ?N0; [reflexivity|reflexivity|lia|by apply Forall_nil|by vm_compute|cbn; lia].
Defined.
End LogWitness.
