(* ===== verification/Blocks.v ===== *)
(** * The block layer, as the file system sees it

    kernel/fs.c reaches the disk only through [bread], [brelse], the data of the
    buffers it holds, and [log_write] inside transactions.  [Blocks] is that
    interface; [BlocksOk] is what the file system relies on, in terms of what
    each block holds ([view]).  LogBlocks.v shows that the buffer cache and the
    log provide it. *)

From Stdlib Require Import ZArith Lia List.
From stdpp Require Import base list strings.
From S2P Require Import Prelude Riscv.

Class Blocks (L : Type) := {
  bread : Z -> Z -> M L Z;
  brelse : Z -> M L unit;
  log_write : Z -> M L unit;
  bdata : L -> Z -> list Z;
  set_bdata : Z -> list Z -> L -> L;
  begin_op : M L unit;
  end_op : M L unit;
  initlog : Z -> Z -> Z -> M L unit;
  run_pid : L -> Z;
  wakes : chan -> L -> L;
  set_run_pid : Z -> L -> L;
  woken_chans : L -> list chan;
  clear_wakes : L -> L
}.

(** [ready l H m]: inside a transaction that may log [m] more blocks, holding the
    buffers [H], last taken first.  A held buffer is (buffer, block, clean): it is
    clean unless written to since it was read or logged. *)
Class BlocksOk (L : Type) `{Blocks L} := {
  view : L -> Z -> list Z;
  home : L -> Z -> Prop;
  ready : L -> list (Z * Z * bool) -> nat -> Prop;
  view_len l H m k : ready l H m -> length (view l k) = 1024%nat;
  ready_weak l H m m' : ready l H m -> (m' <= m)%nat -> ready l H m';
  bdata_view l b k c H m : ready l ((b, k, c) :: H) m -> bdata l b = view l k;
  bread_ok l H m k :
    ready l H m -> (length H < 3)%nat -> k ∉ (fun x => x.1.2) <$> H -> 0 <= k < 2 ^ 31 ->
    exists b l', bread ROOTDEV k l = Ok b l' /\ ready l' ((b, k, true) :: H) m /\
      (forall i, view l' i = view l i) /\ (forall i, home l' i <-> home l i);
  set_bdata_ok l b k c H m d :
    ready l ((b, k, c) :: H) m -> length d = 1024%nat ->
    ready (set_bdata b d l) ((b, k, false) :: H) m /\
    (forall i, view (set_bdata b d l) i = if i =? k then d else view l i) /\
    (forall i, home (set_bdata b d l) i <-> home l i);
  log_write_ok l b k c H m :
    ready l ((b, k, c) :: H) (S m) -> home l k ->
    exists l', log_write b l = Ok tt l' /\ ready l' ((b, k, true) :: H) m /\
      (forall i, view l' i = view l i) /\ (forall i, home l' i <-> home l i);
  brelse_ok l b k H m :
    ready l ((b, k, true) :: H) m ->
    exists l', brelse b l = Ok tt l' /\ ready l' H m /\
      (forall i, view l' i = view l i) /\ (forall i, home l' i <-> home l i)
}.
