(* ===== verification/LogBlocks.v ===== *)
(** * The buffer cache and the log provide the block layer

    The instance of [Blocks] that the kernel runs on, and the proof that it keeps
    the promises of [BlocksOk]: inside a transaction with room for [m] more
    blocks, holding at most three buffers. *)

From Stdlib Require Import ZArith Lia List.
From stdpp Require Import base tactics numbers list sets strings.
From S2P Require Import Prelude Riscv Blocks Sleeplock Bio BioFacts Log LogFacts LogProps.

#[global] Instance log_blocks : Blocks lstate := {
  bread dev k := bio (Bio.bread dev k);
  brelse b := bio (Bio.brelse b);
  log_write := Log.log_write;
  bdata l b := b_data (bufat (bst l) b);
  set_bdata b d l := l <| bst := put b (fun x => x <| b_data := d |>) (bst l) |>;
  begin_op := Log.begin_op;
  end_op := Log.end_op;
  initlog := Log.initlog;
  run_pid l := me (bst l);
  wakes c l := l <| bst := woken c (bst l) |>;
  set_run_pid n l := l <| bst := (bst l) <| me := n |> |>;
  woken_chans l := wakeups (bst l);
  clear_wakes l := l <| bst := (bst l) <| wakeups := [] |> |>
}.

Implicit Types (l : lstate) (H : list (Z * Z * bool)).

Definition hb (x : Z * Z * bool) : Z := x.1.1.
Definition hk (x : Z * Z * bool) : Z := x.1.2.

(** A held buffer holds its block; if clean, what it holds is logged or on disk. *)
Definition held_ok l (x : Z * Z * bool) : Prop :=
  b_blockno (bufat (bst l) (hb x)) = hk x /\
  (x.2 = true -> hk x ∈ logged l \/ b_data (bufat (bst l) (hb x)) = dsk (bst l) (hk x)).

Record lready l H (m : nat) : Prop := {
  lr_inv : linv l (map hb H);
  lr_out : outstanding l >= 1;
  lr_room : lh_n l + Z.of_nat m <= size l - 1;
  lr_bufs : lh_n l + Z.of_nat m <= 27;
  lr_few : (length H <= 3)%nat;
  lr_held : Forall (held_ok l) H
}.

Definition lhome l k : Prop := 0 <= k < 2 ^ 31 /\ ~ in_log (start l) (size l) k.

Lemma linv_bst l G G' b : linv l G -> binv b G' (logged l) -> linv (l <| bst := b |>) G'.
Proof. intros [] B. by split. Qed.

Lemma logged_len l G : linv l G -> Z.of_nat (length (logged l)) = lh_n l.
Proof. intros L. unfold logged. rewrite length_map, length_seqZ. destruct (li_n _ _ L). lia. Qed.

Lemma lready_weak l H m m' : lready l H m -> (m' <= m)%nat -> lready l H m'.
Proof. intros [] ?. split; try done; lia. Qed.

Lemma held_ok_same l l' x :
  b_blockno (bufat (bst l') (hb x)) = b_blockno (bufat (bst l) (hb x)) ->
  b_data (bufat (bst l') (hb x)) = b_data (bufat (bst l) (hb x)) -> dsk (bst l') = dsk (bst l) ->
  (forall k, k ∈ logged l -> k ∈ logged l') -> held_ok l x -> held_ok l' x.
Proof. intros E1 E2 E3 E4 [A B]. split; [congruence|]. intros C. destruct (B C); [left; auto|right; congruence]. Qed.

Lemma lready_bread l H m k :
  lready l H m -> (length H < 3)%nat -> k ∉ map hk H ->
  exists b l', bio (Bio.bread ROOTDEV k) l = Ok b l' /\ lready l' ((b, k, true) :: H) m /\
    (forall i, bview (bst l') i = bview (bst l) i) /\ (forall i, lhome l' i <-> lhome l i).
Proof.
  intros [L O R Bf Fw Hd] Lh Nk. pose proof (li_binv _ _ L) as I. pose proof (logged_len _ _ L) as Ll.
  assert (Nb : forall b, b ∈ map hb H -> b_blockno (bufat (bst l) b) <> k).
  { intros b (x & -> & X)%list_elem_of_fmap E. apply Nk. apply (proj1 (Forall_forall _ _) Hd) in X as Hx.
    destruct Hx as [Hx _]. rewrite <- E, Hx. by apply list_elem_of_fmap_2. }
  destruct (bread_spec (bst l) (map hb H) (logged l) k I Nb) as (b & b' & E & I' & Q & N & _ & _ & C & D).
  { left. rewrite length_map. lia. }
  exists b, (l <| bst := b' |>). split; [by apply bio_run|]. split_and!; [|apply (q_view _ _ _ Q)|done].
  apply cached_eq in C as [_ C]. split; try done.
  - by apply (linv_bst l (map hb H)).
  - constructor.
    + split; [done|]. intros _. cbn. destruct (decide (k ∈ logged l)) as [|Nl]; [by left|right].
      change (b_data (bufat b' b) = dsk b' k). rewrite D, (q_dsk _ _ _ Q). by apply (bview_clean _ (map hb H) (logged l)).
    + apply Forall_forall. intros x X. apply (proj1 (Forall_forall _ _) Hd) in X as Hx.
      destruct (pay_eq _ _ (q_held _ _ _ Q (hb x) ltac:(by apply list_elem_of_fmap_2))) as (_ & _ & E3 & _ & _ & E6).
      apply (held_ok_same l); try done. apply (q_dsk _ _ _ Q).
Qed.

Lemma lready_set l b k c H m d :
  lready l ((b, k, c) :: H) m -> length d = 1024%nat ->
  let l' := l <| bst := put b (fun x => x <| b_data := d |>) (bst l) |> in
  lready l' ((b, k, false) :: H) m /\ (forall i, bview (bst l') i = if i =? k then d else bview (bst l) i) /\
  (forall i, lhome l' i <-> lhome l i).
Proof.
  intros [L O R Bf Fw Hd] Ld l'. pose proof (li_binv _ _ L) as I. apply Forall_cons in Hd as [[Hb _] Hd]. cbn in Hb.
  destruct (bi_held _ _ _ I) as [NH RH]. cbn [map] in *. apply NoDup_cons in NH as [Nb NH].
  destruct (setdata_spec (bst l) _ (logged l) b d I ltac:(set_solver) Ld) as [I' V]. rewrite Hb in V.
  assert (B : isbuf b) by (apply RH; set_solver). split_and!; [|exact V|done]. split; try done.
  - by apply (linv_bst l _ _ _ L).
  - constructor.
    + split; [|done]. change (b_blockno (bufat (put b (fun x => x <| b_data := d |>) (bst l)) b) = k).
      rewrite bufat_put, Z.eqb_refl; [exact Hb|apply (bi_len _ _ _ I)|unfold isbuf in B; lia].
    + apply Forall_forall. intros x X. apply (proj1 (Forall_forall _ _) Hd) in X as Hx.
      assert (Ex : bufat (put b (fun x => x <| b_data := d |>) (bst l)) (hb x) = bufat (bst l) (hb x)).
      { rewrite bufat_put; [|apply (bi_len _ _ _ I)|unfold isbuf in B; lia]. destruct (Z.eqb_spec (hb x) b) as [E|]; [|done].
        exfalso. apply Nb. change (b ∈ map hb H). rewrite <- E. by apply list_elem_of_fmap_2. }
      apply (held_ok_same l); [exact (f_equal b_blockno Ex)|exact (f_equal b_data Ex)|done|done|done].
Qed.

Lemma lready_log l b k c H m :
  lready l ((b, k, c) :: H) (S m) -> lhome l k ->
  exists l', Log.log_write b l = Ok tt l' /\ lready l' ((b, k, true) :: H) m /\
    (forall i, bview (bst l') i = bview (bst l) i) /\ (forall i, lhome l' i <-> lhome l i).
Proof.
  intros [L O R Bf Fw Hd] [K1 K2]. apply Forall_cons in Hd as [[Hb _] Hd]. cbn in Hb.
  destruct (log_write_spec l (map hb ((b, k, c) :: H)) b L) as (l' & E & L' & S & El); [cbn; set_solver|done|lia|by rewrite Hb..|].
  destruct S as (_ & Dk & _ & V & Sb & St & Sz & Ou & _). rewrite Hb in El.
  assert (Sub : forall i, i ∈ logged l -> i ∈ logged l').
  { intros i. rewrite El. destruct (decide _); set_solver. }
  assert (Kl : k ∈ logged l') by (rewrite El; destruct (decide _); set_solver).
  assert (N' : lh_n l' <= lh_n l + 1).
  { pose proof (logged_len _ _ L) as A. pose proof (logged_len _ _ L') as A'. rewrite El in A'.
    destruct (decide _); [lia|]. rewrite length_app in A'. cbn [length] in A'. lia. }
  exists l'. split; [done|]. split_and!; [|done|unfold lhome; intros i; by rewrite St, Sz]. split; rewrite ?Ou, ?Sz; try done; [lia|lia|].
  constructor.
  - split; [cbn; by destruct (Sb b) as [_ ->]|]. by left.
  - apply Forall_forall. intros x X. apply (proj1 (Forall_forall _ _) Hd) in X as Hx. destruct (Sb (hb x)) as [E1 E2].
    by apply (held_ok_same l).
Qed.

Lemma lready_brelse l b k H m :
  lready l ((b, k, true) :: H) m ->
  exists l', bio (Bio.brelse b) l = Ok tt l' /\ lready l' H m /\
    (forall i, bview (bst l') i = bview (bst l) i) /\ (forall i, lhome l' i <-> lhome l i).
Proof.
  intros [L O R Bf Fw Hd]. apply Forall_cons in Hd as [[Hb Cl] Hd]. cbn in Hb, Cl.
  destruct (brelse_spec (bst l) (map hb H) (logged l) b (li_binv _ _ L)) as (b' & E & I' & Q & _); [by rewrite Hb; apply Cl|].
  exists (l <| bst := b' |>). split; [by apply bio_run|]. split_and!; [|apply (q_view _ _ _ Q)|done]. cbn [length] in Fw.
  split; try done; [by apply (linv_bst l _ _ _ L)|cbn; lia|].
  apply Forall_forall. intros x X. apply (proj1 (Forall_forall _ _) Hd) in X as Hx.
  destruct (pay_eq _ _ (q_held _ _ _ Q (hb x) ltac:(by apply list_elem_of_fmap_2))) as (_ & _ & E3 & _ & _ & E6).
  apply (held_ok_same l); try done. apply (q_dsk _ _ _ Q).
Qed.

Lemma lready_len l H m k : lready l H m -> length (bview (bst l) k) = 1024%nat.
Proof. intros []. by eapply bview_len, li_binv. Qed.

Lemma lready_data l b k c H m : lready l ((b, k, c) :: H) m -> b_data (bufat (bst l) b) = bview (bst l) k.
Proof.
  intros [L _ _ _ _ Hd]. apply Forall_cons in Hd as [[Hb _] _]. cbn in Hb.
  destruct (held_dev _ _ _ b (li_binv _ _ L) ltac:(cbn; set_solver)) as (B & D & _). symmetry.
  apply (bview_hit _ _ _ b k (li_binv _ _ L) B). by apply cached_eq.
Qed.

#[global] Instance log_blocks_ok : BlocksOk lstate := {
  view l := bview (bst l);
  home := lhome;
  ready := lready;
  view_len := lready_len;
  ready_weak := lready_weak;
  bdata_view := lready_data;
  bread_ok l H m k R Lh Nk _ := lready_bread l H m k R Lh Nk;
  set_bdata_ok := lready_set;
  log_write_ok := lready_log;
  brelse_ok := lready_brelse
}.
