(* ===== verification/Fs.v ===== *)
(** * kernel/fs.c: inodes, directories, path names

    The file system over any block layer ([Blocks]).  Disk inodes, directory
    entries, bitmaps and indirect blocks are read and written in the data of the
    buffers, at the offsets the C structures have.  A [struct inode *] is 0 for
    the null pointer and [i + 1] for [&itable.inode[i]]. *)

From Stdlib Require Import ZArith Lia List.
From stdpp Require Import base list strings.
From S2P Require Import Prelude Riscv CString Blocks Sleeplock.

(** ** fs.h, stat.h *)

Definition ROOTINO : Z := 1.
Definition FSMAGIC : Z := 0x10203040.
Definition NDIRECT : Z := 12.
Definition NINDIRECT : Z := BSIZE / 4.
Definition MAXFILE : Z := NDIRECT + NINDIRECT.
Definition sizeof_dinode : Z := 64.
Definition IPB : Z := BSIZE / sizeof_dinode.
Definition BPB : Z := BSIZE * 8.
Definition DIRSIZ : Z := 14.
Definition sizeof_dirent : Z := 16.
Definition T_DIR : Z := 1.
Definition T_FILE : Z := 2.
Definition T_DEVICE : Z := 3.

Record superblock : Type := mkSuper {
  magic : Z;
  sb_size : Z;
  nblocks : Z;
  ninodes : Z;
  nlog : Z;
  logstart : Z;
  inodestart : Z;
  bmapstart : Z
}.

Definition IBLOCK (i : Z) (sb : superblock) : Z := u32 (i / IPB + inodestart sb).
Definition BBLOCK (b : Z) (sb : superblock) : Z := u32 (b / BPB + bmapstart sb).

(** The in-memory inode. *)
Record inode : Type := mkInode {
  i_dev : Z;
  i_inum : Z;
  i_ref : Z;
  i_lock : sleeplock;
  i_valid : Z;
  i_type : Z;
  i_major : Z;
  i_minor : Z;
  i_nlink : Z;
  i_size : Z;
  i_addrs : list Z
}.

#[global] Instance eta_inode : Eta inode := fun i =>
  mkInode (i_dev i) (i_inum i) (i_ref i) (i_lock i) (i_valid i) (i_type i) (i_major i) (i_minor i)
    (i_nlink i) (i_size i) (i_addrs i).

Definition inode0 : inode := mkInode 0 0 0 (mkSleeplock 0 0) 0 0 0 0 0 0 (repeat 0 13).

Record stat : Type := mkStat {
  st_dev : Z;
  st_ino : Z;
  st_type : Z;
  st_nlink : Z;
  st_size : Z
}.

Record fstate (L : Type) : Type := mkFstate {
  blk : L;
  sb : superblock;
  itable : list inode
}.
Arguments mkFstate {L}.
Arguments blk {L}.
Arguments sb {L}.
Arguments itable {L}.

#[global] Instance eta_fstate L : Eta (fstate L) := fun s => mkFstate (blk s) (sb s) (itable s).

(** ** Parts of a block *)

(** [len] bytes of [d] from [off] on; the bytes [l] stored at [off]. *)
Definition slice (d : list Z) (off len : Z) : list Z := take (Z.to_nat len) (drop (Z.to_nat off) d).
Definition splice (d : list Z) (off : Z) (l : list Z) : list Z :=
  take (Z.to_nat off) d ++ l ++ drop (Z.to_nat off + length l) d.

Definition sb_of (d : list Z) : superblock :=
  mkSuper (load 4 d 0) (load 4 d 4) (load 4 d 8) (load 4 d 12) (load 4 d 16) (load 4 d 20) (load 4 d 24) (load 4 d 28).

(** The address array of a disk inode at [o], 13 words. *)
Fixpoint load_words (k : nat) (d : list Z) (o : Z) : list Z :=
  match k with
  | O => []
  | S k' => load 4 d o :: load_words k' d (o + 4)
  end.

Fixpoint store_words (l : list Z) (d : list Z) (o : Z) : list Z :=
  match l with
  | [] => d
  | x :: l' => store_words l' (store 4 d o x) (o + 4)
  end.

(** [struct dinode] at [o]: read into an in-memory inode, written from it. *)
Definition read_dinode (d : list Z) (o : Z) (ip : inode) : inode :=
  ip <| i_type := i16 (load 2 d o) |> <| i_major := i16 (load 2 d (o + 2)) |> <| i_minor := i16 (load 2 d (o + 4)) |>
     <| i_nlink := i16 (load 2 d (o + 6)) |> <| i_size := load 4 d (o + 8) |> <| i_addrs := load_words 13 d (o + 12) |>.

Definition write_dinode (d : list Z) (o : Z) (ip : inode) : list Z :=
  let d := store 2 d o (i_type ip) in
  let d := store 2 d (o + 2) (i_major ip) in
  let d := store 2 d (o + 4) (i_minor ip) in
  let d := store 2 d (o + 6) (i_nlink ip) in
  let d := store 4 d (o + 8) (i_size ip) in
  store_words (i_addrs ip) d (o + 12).

(** A directory entry: its inode number and its 14 characters. *)
Definition de_inum (de : list Z) : Z := load 2 de 0.
Definition de_name (de : list Z) : list Z := drop 2 de.

(** ** Names *)

(** [strncmp(s, t, DIRSIZ)] between two arrays. *)
Definition namecmp (s t : list Z) : Z := strncmp (s ++ t) 0 (Z.of_nat (length s)) DIRSIZ.

Definition SLASH : Z := 47.

(** While [path[pos]] is a slash; while it is neither a slash nor the end. *)
Fixpoint skip_slashes (k : nat) (path : list Z) (pos : Z) : Z :=
  match k with
  | O => pos
  | S k' => if bget path pos =? SLASH then skip_slashes k' path (pos + 1) else pos
  end.

Fixpoint skip_chars (k : nat) (path : list Z) (pos : Z) : Z :=
  match k with
  | O => pos
  | S k' =>
    if negb (bget path pos =? SLASH) && negb (bget path pos =? 0) then skip_chars k' path (pos + 1) else pos
  end.

(** The position after the next element of [path] and its slashes, with the
    element copied into [name]; [None] when there is no element left. *)
Definition skipelem (path : list Z) (pos : Z) (name : list Z) : option (Z * list Z) :=
  let k := S (length path) in
  let s := skip_slashes k path pos in
  if bget path s =? 0 then None
  else
    let e := skip_chars k path s in
    let len := e - s in
    let name' :=
      if DIRSIZ <=? len then splice name 0 (slice path s DIRSIZ)
      else upd (splice name 0 (slice path s len)) len 0 in
    Some (skip_slashes k path e, name').

Section Ops.
Context {L : Type} `{Blocks L}.

Definition on_blk : Lens (fstate L) L := mkLens blk (fun x s => s <| blk := x |>).
Definition bl {A} (m : M L A) : M (fstate L) A := zoom on_blk m.

#[local] Instance fs_wakes : Wakes (fstate L) := {
  mypid s := run_pid (blk s);
  woken c s := s <| blk ::= wakes c |>
}.

(** [bp->data], read and written. *)
Definition data (bp : Z) : M (fstate L) (list Z) := gets (fun s => bdata (blk s) bp).
Definition set_data (bp : Z) (d : list Z) : M (fstate L) unit := modify (fun s => s <| blk ::= set_bdata bp d |>).

(** [*ip]. *)
Definition inodeat (s : fstate L) (ip : Z) : inode := at_ inode0 (itable s) (ip - 1).
Definition geti {A} (ip : Z) (f : inode -> A) : M (fstate L) A := gets (fun s => f (inodeat s ip)).
Definition seti (ip : Z) (f : inode -> inode) : M (fstate L) unit :=
  modify (fun s => s <| itable ::= fun l => upd l (ip - 1) (f (at_ inode0 l (ip - 1))) |>).

Definition i_lock_of (ip : Z) : Lens (fstate L) sleeplock :=
  mkLens (fun s => i_lock (inodeat s ip))
         (fun x s => s <| itable ::= fun l => upd l (ip - 1) ((at_ inode0 l (ip - 1)) <| i_lock := x |>) |>).
(** Locks of buffers come first, then those of inodes. *)
Definition i_chan (ip : Z) : chan := ChSleeplock (NBUF + ip).

(** ** Blocks *)

Definition readsb (dev : Z) : M (fstate L) unit :=
  let* bp := bl (bread dev 1) in
  let* d := data bp in
  do modify (fun s => s <| sb := sb_of d |>) ;;;
  bl (brelse bp).

Definition fsinit (dev : Z) : M (fstate L) unit :=
  do readsb dev ;;;
  let* b := gets sb in
  if negb (magic b =? FSMAGIC) then panic "invalid file system"
  else bl (initlog dev (logstart b) (nlog b)).

Definition bzero (dev bno : Z) : M (fstate L) unit :=
  let* bp := bl (bread dev (u32 bno)) in
  let* d := data bp in
  do set_data bp (memset d 0 0 BSIZE) ;;;
  do bl (log_write bp) ;;;
  bl (brelse bp).

(** [data[bi/8] & (1 << bi % 8)]. *)
Definition bit_mask (bi : Z) : Z := Z.shiftl 1 (bi mod 8).
Definition bit_set (d : list Z) (bi : Z) : bool := negb (Z.land (bget d (bi / 8)) (bit_mask bi) =? 0).
Definition mark_bit (d : list Z) (bi : Z) : list Z := bset d (bi / 8) (Z.lor (bget d (bi / 8)) (bit_mask bi)).
Definition clear_bit (d : list Z) (bi : Z) : list Z := bset d (bi / 8) (Z.land (bget d (bi / 8)) (Z.lnot (bit_mask bi))).

(** The first clear bit of one bitmap block, from [bi] on, below [size - b]. *)
Fixpoint find_clear (k : nat) (d : list Z) (b bi size : Z) : option Z :=
  match k with
  | O => None
  | S k' =>
    if u32 (b + bi) <? size
    then if bit_set d bi then find_clear k' d b (bi + 1) size else Some bi
    else None
  end.

(** The loop over the bitmap blocks. *)
Fixpoint balloc_loop (k : nat) (dev b : Z) : M (fstate L) Z :=
  match k with
  | O => ret 0
  | S k' =>
    let* sblk := gets sb in
    if u32 b <? sb_size sblk
    then
      let* bp := bl (bread dev (BBLOCK b sblk)) in
      let* d := data bp in
      match find_clear (Z.to_nat BPB) d b 0 (sb_size sblk) with
      | Some bi =>
        do set_data bp (mark_bit d bi) ;;;
        do bl (log_write bp) ;;;
        do bl (brelse bp) ;;;
        do bzero dev (b + bi) ;;;
        ret (b + bi)
      | None => do bl (brelse bp) ;;; balloc_loop k' dev (b + BPB)
      end
    else ret 0
  end.

Definition balloc (dev : Z) : M (fstate L) Z :=
  let* s := gets sb in balloc_loop (Z.to_nat (sb_size s / BPB + 1)) dev 0.

Definition bfree (dev b : Z) : M (fstate L) unit :=
  let* s := gets sb in
  let* bp := bl (bread dev (BBLOCK b s)) in
  let* d := data bp in
  let bi := b mod BPB in
  if negb (bit_set d bi) then panic "freeing free block"
  else
    do set_data bp (clear_bit d bi) ;;;
    do bl (log_write bp) ;;;
    bl (brelse bp).

(** ** Inodes *)

Definition iinit : M (fstate L) unit :=
  modify (fun s => s <| itable ::= map (fun i => i <| i_lock := initsleeplock |>) |>).

(** The scan of [iget]: the entry with that number, or the first empty one. *)
Fixpoint iget_scan (l : list inode) (ip dev inum empty : Z) : Z + Z :=
  match l with
  | [] => inr empty
  | i :: l' =>
    if (0 <? i_ref i) && (i_dev i =? dev) && (i_inum i =? inum) then inl ip
    else iget_scan l' (ip + 1) dev inum (if (empty =? 0) && (i_ref i =? 0) then ip else empty)
  end.

Definition iget (dev inum : Z) : M (fstate L) Z :=
  let* r := gets (fun s => iget_scan (itable s) 1 dev inum 0) in
  match r with
  | inl ip => do seti ip (fun i => i <| i_ref ::= fun n => i32 (n + 1) |>) ;;; ret ip
  | inr empty =>
    if empty =? 0 then panic "iget: no inodes"
    else
      do seti empty (fun i => i <| i_dev := dev |> <| i_inum := inum |> <| i_ref := 1 |> <| i_valid := 0 |>) ;;;
      ret empty
  end.

Definition idup (ip : Z) : M (fstate L) Z :=
  do seti ip (fun i => i <| i_ref ::= fun n => i32 (n + 1) |>) ;;;
  ret ip.

Fixpoint ialloc_loop (k : nat) (dev type inum : Z) : M (fstate L) Z :=
  match k with
  | O => ret 0
  | S k' =>
    let* s := gets sb in
    if inum <? ninodes s
    then
      let* bp := bl (bread dev (IBLOCK inum s)) in
      let* d := data bp in
      let o := inum mod IPB * sizeof_dinode in
      if i16 (load 2 d o) =? 0
      then
        do set_data bp (store 2 (memset d o 0 sizeof_dinode) o type) ;;;
        do bl (log_write bp) ;;;
        do bl (brelse bp) ;;;
        iget dev inum
      else
        do bl (brelse bp) ;;;
        ialloc_loop k' dev type (inum + 1)
    else ret 0
  end.

Definition ialloc (dev type : Z) : M (fstate L) Z :=
  let* s := gets sb in ialloc_loop (Z.to_nat (ninodes s)) dev type 1.

Definition iupdate (ip : Z) : M (fstate L) unit :=
  let* i := geti ip id in
  let* s := gets sb in
  let* bp := bl (bread (i_dev i) (IBLOCK (i_inum i) s)) in
  let* d := data bp in
  do set_data bp (write_dinode d (i_inum i mod IPB * sizeof_dinode) i) ;;;
  do bl (log_write bp) ;;;
  bl (brelse bp).

Definition ilock (ip : Z) : M (fstate L) unit :=
  let* i := geti ip id in
  if (ip =? 0) || (i_ref i <? 1) then panic "ilock"
  else
    do acquiresleep (i_lock_of ip) (i_chan ip) ;;;
    let* v := geti ip i_valid in
    if v =? 0
    then
      let* s := gets sb in
      let* bp := bl (bread (i_dev i) (IBLOCK (i_inum i) s)) in
      let* d := data bp in
      do seti ip (read_dinode d (i_inum i mod IPB * sizeof_dinode)) ;;;
      do bl (brelse bp) ;;;
      do seti ip (fun i => i <| i_valid := 1 |>) ;;;
      let* t := geti ip i_type in
      if t =? 0 then panic "ilock: no type" else ret tt
    else ret tt.

Definition iunlock (ip : Z) : M (fstate L) unit :=
  let* h := holdingsleep (i_lock_of ip) in
  let* r := geti ip i_ref in
  if (ip =? 0) || negb h || (r <? 1) then panic "iunlock"
  else releasesleep (i_lock_of ip) (i_chan ip).

(** ** Contents *)

Definition bmap (ip bn : Z) : M (fstate L) Z :=
  let* dev := geti ip i_dev in
  if bn <? NDIRECT
  then
    let* addr := geti ip (fun i => at_ 0 (i_addrs i) bn) in
    if addr =? 0
    then
      let* addr := balloc dev in
      if addr =? 0 then ret 0
      else do seti ip (fun i => i <| i_addrs ::= fun l => upd l bn addr |>) ;;; ret addr
    else ret addr
  else
    let bn := bn - NDIRECT in
    if bn <? NINDIRECT
    then
      let* addr := geti ip (fun i => at_ 0 (i_addrs i) NDIRECT) in
      let* addr :=
        (if addr =? 0
         then
           let* addr := balloc dev in
           if addr =? 0 then ret 0
           else do seti ip (fun i => i <| i_addrs ::= fun l => upd l NDIRECT addr |>) ;;; ret addr
         else ret addr) in
      if addr =? 0 then ret 0
      else
        let* bp := bl (bread dev addr) in
        let* d := data bp in
        let addr := load 4 d (4 * bn) in
        let* addr :=
          (if addr =? 0
           then
             let* addr := balloc dev in
             do (if negb (addr =? 0)
                 then do set_data bp (store 4 d (4 * bn) addr) ;;; bl (log_write bp) else ret tt) ;;;
             ret addr
           else ret addr) in
        do bl (brelse bp) ;;;
        ret addr
    else panic "bmap: out of range".

(** The two loops of [itrunc]. *)
Fixpoint free_direct (k : nat) (ip dev i : Z) : M (fstate L) unit :=
  match k with
  | O => ret tt
  | S k' =>
    let* a := geti ip (fun x => at_ 0 (i_addrs x) i) in
    do (if negb (a =? 0)
        then do bfree dev a ;;; seti ip (fun x => x <| i_addrs ::= fun l => upd l i 0 |>) else ret tt) ;;;
    free_direct k' ip dev (i + 1)
  end.

Fixpoint free_indirect (k : nat) (dev bp j : Z) : M (fstate L) unit :=
  match k with
  | O => ret tt
  | S k' =>
    let* d := data bp in
    do (if negb (load 4 d (4 * j) =? 0) then bfree dev (load 4 d (4 * j)) else ret tt) ;;;
    free_indirect k' dev bp (j + 1)
  end.

Definition itrunc (ip : Z) : M (fstate L) unit :=
  let* dev := geti ip i_dev in
  do free_direct (Z.to_nat NDIRECT) ip dev 0 ;;;
  let* a := geti ip (fun x => at_ 0 (i_addrs x) NDIRECT) in
  do (if negb (a =? 0)
      then
        let* bp := bl (bread dev a) in
        do free_indirect (Z.to_nat NINDIRECT) dev bp 0 ;;;
        do bl (brelse bp) ;;;
        do bfree dev a ;;;
        seti ip (fun x => x <| i_addrs ::= fun l => upd l NDIRECT 0 |>)
      else ret tt) ;;;
  do seti ip (fun x => x <| i_size := 0 |>) ;;;
  iupdate ip.

Definition iput (ip : Z) : M (fstate L) unit :=
  let* i := geti ip id in
  do (if (i_ref i =? 1) && negb (i_valid i =? 0) && (i_nlink i =? 0)
      then
        do acquiresleep (i_lock_of ip) (i_chan ip) ;;;
        do itrunc ip ;;;
        do seti ip (fun x => x <| i_type := 0 |>) ;;;
        do iupdate ip ;;;
        do seti ip (fun x => x <| i_valid := 0 |>) ;;;
        releasesleep (i_lock_of ip) (i_chan ip)
      else ret tt) ;;;
  seti ip (fun x => x <| i_ref ::= fun n => i32 (n - 1) |>).

Definition iunlockput (ip : Z) : M (fstate L) unit := do iunlock ip ;;; iput ip.

Definition stati (ip : Z) : M (fstate L) stat :=
  geti ip (fun i => mkStat (i32 (i_dev i)) (i_inum i) (i_type i) (i_nlink i) (i_size i)).

(** [readi] and [writei] run on a larger state [S] that contains the file system:
    [put dst l] is [either_copyout] of the bytes [l] to [dst], and [get src n] is
    [either_copyin] of [n] bytes from [src] with the bytes that were stored.  Both
    report -1 for a bad address. *)
Section Io.
Context {S : Type} (onf : Lens S (fstate L)).

Definition fz {A} (m : M (fstate L) A) : M S A := zoom onf m.

Fixpoint readi_loop (k : nat) (put : Z -> list Z -> M S Z) (ip dst off n tot : Z) (acc : list Z) : M S (Z * list Z) :=
  match k with
  | O => panic "readi: fuel"
  | Datatypes.S k' =>
    if tot <? n
    then
      let* addr := fz (bmap ip (off / BSIZE)) in
      if addr =? 0 then ret (i32 tot, acc)
      else
        let* dev := fz (geti ip i_dev) in
        let* bp := fz (bl (bread dev addr)) in
        let* d := fz (data bp) in
        let m := Z.min (u32 (n - tot)) (BSIZE - off mod BSIZE) in
        let* r := put dst (slice d (off mod BSIZE) m) in
        if r =? -1 then do fz (bl (brelse bp)) ;;; ret (-1, acc)
        else
          do fz (bl (brelse bp)) ;;;
          readi_loop k' put ip (u64 (dst + m)) (u32 (off + m)) n (u32 (tot + m)) (acc ++ slice d (off mod BSIZE) m)
    else ret (i32 tot, acc)
  end.

(** The result and the bytes that were delivered. *)
Definition readi (put : Z -> list Z -> M S Z) (ip dst off n : Z) : M S (Z * list Z) :=
  let* size := fz (geti ip i_size) in
  if (size <? off) || (u32 (off + n) <? off) then ret (0, [])
  else
    let n := if size <? u32 (off + n) then u32 (size - off) else n in
    readi_loop (Z.to_nat (n / BSIZE + 3)) put ip dst off n 0 [].

(** The number of bytes written and the offset reached. *)
Fixpoint writei_loop (k : nat) (get : Z -> Z -> M S (Z * list Z)) (ip src off n tot : Z) : M S (Z * Z) :=
  match k with
  | O => panic "writei: fuel"
  | Datatypes.S k' =>
    if tot <? n
    then
      let* addr := fz (bmap ip (off / BSIZE)) in
      if addr =? 0 then ret (tot, off)
      else
        let* dev := fz (geti ip i_dev) in
        let* bp := fz (bl (bread dev addr)) in
        let* d := fz (data bp) in
        let m := Z.min (u32 (n - tot)) (BSIZE - off mod BSIZE) in
        let* '(r, l) := get src m in
        do fz (set_data bp (splice d (off mod BSIZE) l)) ;;;
        if r =? -1 then do fz (bl (brelse bp)) ;;; ret (tot, off)
        else
          do fz (bl (log_write bp)) ;;;
          do fz (bl (brelse bp)) ;;;
          writei_loop k' get ip (u64 (src + m)) (u32 (off + m)) n (u32 (tot + m))
    else ret (tot, off)
  end.

Definition writei (get : Z -> Z -> M S (Z * list Z)) (ip src off n : Z) : M S Z :=
  let* size := fz (geti ip i_size) in
  if (size <? off) || (u32 (off + n) <? off) then ret (-1)
  else if MAXFILE * BSIZE <? u32 (off + n) then ret (-1)
  else
    let* '(tot, off) := writei_loop (Z.to_nat (n / BSIZE + 3)) get ip src off n 0 in
    do (if size <? off then fz (seti ip (fun i => i <| i_size := off |>)) else ret tt) ;;;
    do fz (iupdate ip) ;;;
    ret (i32 tot).
End Io.

(** Transfers to and from a local structure of the kernel never fail. *)
Definition whole : Lens (fstate L) (fstate L) := mkLens id (fun x _ => x).
Definition put_local (dst : Z) (l : list Z) : M (fstate L) Z := ret 0.
Definition get_local (x : list Z) (src n : Z) : M (fstate L) (Z * list Z) := ret (0, slice x src n).

(** ** Directories *)

(** The entry at [off]: the result of [readi] and the bytes. *)
Definition read_dirent (dp off : Z) : M (fstate L) (Z * list Z) := readi whole put_local dp 0 off sizeof_dirent.

Fixpoint dirlookup_loop (k : nat) (dp : Z) (name : list Z) (off : Z) : M (fstate L) (Z * Z) :=
  match k with
  | O => ret (0, 0)
  | S k' =>
    let* size := geti dp i_size in
    if off <? size
    then
      let* '(r, de) := read_dirent dp off in
      if negb (r =? sizeof_dirent) then panic "dirlookup read"
      else if de_inum de =? 0 then dirlookup_loop k' dp name (u32 (off + sizeof_dirent))
      else if namecmp name (de_name de) =? 0
      then
        let* dev := geti dp i_dev in
        let* ip := iget dev (de_inum de) in
        ret (ip, off)
      else dirlookup_loop k' dp name (u32 (off + sizeof_dirent))
    else ret (0, 0)
  end.

(** The inode and the offset of its entry. *)
Definition dirlookup (dp : Z) (name : list Z) : M (fstate L) (Z * Z) :=
  let* t := geti dp i_type in
  if negb (t =? T_DIR) then panic "dirlookup not DIR"
  else
    let* size := geti dp i_size in
    dirlookup_loop (Z.to_nat (size / sizeof_dirent + 1)) dp name 0.

(** The offset of the first empty entry, or of the end. *)
Fixpoint dirlink_loop (k : nat) (dp off : Z) : M (fstate L) Z :=
  match k with
  | O => ret off
  | S k' =>
    let* size := geti dp i_size in
    if u32 off <? size
    then
      let* '(r, de) := read_dirent dp (u32 off) in
      if negb (r =? sizeof_dirent) then panic "dirlink read"
      else if de_inum de =? 0 then ret off else dirlink_loop k' dp (off + sizeof_dirent)
    else ret off
  end.

(** The bytes of an entry: the number, then [strncpy] of the name. *)
Definition dirent_bytes (inum : Z) (name : list Z) : list Z :=
  store 2 (repeat 0 2) 0 inum ++ take 14 (strncpy (repeat 0 14 ++ name) 0 14 DIRSIZ).

Definition dirlink (dp : Z) (name : list Z) (inum : Z) : M (fstate L) Z :=
  let* '(ip, _) := dirlookup dp name in
  if negb (ip =? 0) then do iput ip ;;; ret (-1)
  else
    let* size := geti dp i_size in
    let* off := dirlink_loop (Z.to_nat (size / sizeof_dirent + 1)) dp 0 in
    let* r := writei whole (get_local (dirent_bytes inum name)) dp 0 (u32 off) sizeof_dirent in
    if negb (r =? sizeof_dirent) then ret (-1) else ret 0.

(** ** Paths *)

Fixpoint namex_loop (k : nat) (path : list Z) (pos : Z) (nameiparent : bool) (name : list Z) (ip : Z)
    : M (fstate L) (Z * list Z) :=
  match k with
  | O => panic "namex: fuel"
  | S k' =>
    match skipelem path pos name with
    | None => if nameiparent then do iput ip ;;; ret (0, name) else ret (ip, name)
    | Some (pos, name) =>
      do ilock ip ;;;
      let* t := geti ip i_type in
      if negb (t =? T_DIR) then do iunlockput ip ;;; ret (0, name)
      else if nameiparent && (bget path pos =? 0) then do iunlock ip ;;; ret (ip, name)
      else
        let* '(next, _) := dirlookup ip name in
        if next =? 0 then do iunlockput ip ;;; ret (0, name)
        else do iunlockput ip ;;; namex_loop k' path pos nameiparent name next
    end
  end.

(** The inode and the last element copied into [name]; [cwd] is
    [myproc()->cwd]. *)
Definition namex (path : list Z) (nameiparent : bool) (name : list Z) (cwd : Z) : M (fstate L) (Z * list Z) :=
  let* ip := (if bget path 0 =? SLASH then iget ROOTDEV ROOTINO else idup cwd) in
  namex_loop (length path + 2) path 0 nameiparent name ip.

Definition name0 : list Z := repeat 0 14.

Definition namei (path : list Z) (cwd : Z) : M (fstate L) Z :=
  let* '(ip, _) := namex path false name0 cwd in ret ip.

Definition nameiparent (path : list Z) (cwd : Z) : M (fstate L) (Z * list Z) := namex path true name0 cwd.

End Ops.
