(* ===== verification/FsFacts.v ===== *)
(** * Blocks, bitmaps and inode contents

    The routines of fs.c that work on blocks, against the promises of the block
    layer: the block bitmap and the allocator, the map from file blocks to disk
    blocks. *)

From Stdlib Require Import ZArith Lia List.
From stdpp Require Import base tactics numbers list sets strings.
From S2P Require Import Prelude Riscv CString Blocks Sleeplock Fs.

(** ** Bits of a block *)

Section Bits.
Implicit Types (d : list Z) (i j : Z).

Lemma bit_mask_eq i : bit_mask i = 2 ^ (i mod 8).
Proof. unfold bit_mask. rewrite Z.shiftl_mul_pow2 by (apply Z.mod_pos_bound; lia). lia. Qed.

Lemma bit_set_testbit d i : bit_set d i = Z.testbit (bget d (i / 8)) (i mod 8).
Proof.
  unfold bit_set. rewrite bit_mask_eq. pose proof (Z.mod_pos_bound i 8 ltac:(lia)) as R. set (x := bget d (i / 8)). set (n := i mod 8) in *.
  assert (E : Z.land x (2 ^ n) = if Z.testbit x n then 2 ^ n else 0).
  { apply Z.bits_inj'. intros k K. rewrite Z.land_spec, Z.pow2_bits_eqb by lia.
    destruct (Z.eqb_spec n k) as [->|N].
    - rewrite andb_true_r. destruct (Z.testbit x k) eqn:T; [by rewrite Z.pow2_bits_true by lia|by rewrite Z.bits_0].
    - rewrite andb_false_r. destruct (Z.testbit x n); [by rewrite Z.pow2_bits_false by lia|by rewrite Z.bits_0]. }
  rewrite E. pose proof (Z.pow_pos_nonneg 2 n). destruct (Z.testbit x n); [|done].
  destruct (Z.eqb_spec (2 ^ n) 0); [lia|done].
Qed.

Lemma byte_testbit d a i : 8 <= i -> Z.testbit (bget d a) i = false.
Proof.
  intros. pose proof (bget_range d a). destruct (Z.eq_dec (bget d a) 0) as [->|]; [apply Z.bits_0|].
  apply Z.bits_above_log2; [lia|]. assert (Z.log2 (bget d a) < 8); [|lia]. apply Z.log2_lt_pow2; lia.
Qed.

Lemma u8_testbit x i : 0 <= i < 8 -> Z.testbit (u8 x) i = Z.testbit x i.
Proof. intros. apply Z.mod_pow2_bits_low. lia. Qed.

Lemma bget_bset_bits d a v b : 0 <= a < Z.of_nat (length d) ->
  bget (bset d a v) b = if b =? a then u8 v else bget d b.
Proof.
  intros. destruct (Z.eqb_spec b a) as [->|N]; [by apply bget_bset_eq|by apply bget_bset_ne].
Qed.

Lemma div_mod_eq8 i j : i / 8 = j / 8 -> i mod 8 = j mod 8 -> i = j.
Proof. intros. rewrite (Z.div_mod i 8), (Z.div_mod j 8) by lia. congruence. Qed.

Lemma bit_set_mark d i j : 0 <= i / 8 < Z.of_nat (length d) ->
  bit_set (mark_bit d i) j = (j =? i) || bit_set d j.
Proof.
  intros L. rewrite !bit_set_testbit. unfold mark_bit. rewrite bget_bset_bits by done. rewrite bit_mask_eq.
  pose proof (Z.mod_pos_bound i 8 ltac:(lia)) as R. pose proof (Z.mod_pos_bound j 8 ltac:(lia)) as R'.
  destruct (Z.eqb_spec (j / 8) (i / 8)) as [E|N].
  - rewrite u8_testbit, Z.lor_spec, Z.pow2_bits_eqb by lia. rewrite E.
    destruct (Z.eqb_spec (i mod 8) (j mod 8)) as [E'|N'], (Z.eqb_spec j i) as [->|Nj]; rewrite ?orb_true_r, ?orb_false_r; try done.
    by apply (div_mod_eq8 j i) in E.
  - destruct (Z.eqb_spec j i) as [->|]; done.
Qed.

Lemma bit_set_clear d i j : 0 <= i / 8 < Z.of_nat (length d) ->
  bit_set (clear_bit d i) j = negb (j =? i) && bit_set d j.
Proof.
  intros L. rewrite !bit_set_testbit. unfold clear_bit. rewrite bget_bset_bits by done. rewrite bit_mask_eq.
  pose proof (Z.mod_pos_bound i 8 ltac:(lia)) as R. pose proof (Z.mod_pos_bound j 8 ltac:(lia)) as R'.
  destruct (Z.eqb_spec (j / 8) (i / 8)) as [E|N].
  - rewrite u8_testbit, Z.land_spec, Z.lnot_spec, Z.pow2_bits_eqb by lia. rewrite E.
    destruct (Z.eqb_spec (i mod 8) (j mod 8)) as [E'|N'], (Z.eqb_spec j i) as [->|Nj]; rewrite ?andb_true_r, ?andb_false_r; try done.
    by apply (div_mod_eq8 j i) in E.
  - destruct (Z.eqb_spec j i) as [->|]; done.
Qed.

(** The scan of one bitmap block. *)
Lemma find_clear_spec (k : nat) d b bi size :
  (forall i, bi <= i < bi + Z.of_nat k -> u32 (b + i) = b + i) ->
  match find_clear k d b bi size with
  | Some i => bi <= i < bi + Z.of_nat k /\ b + i < size /\ bit_set d i = false /\
              forall j, bi <= j < i -> bit_set d j = true
  | None => forall j, bi <= j < bi + Z.of_nat k -> b + j < size -> bit_set d j = true
  end.
Proof.
  revert bi. induction k as [|k IH]; intros bi U; cbn [find_clear]; [intros; lia|].
  rewrite U by lia. destruct (Z.ltb_spec (b + bi) size) as [Lt|Ge]; [|intros; lia].
  destruct (bit_set d bi) eqn:B.
  - specialize (IH (bi + 1) ltac:(intros; apply U; lia)). destruct (find_clear k d b (bi + 1) size) as [i|].
    + destruct IH as (A1 & A2 & A3 & A4). split_and!; [lia|lia|done|done|]. intros j J.
      destruct (Z.eq_dec j bi) as [->|]; [done|]. apply A4. lia.
    + intros j J S. destruct (Z.eq_dec j bi) as [->|]; [done|]. apply IH; lia.
  - split_and!; [lia|lia|done|done|]. intros; lia.
Qed.
End Bits.

(** ** One block at a time *)

Section Blk.
Context {L : Type} `{BlocksOk L}.
Implicit Types (s : fstate L) (l : L) (G : list (Z * Z * bool)) (m : nat).

Definition fready s G m : Prop := ready (blk s) G m.
Definition fview s (k : Z) : list Z := view (blk s) k.

Lemma bl_run {A} (c : M L A) s a l : c (blk s) = Ok a l -> bl c s = Ok a (s <| blk := l |>).
Proof. intros E. unfold bl, zoom. cbn. by rewrite E. Qed.

Lemma set_data_run bp d s : set_data bp d s = Ok tt (s <| blk := set_bdata bp d (blk s) |>).
Proof. done. Qed.

Definition same_home s s' : Prop := forall i, home (blk s') i <-> home (blk s) i.

(** Taking a block, looking at it and giving it back. *)
Lemma take_block s G m k :
  fready s G m -> (length G < 3)%nat -> k ∉ (fun x => x.1.2) <$> G -> 0 <= k < 2 ^ 31 ->
  exists bp l, bl (bread ROOTDEV k) s = Ok bp (s <| blk := l |>) /\ ready l ((bp, k, true) :: G) m /\
    bdata l bp = fview s k /\ (forall i, view l i = fview s i) /\ same_home s (s <| blk := l |>).
Proof.
  intros R Lg N K. destruct (bread_ok (blk s) G m k R Lg N K) as (bp & l & E & R' & V & Hm).
  exists bp, l. split_and!; [by apply bl_run|done|rewrite (bdata_view l bp k true G m R'); apply V|apply V|exact Hm].
Qed.

Lemma give_block s l bp k G m :
  ready l ((bp, k, true) :: G) m ->
  exists l', bl (brelse bp) (s <| blk := l |>) = Ok tt (s <| blk := l' |>) /\ ready l' G m /\
    (forall i, view l' i = view l i) /\ (forall i, home l' i <-> home l i).
Proof.
  intros R. destruct (brelse_ok l bp k G m R) as (l' & E & R' & V & Hm). exists l'. split_and!; try done.
  exact (bl_run (brelse bp) (s <| blk := l |>) _ _ E).
Qed.

(** Storing into a held block and logging it. *)
Lemma log_block s l bp k c G m d :
  ready l ((bp, k, c) :: G) (S m) -> length d = 1024%nat -> home l k ->
  exists l', (do set_data bp d ;;; bl (log_write bp)) (s <| blk := l |>) = Ok tt (s <| blk := l' |>) /\
    ready l' ((bp, k, true) :: G) m /\ (forall i, view l' i = if i =? k then d else view l i) /\
    (forall i, home l' i <-> home l i).
Proof.
  intros R Ld Hk. destruct (set_bdata_ok l bp k c G (S m) d R Ld) as (R1 & V1 & H1).
  destruct (log_write_ok (set_bdata bp d l) bp k false G m R1) as (l' & E & R2 & V2 & H2); [by apply H1|].
  exists l'. split_and!.
  - unfold bind. rewrite set_data_run. change (blk (s <| blk := l |>)) with l.
    change ((s <| blk := l |>) <| blk := set_bdata bp d l |>) with (s <| blk := set_bdata bp d l |>).
    exact (bl_run (log_write bp) (s <| blk := set_bdata bp d l |>) _ _ E).
  - done.
  - intros i. by rewrite V2, V1.
  - intros i. by rewrite H2, H1.
Qed.

(** The common shape: read a block, change it, log it, release it. *)
Definition update_block (k : Z) (f : list Z -> list Z) : M (fstate L) unit :=
  let* bp := bl (bread ROOTDEV k) in
  let* d := data bp in
  do set_data bp (f d) ;;;
  do bl (log_write bp) ;;;
  bl (brelse bp).

Lemma assoc_bind {S A B C} (x : M S A) (f : A -> M S B) (g : B -> M S C) (s : S) :
  bind (bind x f) g s = bind x (fun a => bind (f a) g) s.
Proof. unfold bind. by destruct (x s). Qed.

Lemma update_block_run s G m k f :
  fready s G (S m) -> (length G < 3)%nat -> k ∉ (fun x => x.1.2) <$> G -> 0 <= k < 2 ^ 31 -> home (blk s) k ->
  length (f (fview s k)) = 1024%nat ->
  exists l', update_block k f s = Ok tt (s <| blk := l' |>) /\ ready l' G m /\
    (forall i, view l' i = if i =? k then f (fview s k) else fview s i) /\ same_home s (s <| blk := l' |>).
Proof.
  intros R Lg N K Hk Lf. destruct (take_block s G (S m) k R Lg N K) as (bp & l & E1 & R1 & D1 & V1 & H1).
  unfold update_block, bind at 1. rewrite E1. unfold bind at 1, data, gets. change (blk (s <| blk := l |>)) with l. rewrite D1.
  destruct (log_block s l bp k true G m (f (fview s k)) R1 Lf) as (l2 & E2 & R2 & V2 & H2); [by apply H1|].
  destruct (give_block s l2 bp k G m R2) as (l3 & E3 & R3 & V3 & H3).
  exists l3. split_and!.
  - rewrite <- assoc_bind. unfold bind at 1. rewrite E2. exact E3.
  - done.
  - intros i. rewrite V3, V2. destruct (i =? k); [done|apply V1].
  - intros i. change (home l3 i <-> home (blk s) i). rewrite H3, H2. apply H1.
Qed.
End Blk.

(** ** The block allocator *)

Section Balloc.
Context {L : Type} `{BlocksOk L}.
Implicit Types (s : fstate L) (l : L) (G : list (Z * Z * bool)) (m : nat).

(** The layout of the disk: inodes, then the bitmap, then the data blocks. *)
Record geom s : Prop := {
  ge_inodes : 0 < inodestart (sb s) /\ inodestart (sb s) + ninodes (sb s) / IPB + 1 <= bmapstart (sb s) /\ 0 <= ninodes (sb s);
  ge_bitmap : bmapstart (sb s) + sb_size (sb s) / BPB + 1 <= sb_size (sb s);
  ge_size : 0 < sb_size (sb s) < 2 ^ 31;
  ge_home : forall k, inodestart (sb s) <= k < sb_size (sb s) -> home (blk s) k
}.

Definition dstart s : Z := bmapstart (sb s) + sb_size (sb s) / BPB + 1.
Definition bblock s (b : Z) : Z := b / BPB + bmapstart (sb s).
Definition used s (b : Z) : bool := bit_set (fview s (bblock s b)) (b mod BPB).
Definition isdata s (b : Z) : Prop := dstart s <= b < sb_size (sb s).

Lemma bblock_range s b : geom s -> 0 <= b < sb_size (sb s) ->
  bmapstart (sb s) <= bblock s b < dstart s /\ BBLOCK b (sb s) = bblock s b /\ home (blk s) (bblock s b) /\ 0 <= bblock s b < 2 ^ 31.
Proof.
  intros [(A1 & A2 & A3) B C D] R. unfold bblock, dstart, BBLOCK in *. change IPB with 16 in *. change BPB with 8192 in *.
  assert (0 <= b / 8192 <= sb_size (sb s) / 8192) by (split; [apply Z.div_pos; lia|apply Z.div_le_mono; lia]).
  assert (0 <= ninodes (sb s) / 16) by (apply Z.div_pos; lia).
  split; [lia|]. rewrite u32_small by lia. split; [done|]. split; [apply D; lia|lia].
Qed.

(** The state after a block layer step that keeps the views. *)
Lemma geom_blk s l : geom s -> (forall i, home l i <-> home (blk s) i) -> geom (s <| blk := l |>).
Proof. intros [] E. split; try done. intros k K. by apply E, ge_home0. Qed.

(** [balloc] found nothing, or the block [b]: its bit was clear and is set, its
    contents are zeros, every other block is as before. *)
Definition alloc_none s G m l : Prop :=
  ready l G m /\ (forall i, view l i = fview s i) /\ (forall b, 0 <= b < sb_size (sb s) -> used s b = true).

Definition alloc_some s G m b l : Prop :=
  ready l G m /\ isdata s b /\ used s b = false /\
  (forall i, view l i = if i =? b then zeros
                        else if i =? bblock s b then mark_bit (fview s i) (b mod BPB) else fview s i).

(** The blocks a caller holds are data blocks in use. *)
Definition holds_data s G : Prop := Forall (fun x => isdata s x.1.2 /\ used s x.1.2 = true) G.

Lemma holds_not s G k : holds_data s G -> ~ isdata s k \/ used s k = false -> k ∉ (fun x => x.1.2) <$> G.
Proof.
  intros Hd C (x & -> & X)%list_elem_of_fmap. apply (proj1 (Forall_forall _ _) Hd) in X as [X1 X2].
  destruct C; [done|congruence].
Qed.

Lemma memset_block d : length d = 1024%nat -> memset d 0 0 BSIZE = zeros.
Proof.
  intros Ld. unfold memset, BSIZE. change (Z.to_nat 1024) with 1024%nat.
  assert (E : forall (k : nat) d (i : nat), (i + k <= length d)%nat ->
    memset_loop k d 0 (Z.of_nat i) 0 = take i d ++ repeat 0 k ++ drop (i + k) d).
  { clear. induction k as [|k IH]; intros d i Le; cbn [memset_loop].
    - cbn. rewrite Nat.add_0_r. by rewrite take_drop.
    - change (Z.of_nat i + 1) with (Z.succ (Z.of_nat i)). rewrite <- Nat2Z.inj_succ.
      rewrite IH by (rewrite length_bset; lia). unfold bset, bytes_store.
      destruct (Z.leb_spec 0 (0 + Z.of_nat i)); [|lia]. rewrite Z.add_0_l, Nat2Z.id.
      change (u8 0) with 0. rewrite drop_insert_lt by lia.
      replace (take (S i) (<[i:=0]> d)) with (take i d ++ [0]).
      + rewrite <- app_assoc. cbn. by rewrite Nat.add_succ_r.
      + rewrite (take_S_r _ _ 0) by (apply list_lookup_insert_eq; lia). by rewrite take_insert_ge by lia. }
  change 0 with (Z.of_nat 0) at 2. rewrite (E 1024%nat d 0%nat) by lia. rewrite drop_ge by lia. by rewrite app_nil_r.
Qed.

Lemma bzero_run s G m b :
  fready s G (S m) -> (length G < 3)%nat -> b ∉ (fun x => x.1.2) <$> G -> 0 <= b < 2 ^ 31 -> home (blk s) b ->
  exists l', bzero ROOTDEV b s = Ok tt (s <| blk := l' |>) /\ ready l' G m /\
    (forall i, view l' i = if i =? b then zeros else fview s i) /\ same_home s (s <| blk := l' |>).
Proof.
  intros R Lg N B Hb. unfold bzero. rewrite u32_small by lia.
  pose proof (view_len (blk s) G (S m) b R) as Lv. fold (fview s b) in Lv.
  destruct (update_block_run s G m b (fun d => memset d 0 0 BSIZE) R Lg N B Hb) as (l' & E & R' & V & Hm).
  { by rewrite memset_block. }
  exists l'. split_and!; [exact E|done| |done]. intros i. rewrite V, memset_block by done. done.
Qed.
(** A bitmap block with its [bi]th bit set, then the zeroed block. *)
Lemma claim_block s l bp G m b :
  geom s -> holds_data s G -> (length G < 3)%nat -> isdata s b -> used s b = false ->
  ready l ((bp, bblock s b, true) :: G) (S (S m)) -> (forall i, view l i = fview s i) -> (forall i, home l i <-> home (blk s) i) ->
  exists l', (do set_data bp (mark_bit (fview s (bblock s b)) (b mod BPB)) ;;;
              do bl (log_write bp) ;;;
              do bl (brelse bp) ;;;
              do bzero ROOTDEV b ;;;
              ret b) (s <| blk := l |>) = Ok b (s <| blk := l' |>) /\
    alloc_some s G m b l' /\ same_home s (s <| blk := l' |>).
Proof.
  intros Ge Hd Lg Db Ub R V Hm. assert (Lv : length (view l (bblock s b)) = 1024%nat) by (eapply view_len, R). rewrite V in Lv.
  assert (Db' : 0 <= b < sb_size (sb s) /\ bblock s b < dstart s <= b).
  { destruct (ge_inodes _ Ge) as (? & ? & ?). unfold isdata in Db. assert (0 <= b < sb_size (sb s)) as R'.
    { unfold dstart in Db. change IPB with 16 in *. assert (0 <= ninodes (sb s) / 16) by (apply Z.div_pos; lia).
      assert (0 <= sb_size (sb s) / BPB) by (apply Z.div_pos; [destruct (ge_size _ Ge); lia|done]). lia. }
    destruct (bblock_range s b Ge R') as (? & _). unfold isdata in Db. lia. }
  destruct Db' as [Rb Ne]. destruct (bblock_range s b Ge Rb) as (B1 & B2 & B3 & B4).
  destruct (log_block s l bp (bblock s b) true G (S m) (mark_bit (fview s (bblock s b)) (b mod BPB)) R) as (l2 & E2 & R2 & V2 & H2).
  { unfold mark_bit. by rewrite length_bset. } { by apply Hm. }
  rewrite <- assoc_bind. unfold bind at 1. rewrite E2. destruct (give_block s l2 bp _ G (S m) R2) as (l3 & E3 & R3 & V3 & H3).
  unfold bind at 1. rewrite E3.
  destruct (bzero_run (s <| blk := l3 |>) G m b) as (l4 & E4 & R4 & V4 & H4); [exact R3|exact Lg|..].
  { apply (holds_not s); [done|by right]. } { destruct (ge_size _ Ge). lia. }
  { apply H3, H2, Hm, (ge_home _ Ge). destruct (ge_inodes _ Ge) as (? & ? & ?). change IPB with 16 in *.
    assert (0 <= ninodes (sb s) / 16) by (apply Z.div_pos; lia). unfold isdata, dstart in *.
    assert (0 <= sb_size (sb s) / BPB) by (apply Z.div_pos; [destruct (ge_size _ Ge); lia|done]). lia. }
  unfold bind. rewrite E4. exists l4. split; [done|]. split.
  - split_and!; try done. intros i. rewrite V4. destruct (i =? b); [done|]. change (fview (s <| blk := l3 |>) i) with (view l3 i).
    rewrite V3, V2. destruct (Z.eqb_spec i (bblock s b)) as [->|]; [done|apply V].
  - intros i. change (home l4 i <-> home (blk s) i). rewrite (H4 i). change (home l3 i <-> home (blk s) i). by rewrite H3, H2.
Qed.

Lemma used_split s b bi : 0 <= b -> b mod BPB = 0 -> 0 <= bi < BPB ->
  used s (b + bi) = bit_set (fview s (bblock s b)) bi /\ bblock s (b + bi) = bblock s b.
Proof.
  intros B Mb Rb. unfold used, bblock. change BPB with 8192 in *.
  assert ((b + bi) / 8192 = b / 8192) as -> by zdm. assert ((b + bi) mod 8192 = bi) as -> by zdm. done.
Qed.

Lemma balloc_loop_run s G m (k : nat) b :
  geom s -> holds_data s G -> (length G < 3)%nat -> fready s G (S (S m)) ->
  (forall i, 0 <= i < dstart s -> used s i = true) -> 0 <= b -> b mod BPB = 0 ->
  (forall i, 0 <= i < b -> i < sb_size (sb s) -> used s i = true) -> sb_size (sb s) <= b + BPB * Z.of_nat k -> b <= sb_size (sb s) + BPB ->
  exists r l', balloc_loop k ROOTDEV b s = Ok r (s <| blk := l' |>) /\ same_home s (s <| blk := l' |>) /\
    (r = 0 /\ alloc_none s G (S (S m)) l' \/ alloc_some s G m r l').
Proof.
  revert s b. induction k as [|k IH]; intros s b Ge Hd Lg R Mu B0 Bm Ub Fu Bu; cbn [balloc_loop].
  - exists 0, (blk s). split; [by destruct s|]. split; [done|left]. split; [done|].
    split; [exact R|]. split; [done|]. intros i Hi. apply Ub; lia.
  - unfold bind at 1, gets. destruct (ge_size _ Ge) as [S0 S1].
    rewrite u32_small by (change BPB with 8192 in *; lia). destruct (Z.ltb_spec b (sb_size (sb s))) as [Lt|Gt].
    2: { exists 0, (blk s). split; [by destruct s|]. split; [done|left]. split; [done|].
         split; [exact R|]. split; [done|]. intros i Hi. apply Ub; lia. }
    destruct (bblock_range s b Ge ltac:(lia)) as (B1 & B2 & B3 & B4). rewrite B2.
    destruct (take_block s G (S (S m)) (bblock s b) R Lg) as (bp & l & E1 & R1 & D1 & V1 & H1); [|done|].
    { apply (holds_not s); [done|left]. unfold isdata. lia. }
    unfold bind at 1. rewrite E1. unfold bind at 1, data, gets. change (blk (s <| blk := l |>)) with l. rewrite D1.
    pose proof (find_clear_spec (Z.to_nat BPB) (fview s (bblock s b)) b 0 (sb_size (sb s))) as Fc.
    rewrite Z2Nat.id in Fc by done. assert (Sp := used_split s b).
    destruct (find_clear _ _ _ _ _) as [bi|].
    + destruct Fc as (F1 & F2 & F3 & F4). { intros i Hi. apply u32_small. change BPB with 8192 in *. lia. }
      destruct (Sp bi B0 Bm ltac:(lia)) as [U1 U2].
      assert (Ud : used s (b + bi) = false) by (by rewrite U1).
      assert (Dd : isdata s (b + bi)).
      { split; [|lia]. destruct (Z.lt_ge_cases (b + bi) (dstart s)); [|done]. rewrite Mu in Ud by lia. done. }
      destruct (claim_block s l bp G m (b + bi) Ge Hd Lg Dd Ud) as (l' & E & A & Hm); [by rewrite U2|done|exact H1|].
      assert (Em : (b + bi) mod BPB = bi) by (change BPB with 8192 in *; zdm). rewrite U2, Em in E.
      exists (b + bi), l'. split_and!; [exact E|done|by right].
    + destruct (give_block s l bp _ G (S (S m)) R1) as (l2 & E2 & R2 & V2 & H2). unfold bind at 1. rewrite E2.
      assert (Hm2 : forall i, home l2 i <-> home (blk s) i) by (intros i; rewrite H2; apply H1).
      assert (V2' : forall i, view l2 i = fview s i) by (intros i; by rewrite V2).
      specialize (IH (s <| blk := l2 |>) (b + BPB)). change (blk (s <| blk := l2 |>)) with l2 in IH.
      destruct IH as (r & l3 & E3 & Hm3 & C3).
      * by apply geom_blk.
      * eapply Forall_impl; [exact Hd|]. intros x [X1 X2]. split; [exact X1|]. unfold used in *.
        change (bit_set (view l2 (bblock s x.1.2)) (x.1.2 mod BPB) = true). by rewrite V2'.
      * done.
      * exact R2.
      * intros i Hi. change (bit_set (view l2 (bblock s i)) (i mod BPB) = true). rewrite V2'. by apply Mu.
      * change BPB with 8192 in *. lia.
      * rewrite <- (Z.mul_1_l BPB) at 1. by rewrite Z_mod_plus_full.
      * intros i Hi Hi'. change (bit_set (view l2 (bblock s i)) (i mod BPB) = true). rewrite V2'.
        destruct (Z.lt_ge_cases i b); [apply (Ub i); [lia|exact Hi']|]. change (used s i = true).
        destruct (Sp (i - b) B0 Bm ltac:(lia)) as [U1 _]. replace (b + (i - b)) with i in U1 by lia. rewrite U1.
        apply Fc; [intros; apply u32_small; change BPB with 8192 in *; lia|lia|]. change (i < sb_size (sb s)) in Hi'. lia.
      * change (sb_size (sb s) <= b + BPB + BPB * Z.of_nat k). lia.
      * change (b + BPB <= sb_size (sb s) + BPB). lia.
      * exists r, l3. split; [exact E3|]. split; [intros i; rewrite <- (Hm2 i); apply Hm3|].
        destruct C3 as [[-> (C1 & C2 & C3)]|(C1 & C2 & C3 & C4)]; [left|right].
        -- split; [done|]. split; [done|]. split; [intros i; rewrite C2; apply V2'|]. intros i Hi.
           specialize (C3 i Hi). unfold used in *. change (bit_set (view l2 (bblock s i)) (i mod BPB) = true) in C3. by rewrite V2' in C3.
        -- split; [done|]. split; [exact C2|]. split.
           ++ change (bit_set (view l2 (bblock s r)) (r mod BPB) = false) in C3. by rewrite V2' in C3.
           ++ intros i. rewrite C4. change (fview (s <| blk := l2 |>) i) with (view l2 i). by rewrite V2'.
Qed.
End Balloc.
