(* ===== verification/FsContent.v ===== *)
(** * The contents of files

    What a file holds, byte by byte, through the block addresses of its inode,
    and the proofs that [bmap], [readi] and [writei] of fs.c work on exactly that:
    growing a file by a block changes no byte, and no block of any other file. *)

From Stdlib Require Import ZArith Lia List.
From stdpp Require Import base tactics numbers list sets strings.
From S2P Require Import Prelude Riscv CString Blocks Sleeplock Fs FsFacts.

(** ** Allocation, for the routines above it *)

Section Alloc.
Context {L : Type} `{BlocksOk L}.
Implicit Types (s : fstate L) (l : L) (G : list (Z * Z * bool)) (m : nat).

(** The layout holds and the blocks before the data blocks are never free. *)
Record fsok s : Prop := {
  fo_geom : geom s;
  fo_meta : forall i, 0 <= i < dstart s -> used s i = true
}.

Lemma used_ext s s' b : sb s' = sb s -> fview s' (bblock s b) = fview s (bblock s b) -> used s' b = used s b.
Proof. intros E V. unfold used, bblock in *. by rewrite E, V. Qed.

Lemma dstart_pos s : geom s -> 0 < bmapstart (sb s) < dstart s.
Proof.
  intros [(A & B & C) D E _]. unfold dstart. change IPB with 16 in *. change BPB with 8192 in *.
  assert (0 <= ninodes (sb s) / 16) by (apply Z.div_pos; lia).
  assert (0 <= sb_size (sb s) / 8192) by (apply Z.div_pos; lia). lia.
Qed.

Lemma isdata_range s b : geom s -> isdata s b -> 0 < b < sb_size (sb s) /\ b < 2 ^ 31 /\ home (blk s) b.
Proof.
  intros G [A B]. pose proof (dstart_pos s G). pose proof (ge_size _ G). split; [lia|]. split; [lia|].
  apply (ge_home _ G). destruct (ge_inodes _ G) as (? & ? & ?). change IPB with 16 in *.
  assert (0 <= ninodes (sb s) / 16) by (apply Z.div_pos; lia). lia.
Qed.

(** A block of the bitmap is not a data block. *)
Lemma bblock_not_data s b : geom s -> 0 <= b < sb_size (sb s) -> ~ isdata s (bblock s b).
Proof. intros G R [A _]. destruct (bblock_range s b G R) as ((_ & B) & _). lia. Qed.

(** The superblock, the bitmap and the home blocks are as before. *)
Lemma fsok_ext s s' : fsok s -> sb s' = sb s -> same_home s s' ->
  (forall b, 0 <= b < dstart s -> used s b = true -> used s' b = true) -> fsok s'.
Proof.
  intros [Ge Me] Es Hm U. split.
  - destruct Ge as [A B C D]. split; rewrite Es; try done. intros k K. apply Hm, D, K.
  - intros i Hi. unfold dstart in Hi. rewrite Es in Hi. by apply U, Me.
Qed.

Definition alloc_step s (r : Z) l : Prop :=
  isdata s r /\ used s r = false /\ view l r = zeros /\
  (forall i, isdata s i -> i <> r -> view l i = fview s i) /\
  (forall b, 0 <= b < sb_size (sb s) -> used (s <| blk := l |>) b = (b =? r) || used s b) /\
  (forall i, i <> r -> view l i = if i =? bblock s r then mark_bit (fview s i) (r mod BPB) else fview s i).

Lemma alloc_some_step s G m r l : geom s -> fready s G m -> alloc_some s G m r l -> alloc_step s r l.
Proof.
  intros Ge R0 (R & D & U & V). destruct (isdata_range s r Ge D) as (Rr & _).
  destruct (bblock_range s r Ge ltac:(lia)) as ((B1 & B2) & _).
  assert (Nb : forall b, 0 <= b < sb_size (sb s) -> bblock s b <> r).
  { intros b Rb E. destruct (bblock_range s b Ge Rb) as ((_ & B3) & _). destruct D. lia. }
  split; [done|]. split; [done|]. split; [by rewrite V, Z.eqb_refl|]. split; [|split].
  - intros i [Di1 Di2] N. rewrite V. destruct (Z.eqb_spec i r); [done|]. destruct (Z.eqb_spec i (bblock s r)); [lia|done].
  - intros b Rb. unfold used at 1. change (fview (s <| blk := l |>)) with (view l). change (bblock (s <| blk := l |>) b) with (bblock s b).
    rewrite V. destruct (Z.eqb_spec (bblock s b) r) as [E|_]; [by destruct (Nb b Rb)|].
    destruct (Z.eqb_spec (bblock s b) (bblock s r)) as [E|N].
    + rewrite bit_set_mark.
      2: { rewrite (view_len _ _ _ _ R0 : length (fview s _) = _). change BPB with 8192. split; [apply Z.div_pos; [apply Z.mod_pos_bound|]; lia|].
           apply Z.div_lt_upper_bound; [lia|]. pose proof (Z.mod_pos_bound r 8192). lia. }
      unfold used. f_equal. unfold bblock in E. change BPB with 8192 in *.
      destruct (Z.eqb_spec (b mod 8192) (r mod 8192)), (Z.eqb_spec b r); try done; [zdm|subst; done].
    + destruct (Z.eqb_spec b r) as [->|]; [done|]. done.
  - intros i N. rewrite V. by destruct (Z.eqb_spec i r).
Qed.

(** The blocks before the bitmap are as before. *)
Definition low s s' : Prop := forall b, b < bmapstart (sb s) -> fview s' b = fview s b.

Lemma low_trans s1 s2 s3 : sb s2 = sb s1 -> low s1 s2 -> low s2 s3 -> low s1 s3.
Proof. intros E A B b Hb. rewrite B, A; [done|done|by rewrite E]. Qed.

Lemma alloc_some_low s G m r l : geom s -> alloc_some s G m r l -> low s (s <| blk := l |>).
Proof.
  intros Ge (_ & D & _ & V) b Hb. change (view l b = fview s b). rewrite V. destruct (isdata_range s r Ge D) as (Rr & _).
  destruct (bblock_range s r Ge ltac:(lia)) as ((B1 & B2) & _). pose proof (dstart_pos s Ge). destruct D.
  destruct (Z.eqb_spec b r); [lia|]. by destruct (Z.eqb_spec b (bblock s r)); [lia|].
Qed.

Lemma balloc_run s G m :
  fsok s -> holds_data s G -> (length G < 3)%nat -> fready s G (S (S m)) ->
  exists r l, balloc ROOTDEV s = Ok r (s <| blk := l |>) /\ ready l G m /\ same_home s (s <| blk := l |>) /\
    fsok (s <| blk := l |>) /\ low s (s <| blk := l |>) /\
    (r = 0 /\ (forall i, view l i = fview s i) /\ (forall b, 0 <= b < sb_size (sb s) -> used s b = true)
     \/ alloc_step s r l).
Proof.
  intros [Ge Me] Hd Lg R. unfold balloc, bind, gets.
  destruct (balloc_loop_run s G m (Z.to_nat (sb_size (sb s) / BPB + 1)) 0 Ge Hd Lg R Me) as (r & l & E & Hm & C); try done; try lia.
  { change BPB with 8192. pose proof (ge_size _ Ge). assert (0 <= sb_size (sb s) / 8192) by (apply Z.div_pos; lia).
    rewrite Z2Nat.id by lia. zdm. }
  { pose proof (ge_size _ Ge). change BPB with 8192. lia. }
  exists r, l. split; [exact E|]. destruct C as [(-> & C1 & C2 & C3)|C].
  - split; [by eapply ready_weak; [exact C1|lia]|]. split; [exact Hm|]. split; [|split; [intros b _; apply C2|left; split; [done|]; split; [exact C2|exact C3]]].
    apply (fsok_ext s); [done|done|exact Hm|]. intros b Hb U. rewrite (used_ext s); [done..|]. apply C2.
  - assert (A : alloc_step s r l) by (eapply alloc_some_step, C; [done|by eapply ready_weak; [exact R|lia]]).
    split; [apply C|]. split; [exact Hm|]. split; [|split; [by eapply alloc_some_low|by right]].
    apply (fsok_ext s); [done|done|exact Hm|]. intros b Hb U. destruct A as (_ & _ & _ & _ & A5 & _).
    rewrite A5 by (pose proof (ge_bitmap _ Ge); unfold dstart in Hb; lia). rewrite U. apply orb_true_r.
Qed.
End Alloc.

(** ** The blocks of an inode *)

Section Slots.
Context {L : Type} `{BlocksOk L}.
Implicit Types (s : fstate L) (i : inode).

(** Slot [n] below 268 holds the address of the [n]th block of the file, slot 268
    that of the indirect block; 0 if there is none. *)
Definition nslots : Z := 268.

Definition slot s i (n : Z) : Z :=
  if n <? 12 then at_ 0 (i_addrs i) n
  else if n =? nslots then at_ 0 (i_addrs i) 12
  else if at_ 0 (i_addrs i) 12 =? 0 then 0
  else load 4 (fview s (at_ 0 (i_addrs i) 12)) (4 * (n - 12)).

(** The blocks are data blocks in use, all different. *)
Record iwf s i : Prop := {
  iw_dev : i_dev i = ROOTDEV;
  iw_len : length (i_addrs i) = 13%nat;
  iw_data : forall n, 0 <= n <= nslots -> slot s i n <> 0 -> isdata s (slot s i n) /\ used s (slot s i n) = true;
  iw_inj : forall n n', 0 <= n <= nslots -> 0 <= n' <= nslots -> slot s i n <> 0 -> slot s i n = slot s i n' -> n = n'
}.

(** The byte at [off]; a part with no block reads as zeros. *)
Definition fbyte s i (off : Z) : Z :=
  let a := slot s i (off / BSIZE) in
  if a =? 0 then 0 else at_ 0 (fview s a) (off mod BSIZE).

Definition in_file (off : Z) : Prop := 0 <= off < MAXFILE * BSIZE.

Lemma in_file_slot off : in_file off -> 0 <= off / BSIZE < nslots.
Proof.
  unfold in_file. change (MAXFILE * BSIZE) with 274432. change BSIZE with 1024. unfold nslots. intros.
  split; [apply Z.div_pos; lia|]. apply Z.div_lt_upper_bound; lia.
Qed.

Lemma at_zeros j : at_ 0 zeros j = 0.
Proof.
  unfold at_. destruct (0 <=? j); [|done]. unfold zeros. rewrite nth_lookup.
  destruct (repeat 0 1024 !! Z.to_nat j) as [x|] eqn:E; [|done].
  apply list_elem_of_lookup_2, list_elem_of_In, repeat_spec in E. by subst.
Qed.

Lemma load_zeros k a : load k zeros a = 0.
Proof. revert a. induction k as [|k IH]; intros a; [done|]. unfold load; fold (@load (list Z) _). rewrite IH.
  assert (bget zeros a = 0) as ->; [|done]. unfold bget, bytes_store. pose proof (at_zeros a) as E. unfold at_ in E. destruct (0 <=? a); [by rewrite E|done].
Qed.

(** One slot, [k], is filled with the new block [r]. *)
Section Grow.
Context s s' i i' (k r : Z).
Context (Es : sb s' = sb s) (W : iwf s i) (Ed : i_dev i' = i_dev i) (Ln : length (i_addrs i') = 13%nat).
Context (Sl : forall n, 0 <= n <= nslots -> slot s' i' n = if n =? k then r else slot s i n).
Context (K : 0 <= k <= nslots) (K0 : slot s i k = 0) (Dr : isdata s r) (Ur : used s r = false) (Ur' : used s' r = true).
Context (Um : forall b, isdata s b -> used s b = true -> used s' b = true).

Lemma isdata_grow b : isdata s' b <-> isdata s b.
Proof. unfold isdata, dstart. by rewrite Es. Qed.

Lemma slot_not_new n : 0 <= n <= nslots -> slot s i n <> 0 -> slot s i n <> r.
Proof. intros Hn N0 E. destruct (iw_data _ _ W n Hn N0) as [_ U]. rewrite E in U. congruence. Qed.

Lemma iwf_grow : iwf s' i'.
Proof.
  split.
  - rewrite Ed. apply W.
  - done.
  - intros n Hn. rewrite Sl by done. destruct (Z.eqb_spec n k) as [->|N]; intros N0; [by rewrite isdata_grow|].
    destruct (iw_data _ _ W n Hn N0) as [D U]. rewrite isdata_grow. auto.
  - intros n n' Hn Hn'. rewrite !Sl by done. destruct (Z.eqb_spec n k) as [->|N], (Z.eqb_spec n' k) as [->|N']; intros N0 E.
    + done.
    + destruct (slot_not_new n' Hn'); congruence.
    + destruct (slot_not_new n Hn N0). done.
    + by apply (iw_inj _ _ W).
Qed.

Lemma fbyte_grow off :
  (forall n, 0 <= n < nslots -> slot s i n <> 0 -> fview s' (slot s i n) = fview s (slot s i n)) ->
  (k < nslots -> fview s' r = zeros) -> in_file off -> fbyte s' i' off = fbyte s i off.
Proof.
  intros V Z0 I. apply in_file_slot in I. unfold fbyte. rewrite Sl by lia. destruct (Z.eqb_spec (off / BSIZE) k) as [E|N].
  - rewrite E, K0. cbn. rewrite Z0 by lia. rewrite at_zeros. by destruct (r =? 0).
  - destruct (Z.eqb_spec (slot s i (off / BSIZE)) 0) as [|N0]; [done|]. by rewrite V.
Qed.
End Grow.

(** *** Steps that keep what every file holds *)

(** [s'] is [s] with at most more blocks in the inode [ip], whose contents are now
    [g]; the blocks of other files are as before. *)
Record wrote s s' (ip : Z) (g : Z -> Z) : Prop := {
  gr_ok : fsok s';
  gr_sb : sb s' = sb s;
  gr_home : same_home s s';
  gr_len : length (itable s') = length (itable s);
  gr_others : forall j, j <> ip -> inodeat s' j = inodeat s j;
  gr_inode : exists a, inodeat s' ip = (inodeat s ip) <| i_addrs := a |>;
  gr_wf : iwf s' (inodeat s' ip);
  gr_bytes : forall off, in_file off -> fbyte s' (inodeat s' ip) off = g off;
  gr_slots : forall n, 0 <= n <= nslots -> slot s (inodeat s ip) n <> 0 -> slot s' (inodeat s' ip) n = slot s (inodeat s ip) n;
  gr_new : forall n, 0 <= n <= nslots -> slot s' (inodeat s' ip) n <> slot s (inodeat s ip) n -> used s (slot s' (inodeat s' ip) n) = false;
  gr_used : forall b, isdata s b -> used s b = true -> used s' b = true;
  gr_frame : forall b, isdata s b -> used s b = true -> (forall n, 0 <= n <= nslots -> slot s (inodeat s ip) n <> b) -> fview s' b = fview s b
}.

(** The contents stay what they are. *)
Definition grew s s' ip : Prop := wrote s s' ip (fbyte s (inodeat s ip)).

Lemma wrote_ext s s' ip g h : (forall off, in_file off -> g off = h off) -> wrote s s' ip g -> wrote s s' ip h.
Proof. intros E []. split; try done. intros off I. rewrite <- E by done. auto. Qed.

Lemma fwrote_trans s1 s2 s3 ip g h : wrote s1 s2 ip g -> wrote s2 s3 ip h -> wrote s1 s3 ip h.
Proof.
  intros A B. assert (D : forall b, isdata s2 b <-> isdata s1 b) by (intros b; unfold isdata, dstart; by rewrite (gr_sb _ _ _ _ A)).
  split.
  - apply B.
  - by rewrite (gr_sb _ _ _ _ B), (gr_sb _ _ _ _ A).
  - intros x. rewrite (gr_home _ _ _ _ B x). apply A.
  - by rewrite (gr_len _ _ _ _ B), (gr_len _ _ _ _ A).
  - intros j N. by rewrite (gr_others _ _ _ _ B), (gr_others _ _ _ _ A).
  - destruct (gr_inode _ _ _ _ A) as [a Ea], (gr_inode _ _ _ _ B) as [b Eb]. exists b. rewrite Eb, Ea. done.
  - apply B.
  - apply B.
  - intros n Hn N0. assert (E := gr_slots _ _ _ _ A n Hn N0). by rewrite (gr_slots _ _ _ _ B), E by (done || by rewrite E).
  - intros n Hn N. destruct (Z.eq_dec (slot s3 (inodeat s3 ip) n) (slot s2 (inodeat s2 ip) n)) as [E|N'].
    + rewrite E in *. by apply (gr_new _ _ _ _ A).
    + assert (U := gr_new _ _ _ _ B n Hn N'). destruct (used s1 _) eqn:U1; [|done].
      destruct (Z.eq_dec (slot s3 (inodeat s3 ip) n) 0) as [E0|N0].
      * destruct N'. destruct (Z.eq_dec (slot s2 (inodeat s2 ip) n) 0) as [->|N2]; [done|]. by apply (gr_slots _ _ _ _ B).
      * rewrite (gr_used _ _ _ _ A) in U; [done| |done]. apply D. unfold isdata, dstart. rewrite <- (gr_sb _ _ _ _ B).
        by apply (iw_data _ _ (gr_wf _ _ _ _ B)).
  - intros b Db U. apply (gr_used _ _ _ _ B); [by apply D|]. by apply (gr_used _ _ _ _ A).
  - intros b Db U N. rewrite (gr_frame _ _ _ _ B), (gr_frame _ _ _ _ A); try done; [by apply D|by apply (gr_used _ _ _ _ A)|].
    intros n Hn E. assert (X := gr_new _ _ _ _ A n Hn). rewrite E in X. rewrite X in U; [done|]. intros E'. by apply (N n Hn).
Qed.

Lemma grew_trans s1 s2 s3 ip g : grew s1 s2 ip -> wrote s2 s3 ip g -> wrote s1 s3 ip g.
Proof. apply fwrote_trans. Qed.

Lemma grew_grew s1 s2 s3 ip : grew s1 s2 ip -> grew s2 s3 ip -> grew s1 s3 ip.
Proof. intros A B. eapply wrote_ext; [|by eapply fwrote_trans]. intros off I. exact (gr_bytes _ _ _ _ A off I). Qed.

(** At most blocks before the bitmap differ. *)
Lemma grew_meta s s' ip : fsok s -> iwf s (inodeat s ip) -> sb s' = sb s -> same_home s s' -> itable s' = itable s ->
  (forall b, bmapstart (sb s) <= b -> fview s' b = fview s b) -> grew s s' ip.
Proof.
  intros F W Es Hm Et V. assert (Ei : forall j, inodeat s' j = inodeat s j) by (intros j; unfold inodeat; by rewrite Et).
  pose proof (dstart_pos s (fo_geom _ F)) as Dp. assert (Vd : forall b, isdata s b -> fview s' b = fview s b) by (intros b [D _]; apply V; lia).
  assert (Sl : forall n, slot s' (inodeat s ip) n = slot s (inodeat s ip) n).
  { intros n. unfold slot. destruct (Z.eqb_spec (at_ 0 (i_addrs (inodeat s ip)) 12) 0) as [|N]; [done|].
    rewrite Vd; [done|]. by apply (iw_data _ _ W nslots). }
  assert (U : forall b, 0 <= b < sb_size (sb s) -> used s' b = used s b).
  { intros b Rb. apply used_ext; [done|]. apply V. by destruct (bblock_range s b (fo_geom _ F) Rb) as ((A & _) & _). }
  assert (Ud : forall b, isdata s b -> used s b = true -> used s' b = true).
  { intros b D Ub. destruct (isdata_range s b (fo_geom _ F) D). by rewrite U by lia. }
  split; rewrite ?Ei; try done.
  - apply (fsok_ext s); try done. intros b Rb. rewrite U; [done|]. pose proof (ge_bitmap _ (fo_geom _ F)). unfold dstart in Rb. lia.
  - by rewrite Et.
  - exists (i_addrs (inodeat s ip)). by destruct (inodeat s ip).
  - destruct W as [W1 W2 W3 W4]. split; try done.
    + intros n Hn. rewrite Sl. intros N. destruct (W3 n Hn N) as [D Un]. split; [|by apply Ud]. unfold isdata, dstart. by rewrite Es.
    + intros n n'. rewrite !Sl. by apply W4.
  - intros off I. unfold fbyte. rewrite Sl. destruct (Z.eqb_spec (slot s (inodeat s ip) (off / BSIZE)) 0) as [|N]; [done|].
    rewrite Vd; [done|]. apply in_file_slot in I. apply (iw_data _ _ W); [lia|done].
  - intros n Hn. by rewrite Sl.
  - intros b D _ _. by apply Vd.
Qed.

(** The file system is the same through [view] and the inode table. *)
Lemma grew_same s s' ip : fsok s -> iwf s (inodeat s ip) -> sb s' = sb s -> same_home s s' -> itable s' = itable s ->
  (forall b, fview s' b = fview s b) -> grew s s' ip.
Proof. intros. by apply grew_meta. Qed.
End Slots.

(** ** Filling a slot *)

Section Fill.
Context {L : Type} `{BlocksOk L}.
Implicit Types (s : fstate L) (i : inode) (l : L).

Lemma grew_core s s' ip k r a :
  let i := inodeat s ip in let i' := inodeat s' ip in
  fsok s' -> sb s' = sb s -> same_home s s' -> length (itable s') = length (itable s) ->
  (forall j, j <> ip -> inodeat s' j = inodeat s j) -> i' = i <| i_addrs := a |> -> length a = 13%nat -> iwf s i ->
  (forall n, 0 <= n <= nslots -> slot s' i' n = if n =? k then r else slot s i n) ->
  0 <= k <= nslots -> slot s i k = 0 -> isdata s r -> used s r = false -> used s' r = true ->
  (forall b, isdata s b -> used s b = true -> used s' b = true) ->
  (forall b, isdata s b -> used s b = true -> slot s i nslots <> b -> fview s' b = fview s b) ->
  (k < nslots -> fview s' r = zeros) -> grew s s' ip.
Proof.
  intros i i' F Es Hm Ln Ot Ei La W Sl K K0 Dr Ur Ur' Um V Zr.
  assert (Ed : i_dev i' = i_dev i) by by rewrite Ei. assert (La' : length (i_addrs i') = 13%nat) by by rewrite Ei.
  split; try done.
  - by exists a.
  - by apply (iwf_grow s s' i i' k r).
  - intros off I. apply (fbyte_grow s s' i i' k r); try done. intros n Hn N0.
    destruct (iw_data _ _ W n ltac:(lia) N0) as [D U]. apply V; try done. intros E.
    assert (n = nslots); [|lia]. apply (iw_inj _ _ W); try done; lia.
  - intros n Hn N0. change (slot s' i' n = slot s i n). change (slot s i n <> 0) in N0. rewrite Sl by done. by destruct (Z.eqb_spec n k) as [->|].
  - intros n Hn. change (slot s' i' n <> slot s i n -> used s (slot s' i' n) = false). rewrite Sl by done. by destruct (Z.eqb_spec n k) as [->|].
  - intros b D U N. apply V; try done. by apply N.
Qed.

Lemma inodeat_seti s ip f j : 1 <= ip <= Z.of_nat (length (itable s)) ->
  inodeat (s <| itable ::= fun t => upd t (ip - 1) (f (at_ inode0 t (ip - 1))) |>) j =
  if j =? ip then f (inodeat s ip) else inodeat s j.
Proof.
  intros R. unfold inodeat. cbn. destruct (Z.eqb_spec j ip) as [->|N]; [by rewrite at_upd_eq by lia|by rewrite at_upd_ne by lia].
Qed.

(** The blocks an inode holds are not touched by an allocation. *)
Lemma alloc_step_keeps s r l b : alloc_step s r l -> isdata s b -> used s b = true -> view l b = fview s b.
Proof. intros (D & U & _ & V & _) Db Ub. apply V; [done|]. congruence. Qed.

Lemma alloc_step_used s r l b : geom s -> alloc_step s r l -> isdata s b -> used s b = true -> used (s <| blk := l |>) b = true.
Proof. intros Ge (_ & _ & _ & _ & U & _) D Ub. destruct (isdata_range s b Ge D). rewrite U by lia. rewrite Ub. apply orb_true_r. Qed.

Lemma alloc_step_new s r l : geom s -> alloc_step s r l -> r <> 0 /\ used (s <| blk := l |>) r = true.
Proof.
  intros Ge (D & _ & _ & _ & U & _). destruct (isdata_range s r Ge D). split; [lia|]. rewrite U by lia. by rewrite Z.eqb_refl.
Qed.

(** A new block as the [n]th address of the inode: a direct block, or the
    indirect block ([n = 12]). *)
Definition set_addr (ip n r : Z) (s : fstate L) : fstate L :=
  s <| itable ::= fun t => upd t (ip - 1) ((at_ inode0 t (ip - 1)) <| i_addrs ::= fun a => upd a n r |>) |>.

Lemma grew_addr s l ip n r :
  let k := if n =? 12 then nslots else n in
  1 <= ip <= Z.of_nat (length (itable s)) -> fsok s -> iwf s (inodeat s ip) -> 0 <= n <= 12 ->
  at_ 0 (i_addrs (inodeat s ip)) n = 0 -> alloc_step s r l -> same_home s (s <| blk := l |>) -> fsok (s <| blk := l |>) ->
  grew s (set_addr ip n r (s <| blk := l |>)) ip /\
  slot (set_addr ip n r (s <| blk := l |>)) (inodeat (set_addr ip n r (s <| blk := l |>)) ip) k = r.
Proof.
  intros k Ri F W Rn A0 St Hm F'. set (s' := set_addr ip n r (s <| blk := l |>)). set (i := inodeat s ip) in *.
  destruct (alloc_step_new s r l (fo_geom _ F) St) as [R0 Ur'].
  assert (Ei : inodeat s' ip = i <| i_addrs ::= fun a => upd a n r |>).
  { unfold s', set_addr. rewrite (inodeat_seti (s <| blk := l |>)) by done. by rewrite Z.eqb_refl. }
  assert (V12 : at_ 0 (i_addrs i) 12 <> 0 -> view l (at_ 0 (i_addrs i) 12) = fview s (at_ 0 (i_addrs i) 12)).
  { intros N. destruct (iw_data _ _ W nslots ltac:(done) N). by apply (alloc_step_keeps s r). }
  assert (Len : length (i_addrs i) = 13%nat) by apply W.
  assert (Sl : forall j, 0 <= j <= nslots -> slot s' (inodeat s' ip) j = if j =? k then r else slot s i j).
  { intros j Hj. rewrite Ei. unfold slot. change (fview s') with (view l). cbn [i_addrs over].
    change (i_addrs (over i_addrs _ i)) with (upd (i_addrs i) n r). unfold k. unfold nslots in *.
    destruct (Z.eq_dec n 12) as [->|Nn].
    - rewrite at_upd_eq by lia. destruct (Z.ltb_spec j 12); [rewrite at_upd_ne by lia; cbn [Z.eqb Pos.eqb]; destruct (Z.eqb_spec j 268); [lia|done]|].
      cbn [Z.eqb Pos.eqb]. destruct (Z.eqb_spec j 268); [done|]. destruct (Z.eqb_spec r 0); [done|]. destruct St as (_ & _ & Vz & _).
      rewrite Vz, load_zeros. by rewrite A0.
    - destruct (Z.eqb_spec n 12); [done|]. rewrite (at_upd_ne _ _ n 12) by lia. destruct (Z.ltb_spec j 12).
      + destruct (Z.eqb_spec j n) as [->|]; [by rewrite at_upd_eq by lia|by rewrite at_upd_ne by lia].
      + destruct (Z.eqb_spec j n); [lia|]. destruct (Z.eqb_spec j 268); [done|].
        destruct (Z.eqb_spec (at_ 0 (i_addrs i) 12) 0); [done|]. by rewrite V12. }
  assert (Kr : 0 <= k <= nslots) by (unfold k, nslots; destruct (n =? 12); lia).
  split; [|by rewrite Sl, Z.eqb_refl by done].
  apply (grew_core s s' ip k r (upd (i_addrs i) n r)); try done.
  - by apply (fsok_ext (s <| blk := l |>)).
  - by apply length_upd.
  - intros j N. unfold s', set_addr. rewrite (inodeat_seti (s <| blk := l |>)) by done. by destruct (Z.eqb_spec j ip).
  - by rewrite length_upd.
  - fold i. unfold slot, k, nslots. destruct (Z.eqb_spec n 12) as [->|]; [done|]. destruct (Z.ltb_spec n 12); [done|lia].
  - apply St.
  - apply St.
  - intros b D U. exact (alloc_step_used s r l b (fo_geom _ F) St D U).
  - intros b D U _. exact (alloc_step_keeps s r l b St D U).
  - intros _. apply St.
Qed.

(** A new block as an entry of the indirect block [a]. *)
Lemma grew_entry s l l' ip k r :
  let i := inodeat s ip in let a := at_ 0 (i_addrs i) 12 in let s' := s <| blk := l' |> in
  fsok s -> iwf s i -> 12 <= k < nslots -> a <> 0 -> slot s i k = 0 -> length (fview s a) = 1024%nat ->
  alloc_step s r l -> same_home s (s <| blk := l |>) -> fsok (s <| blk := l |>) ->
  (forall b, view l' b = if b =? a then store 4 (fview s a) (4 * (k - 12)) r else view l b) ->
  (forall b, home l' b <-> home l b) ->
  grew s s' ip /\ slot s' (inodeat s' ip) k = r.
Proof.
  intros i a s' F W Rk A0 S0 La St Hm F' V Hm'. assert (Ge := fo_geom _ F). assert (N := St). destruct N as (Dr & Ur & Vz & _).
  destruct (alloc_step_new s r l Ge St) as [R0 Ur']. destruct (isdata_range s r Ge Dr) as (Rr & Rr2 & _).
  assert (Ia : isdata s a /\ used s a = true) by exact (iw_data _ _ W nslots ltac:(done) A0).
  assert (Us : forall b, 0 <= b < sb_size (sb s) -> used s' b = used (s <| blk := l |>) b).
  { intros b Rb. apply used_ext; [done|]. change (view l' (bblock s b) = view l (bblock s b)). rewrite V.
    destruct (Z.eqb_spec (bblock s b) a) as [E|]; [|done]. destruct (bblock_not_data s b Ge Rb). rewrite E. apply Ia. }
  assert (Sl : forall j, 0 <= j <= nslots -> slot s' i j = if j =? k then r else slot s i j).
  { intros j Hj. unfold slot, nslots in *. fold a. change (fview s' a) with (view l' a). rewrite V, Z.eqb_refl.
    destruct (Z.ltb_spec j 12); [destruct (Z.eqb_spec j k); [lia|done]|]. destruct (Z.eqb_spec j 268); [destruct (Z.eqb_spec j k); [lia|done]|].
    destruct (Z.eqb_spec a 0); [done|]. destruct (Z.eqb_spec j k) as [->|].
    - rewrite load_store_eq by (intros; unfold inb, bytes_store; lia). apply Z.mod_small. cbn. lia.
    - apply load_store_ne. change (Z.of_nat 4) with 4. lia. }
  split; [|change (slot s' i k = r); by rewrite (Sl k), Z.eqb_refl by (unfold nslots in *; lia)].
  apply (grew_core s s' ip k r (i_addrs i)); try done.
  - apply (fsok_ext (s <| blk := l |>)); try done. intros b Rb. rewrite Us; [done|]. pose proof (ge_bitmap _ Ge). unfold dstart in Rb. cbn in Rb. lia.
  - intros b. rewrite (Hm' b : home (blk s') b <-> _). apply Hm.
  - change (inodeat s ip = (inodeat s ip) <| i_addrs := i_addrs (inodeat s ip) |>). by destruct (inodeat s ip).
  - apply W.
  - lia.
  - by rewrite Us by lia.
  - intros b D U. destruct (isdata_range s b Ge D). rewrite Us by lia. exact (alloc_step_used s r l b Ge St D U).
  - intros b D U Nb. change (view l' b = fview s b). rewrite V. destruct (Z.eqb_spec b a) as [->|]; [done|]. exact (alloc_step_keeps s r l b St D U).
  - intros _. change (view l' r = zeros). rewrite V. destruct (Z.eqb_spec r a) as [->|]; [|done]. destruct Ia. congruence.
Qed.
End Fill.

(** ** bmap *)

Section Bmap.
Context {L : Type} `{BlocksOk L}.
Implicit Types (s : fstate L) (i : inode) (l : L) (m : nat).

(** No free block is left. *)
Definition full s : Prop := forall b, 0 <= b < sb_size (sb s) -> used s b = true.

(** What a step that may add blocks to [ip] has done. *)
Definition mapped s ip (k r : Z) m s' : Prop :=
  grew s s' ip /\ fready s' [] m /\ slot s' (inodeat s' ip) k = r /\ (r = 0 -> full s') /\ low s s'.

(** [addrs[n] = balloc(dev)]. *)
Definition claim (ip n : Z) : M (fstate L) Z :=
  let* addr := balloc ROOTDEV in
  if addr =? 0 then ret 0
  else do seti ip (fun i => i <| i_addrs ::= fun x => upd x n addr |>) ;;; ret addr.

Lemma claim_run s ip n m :
  1 <= ip <= Z.of_nat (length (itable s)) -> fsok s -> iwf s (inodeat s ip) -> 0 <= n <= 12 ->
  at_ 0 (i_addrs (inodeat s ip)) n = 0 -> fready s [] (S (S m)) ->
  exists r s', claim ip n s = Ok r s' /\ mapped s ip (if n =? 12 then nslots else n) r m s'.
Proof.
  intros Ri F W Rn A0 R. destruct (balloc_run s [] m F) as (r & l & E & R1 & Hm & F1 & Lo & C); [by constructor|cbn; lia|done|].
  unfold claim, bind at 1. rewrite E. destruct C as [(-> & V & U)|St].
  - exists 0, (s <| blk := l |>). split; [done|]. split; [by apply grew_same|]. split; [exact R1|]. split.
    + unfold slot, nslots. change (inodeat (s <| blk := l |>) ip) with (inodeat s ip).
      destruct (Z.eqb_spec n 12) as [->|]; [done|]. destruct (Z.ltb_spec n 12); [done|lia].
    + split; [|exact Lo]. intros _ b Rb. rewrite (used_ext s); [by apply U|done|apply V].
  - destruct (alloc_step_new s r l (fo_geom _ F) St) as [R0 _]. destruct (Z.eqb_spec r 0); [done|].
    destruct (grew_addr s l ip n r Ri F W Rn A0 St Hm F1) as [G Sl].
    exists r, (set_addr ip n r (s <| blk := l |>)). split; [done|]. split; [exact G|]. split; [exact R1|]. split; [exact Sl|]. split; [done|exact Lo].
Qed.

(** The block of an entry of the indirect block, allocated if need be. *)
Definition entry (a bn : Z) : M (fstate L) Z :=
  let* bp := bl (bread ROOTDEV a) in
  let* d := data bp in
  let addr := load 4 d (4 * bn) in
  let* addr :=
    (if addr =? 0
     then
       let* addr := balloc ROOTDEV in
       do (if negb (addr =? 0)
           then do set_data bp (store 4 d (4 * bn) addr) ;;; bl (log_write bp) else ret tt) ;;;
       ret addr
     else ret addr) in
  do bl (brelse bp) ;;;
  ret addr.

Lemma entry_run s ip k m :
  let a := at_ 0 (i_addrs (inodeat s ip)) 12 in
  fsok s -> iwf s (inodeat s ip) -> 12 <= k < nslots -> a <> 0 -> fready s [] (S (S (S m))) ->
  exists r s', entry a (k - 12) s = Ok r s' /\ mapped s ip k r m s'.
Proof.
  intros a F W Rk A0 R. assert (Ge := fo_geom _ F). destruct (iw_data _ _ W nslots ltac:(done) A0) as [Da Ua]. fold a in Da, Ua.
  destruct (isdata_range s a Ge Da) as (Ra & Ra2 & Ha).
  destruct (take_block s [] (S (S (S m))) a R) as (bp & l & E1 & R1 & D1 & V1 & H1); [cbn; lia|set_solver|lia|].
  assert (Len : length (fview s a) = 1024%nat) by (eapply view_len, R).
  assert (Sk : load 4 (fview s a) (4 * (k - 12)) = slot s (inodeat s ip) k).
  { unfold slot, nslots in *. fold a. destruct (Z.ltb_spec k 12); [lia|]. destruct (Z.eqb_spec k 268); [lia|]. by destruct (Z.eqb_spec a 0). }
  set (s1 := s <| blk := l |>). assert (G1 : grew s s1 ip) by by apply grew_same.
  unfold entry, bind at 1. rewrite E1. unfold bind at 1, data, gets. change (blk (s <| blk := l |>)) with l. rewrite D1, Sk.
  destruct (Z.eqb_spec (slot s (inodeat s ip) k) 0) as [S0|S0].
  2: { destruct (give_block s l bp a [] (S (S (S m))) R1) as (l2 & E2 & R2 & V2 & H2). unfold bind, ret. rewrite E2.
       exists (slot s (inodeat s ip) k), (s <| blk := l2 |>). split; [done|]. assert (G2 : grew s (s <| blk := l2 |>) ip).
       { apply grew_same; try done; [intros b; change (home l2 b <-> home (blk s) b); rewrite H2; apply H1|intros b; change (view l2 b = fview s b); by rewrite V2]. }
       split; [exact G2|]. split; [eapply ready_weak; [exact R2|lia]|]. split; [|split; [done|intros b _; change (view l2 b = fview s b); by rewrite V2]].
       apply (gr_slots _ _ _ _ G2); [unfold nslots in *; lia|done]. }
  destruct (balloc_run s1 [(bp, a, true)] (S m) (gr_ok _ _ _ _ G1)) as (r & l3 & E3 & R3 & Hm3 & F3 & Lo & C); [|cbn; lia|exact R1|].
  { constructor; [|constructor]. split; [exact Da|]. cbn. by apply (gr_used _ _ _ _ G1). }
  assert (V1a : fview s1 a = fview s a) by apply V1.
  unfold bind at 1, bind at 1. fold s1. rewrite E3. destruct C as [(-> & V3 & U3)|St].
  - cbn [negb Z.eqb]. unfold bind at 1, ret at 1.
    destruct (give_block s l3 bp a [] (S m) R3) as (l4 & E4 & R4 & V4 & H4). unfold ret at 1, bind.
    change (s1 <| blk := l3 |>) with (s <| blk := l3 |>). rewrite E4. exists 0, (s <| blk := l4 |>). split; [done|].
    assert (V : forall b, view l4 b = fview s b) by (intros b; rewrite V4, V3; apply V1).
    assert (G4 : grew s (s <| blk := l4 |>) ip).
    { apply grew_same; try done. intros b. change (home l4 b <-> home (blk s) b). rewrite H4. rewrite (Hm3 b). apply H1. }
    split; [exact G4|]. split; [eapply ready_weak; [exact R4|lia]|]. split.
    + change (inodeat (s <| blk := l4 |>) ip) with (inodeat s ip). transitivity (slot s (inodeat s ip) k); [|exact S0]. unfold slot. fold a.
      change (fview (s <| blk := l4 |>) a) with (view l4 a). by rewrite V.
    + split; [|intros b _; apply V]. intros _ b Rb. rewrite (used_ext s1); [by apply U3|done|]. change (view l4 (bblock s b) = view l (bblock s b)). rewrite V. symmetry. apply V1.
  - destruct (alloc_step_new s1 r l3 (fo_geom _ (gr_ok _ _ _ _ G1)) St) as [R0 _]. destruct (Z.eqb_spec r 0); [done|]. cbn [negb].
    destruct (log_block s l3 bp a true [] m (store 4 (fview s a) (4 * (k - 12)) r) R3) as (l4 & E4 & R4 & V4 & H4).
    { by rewrite length_store. } { apply (Hm3 a : home l3 a <-> _), (H1 a : home l a <-> _). done. }
    change (s1 <| blk := l3 |>) with (s <| blk := l3 |>). unfold bind at 1. rewrite E4. unfold ret at 1.
    destruct (give_block s l4 bp a [] m R4) as (l5 & E5 & R5 & V5 & H5). unfold bind. rewrite E5.
    exists r, (s <| blk := l5 |>). split; [done|].
    destruct (grew_entry s1 l3 l5 ip k r) as [G5 S5]; try done.
    { exact (gr_ok _ _ _ _ G1). } { exact (gr_wf _ _ _ _ G1). } { change (inodeat s1 ip) with (inodeat s ip). transitivity (slot s (inodeat s ip) k); [|exact S0]. unfold slot. fold a. change (fview s1 a) with (view l a). by rewrite V1. } { change (length (view l a) = 1024%nat). by rewrite V1. }
    { intros b. rewrite V5, V4. change (fview s1 (at_ 0 (i_addrs (inodeat s1 ip)) 12)) with (view l a). by rewrite V1. } { intros b. by rewrite H5, H4. }
    split; [by eapply grew_grew|]. split; [exact R5|]. split; [exact S5|]. split; [done|]. intros b Hb. pose proof (dstart_pos s Ge). change (dstart s <= a < sb_size (sb s)) in Da.
    change (view l5 b = fview s b). rewrite V5, V4. destruct (Z.eqb_spec b a); [lia|]. rewrite (Lo b Hb : view l3 b = _). apply V1.
Qed.

Lemma mapped_trans s1 s2 s3 ip k k' r r' m m' : mapped s1 ip k r m s2 -> mapped s2 ip k' r' m' s3 -> mapped s1 ip k' r' m' s3.
Proof. intros (G1 & _ & _ & _ & L1) (G2 & R2 & S2 & U2 & L2). split; [by eapply grew_grew|].
  split; [done|]. split; [done|]. split; [done|]. eapply low_trans; [apply G1|done|done].
Qed.

Lemma mapped_found s ip k m : fsok s -> iwf s (inodeat s ip) -> fready s [] m -> slot s (inodeat s ip) k <> 0 ->
  mapped s ip k (slot s (inodeat s ip) k) m s.
Proof. intros F W R N. split; [|done]. by apply grew_same. Qed.

Lemma bmap_eq s ip bn : i_dev (inodeat s ip) = ROOTDEV -> bn < nslots ->
  let a := at_ 0 (i_addrs (inodeat s ip)) in
  bmap ip bn s =
  (if bn <? 12 then if a bn =? 0 then claim ip bn else ret (a bn)
   else let* a := (if a 12 =? 0 then claim ip 12 else ret (a 12)) in
        if a =? 0 then ret 0 else entry a (bn - 12)) s.
Proof.
  intros Ed Rb a. unfold bmap, geti, nslots in *. unfold bind at 1, gets at 1. rewrite Ed. change NDIRECT with 12. change NINDIRECT with 256.
  destruct (Z.ltb_spec bn 12); [done|]. destruct (Z.ltb_spec (bn - 12) 256); [done|lia].
Qed.

(** [bmap] finds the block of every part of a file, adding one if there is none
    and the disk has a free block; no byte of the file changes. *)
Lemma bmap_run s ip bn m :
  1 <= ip <= Z.of_nat (length (itable s)) -> fsok s -> iwf s (inodeat s ip) -> 0 <= bn < nslots -> fready s [] (5 + m) ->
  exists r s', bmap ip bn s = Ok r s' /\ mapped s ip bn r m s'.
Proof.
  intros Ri F W Rb R. rewrite (bmap_eq s ip bn (iw_dev _ _ W)) by lia. set (a := at_ 0 (i_addrs (inodeat s ip))).
  assert (Rw : forall m', (m' <= 5 + m)%nat -> fready s [] m') by (intros m'; by eapply ready_weak).
  destruct (Z.ltb_spec bn 12) as [Lt|Ge].
  - assert (Sb : slot s (inodeat s ip) bn = a bn) by (unfold slot; by destruct (Z.ltb_spec bn 12); [|lia]).
    destruct (Z.eqb_spec (a bn) 0) as [A0|A0].
    + destruct (claim_run s ip bn m Ri F W ltac:(lia) A0) as (r & s' & E & Mp); [apply Rw; lia|].
      destruct (Z.eqb_spec bn 12); [lia|]. exists r, s'. by split.
    + exists (a bn), s. split; [done|]. rewrite <- Sb in *. apply mapped_found; try done. apply Rw. lia.
  - assert (exists r s1, (if a 12 =? 0 then claim ip 12 else ret (a 12)) s = Ok r s1 /\ mapped s ip nslots r (3 + m) s1) as (r & s1 & E1 & Mp1).
    { destruct (Z.eqb_spec (a 12) 0) as [A0|A0].
      - by apply (claim_run s ip 12 (3 + m) Ri F W ltac:(lia) A0).
      - exists (a 12), s. split; [done|]. apply (mapped_found s ip nslots (3 + m)); try done. apply Rw. lia. }
    unfold bind. rewrite E1. assert (Mp := Mp1). destruct Mp as (G1 & R1 & S1 & U1 & Lo1).
    change (at_ 0 (i_addrs (inodeat s1 ip)) 12 = r) in S1. destruct (Z.eqb_spec r 0) as [->|N].
    + exists 0, s1. split; [done|]. split; [exact G1|]. split; [eapply ready_weak; [exact R1|lia]|]. split; [|done].
      unfold slot, nslots in *. destruct (Z.ltb_spec bn 12); [lia|]. destruct (Z.eqb_spec bn 268); [lia|].
      by rewrite S1.
    + destruct (entry_run s1 ip bn m) as (r' & s2 & E2 & Mp2); try done.
      * exact (gr_ok _ _ _ _ G1).
      * exact (gr_wf _ _ _ _ G1).
      * lia.
      * by rewrite S1.
      * exists r', s2. rewrite S1 in E2. split; [exact E2|]. by eapply mapped_trans.
Qed.
End Bmap.

(** ** Parts of blocks *)

Section Parts.
Implicit Types (d l : list Z) (o j n : Z).

Lemma length_slice d o n : 0 <= o -> 0 <= n -> o + n <= Z.of_nat (length d) -> length (slice d o n) = Z.to_nat n.
Proof. intros. unfold slice. rewrite length_take, length_drop. lia. Qed.

Lemma at_slice d o n j : 0 <= o -> 0 <= j < n -> at_ 0 (slice d o n) j = at_ 0 d (o + j).
Proof.
  intros. unfold at_, slice. destruct (Z.leb_spec 0 j), (Z.leb_spec 0 (o + j)); try lia.
  rewrite !nth_lookup, lookup_take_lt, lookup_drop by lia. do 2 f_equal. lia.
Qed.

Lemma length_splice d o l : 0 <= o -> o + Z.of_nat (length l) <= Z.of_nat (length d) -> length (splice d o l) = length d.
Proof. intros. unfold splice. rewrite !length_app, length_take, length_drop. lia. Qed.

Lemma at_splice d o l j : 0 <= o -> o + Z.of_nat (length l) <= Z.of_nat (length d) -> 0 <= j ->
  at_ 0 (splice d o l) j = if (o <=? j) && (j <? o + Z.of_nat (length l)) then at_ 0 l (j - o) else at_ 0 d j.
Proof.
  intros Ho Hl Hj. unfold at_, splice. destruct (Z.leb_spec 0 j); [|lia]. rewrite !nth_lookup.
  destruct (Z.leb_spec o j) as [A|A]; cbn [andb].
  - rewrite lookup_app_r by (rewrite length_take; lia). rewrite length_take, Nat.min_l by lia.
    destruct (Z.ltb_spec j (o + Z.of_nat (length l))) as [B|B].
    + rewrite lookup_app_l by lia. destruct (Z.leb_spec 0 (j - o)); [|lia]. do 2 f_equal. lia.
    + rewrite lookup_app_r by lia. rewrite lookup_drop. do 2 f_equal. lia.
  - rewrite lookup_app_l by (rewrite length_take; lia). by rewrite lookup_take_lt by lia.
Qed.
End Parts.

(** ** Storing into a block of a file *)

Section Store.
Context {L : Type} `{BlocksOk L}.
Implicit Types (s : fstate L) (i : inode) (l : L) (m : nat).

Lemma wrote_block s l ip k d :
  let a := slot s (inodeat s ip) k in
  fsok s -> iwf s (inodeat s ip) -> 0 <= k < nslots -> a <> 0 -> same_home s (s <| blk := l |>) ->
  (forall b, view l b = if b =? a then d else fview s b) ->
  wrote s (s <| blk := l |>) ip (fun off => if off / BSIZE =? k then at_ 0 d (off mod BSIZE) else fbyte s (inodeat s ip) off).
Proof.
  intros a F W Rk A0 Hm V. set (s' := s <| blk := l |>). set (i := inodeat s ip) in *. assert (Ge := fo_geom _ F).
  destruct (iw_data _ _ W k ltac:(lia) A0) as [Da Ua]. fold a in Da, Ua.
  assert (U : forall b, 0 <= b < sb_size (sb s) -> used s' b = used s b).
  { intros b Rb. apply used_ext; [done|]. change (view l (bblock s b) = fview s (bblock s b)). rewrite V.
    destruct (Z.eqb_spec (bblock s b) a) as [E|]; [|done]. destruct (bblock_not_data s b Ge Rb). by rewrite E. }
  assert (Ud : forall b, isdata s b -> used s b = true -> used s' b = true).
  { intros b D Ub. destruct (isdata_range s b Ge D). by rewrite U by lia. }
  assert (Sl : forall n, 0 <= n <= nslots -> slot s' i n = slot s i n).
  { intros n Hn. unfold slot. destruct (n <? 12); [done|]. destruct (n =? nslots); [done|].
    destruct (Z.eqb_spec (at_ 0 (i_addrs i) 12) 0) as [|N0]; [done|]. change (fview s') with (view l). rewrite V.
    destruct (Z.eqb_spec (at_ 0 (i_addrs i) 12) a) as [E|]; [|done].
    assert (nslots = k); [|lia]. apply (iw_inj _ _ W); [done|lia|exact N0|exact E]. }
  split; try done.
  - apply (fsok_ext s); try done. intros b Rb. rewrite U; [done|]. pose proof (ge_bitmap _ Ge). unfold dstart in Rb. lia.
  - exists (i_addrs i). change (inodeat s ip = (inodeat s ip) <| i_addrs := i_addrs (inodeat s ip) |>). by destruct (inodeat s ip).
  - change (inodeat s' ip) with i. destruct W as [W1 W2 W3 W4]. split; try done.
    + intros n Hn. rewrite Sl by done. intros N0. destruct (W3 n Hn N0). split; [done|]. by apply Ud.
    + intros n n' Hn Hn'. rewrite !Sl by done. by apply W4.
  - intros off I. change (inodeat s' ip) with i. unfold fbyte. apply in_file_slot in I. rewrite Sl by lia.
    destruct (Z.eqb_spec (off / BSIZE) k) as [->|N].
    + fold a. destruct (Z.eqb_spec a 0); [done|]. change (fview s' a) with (view l a). by rewrite V, Z.eqb_refl.
    + destruct (Z.eqb_spec (slot s i (off / BSIZE)) 0) as [|N0]; [done|]. change (fview s') with (view l). rewrite V.
      destruct (Z.eqb_spec (slot s i (off / BSIZE)) a) as [E|]; [|done]. destruct N. apply (iw_inj _ _ W); try done; lia.
  - intros n Hn _. by apply Sl.
  - intros n Hn N. by destruct N; apply Sl.
  - intros b D Ub N. change (view l b = fview s b). rewrite V. destruct (Z.eqb_spec b a) as [->|]; [|done]. by destruct (N k ltac:(lia)).
Qed.
End Store.

(** ** Writing an inode back *)

Section Iupdate.
Context {L : Type} `{BlocksOk L}.
Implicit Types (s : fstate L) (i : inode) (m : nat) (ip : Z).

Lemma length_store_words l d o : length (store_words l d o) = length d.
Proof. revert d o. induction l as [|x l IH]; intros d o; [done|]. cbn [store_words]. by rewrite IH, length_store. Qed.

Lemma length_write_dinode d o i : length (write_dinode d o i) = length d.
Proof. unfold write_dinode. by rewrite length_store_words, !length_store. Qed.

(** The block and the offset of a disk inode. *)
Definition iblock s i : Z := i_inum i / IPB + inodestart (sb s).
Definition ioff i : Z := i_inum i mod IPB * sizeof_dinode.

Lemma iblock_range s i : geom s -> 0 <= i_inum i < ninodes (sb s) ->
  0 <= iblock s i < 2 ^ 31 /\ iblock s i < bmapstart (sb s) /\ IBLOCK (i_inum i) (sb s) = iblock s i /\ home (blk s) (iblock s i).
Proof.
  intros [(A & B & C) D E Hm] R. unfold iblock, IBLOCK. change IPB with 16 in *. change BPB with 8192 in *.
  assert (0 <= i_inum i / 16 <= ninodes (sb s) / 16) by (split; [apply Z.div_pos; lia|apply Z.div_le_mono; lia]).
  assert (0 <= sb_size (sb s) / 8192) by (apply Z.div_pos; lia).
  split; [lia|]. split; [lia|]. rewrite u32_small by lia. split; [done|]. apply Hm. lia.
Qed.

Lemma iupdate_run s ip m :
  let i := inodeat s ip in
  fsok s -> iwf s i -> 0 <= i_inum i < ninodes (sb s) -> fready s [] (S m) ->
  exists l, iupdate ip s = Ok tt (s <| blk := l |>) /\ ready l [] m /\ grew s (s <| blk := l |>) ip /\
    view l (iblock s i) = write_dinode (fview s (iblock s i)) (ioff i) i.
Proof.
  intros i F W Ri R. destruct (iblock_range s i (fo_geom _ F) Ri) as (B1 & B2 & B3 & B4).
  assert (Len : length (fview s (iblock s i)) = 1024%nat) by (eapply view_len, R).
  destruct (update_block_run s [] m (iblock s i) (fun d => write_dinode d (ioff i) i) R) as (l & E & R' & V & Hm);
    [cbn; lia|set_solver|done|done|by rewrite length_write_dinode|].
  exists l. split_and!.
  - unfold iupdate, geti, bind at 1, gets at 1. unfold bind at 1, gets at 1. unfold id. fold i. rewrite B3, (iw_dev _ _ W). exact E.
  - exact R'.
  - apply grew_meta; try done. intros b Hb. change (view l b = fview s b). rewrite V. destruct (Z.eqb_spec b (iblock s i)); [lia|done].
  - by rewrite V, Z.eqb_refl.
Qed.

(** The contents of a file depend on the addresses of the inode only. *)
Lemma slot_addrs s i i' n : i_addrs i' = i_addrs i -> slot s i' n = slot s i n.
Proof. intros E. unfold slot. by rewrite E. Qed.

Lemma fbyte_addrs s i i' off : i_addrs i' = i_addrs i -> fbyte s i' off = fbyte s i off.
Proof. intros E. unfold fbyte. by rewrite (slot_addrs s i i'). Qed.

Lemma iwf_addrs s i i' : i_addrs i' = i_addrs i -> i_dev i' = i_dev i -> iwf s i -> iwf s i'.
Proof.
  intros Ea Ed [W1 W2 W3 W4]. split; rewrite ?Ea, ?Ed; try done.
  - intros n. rewrite !(slot_addrs s i i') by done. apply W3.
  - intros n n'. rewrite !(slot_addrs s i i') by done. apply W4.
Qed.

(** [ip->size = z]. *)
Definition set_size ip z s : fstate L :=
  s <| itable ::= fun t => upd t (ip - 1) ((at_ inode0 t (ip - 1)) <| i_size := z |>) |>.

Lemma set_size_at s ip z j : 1 <= ip <= Z.of_nat (length (itable s)) ->
  inodeat (set_size ip z s) j = if j =? ip then (inodeat s ip) <| i_size := z |> else inodeat s j.
Proof. apply inodeat_seti. Qed.

Lemma set_size_ok s ip z : 1 <= ip <= Z.of_nat (length (itable s)) -> fsok s -> iwf s (inodeat s ip) ->
  fsok (set_size ip z s) /\ iwf (set_size ip z s) (inodeat (set_size ip z s) ip).
Proof.
  intros Ri F W. split; [by apply (fsok_ext s)|]. rewrite set_size_at, Z.eqb_refl by done.
  assert (W' : iwf s ((inodeat s ip) <| i_size := z |>)) by by apply (iwf_addrs s (inodeat s ip)).
  destruct W'. by split.
Qed.
Lemma set_size_same s ip : set_size ip (i_size (inodeat s ip)) s = s.
Proof.
  destruct s as [b sp t]. unfold set_size, inodeat. change (mkFstate b sp (upd t (ip - 1) ((at_ inode0 t (ip - 1)) <| i_size := i_size (at_ inode0 t (ip - 1)) |>)) = mkFstate b sp t).
  f_equal. transitivity (upd t (ip - 1) (at_ inode0 t (ip - 1))); [|apply upd_same]. f_equal. by destruct (at_ inode0 t (ip - 1)).
Qed.
End Iupdate.
