(* ===== verification/FsIo.v ===== *)
(** * readi and writei of fs.c

    Reading and writing file contents block by block, against the bytes of the
    file (FsContent.v).  The file system is a part of a larger state, through
    which the bytes come and go. *)

From Stdlib Require Import ZArith Lia List.
From stdpp Require Import base tactics numbers list sets strings.
From S2P Require Import Prelude Riscv CString Blocks Sleeplock Fs FsFacts FsContent.

(** The number of blocks touched by the bytes from [lo] up to [hi]. *)
Definition blocks_in (lo hi : Z) : nat := Z.to_nat (if lo <? hi then (hi - 1) / BSIZE - lo / BSIZE + 1 else 0).

Lemma blocks_in_step lo hi c : lo < hi -> 0 <= lo -> c = Z.min (hi - lo) (BSIZE - lo mod BSIZE) ->
  0 < c /\ lo + c <= hi /\ c <= 1024 /\ lo mod BSIZE + c <= 1024 /\ blocks_in lo hi = S (blocks_in (lo + c) hi).
Proof.
  intros L P ->. change BSIZE with 1024. pose proof (Z.mod_pos_bound lo 1024 ltac:(lia)).
  split; [lia|]. split; [lia|]. split; [lia|]. split; [lia|]. unfold blocks_in. change BSIZE with 1024.
  destruct (Z.ltb_spec lo hi); [|lia]. destruct (Z.min_spec (hi - lo) (1024 - lo mod 1024)) as [[A ->]|[A ->]].
  - destruct (Z.ltb_spec (lo + (hi - lo)) hi); [lia|]. replace ((hi - 1) / 1024) with (lo / 1024) by zdm. lia.
  - assert (E : (lo + (1024 - lo mod 1024)) / 1024 = lo / 1024 + 1) by zdm.
    destruct (Z.ltb_spec (lo + (1024 - lo mod 1024)) hi) as [B|B].
    + rewrite E. assert (lo / 1024 + 1 <= (hi - 1) / 1024) by zdm. lia.
    + replace ((hi - 1) / 1024) with (lo / 1024) by zdm. lia.
Qed.

Section Io.
Context {L : Type} `{BlocksOk L} {S : Type} (onf : Lens S (fstate L)) `{!LensOk onf}.
Implicit Types (s : fstate L) (m : nat) (σ : S) (ip off n tot : Z).

Lemma fz_run {A} (c : M (fstate L) A) s s' a σ : c s = Ok a s' -> fz onf c (lset onf s σ) = Ok a (lset onf s' σ).
Proof. intros E. unfold fz. by apply zoom_run. Qed.

(** ** Writing *)

Section Write.
(** The bytes to write: [w t] is the one at [src + t].  They can be read from
    every state of the file system and reading changes nothing. *)
Context (get : Z -> Z -> M S (Z * list Z)) (w : Z -> Z) (src N : Z) (σ : S).
Definition chunk (t c : Z) : list Z := map (fun j => w (t + Z.of_nat j)) (seq 0 (Z.to_nat c)).
Context (Hget : forall t c f, 0 <= t -> 0 <= c -> t + c <= N -> get (u64 (src + t)) c (lset onf f σ) = Ok (0, chunk t c) (lset onf f σ)).

Lemma length_chunk t c : length (chunk t c) = Z.to_nat c.
Proof. unfold chunk. by rewrite length_map, length_seq. Qed.

Lemma at_chunk t c j : 0 <= j < c -> at_ 0 (chunk t c) j = w (t + j).
Proof.
  intros R. unfold at_, chunk. destruct (Z.leb_spec 0 j); [|lia].
  rewrite nth_lookup, list_lookup_fmap, lookup_seq_lt by lia. cbn. f_equal. lia.
Qed.

(** One block of the loop: the bytes of [chunk tot c] stored at [off + tot]. *)
Lemma write_one s ip k o c t m :
  let a := slot s (inodeat s ip) k in
  fsok s -> iwf s (inodeat s ip) -> 0 <= k < nslots -> a <> 0 -> fready s [] (Datatypes.S m) ->
  0 <= t -> 0 <= c -> t + c <= N -> 0 <= o -> o + c <= 1024 ->
  exists s', (forall A (fl kont : M S A),
             (let* bp := fz onf (bl (bread ROOTDEV a)) in
              let* d := fz onf (data bp) in
              let* '(r, l) := get (u64 (src + t)) c in
              do fz onf (set_data bp (splice d o l)) ;;;
              if r =? -1 then do fz onf (bl (brelse bp)) ;;; fl
              else do fz onf (bl (log_write bp)) ;;; do fz onf (bl (brelse bp)) ;;; kont) (lset onf s σ) = kont (lset onf s' σ)) /\
    fready s' [] m /\ low s s' /\
    wrote s s' ip (fun off => if (k * BSIZE + o <=? off) && (off <? k * BSIZE + o + c) then w (t + (off - (k * BSIZE + o))) else fbyte s (inodeat s ip) off).
Proof.
  intros a F W Rk A0 R Rt Rc RN Ro Roc. assert (Ge := fo_geom _ F). destruct (iw_data _ _ W k ltac:(lia) A0) as [Da Ua]. fold a in Da, Ua.
  destruct (isdata_range s a Ge Da) as (Ra & Ra2 & Ha). assert (Len : length (fview s a) = 1024%nat) by (eapply view_len, R).
  destruct (take_block s [] (Datatypes.S m) a R) as (bp & l & E1 & R1 & D1 & V1 & H1); [cbn; lia|set_solver|lia|].
  set (d := splice (fview s a) o (chunk t c)).
  assert (Ld : length d = 1024%nat) by (unfold d; rewrite length_splice; rewrite ?length_chunk; lia).
  destruct (log_block s l bp a true [] m d R1 Ld) as (l2 & E2 & R2 & V2 & H2); [by apply H1|].
  destruct (give_block s l2 bp a [] m R2) as (l3 & E3 & R3 & V3 & H3).
  exists (s <| blk := l3 |>). split_and!.
  - intros A fl kont. unfold bind at 1. rewrite (fz_run _ _ _ _ σ E1). unfold bind at 1, fz at 1, zoom at 1, data, gets at 1. rewrite lget_lset, lset_lset.
    change (blk (s <| blk := l |>)) with l. rewrite D1. unfold bind at 1. rewrite Hget by done.
    unfold bind in E2. rewrite set_data_run in E2. unfold bind at 1. rewrite (fz_run _ _ _ _ σ (set_data_run bp d (s <| blk := l |>))).
    cbn [Z.eqb Z.opp]. unfold bind at 1. rewrite (fz_run _ _ _ _ σ E2). unfold bind. by rewrite (fz_run _ _ _ _ σ E3).
  - exact R3.
  - intros b Hb. change (view l3 b = fview s b). rewrite V3, V2. pose proof (dstart_pos s Ge). change (dstart s <= a < sb_size (sb s)) in Da.
    destruct (Z.eqb_spec b a); [lia|apply V1].
  - eapply wrote_ext; [|apply (wrote_block s l3 ip k d F W Rk A0)].
    + intros off I. cbn beta. apply in_file_slot in I as I'. unfold in_file in I. change BSIZE with 1024 in *. pose proof (Z.mod_pos_bound off 1024 ltac:(lia)).
      destruct (Z.eqb_spec (off / 1024) k) as [E|N0].
      * unfold d. rewrite at_splice by (rewrite ?length_chunk; lia). rewrite length_chunk, Z2Nat.id by lia.
        assert (Eo : off = k * 1024 + off mod 1024) by zdm. unfold fbyte. change BSIZE with 1024. rewrite E. fold a. destruct (Z.eqb_spec a 0); [done|].
        destruct (Z.leb_spec o (off mod 1024)), (Z.leb_spec (k * 1024 + o) off); cbn [andb]; try done; try lia.
        destruct (Z.ltb_spec (off mod 1024) (o + c)), (Z.ltb_spec off (k * 1024 + o + c)); try done; try lia.
        rewrite at_chunk by lia. f_equal. lia.
      * destruct (Z.leb_spec (k * 1024 + o) off), (Z.ltb_spec off (k * 1024 + o + c)); cbn [andb]; try done. zdm.
    + intros b. change (home l3 b <-> home (blk s) b). rewrite H3, H2. apply H1.
    + intros b. rewrite V3, V2. fold a. destruct (b =? a); [done|apply V1].
Qed.

(** Every byte from [lo] up to [hi] has its block. *)
Definition filled s ip lo hi : Prop := forall o, lo <= o < hi -> slot s (inodeat s ip) (o / BSIZE) <> 0.

Lemma filled_wrote s s' ip g lo hi : 0 <= lo -> hi <= MAXFILE * BSIZE -> wrote s s' ip g -> filled s ip lo hi -> filled s' ip lo hi.
Proof.
  intros P Q Wr Fi o Ro. assert (I : 0 <= o / BSIZE < nslots) by (apply in_file_slot; unfold in_file; lia).
  rewrite (gr_slots _ _ _ _ Wr); [by apply Fi|lia|by apply Fi].
Qed.

Lemma writei_loop_run (k : nat) s ip off n tot m :
  1 <= ip <= Z.of_nat (length (itable s)) -> fsok s -> iwf s (inodeat s ip) ->
  0 <= off -> 0 <= tot <= n -> n <= N -> off + n <= MAXFILE * BSIZE ->
  (blocks_in (off + tot) (off + n) < k)%nat -> fready s [] (6 * blocks_in (off + tot) (off + n) + m) ->
  exists tot' s', writei_loop onf k get ip (u64 (src + tot)) (off + tot) n tot (lset onf s σ) = Ok (tot', off + tot') (lset onf s' σ) /\
    tot <= tot' <= n /\ fready s' [] m /\ (tot' < n -> full s') /\ low s s' /\ filled s' ip (off + tot) (off + tot') /\
    wrote s s' ip (fun o => if (off + tot <=? o) && (o <? off + tot') then w (o - off) else fbyte s (inodeat s ip) o).
Proof.
  revert s tot. induction k as [|k IH]; intros s tot Ri F W Po Rt Rn Rf Fu R; [lia|]. cbn [writei_loop].
  assert (Nil : forall s', grew s s' ip -> wrote s s' ip (fun o => if (off + tot <=? o) && (o <? off + tot) then w (o - off) else fbyte s (inodeat s ip) o)).
  { intros s'. apply wrote_ext. intros o _. destruct (Z.leb_spec (off + tot) o), (Z.ltb_spec o (off + tot)); cbn [andb]; try done; lia. }
  change (MAXFILE * BSIZE) with 274432 in Rf. destruct (Z.ltb_spec tot n) as [Lt|Ge].
  2: { assert (tot = n) as -> by lia. exists n, s. split; [done|]. split; [lia|]. split; [eapply ready_weak; [exact R|lia]|]. split; [lia|]. split; [done|]. split; [intros o Ro; lia|]. apply Nil. by apply grew_same. }
  destruct (blocks_in_step (off + tot) (off + n) (Z.min (n - tot) (BSIZE - (off + tot) mod BSIZE))) as (C1 & C2 & C3 & C4 & C5); [lia|lia|f_equal; lia|].
  rewrite C5 in R, Fu. set (c := Z.min (n - tot) (BSIZE - (off + tot) mod BSIZE)) in *.
  destruct (bmap_run s ip ((off + tot) / BSIZE) (1 + (6 * blocks_in (off + tot + c) (off + n) + m)) Ri F W) as (a & s1 & E1 & G1 & R1 & S1 & U1 & Lo1).
  { apply in_file_slot. unfold in_file. change (MAXFILE * BSIZE) with 274432. lia. } { eapply ready_weak; [exact R|lia]. }
  unfold bind at 1. rewrite (fz_run _ _ _ _ σ E1). destruct (Z.eqb_spec a 0) as [A0|A0].
  { exists tot, s1. split; [done|]. split; [lia|]. split; [eapply ready_weak; [exact R1|lia]|]. split; [by intros _; apply U1|]. split; [done|]. split; [intros o Ro; lia|by apply Nil]. }
  assert (W1 := gr_wf _ _ _ _ G1). unfold bind at 1, fz at 1, zoom at 1, geti, gets at 1. rewrite lget_lset, lset_lset, (iw_dev _ _ W1).
  rewrite (u32_small (n - tot)) by lia. fold c.
  destruct (write_one s1 ip ((off + tot) / BSIZE) ((off + tot) mod BSIZE) c tot (6 * blocks_in (off + tot + c) (off + n) + m)) as (s2 & E2 & R2 & Lo2 & Wr2).
  { exact (gr_ok _ _ _ _ G1). } { exact W1. } { apply in_file_slot. unfold in_file. change (MAXFILE * BSIZE) with 274432. lia. } { by rewrite S1. }
  { exact R1. } { lia. } { lia. } { lia. } { apply Z.mod_pos_bound. done. } { lia. }
  rewrite S1 in E2. rewrite E2. rewrite (u32_small (off + tot + c)), (u32_small (tot + c)) by (change BSIZE with 1024 in *; lia).
  replace (u64 (u64 (src + tot) + c)) with (u64 (src + (tot + c))) by (unfold u64; rewrite Zplus_mod_idemp_l; f_equal; lia).
  replace (off + tot + c) with (off + (tot + c)) in * by lia.
  destruct (IH s2 (tot + c)) as (tot' & s3 & E3 & B3 & R3 & U3 & Lo3 & Fi3 & Wr3).
  { rewrite (gr_len _ _ _ _ Wr2), (gr_len _ _ _ _ G1). done. } { exact (gr_ok _ _ _ _ Wr2). } { exact (gr_wf _ _ _ _ Wr2). }
  { lia. } { lia. } { lia. } { change (MAXFILE * BSIZE) with 274432. lia. } { lia. } { exact R2. }
  exists tot', s3. split; [exact E3|]. split; [lia|]. split; [exact R3|]. split; [exact U3|].
  split. { eapply low_trans; [exact (gr_sb _ _ _ _ G1)|exact Lo1|]. eapply low_trans; [exact (gr_sb _ _ _ _ Wr2)|exact Lo2|exact Lo3]. }
  split.
  { intros o Ro. destruct (Z.lt_ge_cases o (off + (tot + c))) as [Lo|Hi]; [|apply Fi3; lia].
    revert o Ro Lo. assert (X : filled s3 ip (off + tot) (off + (tot + c))); [|intros o Ro Lo; apply X; lia].
    assert (Q : off + (tot + c) <= MAXFILE * BSIZE) by (change (MAXFILE * BSIZE) with 274432; lia). assert (P : 0 <= off + tot) by lia.
    apply (filled_wrote s2 s3 ip _ _ _ P Q Wr3), (filled_wrote s1 s2 ip _ _ _ P Q Wr2).
    intros o Ro. replace (o / BSIZE) with ((off + tot) / BSIZE) by (change BSIZE with 1024 in *; zdm). by rewrite S1. }
  eapply wrote_ext; [|eapply fwrote_trans; [exact G1|]; eapply fwrote_trans; [exact Wr2|exact Wr3]].
  intros o I. cbn beta. rewrite (gr_bytes _ _ _ _ Wr2 o I), (gr_bytes _ _ _ _ G1 o I).
  replace ((off + tot) / BSIZE * BSIZE + (off + tot) mod BSIZE) with (off + tot) by (change BSIZE with 1024; zdm).
  destruct (Z.leb_spec (off + (tot + c)) o), (Z.ltb_spec o (off + tot')), (Z.leb_spec (off + tot) o), (Z.ltb_spec o (off + tot + c)); cbn [andb]; try done; try lia.
  f_equal. lia.
Qed.
(** What [writei] leaves: [tot] bytes of the source are in the file from [off] on
    and every other byte, inode and block is as before; the size covers them; the
    inode is on disk. *)
Record written s s' ip off tot m : Prop := {
  wr_ok : fsok s';
  wr_wf : iwf s' (inodeat s' ip);
  wr_sb : sb s' = sb s;
  wr_len : length (itable s') = length (itable s);
  wr_ready : fready s' [] m;
  wr_bytes : forall o, in_file o ->
    fbyte s' (inodeat s' ip) o = if (off <=? o) && (o <? off + tot) then w (o - off) else fbyte s (inodeat s ip) o;
  wr_inode : exists a, inodeat s' ip = (inodeat s ip) <| i_addrs := a |> <| i_size := Z.max (i_size (inodeat s ip)) (off + tot) |>;
  wr_others : forall j, j <> ip -> inodeat s' j = inodeat s j;
  wr_frame : forall b, isdata s b -> used s b = true -> (forall n, 0 <= n <= nslots -> slot s (inodeat s ip) n <> b) ->
    fview s' b = fview s b /\ used s' b = true;
  wr_dense : filled s ip 0 (i_size (inodeat s ip)) -> filled s' ip 0 (i_size (inodeat s' ip));
  wr_disk : fview s' (iblock s' (inodeat s' ip)) =
    write_dinode (fview s (iblock s (inodeat s ip))) (ioff (inodeat s ip)) (inodeat s' ip)
}.

(** The end of [writei]: the size, then the inode. *)
Lemma writei_end s s1 ip off tot m :
  1 <= ip <= Z.of_nat (length (itable s)) -> fsok s -> 0 <= i_inum (inodeat s ip) < ninodes (sb s) -> fready s1 [] (Datatypes.S m) ->
  wrote s s1 ip (fun o => if (off <=? o) && (o <? off + tot) then w (o - off) else fbyte s (inodeat s ip) o) ->
  0 <= off <= i_size (inodeat s ip) -> i_size (inodeat s ip) <= MAXFILE * BSIZE -> off + tot <= MAXFILE * BSIZE ->
  filled s1 ip off (off + tot) -> fview s1 (iblock s (inodeat s ip)) = fview s (iblock s (inodeat s ip)) ->
  exists s', (do (if i_size (inodeat s ip) <? off + tot then fz onf (seti ip (fun i => i <| i_size := off + tot |>)) else ret tt) ;;;
              do fz onf (iupdate ip) ;;; ret (i32 tot)) (lset onf s1 σ) = Ok (i32 tot) (lset onf s' σ) /\ written s s' ip off tot m /\ (full s1 -> full s').
Proof.
  intros Ri F Rm R Wr Ro Rz Rt Fi Vb. set (z := Z.max (i_size (inodeat s ip)) (off + tot)). set (s2 := set_size ip z s1).
  assert (Ri1 : 1 <= ip <= Z.of_nat (length (itable s1))) by (by rewrite (gr_len _ _ _ _ Wr)).
  destruct (gr_inode _ _ _ _ Wr) as [a Ei]. assert (E1 : (if i_size (inodeat s ip) <? off + tot then fz onf (seti ip (fun i => i <| i_size := off + tot |>)) else ret tt) (lset onf s1 σ) = Ok tt (lset onf s2 σ)).
  { destruct (Z.ltb_spec (i_size (inodeat s ip)) (off + tot)).
    - replace (off + tot) with z by (unfold z; lia). by apply (fz_run _ s1).
    - unfold s2. assert (set_size ip z s1 = s1) as ->; [|done]. replace z with (i_size (inodeat s1 ip)) by (rewrite Ei; unfold z; cbn; lia).
      apply set_size_same. }
  destruct (set_size_ok s1 ip z Ri1 (gr_ok _ _ _ _ Wr) (gr_wf _ _ _ _ Wr)) as [F2 W2]. fold s2 in F2, W2.
  assert (Ei2 : inodeat s2 ip = (inodeat s1 ip) <| i_size := z |>) by (unfold s2; by rewrite set_size_at, Z.eqb_refl).
  destruct (iupdate_run s2 ip m F2 W2) as (l & E2 & R2 & G2 & V2); [|exact R|].
  { rewrite Ei2, Ei. cbn. by rewrite (gr_sb _ _ _ _ Wr). }
  exists (s2 <| blk := l |>). unfold bind at 1. rewrite E1. unfold bind. rewrite (fz_run _ _ _ _ σ E2). split; [done|]. split.
  2: { intros Fu b Rb. destruct (Z.lt_ge_cases b (dstart s2)) as [Lt|Ge]; [apply (fo_meta _ (gr_ok _ _ _ _ G2)); unfold dstart in *; cbn in *; lia|].
       apply (gr_used _ _ _ _ G2); [by split; cbn in *; lia|]. by apply Fu. }
  assert (D : forall b, isdata s1 b <-> isdata s b) by (intros b; unfold isdata, dstart; by rewrite (gr_sb _ _ _ _ Wr)).
  split; try done.
  - exact (gr_ok _ _ _ _ G2).
  - exact (gr_wf _ _ _ _ G2).
  - exact (gr_sb _ _ _ _ Wr).
  - change (length (itable s2) = length (itable s)). unfold s2, set_size. cbn. rewrite length_upd. apply Wr.
  - intros o I. rewrite (gr_bytes _ _ _ _ G2 o I). rewrite <- (gr_bytes _ _ _ _ Wr o I). rewrite Ei2. by rewrite (fbyte_addrs s2 (inodeat s1 ip)).
  - exists a. change (inodeat (s2 <| blk := l |>) ip) with (inodeat s2 ip). by rewrite Ei2, Ei.
  - intros j Nj. change (inodeat s2 j = inodeat s j). unfold s2. rewrite set_size_at by done. destruct (Z.eqb_spec j ip); [done|]. by apply Wr.
  - intros b Db U Nb. assert (U1 := gr_used _ _ _ _ Wr b Db U). split; [|by apply (gr_used _ _ _ _ G2); [apply D|]].
    rewrite <- (gr_frame _ _ _ _ Wr b Db U Nb). apply (gr_frame _ _ _ _ G2); [by apply D|done|]. intros n Hn. rewrite Ei2, (slot_addrs _ (inodeat s1 ip)) by done.
    change (slot s2 (inodeat s1 ip) n) with (slot s1 (inodeat s1 ip) n). intros E. assert (X := gr_new _ _ _ _ Wr n Hn). rewrite E in X.
    rewrite X in U; [done|]. intros E'. by apply (Nb n Hn).
  - intros Ds. assert (Zs : i_size (inodeat (s2 <| blk := l |>) ip) = z) by (change (i_size (inodeat s2 ip) = z); by rewrite Ei2). rewrite Zs.
    apply (filled_wrote s2 _ ip _ 0 z ltac:(lia) ltac:(unfold z; lia) G2). intros o Ho. rewrite Ei2, (slot_addrs _ (inodeat s1 ip)) by done.
    change (slot s1 (inodeat s1 ip) (o / BSIZE) <> 0). destruct (Z.lt_ge_cases o (i_size (inodeat s ip))).
    + apply (filled_wrote s s1 ip _ 0 _ ltac:(lia) Rz Wr Ds). lia.
    + apply Fi. unfold z in Ho. lia.
  - change (inodeat (s2 <| blk := l |>) ip) with (inodeat s2 ip). change (iblock (s2 <| blk := l |>) (inodeat s2 ip)) with (iblock s2 (inodeat s2 ip)).
    change (fview (s2 <| blk := l |>)) with (view l). rewrite V2. f_equal; [|by rewrite Ei2, Ei].
    change (fview s2) with (fview s1). rewrite <- Vb. f_equal. unfold iblock. rewrite Ei2, Ei. by rewrite (gr_sb _ _ _ _ Wr : sb s2 = sb s).
Qed.

Lemma writei_run s ip off n m :
  1 <= ip <= Z.of_nat (length (itable s)) -> fsok s -> iwf s (inodeat s ip) -> 0 <= i_inum (inodeat s ip) < ninodes (sb s) ->
  0 <= off <= i_size (inodeat s ip) -> i_size (inodeat s ip) <= MAXFILE * BSIZE -> 0 <= n <= N -> off + n <= MAXFILE * BSIZE -> 0 <= src < 2 ^ 64 ->
  fready s [] (6 * blocks_in off (off + n) + Datatypes.S m) ->
  exists tot s', writei onf get ip src off n (lset onf s σ) = Ok tot (lset onf s' σ) /\
    0 <= tot <= n /\ (tot < n -> full s') /\ written s s' ip off tot m.
Proof.
  intros Ri F W Rm Ro Rz Rn Rf Rs R. unfold writei, geti. unfold bind at 1, fz at 1, zoom at 1, gets at 1. rewrite lget_lset, lset_lset.
  change (MAXFILE * BSIZE) with 274432 in *. rewrite (u32_small (off + n)) by lia.
  destruct (Z.ltb_spec (i_size (inodeat s ip)) off); [lia|]. destruct (Z.ltb_spec (off + n) off); [lia|]. cbn [orb].
  destruct (Z.ltb_spec 274432 (off + n)); [lia|].
  destruct (writei_loop_run (Z.to_nat (n / BSIZE + 3)) s ip off n 0 (Datatypes.S m)) as (tot & s1 & E1 & B1 & R1 & U1 & Lo1 & Fi1 & Wr1); try done; try lia.
  { rewrite Z.add_0_r. unfold blocks_in. change BSIZE with 1024. assert (0 <= n / 1024) by (apply Z.div_pos; lia).
    destruct (Z.ltb_spec off (off + n)); [|lia]. assert ((off + n - 1) / 1024 - off / 1024 <= n / 1024 + 1) by zdm. lia. }
  { by rewrite Z.add_0_r. }
  rewrite !Z.add_0_r in *. rewrite (u64_small src) in E1 by lia. unfold bind at 1. rewrite E1.
  destruct (writei_end s s1 ip off tot m Ri F Rm R1 Wr1) as (s2 & E2 & Wr2 & Fu); [done|done|change (MAXFILE * BSIZE) with 274432; lia|done|..].
  { apply Lo1. by destruct (iblock_range s _ (fo_geom _ F) Rm) as (_ & ? & _). }
  exists (i32 tot), s2. rewrite i32_small by lia. rewrite i32_small in E2 by lia. split; [exact E2|]. split; [lia|]. split; [auto|done].
Qed.
End Write.
(** ** Reading *)

(** A step of the block layer that keeps what the blocks hold. *)
Definition quiet s m s' : Prop := exists l, s' = s <| blk := l |> /\ ready l [] m /\ (forall b, view l b = fview s b) /\ same_home s s'.

Lemma quiet_trans s1 s2 s3 m : quiet s1 m s2 -> quiet s2 m s3 -> quiet s1 m s3.
Proof. intros (l & -> & R & V & Hm) (l' & -> & R' & V' & Hm'). exists l'. split; [done|]. split; [done|].
  split; [intros b; rewrite V'; apply V|]. intros b. rewrite (Hm' b). apply Hm.
Qed.

(** [bmap] for a block that is there. *)
Lemma bmap_found s ip bn m :
  fsok s -> iwf s (inodeat s ip) -> 0 <= bn < nslots -> fready s [] m -> slot s (inodeat s ip) bn <> 0 ->
  exists s', bmap ip bn s = Ok (slot s (inodeat s ip) bn) s' /\ quiet s m s'.
Proof.
  intros F W Rb R N. assert (Q0 : quiet s m s) by (exists (blk s); by destruct s). rewrite (bmap_eq s ip bn (iw_dev _ _ W)) by lia.
  unfold slot in *. set (a := at_ 0 (i_addrs (inodeat s ip))) in *. destruct (Z.ltb_spec bn 12) as [Lt|Ge].
  - destruct (Z.eqb_spec (a bn) 0); [done|]. by exists s.
  - destruct (Z.eqb_spec bn nslots); [lia|]. destruct (Z.eqb_spec (a 12) 0) as [|A0]; [done|]. unfold bind at 1, ret at 1.
    destruct (Z.eqb_spec (a 12) 0) as [|_]; [done|].
    destruct (iw_data _ _ W nslots ltac:(done) A0) as [Da _]. change (isdata s (a 12)) in Da.
    destruct (isdata_range s _ (fo_geom _ F) Da) as (Ra & Ra2 & _).
    destruct (take_block s [] m (a 12) R) as (bp & l & E1 & R1 & D1 & V1 & H1); [cbn; lia|set_solver|lia|].
    destruct (give_block s l bp (a 12) [] m R1) as (l2 & E2 & R2 & V2 & H2).
    unfold entry, bind at 1. rewrite E1. unfold bind at 1, data, gets. change (blk (s <| blk := l |>)) with l. rewrite D1.
    destruct (Z.eqb_spec (load 4 (fview s (a 12)) (4 * (bn - 12))) 0); [done|]. unfold bind, ret. rewrite E2.
    exists (s <| blk := l2 |>). split; [done|]. exists l2. split; [done|]. split; [done|].
    split; [intros b; by rewrite V2|]. intros b. change (home l2 b <-> home (blk s) b). rewrite H2. apply H1.
Qed.

Lemma quiet_keeps s s' ip m : quiet s m s' -> fsok s -> iwf s (inodeat s ip) ->
  fsok s' /\ iwf s' (inodeat s' ip) /\ (forall n, 0 <= n <= nslots -> slot s' (inodeat s' ip) n = slot s (inodeat s ip) n).
Proof.
  intros (l & -> & R & V & Hm) F W. assert (G : grew s (s <| blk := l |>) ip) by by apply grew_same.
  split; [apply G|]. split; [apply G|]. intros n Hn. change (inodeat (s <| blk := l |>) ip) with (inodeat s ip).
  unfold slot. change (fview (s <| blk := l |>)) with (view l). by rewrite V.
Qed.

(** The [c] bytes of the file from [off] on. *)
Definition content s ip off (c : Z) : list Z := map (fun j => fbyte s (inodeat s ip) (off + Z.of_nat j)) (seq 0 (Z.to_nat c)).

Lemma list_at (l : list Z) : l = map (fun j => at_ 0 l (Z.of_nat j)) (seq 0 (length l)).
Proof.
  apply list_eq. intros j. rewrite list_lookup_fmap. destruct (Nat.lt_ge_cases j (length l)) as [Lt|Ge].
  - rewrite lookup_seq_lt by done. cbn. unfold at_. destruct (Z.leb_spec 0 (Z.of_nat j)); [|lia]. rewrite Nat2Z.id, nth_lookup.
    destruct (lookup_lt_is_Some_2 l j Lt) as [x E]. by rewrite E.
  - rewrite (lookup_ge_None_2 l) by done. by rewrite (lookup_ge_None_2 (seq 0 (length l))) by (rewrite length_seq; done).
Qed.

Lemma slice_content s ip off c : 0 <= off -> 0 <= c -> off mod BSIZE + c <= 1024 -> slot s (inodeat s ip) (off / BSIZE) <> 0 ->
  length (fview s (slot s (inodeat s ip) (off / BSIZE))) = 1024%nat ->
  slice (fview s (slot s (inodeat s ip) (off / BSIZE))) (off mod BSIZE) c = content s ip off c.
Proof.
  intros Po Pc Bc N Len. pose proof (Z.mod_pos_bound off BSIZE ltac:(done)). rewrite (list_at (slice _ _ _)), length_slice by lia. unfold content.
  apply map_ext_in. intros j Hj%in_seq. rewrite at_slice by lia. unfold fbyte. change BSIZE with 1024 in *.
  replace ((off + Z.of_nat j) / 1024) with (off / 1024) by zdm. replace ((off + Z.of_nat j) mod 1024) with (off mod 1024 + Z.of_nat j) by zdm.
  by destruct (Z.eqb_spec (slot s (inodeat s ip) (off / 1024)) 0).
Qed.

Lemma content_app s ip off c c' : 0 <= c -> 0 <= c' -> content s ip off c ++ content s ip (off + c) c' = content s ip off (c + c').
Proof.
  intros P Q. unfold content. rewrite Z2Nat.inj_add, seq_app, map_app by done. f_equal.
  rewrite Nat.add_0_l, <- (Nat.add_0_r (Z.to_nat c)) at 1. rewrite <- fmap_add_seq. rewrite map_map. apply map_ext. intros j. f_equal. lia.
Qed.

Lemma content_quiet s s' ip m off c : quiet s m s' -> fsok s -> iwf s (inodeat s ip) -> 0 <= off -> off + c <= MAXFILE * BSIZE -> content s' ip off c = content s ip off c.
Proof.
  intros Q F W Po Pc. destruct (quiet_keeps s s' ip m Q F W) as (_ & _ & Sl). destruct Q as (l & -> & _ & V & _). unfold content.
  apply map_ext_in. intros j Hj%in_seq. unfold fbyte. assert (I : in_file (off + Z.of_nat j)) by (unfold in_file; lia). apply in_file_slot in I.
  rewrite Sl by lia. change (fview (s <| blk := l |>)) with (view l). by rewrite V.
Qed.

Section Read.
(** Where the bytes go: storing them keeps [P] and leaves the file system alone. *)
Context (put : Z -> list Z -> M S Z) (P : S -> Prop) (dst N : Z).
Context (Hput : forall t l f σ, P σ -> 0 <= t -> t + Z.of_nat (length l) <= N ->
  exists σ', put (u64 (dst + t)) l (lset onf f σ) = Ok 0 (lset onf f σ') /\ P σ').

Lemma readi_loop_run (k : nat) s σ ip off n tot acc m :
  fsok s -> iwf s (inodeat s ip) -> filled s ip 0 (off + n) -> 0 <= off -> 0 <= tot <= n -> n <= N -> off + n <= MAXFILE * BSIZE ->
  (blocks_in (off + tot) (off + n) < k)%nat -> fready s [] m -> P σ ->
  exists s' σ', readi_loop onf k put ip (u64 (dst + tot)) (off + tot) n tot acc (lset onf s σ) =
      Ok (n, acc ++ content s ip (off + tot) (n - tot)) (lset onf s' σ') /\ quiet s m s' /\ P σ'.
Proof.
  revert s σ tot acc. induction k as [|k IH]; intros s σ tot acc F W Fi Po Rt Rn Rf Fu R Ps; [lia|]. cbn [readi_loop].
  change (MAXFILE * BSIZE) with 274432 in Rf. destruct (Z.ltb_spec tot n) as [Lt|Ge].
  2: { assert (tot = n) as -> by lia. exists s, σ. rewrite i32_small by lia. rewrite Z.sub_diag. cbn. rewrite app_nil_r. split; [done|].
       split; [|done]. exists (blk s). by destruct s. }
  destruct (blocks_in_step (off + tot) (off + n) (Z.min (n - tot) (BSIZE - (off + tot) mod BSIZE))) as (C1 & C2 & C3 & C4 & C5); [lia|lia|f_equal; lia|].
  rewrite C5 in Fu. set (c := Z.min (n - tot) (BSIZE - (off + tot) mod BSIZE)) in *.
  assert (I : 0 <= (off + tot) / BSIZE < nslots) by (apply in_file_slot; unfold in_file; change (MAXFILE * BSIZE) with 274432; lia).
  assert (N0 : slot s (inodeat s ip) ((off + tot) / BSIZE) <> 0) by (apply Fi; lia).
  destruct (bmap_found s ip ((off + tot) / BSIZE) m F W I R N0) as (s1 & E1 & Q1).
  unfold bind at 1. rewrite (fz_run _ _ _ _ σ E1). set (a := slot s (inodeat s ip) ((off + tot) / BSIZE)) in *. destruct (Z.eqb_spec a 0); [done|].
  destruct (quiet_keeps s s1 ip m Q1 F W) as (F1 & W1 & Sl1). assert (R1 : fready s1 [] m) by (destruct Q1 as (l & -> & R1 & _); exact R1).
  unfold bind at 1, fz at 1, zoom at 1, geti, gets at 1. rewrite lget_lset, lset_lset, (iw_dev _ _ W1).
  assert (Sa : slot s1 (inodeat s1 ip) ((off + tot) / BSIZE) = a) by (apply Sl1; lia).
  destruct (iw_data _ _ W1 ((off + tot) / BSIZE) ltac:(lia) ltac:(by rewrite Sa)) as [Da _]. rewrite Sa in Da.
  destruct (isdata_range s1 a (fo_geom _ F1) Da) as (Ra & Ra2 & _).
  destruct (take_block s1 [] m a R1) as (bp & l & E2 & R2 & D2 & V2 & H2); [cbn; lia|set_solver|lia|].
  destruct (give_block s1 l bp a [] m R2) as (l3 & E3 & R3 & V3 & H3).
  unfold bind at 1. rewrite (fz_run _ _ _ _ σ E2). unfold bind at 1, fz at 1, zoom at 1, data, gets at 1. rewrite lget_lset, lset_lset.
  change (blk (s1 <| blk := l |>)) with l. rewrite D2. rewrite (u32_small (n - tot)) by lia. fold c.
  assert (Sc : slice (fview s1 a) ((off + tot) mod BSIZE) c = content s ip (off + tot) c).
  { rewrite <- (content_quiet s s1 ip m) by (done || lia || (change (MAXFILE * BSIZE) with 274432; lia)). rewrite <- Sa.
    apply slice_content; [lia|lia|lia|by rewrite Sa|]. eapply view_len, R1. }
  rewrite Sc. assert (Lc : length (content s ip (off + tot) c) = Z.to_nat c) by (unfold content; by rewrite length_map, length_seq).
  destruct (Hput tot (content s ip (off + tot) c) (s1 <| blk := l |>) σ Ps) as (σ1 & E4 & P1); [lia|lia|].
  unfold bind at 1. rewrite E4. cbn [Z.eqb Z.opp]. unfold bind at 1. rewrite (fz_run _ _ _ _ σ1 E3).
  rewrite (u32_small (off + tot + c)), (u32_small (tot + c)) by lia.
  replace (u64 (u64 (dst + tot) + c)) with (u64 (dst + (tot + c))) by (unfold u64; rewrite Zplus_mod_idemp_l; f_equal; lia).
  replace (off + tot + c) with (off + (tot + c)) in * by lia.
  assert (Q3 : quiet s m (s1 <| blk := l3 |>)).
  { eapply quiet_trans; [exact Q1|]. exists l3. split; [done|]. split; [done|]. split; [intros b; rewrite V3; apply V2|].
    intros b. change (home l3 b <-> home (blk s1) b). rewrite H3. apply H2. }
  destruct (quiet_keeps s _ ip m Q3 F W) as (F3 & W3 & Sl3).
  destruct (IH (s1 <| blk := l3 |>) σ1 (tot + c) (acc ++ content s ip (off + tot) c)) as (s' & σ' & E5 & Q5 & P5); try done.
  { intros o Ho. rewrite Sl3; [by apply Fi|]. assert (0 <= o / BSIZE < nslots); [|lia]. apply in_file_slot. unfold in_file. change (MAXFILE * BSIZE) with 274432. lia. }
  { lia. } { lia. }
  exists s', σ'. rewrite E5. split; [|split; [by eapply quiet_trans|done]]. do 2 f_equal. rewrite <- app_assoc. f_equal.
  rewrite (content_quiet s (s1 <| blk := l3 |>) ip m) by (done || lia || (change (MAXFILE * BSIZE) with 274432; lia)).
  replace (off + (tot + c)) with (off + tot + c) by lia. rewrite content_app by lia. f_equal. lia.
Qed.

(** [readi] delivers the bytes of the file from [off] on, as many as there are. *)
Lemma readi_run s σ ip off n m :
  fsok s -> iwf s (inodeat s ip) -> filled s ip 0 (i_size (inodeat s ip)) -> 0 <= off <= i_size (inodeat s ip) ->
  i_size (inodeat s ip) <= MAXFILE * BSIZE -> 0 <= n < 2 ^ 31 -> n <= N -> 0 <= dst < 2 ^ 64 -> fready s [] m -> P σ ->
  let c := Z.min n (i_size (inodeat s ip) - off) in
  exists s' σ', readi onf put ip dst off n (lset onf s σ) = Ok (c, content s ip off c) (lset onf s' σ') /\ quiet s m s' /\ P σ'.
Proof.
  intros F W Fi Ro Rz Rn Rn' Rd R Ps c. unfold readi, geti. unfold bind at 1, fz at 1, zoom at 1, gets at 1. rewrite lget_lset, lset_lset.
  change (MAXFILE * BSIZE) with 274432 in Rz. rewrite (u32_small (off + n)) by lia.
  destruct (Z.ltb_spec (i_size (inodeat s ip)) off); [lia|]. destruct (Z.ltb_spec (off + n) off); [lia|]. cbn [orb].
  assert ((if i_size (inodeat s ip) <? off + n then u32 (i_size (inodeat s ip) - off) else n) = c) as ->.
  { unfold c. destruct (Z.ltb_spec (i_size (inodeat s ip)) (off + n)); [rewrite u32_small by lia|]; lia. }
  destruct (readi_loop_run (Z.to_nat (c / BSIZE + 3)) s σ ip off c 0 [] m) as (s' & σ' & E & Q & P'); try done; try (unfold c; lia).
  { intros o Ho. apply Fi. unfold c in Ho. lia. } { change (MAXFILE * BSIZE) with 274432. unfold c. lia. }
  { rewrite Z.add_0_r. unfold blocks_in. change BSIZE with 1024. assert (0 <= c) by (unfold c; lia). assert (0 <= c / 1024) by (apply Z.div_pos; lia).
    destruct (Z.ltb_spec off (off + c)); [|lia]. assert ((off + c - 1) / 1024 - off / 1024 <= c / 1024 + 1) by zdm. lia. }
  exists s', σ'. rewrite !Z.add_0_r, Z.sub_0_r in E. rewrite (u64_small dst) in E by lia. done.
Qed.
End Read.
End Io.
