(* ===== verification/RamBlocks.v ===== *)
(** * A block layer in memory

    The simplest layer that keeps the promises of Blocks.v: an array of blocks,
    with every block its own buffer and nothing to log.  The theorems about the
    file system can be evaluated on it. *)

From Stdlib Require Import ZArith Lia List.
From stdpp Require Import base tactics list strings.
From S2P Require Import Prelude Riscv Blocks.

Record ramdisk : Type := mkRamdisk { rblocks : Z -> list Z }.

Definition ram_set (b : Z) (d : list Z) (l : ramdisk) : ramdisk := mkRamdisk (fun i => if i =? b then d else rblocks l i).

#[global] Instance ram_blocks : Blocks ramdisk := {
  bread _ k := ret k;
  brelse _ := ret tt;
  log_write _ := ret tt;
  bdata l b := rblocks l b;
  set_bdata := ram_set;
  begin_op := ret tt;
  end_op := ret tt;
  initlog _ _ _ := ret tt;
  run_pid _ := 1;
  wakes _ l := l;
  set_run_pid _ l := l;
  woken_chans _ := [];
  clear_wakes l := l
}.

Definition ram_ready (l : ramdisk) (H : list (Z * Z * bool)) (m : nat) : Prop :=
  (forall k, length (rblocks l k) = 1024%nat) /\ Forall (fun x => x.1.1 = x.1.2) H.

#[global] Program Instance ram_blocks_ok : BlocksOk ramdisk := {
  view := rblocks;
  home _ _ := True;
  ready := ram_ready
}.
Next Obligation. intros l H m k [A _]. apply A. Qed.
Next Obligation. intros l H m m' [A B] _. by split. Qed.
Next Obligation. intros l b k c H m [_ B]. apply Forall_cons in B as [E _]. cbn in E. by subst. Qed.
Next Obligation. intros l H m k [A B] _ _ _. exists k, l. split_and!; try done. split; [done|]. by constructor. Qed.
Next Obligation.
  intros l b k c H m d [A B] Ld. apply Forall_cons in B as [E B]. cbn in E. subst b. split_and!; try done. split.
  - intros i. cbn. by destruct (i =? k).
  - by constructor.
Qed.
Next Obligation.
  intros l b k c H m [A B] _. apply Forall_cons in B as [E B]. exists l. split_and!; try done. split; [done|]. by constructor.
Qed.
Next Obligation. intros l b k H m [A B]. apply Forall_cons in B as [E B]. exists l. split_and!; done. Qed.
