(* ===== verification/FsProps.v ===== *)
(** * What fs.c promises

    The theorems on block allocation and file contents, and their instances on a
    small file system in memory. *)

From Stdlib Require Import ZArith Lia List.
From stdpp Require Import base tactics numbers list sets strings.
From S2P Require Import Prelude Riscv CString Blocks RamBlocks Sleeplock Fs FsFacts FsContent FsIo.

Section Props.
Context {L : Type} `{BlocksOk L}.
Implicit Types (s : fstate L) (m : nat).

#[global] Instance whole_ok : LensOk (whole (L := L)).
Proof. by split. Qed.

(** A local structure of the kernel as source. *)
Lemma get_local_chunk (x : list Z) t c f σ : 0 <= t -> 0 <= c -> t + c <= Z.of_nat (length x) -> Z.of_nat (length x) < 2 ^ 64 ->
  get_local x (u64 (0 + t)) c (lset (whole (L := L)) f σ) = Ok (0, chunk (at_ 0 x) t c) (lset whole f σ).
Proof.
  intros P Q R B. unfold get_local, ret. cbn [whole lset]. do 2 f_equal. rewrite Z.add_0_l, u64_small by lia.
  rewrite (list_at (slice x t c)), length_slice by lia. unfold chunk. apply map_ext_in. intros j Hj%in_seq. rewrite at_slice by lia. f_equal.
Qed.

(** C31: on a file system with a consistent bitmap, [balloc] never panics and
    always returns: either a data block that was free, now marked in use and
    filled with zeros, with the one bit set in its bitmap block and every other
    block of the disk as before; or 0, and then no block is free and nothing has
    changed. *)
Theorem balloc_correct s m :
  fsok s -> fready s [] (S (S m)) ->
  exists r l, balloc ROOTDEV s = Ok r (s <| blk := l |>) /\ ready l [] m /\ fsok (s <| blk := l |>) /\
    (r = 0 /\ (forall i, view l i = fview s i) /\ full s \/
     isdata s r /\ used s r = false /\ view l r = zeros /\
     (forall b, 0 <= b < sb_size (sb s) -> used (s <| blk := l |>) b = (b =? r) || used s b) /\
     (forall i, i <> r -> view l i = if i =? bblock s r then mark_bit (fview s i) (r mod BPB) else fview s i)).
Proof.
  intros F R. destruct (balloc_run s [] m F) as (r & l & E & R1 & _ & F1 & _ & C); [by constructor|cbn; lia|done|].
  exists r, l. split; [exact E|]. split; [exact R1|]. split; [exact F1|]. destruct C as [C|(C1 & C2 & C3 & _ & C5 & C6)]; [by left|by right].
Qed.

(** C22: [writei], from a source that can be read ([get] succeeds), stores the
    bytes it is given at the offset it is given: the
    result counts the bytes stored, fewer than asked for only if the disk is
    full; all other bytes of the file, all other inodes and all blocks of other
    files are as before; the size covers what was written, and the inode is
    written back to its place on disk. *)
Theorem writei_correct {S : Type} (onf : Lens S (fstate L)) `{!LensOk onf} get (w : Z -> Z) src n σ s ip off m :
  (forall t c f, 0 <= t -> 0 <= c -> t + c <= n -> get (u64 (src + t)) c (lset onf f σ) = Ok (0, chunk w t c) (lset onf f σ)) ->
  1 <= ip <= Z.of_nat (length (itable s)) -> fsok s -> iwf s (inodeat s ip) -> 0 <= i_inum (inodeat s ip) < ninodes (sb s) ->
  0 <= off <= i_size (inodeat s ip) -> i_size (inodeat s ip) <= MAXFILE * BSIZE -> 0 <= n -> off + n <= MAXFILE * BSIZE -> 0 <= src < 2 ^ 64 ->
  fready s [] (6 * blocks_in off (off + n) + Datatypes.S m) ->
  exists tot s', writei onf get ip src off n (lset onf s σ) = Ok tot (lset onf s' σ) /\
    0 <= tot <= n /\ (tot < n -> full s') /\ written w s s' ip off tot m.
Proof. intros Hg Ri F W Rm Ro Rz Rn Rf Rs R. by apply (writei_run onf get w src n σ Hg). Qed.

(** C2: what [writei] stores, [readi] returns: reading back the range that was
    written gives the same bytes, in a file without holes. *)
Theorem writei_readi_round_trip s ip off (x : list Z) m :
  1 <= ip <= Z.of_nat (length (itable s)) -> fsok s -> iwf s (inodeat s ip) -> 0 <= i_inum (inodeat s ip) < ninodes (sb s) ->
  filled s ip 0 (i_size (inodeat s ip)) -> 0 <= off <= i_size (inodeat s ip) -> i_size (inodeat s ip) <= MAXFILE * BSIZE ->
  off + Z.of_nat (length x) <= MAXFILE * BSIZE -> fready s [] (6 * blocks_in off (off + Z.of_nat (length x)) + Datatypes.S m) ->
  exists tot s1 s2, writei whole (get_local x) ip 0 off (Z.of_nat (length x)) s = Ok tot s1 /\
    0 <= tot <= Z.of_nat (length x) /\ (tot < Z.of_nat (length x) -> full s1) /\
    readi whole put_local ip 0 off tot s1 = Ok (tot, take (Z.to_nat tot) x) s2.
Proof.
  intros Ri F W Rm Fi Ro Rz Rf R. assert (Bx : Z.of_nat (length x) < 2 ^ 31) by (change (MAXFILE * BSIZE) with 274432 in Rf; lia).
  destruct (writei_run whole (get_local x) (at_ 0 x) 0 (Z.of_nat (length x)) s ltac:(intros t c f P Q T; apply get_local_chunk; lia) s ip off (Z.of_nat (length x)) m)
    as (tot & s1 & E1 & B1 & U1 & Wr); try done; try lia.
  destruct (wr_inode _ _ _ _ _ _ _ Wr) as [a Ei].
  destruct (readi_run whole put_local (fun _ => True) 0 tot ltac:(intros t l f σ _ _ _; exists σ; done) s1 s1 ip off tot m) as (s2 & σ & E2 & _); try done; try lia.
  - exact (wr_ok _ _ _ _ _ _ _ Wr).
  - exact (wr_wf _ _ _ _ _ _ _ Wr).
  - by apply (wr_dense _ _ _ _ _ _ _ Wr).
  - rewrite Ei. cbn. lia.
  - rewrite Ei. cbn. lia.
  - exact (wr_ready _ _ _ _ _ _ _ Wr).
  - exists tot, s1, s2. split; [exact E1|]. split; [lia|]. split; [done|].
    rewrite Ei in E2. cbn [i_size over] in E2. change (i_size (over i_size _ _)) with (Z.max (i_size (inodeat s ip)) (off + tot)) in E2.
    rewrite Z.min_l in E2 by lia. change (readi whole put_local ip 0 off tot s1 = Ok (tot, content s1 ip off tot) s2) in E2.
    rewrite E2. do 2 f_equal. unfold content.
    rewrite (list_at (take (Z.to_nat tot) x)), length_take, Nat.min_l by lia. apply map_ext_in. intros j Hj%in_seq.
    rewrite (wr_bytes _ _ _ _ _ _ _ Wr) by (unfold in_file; lia).
    destruct (Z.leb_spec off (off + Z.of_nat j)), (Z.ltb_spec (off + Z.of_nat j) (off + tot)); try lia; cbn [andb].
    replace (off + Z.of_nat j - off) with (Z.of_nat j) by lia. unfold at_. destruct (Z.leb_spec 0 (Z.of_nat j)); [|lia].
    rewrite !nth_lookup, lookup_take_lt by lia. done.
Qed.
End Props.

(** A disk of 12 blocks with one file of one block. *)
Module FsWitness.

Definition bitmap0 : list Z := 63 :: repeat 0 1023.
Definition disk0 : ramdisk := mkRamdisk (fun k => if k =? 4 then bitmap0 else zeros).
Definition sb0 : superblock := mkSuper FSMAGIC 12 7 16 0 2 2 4.
Definition inode1 : inode := mkInode ROOTDEV 1 1 (mkSleeplock 1 1) 1 T_FILE 0 0 1 4 (5 :: repeat 0 12).
Definition fs0 : fstate ramdisk := mkFstate disk0 sb0 [inode1].

Lemma fs0_ready m : fready fs0 [] m.
Proof. split; [|by constructor]. intros k. cbn. by destruct (k =? 4). Qed.

Lemma fs0_ok : fsok fs0.
Proof.
  split.
  - by split.
  - intros i Hi. change (dstart fs0) with 5 in Hi. assert (i = 0 \/ i = 1 \/ i = 2 \/ i = 3 \/ i = 4) as C by lia.
    by destruct C as [->|[->|[->|[->| ->]]]]; vm_compute.
Qed.

Lemma inode1_slot n : 0 <= n <= nslots -> slot fs0 inode1 n = if n =? 0 then 5 else 0.
Proof.
  intros R. unfold slot. destruct (Z.ltb_spec n 12) as [Lt|Ge].
  - unfold at_. destruct (Z.leb_spec 0 n); [|lia]. destruct (Z.eqb_spec n 0) as [->|N]; [done|].
    destruct (Z.to_nat n) as [|k] eqn:E; [lia|]. change (nth k (repeat 0 12) 0 = 0). apply nth_repeat.
  - destruct (Z.eqb_spec n 0); [lia|]. by destruct (n =? nslots).
Qed.

Lemma inode1_wf : iwf fs0 inode1.
Proof.
  split; try done.
  - intros n Hn. rewrite inode1_slot by done. destruct (n =? 0); [|done]. intros _. split; [by split|]. by vm_compute.
  - intros n n' Hn Hn'. rewrite !inode1_slot by done. destruct (Z.eqb_spec n 0), (Z.eqb_spec n' 0); try done. lia.
Qed.

Lemma inode1_filled : filled fs0 1 0 4.
Proof. intros o Ho. change (inodeat fs0 1) with inode1. change BSIZE with 1024. rewrite (Z.div_small o 1024) by lia. done. Qed.

Lemma balloc_correct_witness : exists r l, balloc ROOTDEV fs0 = Ok r (fs0 <| blk := l |>) /\ ready l [] 3.
Proof. destruct (balloc_correct fs0 3 fs0_ok (fs0_ready _)) as (r & l & E & R & _). by exists r, l. Defined.

Lemma writei_correct_witness :
  exists tot s', writei whole (get_local [7; 8; 9]) 1 0 2 3 fs0 = Ok tot s' /\ 0 <= tot <= 3.
Proof.
  destruct (writei_correct whole (get_local [7; 8; 9]) (at_ 0 [7; 8; 9]) 0 3 fs0 fs0 1 2 1
    (fun t c f P Q T => get_local_chunk [7; 8; 9] t c f fs0 P Q T eq_refl)
    ltac:(split; by vm_compute) fs0_ok inode1_wf ltac:(split; by vm_compute) ltac:(split; by vm_compute) ltac:(by vm_compute) ltac:(lia) ltac:(by vm_compute) ltac:(lia) (fs0_ready _))
    as (tot & s' & E & B & _).
  by exists tot, s'.
Defined.

Lemma writei_readi_round_trip_witness :
  exists tot s1 s2, writei whole (get_local [7; 8; 9]) 1 0 2 3 fs0 = Ok tot s1 /\
    readi whole put_local 1 0 2 tot s1 = Ok (tot, take (Z.to_nat tot) [7; 8; 9]) s2.
Proof.
  destruct (writei_readi_round_trip fs0 1 2 [7; 8; 9] 1 ltac:(split; by vm_compute) fs0_ok inode1_wf ltac:(split; by vm_compute) inode1_filled
    ltac:(split; by vm_compute) ltac:(by vm_compute) ltac:(by vm_compute) (fs0_ready _)) as (tot & s1 & s2 & E & _ & _ & E2).
  by exists tot, s1, s2.
Defined.

End FsWitness.
