(* ===== verification/PathProps.v ===== *)
(** * Path names

    [elements] is the reference reading of a path: the pieces between slashes
    that are not empty.  [namex], which scans the string as it walks, does the
    same as walking down the list of elements. *)

From Stdlib Require Import ZArith Lia List.
From stdpp Require Import base tactics numbers list sets strings.
From S2P Require Import Prelude Riscv CString Blocks RamBlocks Sleeplock Fs FsFacts FsProps.

(** ** The elements of a path *)

Fixpoint pieces (l : list Z) : list (list Z) :=
  match l with
  | [] => [[]]
  | c :: l' =>
    if c =? SLASH then [] :: pieces l'
    else match pieces l' with w :: r => (c :: w) :: r | [] => [[c]] end
  end.

Definition elements (l : list Z) : list (list Z) := filter (fun w => w <> []) (pieces l).

Lemma pieces_cons l : exists w r, pieces l = w :: r.
Proof. destruct l as [|c l]; cbn; [by eexists _, _|]. destruct (c =? SLASH); [by eexists _, _|]. destruct (pieces l); by eexists _, _. Qed.

(** A run of other characters is one piece. *)
Lemma pieces_run w r : SLASH ∉ w -> (r = [] \/ exists r', r = SLASH :: r') ->
  pieces (w ++ r) = w :: match r with [] => [] | _ :: r' => pieces r' end.
Proof.
  intros N C. induction w as [|c w IH]; cbn.
  - destruct C as [->|(r' & ->)]; [done|]. by cbn.
  - apply not_elem_of_cons in N as [Nc N]. destruct (Z.eqb_spec c SLASH); [congruence|]. by rewrite IH.
Qed.

Lemma elements_run w r : SLASH ∉ w -> w <> [] -> (r = [] \/ exists r', r = SLASH :: r') -> elements (w ++ r) = w :: elements r.
Proof.
  intros N Nw C. unfold elements. rewrite pieces_run by done. rewrite filter_cons_True by done.
  destruct C as [->|(r' & ->)]; [done|]. cbn [pieces]. rewrite Z.eqb_refl. by rewrite filter_cons_False by auto.
Qed.

Lemma elements_slashes n r : elements (repeat SLASH n ++ r) = elements r.
Proof.
  induction n as [|n IH]; [done|]. unfold elements in *. cbn [repeat app pieces]. rewrite Z.eqb_refl. by rewrite filter_cons_False by auto.
Qed.

Lemma elements_nil r : hd_error r <> Some SLASH -> (elements r = [] <-> r = []).
Proof.
  intros Nh. split; [|by intros ->]. destruct r as [|c r]; [done|]. cbn in Nh.
  unfold elements. cbn [pieces]. destruct (Z.eqb_spec c SLASH) as [->|]; [done|].
  destruct (pieces_cons r) as (w & x & ->). by rewrite filter_cons_True.
Qed.

(** ** Scanning *)

Section Scan.
Context (p tl : list Z) (Hp : Forall (fun c => 0 < c < 256) p).

(** The string in memory, with what follows its terminator. *)
Abbreviation path := (p ++ 0 :: tl).

Lemma path_at a b : p = a ++ b -> bget path (Z.of_nat (length a)) = match b with [] => 0 | c :: _ => c end.
Proof.
  intros E. rewrite E. unfold bget, bytes_store. destruct (Z.leb_spec 0 (Z.of_nat (length a))); [|lia]. rewrite Nat2Z.id, <- app_assoc.
  rewrite app_nth2, Nat.sub_diag by lia. destruct b as [|c b]; [done|]. cbn. apply u8_small.
  rewrite E, Forall_app, Forall_cons in Hp. lia.
Qed.

Lemma skip_slashes_run k : forall a b, p = a ++ b -> (length b < k)%nat ->
  exists n r, b = repeat SLASH n ++ r /\ hd_error r <> Some SLASH /\
    skip_slashes k path (Z.of_nat (length a)) = Z.of_nat (length (a ++ repeat SLASH n)).
Proof.
  induction k as [|k IH]; intros a b E Hk; [lia|]. cbn [skip_slashes]. rewrite (path_at a b E). destruct b as [|c b].
  { exists 0%nat, []. cbn. by rewrite app_nil_r. }
  destruct (Z.eqb_spec c SLASH) as [->|N].
  - destruct (IH (a ++ [SLASH]) b) as (n & r & -> & Nr & Es); [by rewrite <- app_assoc|cbn in Hk; lia|].
    exists (S n), r. split_and!; [done..|]. rewrite length_app in Es. cbn [length] in Es. rewrite Nat2Z.inj_add in Es. change (Z.of_nat 1) with 1 in Es.
    rewrite Es. f_equal. rewrite <- app_assoc. done.
  - exists 0%nat, (c :: b). cbn. rewrite app_nil_r. split_and!; [done|congruence|done].
Qed.

Lemma skip_chars_run k : forall a b, p = a ++ b -> (length b < k)%nat ->
  exists w r, b = w ++ r /\ SLASH ∉ w /\ (r = [] \/ exists r', r = SLASH :: r') /\
    skip_chars k path (Z.of_nat (length a)) = Z.of_nat (length (a ++ w)).
Proof.
  induction k as [|k IH]; intros a b E Hk; [lia|]. cbn [skip_chars]. rewrite (path_at a b E). destruct b as [|c b].
  { exists [], []. cbn. rewrite app_nil_r. split_and!; [done|set_solver|by left|done]. }
  destruct (Z.eqb_spec c SLASH) as [->|N]; cbn [negb andb].
  { exists [], (SLASH :: b). rewrite app_nil_r. split_and!; [done|set_solver|right; by eexists|done]. }
  assert (Hc : 0 < c) by (rewrite E, Forall_app, Forall_cons in Hp; lia). destruct (Z.eqb_spec c 0); [lia|]. cbn [negb].
  destruct (IH (a ++ [c]) b) as (w & r & -> & Nw & C & Es); [by rewrite <- app_assoc|cbn in Hk; lia|].
  exists (c :: w), r. split_and!; [done|set_solver|done|]. rewrite length_app in Es. cbn [length] in Es. rewrite Nat2Z.inj_add in Es. change (Z.of_nat 1) with 1 in Es.
  rewrite Es. f_equal. rewrite <- app_assoc. done.
Qed.

(** The element as [skipelem] copies it into [name]. *)
Definition copied_name (w name : list Z) : list Z :=
  if DIRSIZ <=? Z.of_nat (length w) then splice name 0 (take 14 w)
  else upd (splice name 0 w) (Z.of_nat (length w)) 0.

Lemma slice_path a w r n : p = a ++ w ++ r -> n <= Z.of_nat (length w) -> slice path (Z.of_nat (length a)) n = take (Z.to_nat n) w.
Proof.
  intros -> Hn. unfold slice. rewrite Nat2Z.id, <- !app_assoc, drop_app_length. rewrite take_app_le; [done|lia].
Qed.

(** [skipelem] from the position after [a]. *)
Lemma skipelem_run a b name : p = a ++ b ->
  match skipelem path (Z.of_nat (length a)) name with
  | None => elements b = []
  | Some (pos, name') => exists w a' b', elements b = w :: elements b' /\ name' = copied_name w name /\
      p = a' ++ b' /\ pos = Z.of_nat (length a') /\ (length b' < length b)%nat /\ hd_error b' <> Some SLASH
  end.
Proof.
  intros E. unfold skipelem. assert (Lk : (length p < S (length path))%nat) by (rewrite length_app; lia).
  assert (Lb : (length b <= length p)%nat) by (rewrite E, length_app; lia).
  destruct (skip_slashes_run (S (length path)) a b E ltac:(lia)) as (n & r & -> & Nr & ->). rewrite app_assoc in E.
  rewrite (path_at _ _ E), elements_slashes. destruct r as [|c r]; [done|].
  assert (Hc : 0 < c) by (rewrite E, Forall_app, Forall_cons in Hp; lia). destruct (Z.eqb_spec c 0); [lia|].
  set (a1 := a ++ repeat SLASH n) in *. rewrite length_app in Lb.
  destruct (skip_chars_run (S (length path)) a1 (c :: r) E ltac:(lia)) as (w & r' & Ew & Nw & C & ->). rewrite Ew in *.
  assert (w <> []) as Ne by (intros ->; destruct C as [->|(? & ->)]; [done|by apply Nr]).
  pose proof E as E2. rewrite app_assoc in E2. rewrite length_app in Lb.
  destruct (skip_slashes_run (S (length path)) (a1 ++ w) r' E2 ltac:(lia)) as (n' & r2 & Er & Nr2 & Es2).
  exists w, (a1 ++ w ++ repeat SLASH n'), r2.
  split_and!.
  - rewrite (elements_run w r') by done. by rewrite Er, elements_slashes.
  - unfold copied_name. rewrite (length_app a1 w), Nat2Z.inj_add, Z.add_simpl_l. destruct (Z.leb_spec DIRSIZ (Z.of_nat (length w))).
    + by rewrite (slice_path a1 w r').
    + rewrite (slice_path a1 w r' (Z.of_nat (length w))) by (done || lia). by rewrite Nat2Z.id, take_ge by lia.
  - rewrite E, Er. by rewrite <- !app_assoc.
  - rewrite Es2. by rewrite <- app_assoc.
  - rewrite Er, !length_app. destruct w; [done|]. cbn. lia.
  - done.
Qed.
End Scan.

(** ** Walking down the list *)

Section Walk.
Context {L : Type} `{Blocks L}.
Implicit Types (s : fstate L).

(** The reference: from the directory [ip] along the elements [ws]. *)
Fixpoint walk (ws : list (list Z)) (parent : bool) (name : list Z) (ip : Z) : M (fstate L) (Z * list Z) :=
  match ws with
  | [] => if parent then do iput ip ;;; ret (0, name) else ret (ip, name)
  | w :: ws' =>
    let name := copied_name w name in
    do ilock ip ;;;
    let* t := geti ip i_type in
    if negb (t =? T_DIR) then do iunlockput ip ;;; ret (0, name)
    else if parent && bool_decide (ws' = []) then do iunlock ip ;;; ret (ip, name)
    else
      let* '(next, _) := dirlookup ip name in
      if next =? 0 then do iunlockput ip ;;; ret (0, name)
      else do iunlockput ip ;;; walk ws' parent name next
  end.

Lemma bind_ext {S A B} (m : M S A) (k k' : A -> M S B) y : (forall a x, k a x = k' a x) -> bind m k y = bind m k' y.
Proof. intros E. unfold bind. destruct (m y); auto. Qed.

Lemma namex_loop_walk p tl parent k : Forall (fun c => 0 < c < 256) p -> forall a b name ip s,
  p = a ++ b -> (length b < k)%nat ->
  namex_loop k (p ++ 0 :: tl) (Z.of_nat (length a)) parent name ip s = walk (elements b) parent name ip s.
Proof.
  intros Hp. induction k as [|k IH]; intros a b name ip s E Hk; [lia|]. cbn [namex_loop].
  pose proof (skipelem_run p tl Hp a b name E) as Sk. destruct (skipelem _ _ _) as [[pos name']|].
  - destruct Sk as (w & a' & b' & -> & -> & E' & -> & Lb & Nb). cbn [walk].
    apply bind_ext. intros _ s1. apply bind_ext. intros t s2. destruct (negb _); [done|].
    assert ((bget (p ++ 0 :: tl) (Z.of_nat (length a')) =? 0) = bool_decide (elements b' = [])) as ->.
    { rewrite (path_at p tl Hp a' b' E'). destruct b' as [|c b']; [by rewrite bool_decide_eq_true_2|].
      rewrite bool_decide_eq_false_2 by (by rewrite elements_nil). apply Z.eqb_neq. rewrite E', Forall_app, Forall_cons in Hp. lia. }
    destruct (_ && _); [done|]. apply bind_ext. intros [next ?] s3. destruct (next =? 0); [done|]. apply bind_ext. intros _ s4.
    apply IH; [done|lia].
  - by rewrite Sk.
Qed.

(** C14: looking a path up is walking down its elements.  For every path, every
    directory to start in and every state of the file system, [namex] does
    exactly what the reference does on the list of the pieces between slashes
    that are not empty, each cut to the fourteen bytes of a directory entry,
    from the root if the path begins with a slash; in particular the scan ends
    for every string. *)
Theorem namex_walks_elements p tl parent name cwd s :
  Forall (fun c => 0 < c < 256) p ->
  namex (p ++ 0 :: tl) parent name cwd s =
  (let* ip := (if bool_decide (hd_error p = Some SLASH) then iget ROOTDEV ROOTINO else idup cwd) in
   walk (elements p) parent name ip) s.
Proof.
  intros Hp. unfold namex.
  assert ((bget (p ++ 0 :: tl) 0 =? SLASH) = bool_decide (hd_error p = Some SLASH)) as ->.
  { change 0 with (Z.of_nat (length (@nil Z))) at 2. rewrite (path_at p tl Hp [] p eq_refl). destruct p as [|c p]; [done|]. cbn.
    destruct (Z.eqb_spec c SLASH); [rewrite bool_decide_eq_true_2|rewrite bool_decide_eq_false_2]; congruence. }
  apply bind_ext. intros ip s1. apply (namex_loop_walk p tl parent _ Hp []); [done|].
  rewrite length_app. cbn. lia.
Qed.
End Walk.

(** ** Witness: ["//a/bc/"], relative and with a second name behind it. *)

Module PathWitness.
Import FsWitness.
Lemma namex_walks_elements_witness :
  elements [47; 47; 97; 47; 98; 99; 47] = [[97]; [98; 99]] /\
  namex ([47; 47; 97; 47; 98; 99; 47] ++ 0 :: [97]) true name0 1 fs0 =
  (let* ip := iget ROOTDEV ROOTINO in walk (elements [47; 47; 97; 47; 98; 99; 47]) true name0 ip) fs0.
Proof.
  split; [by vm_compute|]. apply (namex_walks_elements [47; 47; 97; 47; 98; 99; 47] [97] true name0 1 fs0). repeat constructor.
Defined.
End PathWitness.
