(* ===== verification/Mkfs.v ===== *)
(** * mkfs/mkfs.c: the program that builds a file-system image

    The image is the array of its sectors, as long as [FSSIZE]; reading a sector
    after its end makes the program [die].  A [struct dinode] is the record of
    fs.c's disk inodes; [xint] and [xshort] give its fields the byte order of
    the disk, which is that of [load] and [store].  The files of the command line
    come with their names and with what the calls of [read] return, so any
    division into pieces of at most [BSIZE] bytes is covered. *)

From Stdlib Require Import ZArith Lia List.
From stdpp Require Import base tactics numbers list functions strings.
From S2P Require Import Prelude Riscv CString Fs.

Definition NINODES : Z := 200.

Definition nbitmap : Z := FSSIZE / (BSIZE * 8) + 1.
Definition ninodeblocks : Z := NINODES / IPB + 1.
Definition nlog_mk : Z := LOGSIZE.
Definition nmeta : Z := 2 + nlog_mk + ninodeblocks + nbitmap.
Definition nblocks_mk : Z := FSSIZE - nmeta.

Definition sb_mk : superblock :=
  mkSuper FSMAGIC FSSIZE nblocks_mk NINODES nlog_mk 2 (2 + nlog_mk) (2 + nlog_mk + ninodeblocks).

Record image : Type := mkImage { img : Z -> list Z; freeinode : Z; freeblock : Z }.
#[global] Instance eta_image : Eta image := fun s => mkImage (img s) (freeinode s) (freeblock s).

(** ** Sectors *)

Definition rsect (sec : Z) : M image (list Z) :=
  if sec <? FSSIZE then gets (fun s => img s sec) else panic "read".

Definition wsect (sec : Z) (buf : list Z) : M image unit := modify (fun s => s <| img ::= fun f => <[sec := buf]> f |>).

(** ** Inodes *)

Definition winode (inum : Z) (ip : inode) : M image unit :=
  let bn := IBLOCK inum sb_mk in
  let* buf := rsect bn in
  wsect bn (write_dinode buf (inum mod IPB * sizeof_dinode) ip).

Definition rinode (inum : Z) : M image inode :=
  let* buf := rsect (IBLOCK inum sb_mk) in
  ret (read_dinode buf (inum mod IPB * sizeof_dinode) inode0).

Definition ialloc_mk (type : Z) : M image Z :=
  let* inum := gets freeinode in
  do modify (fun s => s <| freeinode ::= fun n => u32 (n + 1) |>) ;;;
  do winode inum (inode0 <| i_type := type |> <| i_nlink := 1 |> <| i_size := 0 |>) ;;;
  ret inum.

Definition new_block : M image Z :=
  let* b := gets freeblock in
  do modify (fun s => s <| freeblock ::= fun n => u32 (n + 1) |>) ;;;
  ret b.

(** The address of block [fbn] of the file, allocated when there is none. *)
Definition block_of (din : inode) (fbn : Z) : M image (inode * Z) :=
  if fbn <? NDIRECT
  then
    let* din := (if at_ 0 (i_addrs din) fbn =? 0
                 then let* b := new_block in ret (din <| i_addrs ::= fun l => upd l fbn b |>)
                 else ret din) in
    ret (din, at_ 0 (i_addrs din) fbn)
  else
    let* din := (if at_ 0 (i_addrs din) NDIRECT =? 0
                 then let* b := new_block in ret (din <| i_addrs ::= fun l => upd l NDIRECT b |>)
                 else ret din) in
    let a := at_ 0 (i_addrs din) NDIRECT in
    let o := 4 * (fbn - NDIRECT) in
    let* indirect := rsect a in
    let* indirect := (if load 4 indirect o =? 0
                      then
                        let* b := new_block in
                        let indirect := store 4 indirect o b in
                        do wsect a indirect ;;; ret indirect
                      else ret indirect) in
    ret (din, load 4 indirect o).

(** Every turn stores at least one byte. *)
Fixpoint iappend_loop (k : nat) (din : inode) (off : Z) (p : list Z) : M image (inode * Z) :=
  match k with
  | O => panic "iappend: fuel"
  | S k' =>
    let n := Z.of_nat (length p) in
    if 0 <? n
    then
      let fbn := off / BSIZE in
      if negb (fbn <? MAXFILE) then panic "assert fbn < MAXFILE"
      else
        let* '(din, x) := block_of din fbn in
        let n1 := Z.min n ((fbn + 1) * BSIZE - off) in
        let* buf := rsect x in
        do wsect x (splice buf (off - fbn * BSIZE) (take (Z.to_nat n1) p)) ;;;
        iappend_loop k' din (u32 (off + n1)) (drop (Z.to_nat n1) p)
    else ret (din, off)
  end.

Definition iappend (inum : Z) (p : list Z) : M image unit :=
  let* din := rinode inum in
  let* '(din, off) := iappend_loop (S (length p)) din (i_size din) p in
  winode inum (din <| i_size := off |>).

(** ** The bitmap *)

Fixpoint mark_first (k : nat) (i : Z) (buf : list Z) : list Z :=
  match k with
  | O => buf
  | S k' => mark_first k' (i + 1) (mark_bit buf i)
  end.

Definition balloc_mk (used : Z) : M image unit :=
  if negb (used <? BSIZE * 8) then panic "assert used < BSIZE*8"
  else wsect (bmapstart sb_mk) (mark_first (Z.to_nat used) 0 zeros).

(** ** main *)

(** The bytes of the number in the byte order of the disk. *)
Definition xshort (x : Z) : list Z := [u8 x; u8 (Z.shiftr x 8)].

(** A directory entry: the number and at most [DIRSIZ] characters, zeros after. *)
Definition dirent_mk (inum : Z) (name : list Z) : list Z := xshort inum ++ take 14 (name ++ repeat 0 14).

(** The bytes of the prefix [user/], and the character [_]. *)
Definition user_prefix : list Z := [117; 115; 101; 114; 47].
Definition UNDERSCORE : Z := 95.

Definition shortname (arg : list Z) : list Z :=
  if bool_decide (take 5 arg = user_prefix) then drop 5 arg else arg.

Definition skip_underscore (name : list Z) : list Z :=
  match name with
  | c :: rest => if c =? UNDERSCORE then rest else name
  | [] => name
  end.

Fixpoint append_all (inum : Z) (pieces : list (list Z)) : M image unit :=
  match pieces with
  | [] => ret tt
  | p :: rest => do iappend inum p ;;; append_all inum rest
  end.

(** One file of the command line; [None] when it cannot be opened. *)
Definition add_file (rootino : Z) (arg : list Z) (file : option (list (list Z))) : M image unit :=
  let name := shortname arg in
  if bool_decide (SLASH ∈ name) then panic "assert index(shortname, '/') == 0"
  else
    match file with
    | None => panic "open"
    | Some pieces =>
      let name := skip_underscore name in
      let* inum := ialloc_mk T_FILE in
      do iappend rootino (dirent_mk inum name) ;;;
      append_all inum pieces
    end.

Fixpoint add_files (rootino : Z) (files : list (list Z * option (list (list Z)))) : M image unit :=
  match files with
  | [] => ret tt
  | (arg, file) :: rest => do add_file rootino arg file ;;; add_files rootino rest
  end.

Fixpoint clear_sectors (k : nat) (i : Z) : M image unit :=
  match k with
  | O => ret tt
  | S k' => do wsect i zeros ;;; clear_sectors k' (i + 1)
  end.

(** [memmove(buf, &sb, sizeof(sb))] into a block of zeros. *)
Definition sb_block : list Z :=
  store_words [magic sb_mk; sb_size sb_mk; nblocks sb_mk; ninodes sb_mk; nlog sb_mk; logstart sb_mk; inodestart sb_mk; bmapstart sb_mk] zeros 0.

Definition mkfs_main (files : list (list Z * option (list (list Z)))) : M image unit :=
  do modify (fun s => s <| freeblock := nmeta |>) ;;;
  do clear_sectors (Z.to_nat FSSIZE) 0 ;;;
  do wsect 1 sb_block ;;;
  let* rootino := ialloc_mk T_DIR in
  if negb (rootino =? ROOTINO) then panic "assert rootino == ROOTINO"
  else
    do iappend rootino (dirent_mk rootino [46]) ;;;
    do iappend rootino (dirent_mk rootino [46; 46]) ;;;
    do add_files rootino files ;;;
    let* din := rinode rootino in
    let off := u32 ((i_size din / BSIZE + 1) * BSIZE) in
    do winode rootino (din <| i_size := off |>) ;;;
    let* used := gets freeblock in
    balloc_mk (i32 used).
