(* ===== verification/MkfsProps.v ===== *)
(** * What mkfs promises to the kernel

    The image of [mkfs] has the layout the kernel expects, every file in it has
    blocks of its own, and the kernel reads back from each file the bytes that
    were put in. *)

From Stdlib Require Import ZArith Lia List.
From stdpp Require Import base tactics numbers list functions sets strings.
From S2P Require Import Prelude Riscv CString Blocks RamBlocks Sleeplock Fs FsFacts FsContent FsIo FsProps Mkfs.

(** ** Disk inodes *)

(** An inode as it is on the disk: nothing of the kernel's, fields in range. *)
Record disk_inode (i : inode) : Prop := {
  di_form : i = mkInode 0 0 0 (mkSleeplock 0 0) 0 (i_type i) (i_major i) (i_minor i) (i_nlink i) (i_size i) (i_addrs i);
  di_type : - 2 ^ 15 <= i_type i < 2 ^ 15;
  di_major : - 2 ^ 15 <= i_major i < 2 ^ 15;
  di_minor : - 2 ^ 15 <= i_minor i < 2 ^ 15;
  di_nlink : - 2 ^ 15 <= i_nlink i < 2 ^ 15;
  di_size : 0 <= i_size i < 2 ^ 32;
  di_len : length (i_addrs i) = 13%nat;
  di_addrs : Forall (fun a => 0 <= a < 2 ^ 32) (i_addrs i)
}.

Lemma load_store_words_ne k l d o a : a + Z.of_nat k <= o \/ o + 4 * Z.of_nat (length l) <= a -> load k (store_words l d o) a = load k d a.
Proof.
  revert d o. induction l as [|v l IH]; intros d o C; cbn [store_words length] in *; [done|]. rewrite IH by lia. apply load_store_ne. lia.
Qed.

Lemma load_words_store l d o : Forall (fun a => 0 <= a < 2 ^ 32) l -> 0 <= o -> o + 4 * Z.of_nat (length l) <= Z.of_nat (length d) ->
  load_words (length l) (store_words l d o) o = l.
Proof.
  revert d o. induction l as [|v l IH]; intros d o F Ho Hl; cbn [store_words load_words length] in *; [done|]. apply Forall_cons in F as [Fv F].
  rewrite IH by (done || rewrite ?length_store; lia). f_equal. rewrite load_store_words_ne by lia. rewrite load_store_eq by (intros; unfold inb, bytes_store; lia).
  by apply Z.mod_small.
Qed.

Lemma load_words_ext k d d' o : (forall a, o <= a -> a + 4 <= o + 4 * Z.of_nat k -> load 4 d a = load 4 d' a) -> load_words k d o = load_words k d' o.
Proof.
  revert o. induction k as [|k IH]; intros o E; cbn [load_words]; [done|]. rewrite (E o) by lia. f_equal. apply IH. intros a A B. apply E; lia.
Qed.

Lemma i16_store d o v : - 2 ^ 15 <= v < 2 ^ 15 -> 0 <= o -> o + 2 <= Z.of_nat (length d) -> i16 (load 2 (store 2 d o v) o) = v.
Proof.
  intros R Ho Hl. rewrite load_store_eq by (intros; unfold inb, bytes_store; lia). change (256 ^ Z.of_nat 2) with (2 ^ 16).
  unfold i16. rewrite Z.add_mod_idemp_l by lia. rewrite Z.mod_small by lia. lia.
Qed.

Lemma read_dinode_eq d o : read_dinode d o inode0 =
  mkInode 0 0 0 (mkSleeplock 0 0) 0 (i16 (load 2 d o)) (i16 (load 2 d (o + 2))) (i16 (load 2 d (o + 4))) (i16 (load 2 d (o + 6)))
    (load 4 d (o + 8)) (load_words 13 d (o + 12)).
Proof. done. Qed.

Ltac other_field := repeat first [rewrite load_store_words_ne by (rewrite ?length_store; lia)|rewrite load_store_ne by lia].

Lemma read_write_dinode d o i : disk_inode i -> 0 <= o -> o + 64 <= Z.of_nat (length d) -> read_dinode (write_dinode d o i) o inode0 = i.
Proof.
  intros [E T Ma Mi Nl Sz Ln Ad] Ho Hl. rewrite E at 2. rewrite read_dinode_eq. unfold write_dinode. f_equal.
  1-4: other_field; apply i16_store; rewrite ?length_store; done || lia.
  - other_field. rewrite load_store_eq by (intros; unfold inb, bytes_store; rewrite ?length_store; lia). by apply Z.mod_small.
  - rewrite <- Ln. apply load_words_store; [done|lia|]. rewrite !length_store. lia.
Qed.

Lemma read_write_other d o o' i : length (i_addrs i) = 13%nat -> o' + 64 <= o \/ o + 64 <= o' ->
  read_dinode (write_dinode d o i) o' inode0 = read_dinode d o' inode0.
Proof.
  intros Ln C. rewrite !read_dinode_eq. unfold write_dinode.
  assert (L : forall k a, a + Z.of_nat k <= o \/ o + 64 <= a ->
    load k (store_words (i_addrs i) (store 4 (store 2 (store 2 (store 2 (store 2 d o (i_type i)) (o + 2) (i_major i)) (o + 4) (i_minor i)) (o + 6) (i_nlink i)) (o + 8) (i_size i)) (o + 12)) a = load k d a).
  { intros k a Ca. other_field. done. }
  rewrite !L by lia. f_equal. apply load_words_ext. intros a A B. apply L. lia.
Qed.

Lemma read_is_disk d o : disk_inode (read_dinode d o inode0).
Proof.
  rewrite read_dinode_eq. assert (H : forall a, - 2 ^ 15 <= i16 a < 2 ^ 15) by (intros a; unfold i16; zdm).
  split; cbn [i_type i_major i_minor i_nlink i_size i_addrs]; try done.
  - pose proof (load_range 4 d (o + 8)). exact H0.
  - generalize 13%nat. intros k. generalize (o + 12). induction k as [|k IH]; intros a; cbn [load_words]; [constructor|]. constructor; [|apply IH].
    exact (load_range 4 d a).
Qed.

(** C30: whatever bytes a block holds, every field of the inode at [o] is in the range
    of its C type and there are 13 addresses; an inode with fields in range is read
    back after it was written, and the inodes elsewhere in the block are as before. *)
Theorem dinode_typed d o :
  disk_inode (read_dinode d o inode0) /\
  (forall i, disk_inode i -> 0 <= o -> o + sizeof_dinode <= Z.of_nat (length d) ->
    read_dinode (write_dinode d o i) o inode0 = i /\
    (forall o', o' + sizeof_dinode <= o \/ o + sizeof_dinode <= o' -> read_dinode (write_dinode d o i) o' inode0 = read_dinode d o' inode0)).
Proof.
  split; [apply read_is_disk|]. intros i Di Ho Hl. split; [by apply read_write_dinode|]. intros o' C. apply read_write_other; [apply Di|exact C].
Qed.

(** ** Files in an image *)

Definition at_img (f : Z -> list Z) : fstate ramdisk := mkFstate (mkRamdisk f) sb_mk [].
Definition sl (f : Z -> list Z) (i : inode) (n : Z) : Z := slot (at_img f) i n.

Definition len (l : list Z) : Z := Z.of_nat (length l).

(** [b] is the first block that is free; the inodes from 1 up to [N] are [D], the
    files have the contents [C]. *)
Record minv (f : Z -> list Z) (b N : Z) (D : Z -> inode) (C : Z -> list Z) : Prop := {
  v_len : forall k, length (f k) = 1024%nat;
  v_zero : forall k, b <= k -> f k = zeros;
  v_next : nmeta <= b;
  v_addrs : forall j, 1 <= j < N -> length (i_addrs (D j)) = 13%nat;
  v_range : forall j n, 1 <= j < N -> 0 <= n <= nslots -> sl f (D j) n = 0 \/ nmeta <= sl f (D j) n < b;
  v_fill : forall j n, 1 <= j < N -> 0 <= n -> n * 1024 < len (C j) -> sl f (D j) n <> 0;
  v_byte : forall j off, 1 <= j < N -> in_file off -> fbyte (at_img f) (D j) off = at_ 0 (C j) off;
  v_max : forall j, 1 <= j < N -> len (C j) <= MAXFILE * BSIZE;
  v_inj : forall j j' n n', 1 <= j < N -> 1 <= j' < N -> 0 <= n <= nslots -> 0 <= n' <= nslots ->
    sl f (D j) n <> 0 -> sl f (D j) n = sl f (D j') n' -> j = j' /\ n = n'
}.

Lemma slot_ext f f' i n : (sl f i nslots <> 0 -> f' (sl f i nslots) = f (sl f i nslots)) -> sl f' i n = sl f i n.
Proof.
  unfold sl, slot. change (fview (at_img f')) with f'. change (fview (at_img f)) with f. change (nslots <? 12) with false. change (nslots =? nslots) with true. cbn match.
  intros E. destruct (n <? 12), (n =? nslots); try done. destruct (Z.eqb_spec (at_ 0 (i_addrs i) 12) 0); [done|]. by rewrite E.
Qed.

(** A slot that was empty gets the next free block; of the blocks in use only
    the indirect block of the same file may change. *)
Section SetSlot.
Context f b N D C (I : minv f b N D C) (j k : Z) (i' : inode) (f' : Z -> list Z) (Rj : 1 <= j < N) (Rk : 0 <= k <= nslots) (K0 : sl f (D j) k = 0).
Context (Sl : forall n, 0 <= n <= nslots -> sl f' i' n = if n =? k then b else sl f (D j) n) (La : length (i_addrs i') = 13%nat).
Context (Lf : forall m, length (f' m) = 1024%nat) (Sm : forall m, sl f (D j) nslots = 0 \/ m <> sl f (D j) nslots -> f' m = f m).

Lemma set_same j' n : 1 <= j' < N -> j' <> j -> sl f' (D j') n = sl f (D j') n.
Proof using All.
  intros Rj' Nj. apply slot_ext. intros N0. apply Sm. destruct (Z.eq_dec (sl f (D j) nslots) 0) as [|Nz]; [by left|right].
  intros E. destruct (v_inj _ _ _ _ _ I j' j nslots nslots) as [-> _]; try done.
Qed.

(** Blocks that hold data are as before. *)
Lemma set_data_same j' n : 1 <= j' < N -> 0 <= n < nslots -> sl f (D j') n <> 0 -> f' (sl f (D j') n) = f (sl f (D j') n).
Proof using All.
  intros Rj' Rn N0. apply Sm. destruct (Z.eq_dec (sl f (D j) nslots) 0) as [|Nz]; [by left|right].
  intros E. destruct (v_inj _ _ _ _ _ I j' j n nslots) as [_ E']; try done; [unfold nslots in *; lia..|]. lia.
Qed.

Lemma set_slot : minv f' (b + 1) N (<[j := i']> D) C.
Proof using All.
  assert (Bp : 0 < b) by (pose proof (v_next _ _ _ _ _ I) as Hb; change nmeta with 46 in Hb; lia).
  assert (Sn : forall j' n, 1 <= j' < N -> 0 <= n <= nslots ->
    sl f' (<[j := i']> D j') n = if (j' =? j) && (n =? k) then b else sl f (D j') n).
  { intros j' n Rj' Rn. destruct (Z.eqb_spec j' j) as [->|Nj]; cbn [andb]; [rewrite fn_lookup_insert; by apply Sl|].
    rewrite fn_lookup_insert_ne by congruence. by apply set_same. }
  assert (Hz : forall m, b <= m -> f' m = zeros).
  { intros m Hm. rewrite Sm; [by apply I|]. destruct (v_range _ _ _ _ _ I j nslots Rj ltac:(done)); [by left|right; lia]. }
  split.
  - done.
  - intros m Hm. apply Hz. lia.
  - pose proof (v_next _ _ _ _ _ I). lia.
  - intros j' Rj'. destruct (Z.eq_dec j' j) as [->|Nj]; [by rewrite fn_lookup_insert|]. rewrite fn_lookup_insert_ne by congruence. by apply I.
  - intros j' n Rj' Rn. rewrite Sn by done. pose proof (v_next _ _ _ _ _ I). destruct ((j' =? j) && (n =? k)); [right; lia|].
    destruct (v_range _ _ _ _ _ I j' n Rj' Rn); [by left|right; lia].
  - intros j' n Rj' Rn Hn. pose proof (v_max _ _ _ _ _ I j' Rj') as Mx. change (MAXFILE * BSIZE) with 274432 in Mx. rewrite Sn by (done || unfold nslots; lia).
    destruct ((j' =? j) && (n =? k)); [lia|]. by apply (v_fill _ _ _ _ _ I).
  - intros j' off Rj' Ro. rewrite <- (v_byte _ _ _ _ _ I j' off Rj' Ro). pose proof (in_file_slot off Ro) as Rs.
    unfold fbyte. change (slot (at_img f')) with (sl f'). change (slot (at_img f)) with (sl f). change (fview (at_img f')) with f'. change (fview (at_img f)) with f.
    rewrite Sn by lia. destruct (Z.eqb_spec j' j) as [->|Nj]; cbn [andb].
    + destruct (Z.eqb_spec (off / BSIZE) k) as [Ek|Nk].
      * rewrite Ek, K0. cbn. destruct (b =? 0); [done|]. rewrite Hz by lia. apply at_zeros.
      * destruct (Z.eqb_spec (sl f (D j) (off / BSIZE)) 0); [done|]. by rewrite set_data_same.
    + destruct (Z.eqb_spec (sl f (D j') (off / BSIZE)) 0); [done|]. by rewrite set_data_same.
  - apply I.
  - intros j1 j2 n1 n2 R1 R2 Q1 Q2. rewrite !Sn by done.
    assert (Nb : forall j' n, 1 <= j' < N -> 0 <= n <= nslots -> sl f (D j') n <> b) by (intros j' n A B; destruct (v_range _ _ _ _ _ I j' n A B); lia).
    destruct (Z.eqb_spec j1 j) as [->|], (Z.eqb_spec n1 k) as [->|], (Z.eqb_spec j2 j) as [->|], (Z.eqb_spec n2 k) as [->|]; cbn [andb]; intros N0 E;
      try done; try (by apply (v_inj _ _ _ _ _ I)); try (by symmetry in E; apply Nb in E); by apply Nb in E.
Qed.
End SetSlot.

(** ** Appending *)

Lemma at_app_lt (l l' : list Z) i : i < len l -> at_ 0 (l ++ l') i = at_ 0 l i.
Proof. intros Hi. unfold at_, len in *. destruct (Z.leb_spec 0 i); [|done]. apply app_nth1. lia. Qed.

Lemma at_app_ge (l l' : list Z) i : len l <= i -> at_ 0 (l ++ l') i = at_ 0 l' (i - len l).
Proof.
  intros Hi. unfold at_, len in *. destruct (Z.leb_spec 0 i); [|lia]. destruct (Z.leb_spec 0 (i - Z.of_nat (length l))); [|lia].
  rewrite app_nth2 by lia. f_equal. lia.
Qed.

Lemma at_ge (l : list Z) i : len l <= i -> at_ 0 l i = 0.
Proof. intros Hi. unfold at_, len in *. destruct (Z.leb_spec 0 i); [|done]. apply nth_overflow. lia. Qed.

Lemma len_app l l' : len (l ++ l') = len l + len l'.
Proof. unfold len. rewrite length_app. lia. Qed.

Section Write.
Context f b N D C (I : minv f b N D C) (j : Z) (p : list Z) (Rj : 1 <= j < N).
Let L := len (C j).
Let x := sl f (D j) (L / 1024).
Let f' := <[x := splice (f x) (L mod 1024) p]> f.
Context (X0 : x <> 0) (Fit : L mod 1024 + len p <= 1024) (Mx : L + len p <= MAXFILE * BSIZE) (P0 : 0 < len p).

Lemma slot_number : 0 <= L / 1024 < nslots.
Proof using All. unfold L, nslots in *. change (MAXFILE * BSIZE) with 274432 in Mx. unfold len in *. split; [apply Z.div_pos; lia|apply Z.div_lt_upper_bound; lia]. Qed.

Lemma write_slots j' n : 1 <= j' < N -> sl f' (D j') n = sl f (D j') n.
Proof using All.
  intros Rj'. pose proof slot_number as Rs. apply slot_ext. intros N0. unfold f'. apply fn_lookup_insert_ne. intros E.
  destruct (v_inj _ _ _ _ _ I j j' (L / 1024) nslots) as [_ E']; try done; lia.
Qed.

Lemma write_data : minv f' b N D (<[j := C j ++ p]> C).
Proof using All.
  pose proof slot_number as Rs. destruct (v_range _ _ _ _ _ I j (L / 1024) Rj ltac:(lia)) as [|Rx]; [done|]. fold x in Rx.
  pose proof (Z.mod_pos_bound L 1024 ltac:(lia)) as Rm. assert (Lx : Z.of_nat (length (f x)) = 1024) by (rewrite (v_len _ _ _ _ _ I); done).
  split.
  - intros k. unfold f'. destruct (Z.eq_dec k x) as [->|Nk]; [|rewrite fn_lookup_insert_ne by congruence; apply I].
    rewrite fn_lookup_insert, length_splice; [apply I|lia|unfold len in Fit; lia].
  - intros k Hk. unfold f'. rewrite fn_lookup_insert_ne by lia. by apply I.
  - apply I.
  - apply I.
  - intros j' n Rj' Rn. rewrite write_slots by done. by apply I.
  - intros j' n Rj' Rn Hn. rewrite write_slots by done. destruct (Z.eq_dec j' j) as [->|Nj].
    + rewrite fn_lookup_insert, len_app in Hn. fold L in Hn. destruct (Z.lt_ge_cases (n * 1024) L) as [Hl|Hl]; [by apply (v_fill _ _ _ _ _ I)|].
      assert (n = L / 1024) as ->; [|done]. zdm.
    + rewrite fn_lookup_insert_ne in Hn by congruence. by apply (v_fill _ _ _ _ _ I).
  - intros j' off Rj' Ro. pose proof (in_file_slot off Ro) as Rso. pose proof (v_byte _ _ _ _ _ I j' off Rj' Ro) as Ob. revert Ob.
    unfold fbyte. change (slot (at_img f')) with (sl f'). change (slot (at_img f)) with (sl f). change (fview (at_img f')) with f'. change (fview (at_img f)) with f.
    rewrite write_slots by done. intros Ob. change BSIZE with 1024 in *.
    destruct (Z.eq_dec j' j) as [->|Nj].
    + rewrite fn_lookup_insert. destruct (Z.eq_dec (off / 1024) (L / 1024)) as [E|Ne].
      * rewrite E in Ob |- *. fold x in Ob |- *. destruct (Z.eqb_spec x 0); [done|]. unfold f'. rewrite fn_lookup_insert.
        rewrite at_splice by (done || lia || (unfold len in *; lia) || (apply Z.mod_pos_bound; lia)).
        fold (len p). rewrite Ob.
        assert (Eo : off - L = off mod 1024 - L mod 1024) by (pose proof (Z.div_mod off 1024 ltac:(lia)); pose proof (Z.div_mod L 1024 ltac:(lia)); lia).
        destruct (Z.leb_spec (L mod 1024) (off mod 1024)) as [A|A]; cbn [andb]; [|by rewrite at_app_lt by (fold L; lia)].
        rewrite at_app_ge by (fold L; lia). fold L. rewrite Eo.
        destruct (Z.ltb_spec (off mod 1024) (L mod 1024 + len p)) as [B|B]; [done|]. rewrite !at_ge by (fold L; lia). done.
      * assert (Dx : sl f (D j) (off / 1024) <> 0 -> f' (sl f (D j) (off / 1024)) = f (sl f (D j) (off / 1024))).
        { intros N0. apply fn_lookup_insert_ne. intros Ex. destruct (v_inj _ _ _ _ _ I j j (L / 1024) (off / 1024)) as [_ E']; done || lia. }
        destruct (Z.eqb_spec (sl f (D j) (off / 1024)) 0) as [|N0]; [|rewrite Dx by done]; (etransitivity; [exact Ob|]).
        all: destruct (Z.lt_ge_cases off L) as [Lt|Ge]; [by rewrite at_app_lt|]; rewrite at_app_ge by done; fold L; rewrite !at_ge by (fold L; done || zdm); done.
    + rewrite fn_lookup_insert_ne by congruence. destruct (Z.eqb_spec (sl f (D j') (off / 1024)) 0) as [|N0]; [done|].
      rewrite <- Ob. f_equal. apply fn_lookup_insert_ne. intros Ex. destruct (v_inj _ _ _ _ _ I j j' (L / 1024) (off / 1024)) as [E' _]; done || lia.
  - intros j' Rj'. destruct (Z.eq_dec j' j) as [->|Nj]; [rewrite fn_lookup_insert, len_app; done|]. rewrite fn_lookup_insert_ne by congruence. by apply I.
  - intros j1 j2 n1 n2 R1 R2 Q1 Q2. rewrite !write_slots by done. by apply I.
Qed.
End Write.

(** ** The address of a block *)

Lemma minv_ext f b N D D' C C' : (forall j, D' j = D j) -> (forall j, C' j = C j) -> minv f b N D C -> minv f b N D' C'.
Proof. intros E E' [I1 I2 I3 I4 I5 I6 I7 I8 I9]. split; try done; intros *; rewrite ?E, ?E'; auto. Qed.

Lemma fn_insert_twice {A} (f : Z -> A) j x y k : <[j := y]> (<[j := x]> f) k = <[j := y]> f k.
Proof. destruct (Z.eq_dec k j) as [->|N]; [by rewrite !fn_lookup_insert|by rewrite !fn_lookup_insert_ne]. Qed.

Lemma fn_insert_id {A} (f : Z -> A) j k : <[j := f j]> f k = f k.
Proof. destruct (Z.eq_dec k j) as [->|N]; [by rewrite fn_lookup_insert|by rewrite fn_lookup_insert_ne]. Qed.

Lemma slot_direct f i k : k < 12 -> sl f i k = at_ 0 (i_addrs i) k.
Proof. intros Hk. unfold sl, slot. by destruct (Z.ltb_spec k 12); [|lia]. Qed.

Lemma slot_entry f i k : 12 <= k < nslots -> at_ 0 (i_addrs i) 12 <> 0 -> sl f i k = load 4 (f (at_ 0 (i_addrs i) 12)) (4 * (k - 12)).
Proof.
  intros Hk N0. unfold sl, slot. destruct (Z.ltb_spec k 12); [lia|]. destruct (Z.eqb_spec k nslots); [lia|]. by destruct (Z.eqb_spec (at_ 0 (i_addrs i) 12) 0).
Qed.

Lemma slot_no_entry f i k : 12 <= k < nslots -> at_ 0 (i_addrs i) 12 = 0 -> sl f i k = 0.
Proof.
  intros Hk N0. unfold sl, slot. destruct (Z.ltb_spec k 12); [lia|]. destruct (Z.eqb_spec k nslots); [lia|]. by rewrite N0.
Qed.

(** The number of the block in the address array of the inode: [q] for the slot [k]. *)
Definition addr_slot (q k : Z) : Prop := (0 <= k < 12 /\ q = k) \/ (k = nslots /\ q = 12).

Lemma slot_addr f i q k : addr_slot q k -> sl f i k = at_ 0 (i_addrs i) q.
Proof. intros [(A & ->)|(-> & ->)]; [apply slot_direct; lia|done]. Qed.

Definition fresh (a : Z) : Z := if a =? 0 then 1 else 0.

Lemma new_block_run f fi b : 0 <= b -> b + 1 < 2 ^ 32 -> new_block (mkImage f fi b) = Ok b (mkImage f fi (b + 1)).
Proof. intros B0 B1. transitivity (Ok b (mkImage f fi (u32 (b + 1)))); [done|]. rewrite u32_small by lia. done. Qed.

Lemma addr_run f b N D C fi j q k : minv f b N D C -> 1 <= j < N -> addr_slot q k -> b + 1 < 2 ^ 32 ->
  exists din', (if at_ 0 (i_addrs (D j)) q =? 0
                then let* b := new_block in ret ((D j) <| i_addrs ::= fun l => upd l q b |>)
                else ret (D j)) (mkImage f fi b) = Ok din' (mkImage f fi (b + fresh (sl f (D j) k))) /\
    minv f (b + fresh (sl f (D j) k)) N (<[j := din']> D) C /\ din' = (D j) <| i_addrs := i_addrs din' |> /\ sl f din' k <> 0 /\
    (forall n, 0 <= n <= nslots -> n <> k -> sl f din' n = sl f (D j) n).
Proof.
  intros I Rj Q Lb. pose proof (slot_addr f (D j) q k Q) as Ek. rewrite <- Ek. unfold fresh. destruct (Z.eqb_spec (sl f (D j) k) 0) as [K0|K0].
  2: { exists (D j). rewrite Z.add_0_r. split; [done|]. split; [|split; [by destruct (D j)|done]]. by eapply minv_ext; [apply fn_insert_id| |exact I]. }
  pose proof (v_next _ _ _ _ _ I) as Hb. change nmeta with 46 in Hb. pose proof (v_addrs _ _ _ _ _ I j Rj) as La.
  set (din' := (D j) <| i_addrs ::= fun l => upd l q b |>). assert (Ea : i_addrs din' = upd (i_addrs (D j)) q b) by done.
  assert (Sl : forall n, 0 <= n <= nslots -> sl f din' n = if n =? k then b else sl f (D j) n).
  { intros n Rn. assert (Rq : 0 <= q < 13) by (destruct Q as [(? & ->)|(? & ->)]; unfold nslots in *; lia).
    destruct (Z.eqb_spec n k) as [->|Nk]; [rewrite (slot_addr f din' q k Q), Ea; apply at_upd_eq; lia|].
    destruct (Z.lt_ge_cases n 12) as [Hn|Hn]; [rewrite !slot_direct, Ea by done; apply at_upd_ne; destruct Q as [(? & ->)|(? & ->)]; lia|].
    destruct Q as [(? & ->)|(-> & ->)].
    - unfold sl, slot. rewrite Ea, !at_upd_ne by lia. done.
    - rewrite (slot_no_entry f (D j)) by (done || unfold nslots in *; lia). rewrite slot_entry; [|unfold nslots in *; lia|rewrite Ea, at_upd_eq; lia].
      rewrite Ea, at_upd_eq by lia. rewrite (v_zero _ _ _ _ _ I) by lia. apply load_zeros. }
  exists din'. split; [rewrite (bind_ok _ _ _ _ _ (new_block_run f fi b ltac:(lia) Lb)); done|]. split; [|split; [done|split]].
  - apply (set_slot f b N D C I j k din' f Rj); try done; [destruct Q as [(? & _)|(-> & _)]; unfold nslots; lia|rewrite Ea, length_upd; done|apply I].
  - destruct Q as [(? & _)|(-> & _)]; rewrite Sl by (unfold nslots; lia); rewrite Z.eqb_refl; lia.
  - intros n Rn Nk. rewrite Sl by done. by destruct (Z.eqb_spec n k).
Qed.

Lemma indirect_run f b N D C fi j k : minv f b N D C -> 1 <= j < N -> 12 <= k < nslots -> b + 1 < 2 ^ 32 -> at_ 0 (i_addrs (D j)) 12 <> 0 -> b <= FSSIZE ->
  let a := at_ 0 (i_addrs (D j)) 12 in let o := 4 * (k - 12) in
  exists d' f', (let* d := rsect a in
                 if load 4 d o =? 0 then let* b := new_block in let d := store 4 d o b in do wsect a d ;;; ret d else ret d) (mkImage f fi b) =
      Ok d' (mkImage f' fi (b + fresh (sl f (D j) k))) /\ load 4 d' o = sl f' (D j) k /\
    minv f' (b + fresh (sl f (D j) k)) N D C /\ sl f' (D j) k <> 0 /\ (forall m, m < nmeta -> f' m = f m).
Proof.
  intros I Rj Rk Lb A0 Lf a o. pose proof (slot_entry f (D j) k Rk A0) as Ek. fold a o in Ek. pose proof (v_next _ _ _ _ _ I) as Hb. change nmeta with 46 in Hb.
  assert (Ra : nmeta <= a < b) by (destruct (v_range _ _ _ _ _ I j nslots Rj ltac:(done)) as [E|E]; [by destruct A0|exact E]).
  unfold bind at 1, rsect. destruct (Z.ltb_spec a FSSIZE); [|lia]. cbn [gets img]. rewrite <- Ek. unfold fresh. destruct (Z.eqb_spec (sl f (D j) k) 0) as [K0|K0].
  2: { exists (f a), f. rewrite Z.add_0_r. split; [done|]. split; [done|]. done. }
  set (d' := store 4 (f a) o b). exists d', (<[a := d']> f).
  assert (Ld : length d' = 1024%nat) by (unfold d'; rewrite length_store; apply I).
  assert (Le : forall n, 12 <= n < nslots -> load 4 d' (4 * (n - 12)) = if n =? k then b else load 4 (f a) (4 * (n - 12))).
  { intros n Rn. unfold d', o. unfold nslots in *. destruct (Z.eqb_spec n k) as [->|Nk]; [|apply load_store_ne; lia].
    rewrite load_store_eq; [apply Z.mod_small; lia|]. intros i Hi. unfold inb, bytes_store. rewrite (v_len _ _ _ _ _ I). lia. }
  assert (Sl : forall n, 0 <= n <= nslots -> sl (<[a := d']> f) (D j) n = if n =? k then b else sl f (D j) n).
  { intros n Rn. destruct (Z.lt_ge_cases n 12); [rewrite !slot_direct by done; destruct (Z.eqb_spec n k); [lia|done]|].
    destruct (Z.eq_dec n nslots) as [->|Nn]; [destruct (Z.eqb_spec nslots k); [lia|done]|].
    rewrite !slot_entry by (done || lia). fold a. rewrite fn_lookup_insert. apply Le. lia. }
  split; [rewrite (bind_ok _ _ _ _ _ (new_block_run f fi b ltac:(lia) Lb)); done|]. split; [etransitivity; [exact (Le k Rk)|]; rewrite Sl by lia; rewrite !Z.eqb_refl; done|]. split; [|split].
  - assert (S' : minv (<[a := d']> f) (b + 1) N (<[j := D j]> D) C).
    { apply (set_slot f b N D C I j k (D j) (<[a := d']> f) Rj ltac:(lia) K0 Sl); [by apply I| |].
      - intros m. destruct (Z.eq_dec m a) as [->|Nm]; [by rewrite fn_lookup_insert|rewrite fn_lookup_insert_ne by congruence; apply I].
      - intros m [E|E]; [by destruct A0|]. apply fn_lookup_insert_ne. intros <-. by apply E. }
    eapply minv_ext; [|done|exact S']. intros j'. by rewrite fn_insert_id.
  - rewrite Sl by lia. rewrite Z.eqb_refl. lia.
  - intros m Hm. apply fn_lookup_insert_ne. lia.
Qed.

(** The blocks a file of [L] bytes takes. *)
Definition need (L : Z) : Z := (L + 1023) / 1024 + (if 12288 <? L then 1 else 0).

Lemma need_mono L L' : L <= L' -> need L <= need L'.
Proof.
  intros H. unfold need. assert ((L + 1023) / 1024 <= (L' + 1023) / 1024) by (apply Z.div_le_mono; lia). destruct (Z.ltb_spec 12288 L), (Z.ltb_spec 12288 L'); lia.
Qed.

Lemma need_step k : need (1024 * k) + 1 <= need (1024 * k + 1).
Proof.
  unfold need. assert ((1024 * k + 1023) / 1024 = k) as -> by zdm. assert ((1024 * k + 1 + 1023) / 1024 = k + 1) as -> by zdm.
  destruct (Z.ltb_spec 12288 (1024 * k)), (Z.ltb_spec 12288 (1024 * k + 1)); lia.
Qed.

Section Block.
Context f b N D C (fi : Z) (I : minv f b N D C) (j : Z) (Rj : 1 <= j < N).
Let L := len (C j).
Let k := L / 1024.
Context (Lm : L < MAXFILE * BSIZE) (Bd : b + need (L + 1) - need L <= FSSIZE).

Lemma file_block : 0 <= k < nslots.
Proof using All. unfold k, nslots. change (MAXFILE * BSIZE) with 274432 in Lm. assert (0 <= L) by (unfold L, len; lia). split; [apply Z.div_pos; lia|apply Z.div_lt_upper_bound; lia]. Qed.

(** A block that is missing starts where the file ends. *)
Lemma missing_at_end n : 0 <= n <= k -> sl f (D j) n = 0 -> L = 1024 * n.
Proof using All.
  intros Rn E. destruct (Z.lt_ge_cases (n * 1024) L) as [A|A]; [|unfold k in Rn; zdm].
  by destruct (v_fill _ _ _ _ _ I j n Rj ltac:(lia) A).
Qed.

Lemma direct_cost : fresh (sl f (D j) k) <= need (L + 1) - need L.
Proof using All.
  unfold fresh. pose proof file_block. destruct (Z.eqb_spec (sl f (D j) k) 0) as [E|_]; [|pose proof (need_mono L (L + 1)); lia].
  rewrite (missing_at_end k) by (done || lia). pose proof (need_step k). lia.
Qed.

Lemma indirect_cost : 12 <= k -> fresh (sl f (D j) nslots) + fresh (sl f (D j) k) <= need (L + 1) - need L.
Proof using All.
  intros Hk. pose proof file_block. unfold fresh at 1. destruct (Z.eqb_spec (sl f (D j) nslots) 0) as [E|_]; [|pose proof direct_cost; lia].
  assert (L = 12288) as -> by (apply (missing_at_end 12); [lia|by apply slot_no_entry]). unfold fresh. change (need (12288 + 1) - need 12288) with 2. destruct (_ =? _); lia.
Qed.

Lemma block_of_run : exists din' f' b', block_of (D j) k (mkImage f fi b) = Ok (din', sl f' din' k) (mkImage f' fi b') /\
  minv f' b' N (<[j := din']> D) C /\ din' = (D j) <| i_addrs := i_addrs din' |> /\ sl f' din' k <> 0 /\
  b <= b' <= b + need (L + 1) - need L /\ (forall m, m < nmeta -> f' m = f m).
Proof using All.
  pose proof file_block as Rk. assert (Fr : forall a, 0 <= fresh a <= 1) by (intros a; unfold fresh; destruct (a =? 0); lia).
  change FSSIZE with 2000 in Bd. unfold block_of. change NDIRECT with 12. destruct (Z.ltb_spec k 12) as [Hk|Hk].
  - pose proof direct_cost as Dc. pose proof (need_mono L (L + 1)).
    destruct (addr_run f b N D C fi j k k I Rj) as (din' & E & M & Ei & N0 & _); [left; lia|lia|].
    exists din', f, (b + fresh (sl f (D j) k)). rewrite (bind_ok _ _ _ _ _ E). unfold ret. rewrite <- (slot_direct f din' k) by done.
    specialize (Fr (sl f (D j) k)). split_and!; done || lia.
  - pose proof (indirect_cost Hk) as Dc. pose proof (need_mono L (L + 1)). pose proof (Fr (sl f (D j) nslots)) as F1. pose proof (Fr (sl f (D j) k)) as F2.
    destruct (addr_run f b N D C fi j 12 nslots I Rj) as (din1 & E1 & M1 & Ei1 & N1 & S1); [by right|lia|].
    rewrite (bind_ok _ _ _ _ _ E1). set (b1 := b + fresh (sl f (D j) nslots)) in *.
    destruct (indirect_run f b1 N _ C fi j k M1 Rj) as (d' & f' & E2 & El & M2 & N2 & Kp); rewrite ?fn_lookup_insert; try done; try lia.
    { change FSSIZE with 2000. lia. }
    rewrite fn_lookup_insert in E2, El, M2, N2. rewrite S1 in E2, M2 by lia. unfold bind at 1 in E2. unfold bind at 1.
    destruct (rsect (at_ 0 (i_addrs din1) 12) (mkImage f fi b1)) as [d s1| |]; [|done..]. rewrite (bind_ok _ _ _ _ _ E2). unfold ret. rewrite El.
    exists din1, f', (b1 + fresh (sl f (D j) k)). split_and!; done || lia.
Qed.
End Block.

(** ** iappend *)

(** One turn of the loop stores [q] in the last block of the file. *)
Lemma append_turn {A} f b N D C fi j q (g : inode -> M image A) : minv f b N D C -> 1 <= j < N ->
  let L := len (C j) in 0 < len q -> L mod 1024 + len q <= 1024 -> L + len q <= MAXFILE * BSIZE -> b + need (L + len q) - need L <= FSSIZE ->
  exists din' f' b', (let* '(din, x) := block_of (D j) (L / 1024) in let* buf := rsect x in do wsect x (splice buf (L mod 1024) q) ;;; g din) (mkImage f fi b) =
      g din' (mkImage f' fi b') /\
    minv f' b' N (<[j := din']> D) (<[j := C j ++ q]> C) /\ din' = (D j) <| i_addrs := i_addrs din' |> /\
    b <= b' <= b + need (L + len q) - need L /\ (forall m, m < nmeta -> f' m = f m).
Proof.
  intros I Rj L P0 Fit Mx Bd. assert (L0 : 0 <= L) by (unfold L, len; lia). change FSSIZE with 2000 in Bd.
  pose proof (need_mono (L + 1) (L + len q) ltac:(lia)) as M1. pose proof (need_mono L (L + 1) ltac:(lia)) as M3.
  destruct (block_of_run f b N D C fi I j Rj) as (din1 & f1 & b1 & E1 & I1 & Ei1 & N1 & Rb1 & Kp1).
  { fold L. lia. } { fold L. change FSSIZE with 2000. lia. }
  fold L in E1, N1, Rb1. rewrite (bind_ok _ _ _ _ _ E1). cbv beta iota. set (x := sl f1 din1 (L / 1024)) in *.
  pose proof (write_data f1 b1 N _ C I1 j q Rj) as W. pose proof (slot_number f1 b1 N _ C I1 j q Rj) as Rs. rewrite fn_lookup_insert in W, Rs. fold L x in W, Rs.
  specialize (W N1 Fit Mx P0). specialize (Rs N1 Fit Mx P0).
  assert (Rx : nmeta <= x < b1) by (destruct (v_range _ _ _ _ _ I1 j (L / 1024) Rj ltac:(lia)) as [E|E]; rewrite fn_lookup_insert in E; done).
  unfold bind at 1, rsect. change FSSIZE with 2000. destruct (Z.ltb_spec x 2000); [|lia]. cbn [gets img].
  exists din1, (<[x := splice (f1 x) (L mod 1024) q]> f1), b1. split; [done|]. split; [exact W|]. split; [done|]. split; [lia|].
  intros m Hm. rewrite fn_lookup_insert_ne by lia. by apply Kp1.
Qed.

(** The bytes of a turn: up to the end of the block. *)
Lemma piece_fits L n1 n : 0 <= L -> n1 = Z.min n ((L / 1024 + 1) * 1024 - L) -> 0 < n -> 0 < n1 <= n /\ L mod 1024 + n1 <= 1024 /\ L - L / 1024 * 1024 = L mod 1024.
Proof. intros L0 -> N0. pose proof (Z.div_mod L 1024 ltac:(lia)). pose proof (Z.mod_pos_bound L 1024 ltac:(lia)). lia. Qed.

Lemma iappend_loop_run N j fi (k : nat) f b D C p : minv f b N D C -> 1 <= j < N -> (length p < k)%nat ->
  let L := len (C j) in L + len p <= MAXFILE * BSIZE -> b + need (L + len p) - need L <= FSSIZE ->
  exists din' f' b', iappend_loop k (D j) L p (mkImage f fi b) = Ok (din', L + len p) (mkImage f' fi b') /\
    minv f' b' N (<[j := din']> D) (<[j := C j ++ p]> C) /\ din' = (D j) <| i_addrs := i_addrs din' |> /\
    b <= b' <= b + need (L + len p) - need L /\ (forall m, m < nmeta -> f' m = f m).
Proof.
  revert f b D C p. induction k as [|k IH]; intros f b D C p I Rj Hk L Mx Bd; [lia|]. cbn [iappend_loop]. fold (len p).
  destruct (Z.ltb_spec 0 (len p)) as [P0|P0].
  2: { assert (p = []) as -> by (destruct p; [done|unfold len in P0; cbn in P0; lia]). exists (D j), f, b. unfold ret. change (len []) with 0. rewrite Z.add_0_r, app_nil_r.
       split; [done|]. split; [by eapply minv_ext; [apply fn_insert_id|apply fn_insert_id|]|]. split; [by destruct (D j)|]. split; [lia|done]. }
  change BSIZE with 1024. assert (L0 : 0 <= L) by (unfold L, len; lia). change (MAXFILE * BSIZE) with 274432 in Mx. change FSSIZE with 2000 in Bd.
  assert (L / 1024 < MAXFILE) by (change MAXFILE with 268; apply Z.div_lt_upper_bound; lia). destruct (Z.ltb_spec (L / 1024) MAXFILE); [cbn [negb]|lia].
  remember (Z.min (len p) ((L / 1024 + 1) * 1024 - L)) as n1 eqn:En1. destruct (piece_fits L n1 (len p) L0 En1 P0) as (R1 & Fit & Eo). rewrite Eo.
  pose proof (need_mono (L + n1) (L + len p) ltac:(lia)) as M2.
  set (q := take (Z.to_nat n1) p). assert (Lq : len q = n1) by (unfold q, len in *; rewrite length_take; lia).
  set (r := drop (Z.to_nat n1) p). assert (Lr : len r = len p - n1) by (unfold r, len in *; rewrite length_drop; lia).
  destruct (append_turn f b N D C fi j q (fun din => iappend_loop k din (u32 (L + n1)) r) I Rj) as (d1 & f1 & b1 & E1 & I1 & Ei1 & Rb1 & Kp1);
    fold L; rewrite ?Lq; try lia; [change (MAXFILE * BSIZE) with 274432; lia|change FSSIZE with 2000; lia|].
  fold L in E1, Rb1. rewrite Lq in Rb1.
  assert (Lc : len (C j ++ q) = L + n1) by (rewrite len_app, Lq; done).
  destruct (IH f1 b1 _ _ r I1 Rj) as (d2 & f2 & b2 & E2 & I2 & Ei2 & Rb2 & Kp2); rewrite ?fn_lookup_insert, ?Lc, ?Lr.
  { unfold len in *. lia. } { change (MAXFILE * BSIZE) with 274432. lia. } { change FSSIZE with 2000. replace (L + n1 + (len p - n1)) with (L + len p) by lia. lia. }
  rewrite !fn_lookup_insert in *. rewrite Lc, Lr in *. replace (L + n1 + (len p - n1)) with (L + len p) in * by lia.
  exists d2, f2, b2. split; [etransitivity; [exact E1|]; rewrite u32_small by lia; exact E2|]. split; [|split; [by rewrite Ei2, Ei1|split; [lia|]]].
  - eapply minv_ext; [| |exact I2]; intros j'; [by rewrite fn_insert_twice|]. rewrite fn_insert_twice, <- app_assoc. unfold q, r. by rewrite take_drop.
  - intros m Hm. by rewrite Kp2, Kp1.
Qed.

(** ** The inodes of the image *)

Definition on_disk (f : Z -> list Z) (j : Z) : inode := read_dinode (f (IBLOCK j sb_mk)) (j mod IPB * sizeof_dinode) inode0.

(** The blocks that the files 1 to [n] need. *)
Fixpoint total (n : nat) (C : Z -> list Z) : Z :=
  match n with
  | O => 0
  | S n' => total n' C + need (len (C (Z.of_nat (S n'))))
  end.

Record mk_ok (f : Z -> list Z) (b N : Z) (D : Z -> inode) (C : Z -> list Z) : Prop := {
  g_inv : minv f b N D C;
  g_disk : forall j, 1 <= j < N -> on_disk f j = D j;
  g_size : forall j, 1 <= j < N -> i_size (D j) = len (C j);
  g_type : forall j, 1 <= j < N -> i_type (D j) = if j =? 1 then T_DIR else T_FILE;
  g_link : forall j, 1 <= j < N -> i_nlink (D j) = 1;
  g_super : f 1 = sb_block;
  g_log : forall k, 2 <= k < 32 -> f k = zeros;
  g_next : b <= nmeta + total (Z.to_nat (N - 1)) C;
  g_inodes : 1 <= N <= NINODES
}.

Lemma total_insert n j c C : 1 <= j -> total n (<[j := c]> C) = total n C + if j <=? Z.of_nat n then need (len c) - need (len (C j)) else 0.
Proof.
  intros Hj. induction n as [|n IH]; cbn [total]; [destruct (Z.leb_spec j (Z.of_nat 0)); lia|]. rewrite IH.
  destruct (Z.eq_dec (Z.of_nat (S n)) j) as [<-|Ne].
  - rewrite fn_lookup_insert. destruct (Z.leb_spec (Z.of_nat (S n)) (Z.of_nat n)), (Z.leb_spec (Z.of_nat (S n)) (Z.of_nat (S n))); lia.
  - rewrite fn_lookup_insert_ne by congruence. destruct (Z.leb_spec j (Z.of_nat n)), (Z.leb_spec j (Z.of_nat (S n))); lia.
Qed.

(** Inode blocks lie before the data blocks. *)
Lemma inode_block j : 0 <= j <= NINODES -> IBLOCK j sb_mk = 32 + j / 16 /\ 32 <= 32 + j / 16 < 45 /\ 0 <= j mod IPB * sizeof_dinode <= 960.
Proof.
  change NINODES with 200. intros Rj. change IPB with 16. change sizeof_dinode with 64. assert (0 <= j / 16 <= 12) by zdm. pose proof (Z.mod_pos_bound j 16 ltac:(lia)).
  split; [|lia]. unfold IBLOCK. change IPB with 16. change (inodestart sb_mk) with 32. rewrite u32_small by lia. lia.
Qed.

Lemma minv_low f f' b N D C : (forall m, nmeta <= m -> f' m = f m) -> (forall m, length (f' m) = 1024%nat) -> minv f b N D C -> minv f' b N D C.
Proof.
  intros Eq Ln I. pose proof (v_next _ _ _ _ _ I) as Hn.
  assert (Sl : forall j n, 1 <= j < N -> sl f' (D j) n = sl f (D j) n).
  { intros j n Rj. apply slot_ext. intros N0. apply Eq. destruct (v_range _ _ _ _ _ I j nslots Rj ltac:(done)); [done|lia]. }
  split; try done; try apply I.
  - intros k Hk. rewrite Eq by lia. by apply I.
  - intros j n Rj Rn. rewrite Sl by done. by apply I.
  - intros j n Rj Rn Hn'. rewrite Sl by done. by apply (v_fill _ _ _ _ _ I).
  - intros j off Rj Ro. rewrite <- (v_byte _ _ _ _ _ I j off Rj Ro). pose proof (in_file_slot off Ro) as Rs. unfold fbyte.
    change (slot (at_img f')) with (sl f'). change (slot (at_img f)) with (sl f). change (fview (at_img f')) with f'. change (fview (at_img f)) with f. rewrite Sl by done.
    destruct (Z.eqb_spec (sl f (D j) (off / BSIZE)) 0) as [|N0]; [done|]. rewrite Eq; [done|]. destruct (v_range _ _ _ _ _ I j (off / BSIZE) Rj ltac:(lia)); [done|lia].
  - intros j j' n n' R1 R2 R3 R4. rewrite !Sl by done. by apply I.
Qed.

Lemma rinode_run f fi b j : 0 <= j <= NINODES -> rinode j (mkImage f fi b) = Ok (on_disk f j) (mkImage f fi b).
Proof.
  intros Rj. destruct (inode_block j Rj) as (E & R & _). unfold rinode, bind, rsect. rewrite E. change FSSIZE with 2000. destruct (Z.ltb_spec (32 + j / 16) 2000); [|lia].
  cbn [gets]. unfold ret, on_disk. by rewrite E.
Qed.

Lemma winode_run f fi b j i : 0 <= j <= NINODES -> (forall m, length (f m) = 1024%nat) -> disk_inode i ->
  exists f', winode j i (mkImage f fi b) = Ok tt (mkImage f' fi b) /\ on_disk f' j = i /\ (forall m, length (f' m) = 1024%nat) /\
    (forall j', 0 <= j' <= NINODES -> j' <> j -> on_disk f' j' = on_disk f j') /\ (forall m, m < 32 \/ 45 <= m -> f' m = f m).
Proof.
  intros Rj Ln Di. destruct (inode_block j Rj) as (E & R & O). unfold winode, bind, rsect. rewrite E. change FSSIZE with 2000. destruct (Z.ltb_spec (32 + j / 16) 2000); [|lia].
  cbn [gets img]. set (d := write_dinode _ _ _). exists (<[32 + j / 16 := d]> f). split; [done|].
  assert (Ld : length d = 1024%nat) by (unfold d; rewrite length_write_dinode; apply Ln). split; [|split; [|split]].
  - unfold on_disk. rewrite E, fn_lookup_insert. apply read_write_dinode; [done|lia|rewrite Ln; lia].
  - intros m. destruct (Z.eq_dec m (32 + j / 16)) as [->|Nm]; [by rewrite fn_lookup_insert|by rewrite fn_lookup_insert_ne].
  - intros j' Rj' Nj. destruct (inode_block j' Rj') as (E' & R' & O'). unfold on_disk. rewrite E'. destruct (Z.eq_dec (j' / 16) (j / 16)) as [Eb|Nb].
    + rewrite Eb, fn_lookup_insert. apply read_write_other; [apply Di|]. change IPB with 16. change sizeof_dinode with 64. pose proof (Z.div_mod j 16 ltac:(lia)). pose proof (Z.div_mod j' 16 ltac:(lia)). lia.
    + by rewrite fn_lookup_insert_ne by lia.
  - intros m Hm. rewrite fn_lookup_insert_ne by lia. done.
Qed.

Lemma no_blocks f i n : i_addrs i = repeat 0 13 -> 0 <= n <= nslots -> sl f i n = 0.
Proof.
  intros Ea Rn. assert (A : forall q, at_ 0 (repeat 0 13) q = 0).
  { intros q. unfold at_. destruct (0 <=? q); [|done]. rewrite nth_lookup. destruct (repeat 0 13 !! Z.to_nat q) as [x|] eqn:E; [|done].
    apply list_elem_of_lookup_2, list_elem_of_In, repeat_spec in E. by subst. }
  unfold sl, slot. rewrite Ea, !A. by destruct (n <? 12), (n =? nslots).
Qed.

(** A new inode has no blocks. *)
Lemma minv_new f b N D C i : 1 <= N -> i_addrs i = repeat 0 13 -> minv f b N D C -> minv f b (N + 1) (<[N := i]> D) (<[N := []]> C).
Proof.
  intros N1 Ea I. pose proof (fun n => no_blocks f i n Ea) as S0.
  assert (Or : forall j, 1 <= j < N + 1 -> (j = N /\ <[N := i]> D j = i /\ <[N := []]> C j = []) \/ (1 <= j < N /\ <[N := i]> D j = D j /\ <[N := []]> C j = C j)).
  { intros j Rj. destruct (Z.eq_dec j N) as [->|Nj]; [left; by rewrite !fn_lookup_insert|right; rewrite !fn_lookup_insert_ne by congruence; split; [lia|done]]. }
  split; try apply I.
  - intros j Rj. destruct (Or j Rj) as [(_ & -> & _)|(R & -> & _)]; [by rewrite Ea|by apply I].
  - intros j n Rj Rn. destruct (Or j Rj) as [(_ & -> & _)|(R & -> & _)]; [left; by apply S0|by apply I].
  - intros j n Rj Rn. destruct (Or j Rj) as [(_ & -> & ->)|(R & -> & ->)]; [change (len []) with 0; lia|by apply I].
  - intros j off Rj Ro. pose proof (in_file_slot off Ro) as Rs. destruct (Or j Rj) as [(_ & -> & ->)|(R & -> & ->)]; [|by apply I].
    unfold fbyte. change (slot (at_img f)) with (sl f). rewrite S0 by lia. unfold at_. by destruct (0 <=? off), (Z.to_nat off).
  - intros j Rj. destruct (Or j Rj) as [(_ & _ & ->)|(R & _ & ->)]; [done|by apply I].
  - intros j j' n n' R1 R2 R3 R4. destruct (Or j R1) as [(_ & -> & _)|(Q1 & -> & _)]; [by rewrite S0|].
    destruct (Or j' R2) as [(_ & -> & _)|(Q2 & -> & _)]; [rewrite (S0 n') by done; done|by apply I].
Qed.

Lemma total_ext n C C' : (forall j, 1 <= j <= Z.of_nat n -> C' j = C j) -> total n C' = total n C.
Proof. intros E. induction n as [|n IH]; cbn [total]; [done|]. rewrite IH by (intros; apply E; lia). by rewrite E by lia. Qed.

Lemma ialloc_run f b N D C type : mk_ok f b N D C -> N < NINODES -> type = (if N =? 1 then T_DIR else T_FILE) ->
  exists f' D', ialloc_mk type (mkImage f N b) = Ok N (mkImage f' (N + 1) b) /\ mk_ok f' b (N + 1) D' (<[N := []]> C).
Proof.
  intros G LN Ty. pose proof (g_inodes _ _ _ _ _ G) as RN. change NINODES with 200 in *. set (i := inode0 <| i_type := type |> <| i_nlink := 1 |> <| i_size := 0 |>).
  assert (Di : disk_inode i) by (split; try done; [destruct (N =? 1); subst type; done|repeat constructor; lia]).
  destruct (winode_run f (N + 1) b N i) as (f' & E & On & Ln & Oth & Kp); [change NINODES with 200; lia|apply G|done|].
  exists f', (<[N := i]> D). split.
  { unfold ialloc_mk. rewrite bind_gets. cbn [freeinode]. unfold bind at 1.
    replace (modify _ (mkImage f N b)) with (Ok (S := image) tt (mkImage f (u32 (N + 1)) b)) by done. rewrite u32_small by lia. rewrite (bind_ok _ _ _ _ _ E). done. }
  assert (Or : forall j, 1 <= j < N + 1 -> (j = N /\ <[N := i]> D j = i /\ <[N := []]> C j = []) \/ (1 <= j < N /\ <[N := i]> D j = D j /\ <[N := []]> C j = C j)).
  { intros j Rj. destruct (Z.eq_dec j N) as [->|Nj]; [left; by rewrite !fn_lookup_insert|right; rewrite !fn_lookup_insert_ne by congruence; split; [lia|done]]. }
  split.
  - eapply minv_low; [|exact Ln|apply minv_new; [lia|done|apply G]]. intros m Hm. change nmeta with 46 in Hm. apply Kp. lia.
  - intros j Rj. destruct (Or j Rj) as [(-> & -> & _)|(R & -> & _)]; [done|]. rewrite Oth by (change NINODES with 200; lia). by apply G.
  - intros j Rj. destruct (Or j Rj) as [(-> & -> & ->)|(R & -> & ->)]; [done|by apply G].
  - intros j Rj. destruct (Or j Rj) as [(-> & -> & _)|(R & -> & _)]; [exact Ty|by apply G].
  - intros j Rj. destruct (Or j Rj) as [(-> & -> & _)|(R & -> & _)]; [done|by apply G].
  - rewrite Kp by lia. apply G.
  - intros k Hk. rewrite Kp by lia. by apply (g_log _ _ _ _ _ G).
  - pose proof (g_next _ _ _ _ _ G) as Hn. replace (Z.to_nat (N + 1 - 1)) with (S (Z.to_nat (N - 1))) by lia. cbn [total].
    replace (Z.of_nat (S (Z.to_nat (N - 1)))) with N by lia. rewrite fn_lookup_insert. change (need (len [])) with 0.
    rewrite (total_ext _ C) by (intros j Hj; apply fn_lookup_insert_ne; lia). lia.
  - change NINODES with 200. lia.
Qed.

Lemma addrs_range f b N D C j : minv f b N D C -> b <= FSSIZE -> 1 <= j < N -> Forall (fun a => 0 <= a < 2 ^ 32) (i_addrs (D j)).
Proof.
  intros I Hb Rj. change FSSIZE with 2000 in Hb. apply Forall_lookup. intros q a Hq. pose proof (v_addrs _ _ _ _ _ I j Rj) as Ln.
  assert (Rq : (q < 13)%nat) by (rewrite <- Ln; by eapply lookup_lt_Some).
  assert (Ea : at_ 0 (i_addrs (D j)) (Z.of_nat q) = a) by (unfold at_; destruct (Z.leb_spec 0 (Z.of_nat q)); [|lia]; rewrite nth_lookup, Nat2Z.id, Hq; done).
  assert (R : a = 0 \/ nmeta <= a < b).
  { destruct (Z.lt_ge_cases (Z.of_nat q) 12) as [A|A].
    - rewrite <- Ea, <- (slot_direct f) by done. apply I; unfold nslots; lia.
    - assert (Z.of_nat q = 12) as Eq by lia. rewrite Eq in Ea. rewrite <- Ea. exact (v_range _ _ _ _ _ I j nslots Rj ltac:(done)). }
  change nmeta with 46 in R. lia.
Qed.

(** The blocks of a file depend on its addresses only. *)
Lemma minv_addrs f b N D D' C : (forall j, 1 <= j < N -> i_addrs (D' j) = i_addrs (D j)) -> minv f b N D C -> minv f b N D' C.
Proof.
  intros E I. assert (Sl : forall j n, 1 <= j < N -> sl f (D' j) n = sl f (D j) n) by (intros j n Rj; unfold sl, slot; by rewrite E).
  split; try apply I.
  - intros j Rj. rewrite E by done. by apply I.
  - intros j n Rj. rewrite Sl by done. by apply I.
  - intros j n Rj. rewrite Sl by done. by apply I.
  - intros j off Rj Ro. rewrite <- (v_byte _ _ _ _ _ I j off Rj Ro). unfold fbyte. change (slot (at_img f)) with (sl f). by rewrite Sl.
  - intros j j' n n' R1 R2. rewrite !Sl by done. by apply I.
Qed.

(** The inode that [iappend] writes back. *)
Lemma appended_inode f b N D C j d1 f1 b1 C1 : mk_ok f b N D C -> 1 <= j < N -> d1 = (D j) <| i_addrs := i_addrs d1 |> ->
  minv f1 b1 N (<[j := d1]> D) C1 -> b1 <= FSSIZE -> forall s, 0 <= s < 2 ^ 32 -> disk_inode (d1 <| i_size := s |>).
Proof.
  intros G Rj Ei I1 Hb s Rs.
  pose proof (read_is_disk (f (IBLOCK j sb_mk)) (j mod IPB * sizeof_dinode)) as [F1 F2 F3 F4 F5 _ _ _]. fold (on_disk f j) in *. rewrite (g_disk _ _ _ _ _ G) in * by done.
  pose proof (v_addrs _ _ _ _ _ I1 j Rj) as La. pose proof (addrs_range _ _ N _ _ j I1 Hb Rj) as Fa. rewrite fn_lookup_insert in La, Fa.
  split; try done; rewrite Ei; try done. by rewrite F1 at 1.
Qed.

Lemma iappend_run f b N D C j p : mk_ok f b N D C -> 1 <= j < N -> len (C j) + len p <= MAXFILE * BSIZE ->
  nmeta + total (Z.to_nat (N - 1)) (<[j := C j ++ p]> C) <= FSSIZE ->
  exists f' b' D', iappend j p (mkImage f N b) = Ok tt (mkImage f' N b') /\ mk_ok f' b' N D' (<[j := C j ++ p]> C).
Proof.
  intros G Rj Mx Bd. pose proof (g_inodes _ _ _ _ _ G) as RN. pose proof (g_next _ _ _ _ _ G) as Hn. rewrite total_insert, len_app in Bd by lia.
  destruct (Z.leb_spec j (Z.of_nat (Z.to_nat (N - 1)))); [|lia].
  destruct (iappend_loop_run N j N (S (length p)) f b D C p) as (d1 & f1 & b1 & E1 & I1 & Ei1 & Rb1 & Kp1); [apply G|done|lia|done|lia|].
  set (d2 := d1 <| i_size := len (C j) + len p |>).
  assert (Di : disk_inode d2) by (apply (appended_inode f b N D C j d1 f1 b1 _ G Rj Ei1 I1); [lia|change (MAXFILE * BSIZE) with 274432 in Mx; unfold len in *; lia]).
  destruct (winode_run f1 N b1 j d2) as (f2 & E2 & On & Ln & Oth & Kp); [lia|apply I1|done|].
  exists f2, b1, (<[j := d2]> D). split.
  { unfold iappend. rewrite (bind_ok _ _ _ _ _ (rinode_run f N b j ltac:(lia))). rewrite (g_disk _ _ _ _ _ G), (g_size _ _ _ _ _ G) by done.
    rewrite (bind_ok _ _ _ _ _ E1). exact E2. }
  assert (Or : forall j', 1 <= j' < N -> (j' = j /\ <[j := d2]> D j' = d2 /\ <[j := C j ++ p]> C j' = C j ++ p) \/ (j' <> j /\ <[j := d2]> D j' = D j' /\ <[j := C j ++ p]> C j' = C j')).
  { intros j' Rj'. destruct (Z.eq_dec j' j) as [->|Nj]; [left; by rewrite !fn_lookup_insert|right; rewrite !fn_lookup_insert_ne by congruence; done]. }
  assert (Lw : forall j', 1 <= j' < N -> on_disk f1 j' = on_disk f j').
  { intros j' Rj'. unfold on_disk. destruct (inode_block j') as (-> & R & _); [lia|]. rewrite Kp1 by (change nmeta with 46; lia). done. }
  split.
  - eapply minv_low; [|exact Ln|]; [intros m Hm; change nmeta with 46 in Hm; apply Kp; lia|].
    eapply minv_addrs; [|exact I1]. intros j' Rj'. destruct (Or j' Rj') as [(-> & -> & _)|(R & -> & _)]; [by rewrite fn_lookup_insert|by rewrite fn_lookup_insert_ne].
  - intros j' Rj'. destruct (Or j' Rj') as [(-> & -> & _)|(R & -> & _)]; [done|]. rewrite Oth, Lw by (done || lia). by apply G.
  - intros j' Rj'. destruct (Or j' Rj') as [(-> & -> & ->)|(R & -> & ->)]; [by rewrite len_app|by apply G].
  - intros j' Rj'. destruct (Or j' Rj') as [(-> & -> & _)|(R & -> & _)]; [|by apply G]. unfold d2. rewrite Ei1. by apply (g_type _ _ _ _ _ G).
  - intros j' Rj'. destruct (Or j' Rj') as [(-> & -> & _)|(R & -> & _)]; [|by apply G]. unfold d2. rewrite Ei1. by apply (g_link _ _ _ _ _ G).
  - rewrite Kp, Kp1 by (change nmeta with 46; lia). apply G.
  - intros k Hk. rewrite Kp, Kp1 by (change nmeta with 46; lia). by apply (g_log _ _ _ _ _ G).
  - rewrite total_insert, len_app by lia. destruct (Z.leb_spec j (Z.of_nat (Z.to_nat (N - 1)))); lia.
  - done.
Qed.

(** ** The files of the command line *)

Lemma mk_ok_ext f b N D C C' : (forall j, C' j = C j) -> mk_ok f b N D C -> mk_ok f b N D C'.
Proof.
  intros E [G1 G2 G3 G4 G5 G6 G7 G8 G9]. split; try done; [by eapply minv_ext; [|exact E|]|intros j Rj; rewrite E; by apply G3|].
  by rewrite (total_ext _ C) by (intros; apply E).
Qed.

Lemma append_all_run N j pieces f b D C : mk_ok f b N D C -> 1 <= j < N -> len (C j ++ concat pieces) <= MAXFILE * BSIZE ->
  nmeta + total (Z.to_nat (N - 1)) C + need (len (C j ++ concat pieces)) - need (len (C j)) <= FSSIZE ->
  exists f' b' D', append_all j pieces (mkImage f N b) = Ok tt (mkImage f' N b') /\ mk_ok f' b' N D' (<[j := C j ++ concat pieces]> C).
Proof.
  revert f b D C. induction pieces as [|p rest IH]; intros f b D C G Rj Mx Bd; cbn [append_all concat] in *.
  { exists f, b, D. split; [done|]. eapply mk_ok_ext; [|exact G]. intros j'. rewrite app_nil_r. apply fn_insert_id. }
  rewrite app_assoc in *. rewrite len_app in Mx. assert (0 <= len (concat rest)) by (unfold len; lia).
  pose proof (need_mono (len (C j ++ p)) (len ((C j ++ p) ++ concat rest)) ltac:(rewrite (len_app _ (concat rest)); lia)) as M1.
  assert (T : total (Z.to_nat (N - 1)) (<[j := C j ++ p]> C) = total (Z.to_nat (N - 1)) C + need (len (C j ++ p)) - need (len (C j))).
  { rewrite total_insert by lia. destruct (Z.leb_spec j (Z.of_nat (Z.to_nat (N - 1)))); lia. }
  destruct (iappend_run f b N D C j p G Rj) as (f1 & b1 & D1 & E1 & G1); [rewrite len_app in Mx; lia|lia|].
  destruct (IH f1 b1 D1 _ G1 Rj) as (f2 & b2 & D2 & E2 & G2); rewrite ?fn_lookup_insert, ?T; [rewrite len_app; lia|lia|].
  exists f2, b2, D2. rewrite (bind_ok _ _ _ _ _ E1). split; [exact E2|]. rewrite fn_lookup_insert in G2. eapply mk_ok_ext; [|exact G2]. intros j'. by rewrite fn_insert_twice.
Qed.

Definition source : Type := list Z * list (list Z).
Definition opened (x : source) : list Z * option (list (list Z)) := (x.1, Some x.2).
Definition entry_name (x : source) : list Z := skip_underscore (shortname x.1).

Lemma len_dirent n name : len (dirent_mk n name) = 16.
Proof. unfold len, dirent_mk, xshort. rewrite length_app, length_take, length_app, repeat_length. cbn [length]. lia. Qed.

Lemma add_file_run f b N D C (x : source) : mk_ok f b N D C -> 2 <= N < NINODES -> SLASH ∉ shortname x.1 -> len (concat x.2) <= MAXFILE * BSIZE ->
  len (C 1) + 16 <= MAXFILE * BSIZE ->
  nmeta + total (Z.to_nat (N - 1)) C + need (len (C 1) + 16) - need (len (C 1)) + need (len (concat x.2)) <= FSSIZE ->
  exists f' b' D', add_file 1 (opened x).1 (opened x).2 (mkImage f N b) = Ok tt (mkImage f' (N + 1) b') /\
    mk_ok f' b' (N + 1) D' (<[1 := C 1 ++ dirent_mk N (entry_name x)]> (<[N := concat x.2]> C)).
Proof.
  intros G RN Sl Mx Mr Bd. unfold add_file, opened. cbn [fst snd]. rewrite bool_decide_eq_false_2 by done.
  destruct (ialloc_run f b N D C T_FILE G) as (f1 & D1 & E1 & G1); [lia|by destruct (Z.eqb_spec N 1); [lia|]|].
  rewrite (bind_ok _ _ _ _ _ E1). set (e := dirent_mk N (entry_name x)). pose proof (len_dirent N (entry_name x)) as Le. fold e in Le.
  assert (P : 0 <= need (len (concat x.2))) by (apply (need_mono 0); unfold len; lia).
  assert (T0 : total (Z.to_nat (N + 1 - 1)) (<[N := []]> C) = total (Z.to_nat (N - 1)) C).
  { replace (Z.to_nat (N + 1 - 1)) with (S (Z.to_nat (N - 1))) by lia. cbn [total]. replace (Z.of_nat (S (Z.to_nat (N - 1)))) with N by lia. rewrite fn_lookup_insert.
    change (need (len [])) with 0. rewrite Z.add_0_r. apply total_ext. intros j Hj. apply fn_lookup_insert_ne. lia. }
  assert (E0 : <[N := []]> C 1 = C 1) by (apply fn_lookup_insert_ne; lia).
  assert (T1 : total (Z.to_nat (N + 1 - 1)) (<[1 := <[N := []]> C 1 ++ e]> (<[N := []]> C)) = total (Z.to_nat (N - 1)) C + need (len (C 1) + 16) - need (len (C 1))).
  { rewrite total_insert, T0 by lia. rewrite E0, len_app, Le. destruct (Z.leb_spec 1 (Z.of_nat (Z.to_nat (N + 1 - 1)))); lia. }
  destruct (iappend_run f1 b (N + 1) D1 _ 1 e G1) as (f2 & b2 & D2 & E2 & G2); [lia|rewrite E0, Le; done|rewrite T1; lia|].
  rewrite (bind_ok _ _ _ _ _ E2). assert (EN : <[1 := <[N := []]> C 1 ++ e]> (<[N := []]> C) N = []) by (rewrite fn_lookup_insert_ne by lia; apply fn_lookup_insert).
  destruct (append_all_run (N + 1) N x.2 f2 b2 D2 _ G2) as (f3 & b3 & D3 & E3 & G3); [lia|rewrite EN; done|rewrite EN, T1; change (need (len [])) with 0; cbn [app]; lia|].
  exists f3, b3, D3. split; [exact E3|]. eapply mk_ok_ext; [|exact G3]. intros j. rewrite EN, E0. cbn [app].
  destruct (Z.eq_dec j 1) as [->|]; [rewrite fn_lookup_insert, fn_lookup_insert_ne, fn_lookup_insert by lia; done|].
  rewrite fn_lookup_insert_ne by congruence. destruct (Z.eq_dec j N) as [->|]; [by rewrite !fn_lookup_insert|]. by rewrite !fn_lookup_insert_ne by congruence.
Qed.

Fixpoint entries (n : Z) (xs : list source) : list Z :=
  match xs with
  | [] => []
  | x :: rest => dirent_mk n (entry_name x) ++ entries (n + 1) rest
  end.

Fixpoint data_blocks (xs : list source) : Z :=
  match xs with
  | [] => 0
  | x :: rest => need (len (concat x.2)) + data_blocks rest
  end.

Definition acceptable (x : source) : Prop := SLASH ∉ shortname x.1 /\ len (concat x.2) <= MAXFILE * BSIZE.

Lemma len_entries n xs : len (entries n xs) = 16 * Z.of_nat (length xs).
Proof. revert n. induction xs as [|x xs IH]; intros n; cbn [entries]; [done|]. rewrite len_app, len_dirent, IH. cbn [length]. lia. Qed.

Lemma data_blocks_pos xs : 0 <= data_blocks xs.
Proof.
  induction xs as [|x xs IH]; cbn [data_blocks]; [lia|]. assert (P : 0 <= need (len (concat x.2))) by (apply (need_mono 0); unfold len; lia). lia.
Qed.

Lemma total_add_file N C e c : 2 <= N ->
  total (Z.to_nat (N + 1 - 1)) (<[1 := C 1 ++ e]> (<[N := c]> C)) = total (Z.to_nat (N - 1)) C + need (len (C 1) + len e) - need (len (C 1)) + need (len c).
Proof.
  intros RN. rewrite total_insert by lia. replace (Z.to_nat (N + 1 - 1)) with (S (Z.to_nat (N - 1))) by lia. cbn [total].
  replace (Z.of_nat (S (Z.to_nat (N - 1)))) with N by lia. rewrite fn_lookup_insert, fn_lookup_insert_ne, len_app by lia.
  rewrite (total_ext _ C) by (intros j Hj; apply fn_lookup_insert_ne; lia). destruct (Z.leb_spec 1 N); lia.
Qed.

Lemma add_files_run xs f b N D C : mk_ok f b N D C -> 2 <= N -> N + Z.of_nat (length xs) <= NINODES -> Forall acceptable xs ->
  len (C 1) + len (entries N xs) <= MAXFILE * BSIZE ->
  nmeta + total (Z.to_nat (N - 1)) C + need (len (C 1) + len (entries N xs)) - need (len (C 1)) + data_blocks xs <= FSSIZE ->
  exists f' b' D' C', add_files 1 (map opened xs) (mkImage f N b) = Ok tt (mkImage f' (N + Z.of_nat (length xs)) b') /\
    mk_ok f' b' (N + Z.of_nat (length xs)) D' C' /\ C' 1 = C 1 ++ entries N xs /\ (forall j, 1 < j < N -> C' j = C j) /\
    (forall i x, xs !! i = Some x -> C' (N + Z.of_nat i) = concat x.2) /\
    total (Z.to_nat (N + Z.of_nat (length xs) - 1)) C' = total (Z.to_nat (N - 1)) C + need (len (C 1) + len (entries N xs)) - need (len (C 1)) + data_blocks xs.
Proof.
  revert f b N D C. induction xs as [|x xs IH]; intros f b N D C G RN Hl F Mx Bd; cbn [map add_files length entries data_blocks] in *.
  { exists f, b, D, C. change (len []) with 0. rewrite !Z.add_0_r, app_nil_r. split_and!; done || lia. }
  apply Forall_cons in F as [[Sl Mf] F]. rewrite len_app, len_dirent in Mx, Bd. assert (0 <= len (entries (N + 1) xs)) by (unfold len; lia). pose proof (data_blocks_pos xs).
  pose proof (need_mono (len (C 1) + 16) (len (C 1) + (16 + len (entries (N + 1) xs))) ltac:(lia)).
  destruct (add_file_run f b N D C x G) as (f1 & b1 & D1 & E1 & G1); [lia|done|done|lia|lia|].
  set (e := dirent_mk N (entry_name x)) in *. assert (Le : len e = 16) by apply len_dirent.
  destruct (IH f1 b1 (N + 1) D1 _ G1) as (f2 & b2 & D2 & C2 & E2 & G2 & R2 & O2 & F2 & T2);
    rewrite ?fn_lookup_insert, ?total_add_file, ?len_app, ?Le by lia; [lia|lia|done|lia|..].
  { replace (len (C 1) + 16 + len (entries (N + 1) xs)) with (len (C 1) + (16 + len (entries (N + 1) xs))) by lia. lia. }
  replace (N + 1 + Z.of_nat (length xs)) with (N + Z.of_nat (S (length xs))) in * by lia.
  exists f2, b2, D2, C2. unfold opened at 1. cbn [fst snd] in *. rewrite (bind_ok _ _ _ _ _ E1). split; [exact E2|]. split; [done|]. split; [|split; [|split]].
  - by rewrite R2, fn_lookup_insert, app_assoc.
  - intros j Rj. rewrite O2 by lia. by rewrite !fn_lookup_insert_ne by lia.
  - intros [|i] y Hy; cbn in Hy.
    + injection Hy as <-. rewrite Z.add_0_r, O2 by lia. rewrite fn_lookup_insert_ne by lia. apply fn_lookup_insert.
    + rewrite <- (F2 i y Hy). f_equal. lia.
  - rewrite T2, total_add_file, fn_lookup_insert, !len_app, Le by lia. replace (len (C 1) + 16 + len (entries (N + 1) xs)) with (len (C 1) + (16 + len (entries (N + 1) xs))) by lia. lia.
Qed.

(** ** main *)

Lemma clear_run k g fi b i : exists f, clear_sectors k i (mkImage g fi b) = Ok tt (mkImage f fi b) /\
  forall m, f m = if (i <=? m) && (m <? i + Z.of_nat k) then zeros else g m.
Proof.
  revert g i. induction k as [|k IH]; intros g i; cbn [clear_sectors].
  - exists g. split; [done|]. intros m. destruct (Z.leb_spec i m), (Z.ltb_spec m (i + Z.of_nat 0)); done || lia.
  - destruct (IH (<[i := zeros]> g) (i + 1)) as (f & E & V). exists f. split; [exact E|]. intros m. rewrite V. destruct (Z.eq_dec m i) as [->|Nm].
    + rewrite fn_lookup_insert. destruct (Z.leb_spec (i + 1) i), (Z.leb_spec i i), (Z.ltb_spec i (i + Z.of_nat (S k))); cbn [andb]; done || lia.
    + rewrite fn_lookup_insert_ne by congruence. destruct (Z.leb_spec (i + 1) m), (Z.leb_spec i m), (Z.ltb_spec m (i + 1 + Z.of_nat k)), (Z.ltb_spec m (i + Z.of_nat (S k))); cbn [andb]; done || lia.
Qed.

(** The image before the first inode. *)
Lemma empty_ok f D C : (forall m, f m = zeros) -> mk_ok (<[1 := sb_block]> f) nmeta 1 D C.
Proof.
  intros V. assert (V' : forall m, m <> 1 -> <[1 := sb_block]> f m = zeros) by (intros m Hm; rewrite fn_lookup_insert_ne by congruence; apply V).
  split; try done; try lia.
  - split; try (intros; lia).
    + intros k. destruct (Z.eq_dec k 1) as [->|Nk]; [by rewrite fn_lookup_insert|by rewrite V'].
    + intros k Hk. change nmeta with 46 in Hk. apply V'. lia.
  - intros k Hk. apply V'. lia.
Qed.

Lemma mark_first_bits k d i : 0 <= i -> i + Z.of_nat k <= 8 * Z.of_nat (length d) ->
  length (mark_first k i d) = length d /\ forall j, bit_set (mark_first k i d) j = ((i <=? j) && (j <? i + Z.of_nat k)) || bit_set d j.
Proof.
  revert d i. induction k as [|k IH]; intros d i Hi Hl; cbn [mark_first].
  - split; [done|]. intros j. destruct (Z.leb_spec i j), (Z.ltb_spec j (i + Z.of_nat 0)); done || lia.
  - assert (Lm : length (mark_bit d i) = length d) by (unfold mark_bit; apply length_bset).
    destruct (IH (mark_bit d i) (i + 1)) as (L1 & B1); [lia|rewrite Lm; lia|]. split; [by rewrite L1|]. intros j. rewrite B1.
    rewrite bit_set_mark by (split; [apply Z.div_pos; lia|apply Z.div_lt_upper_bound; lia]).
    destruct (Z.leb_spec (i + 1) j), (Z.leb_spec i j), (Z.ltb_spec j (i + 1 + Z.of_nat k)), (Z.ltb_spec j (i + Z.of_nat (S k))), (Z.eqb_spec j i); cbn [andb orb]; done || lia.
Qed.

Lemma bit_set_zeros j : bit_set zeros j = false.
Proof.
  unfold bit_set. assert (bget zeros (j / 8) = 0) as ->; [|done]. unfold bget, bytes_store. pose proof (at_zeros (j / 8)) as E. unfold at_ in E. destruct (0 <=? j / 8); [by rewrite E|done].
Qed.

(** The image is complete: [d] is the root inode with its size rounded up. *)
Record image_ok (f : Z -> list Z) (b N : Z) (D : Z -> inode) (C : Z -> list Z) : Prop := {
  k_inv : minv f b N D C;
  k_next : b <= FSSIZE;
  k_disk : forall j, 1 <= j < N -> on_disk f j = D j;
  k_size : forall j, 1 < j < N -> i_size (D j) = len (C j);
  k_root : i_size (D 1) = (len (C 1) / BSIZE + 1) * BSIZE;
  k_type : forall j, 1 <= j < N -> i_type (D j) = if j =? 1 then T_DIR else T_FILE;
  k_link : forall j, 1 <= j < N -> i_nlink (D j) = 1;
  k_super : f 1 = sb_block;
  k_log : forall k, 2 <= k < 32 -> f k = zeros;
  k_used : forall a, 0 <= a < FSSIZE -> used (at_img f) a = (a <? b)
}.

Lemma finish_run f b N D C : mk_ok f b N D C -> 2 <= N -> len (C 1) < MAXFILE * BSIZE -> nmeta + total (Z.to_nat (N - 1)) C <= FSSIZE ->
  exists f' D', (let* din := rinode 1 in
                 let off := u32 ((i_size din / BSIZE + 1) * BSIZE) in
                 do winode 1 (din <| i_size := off |>) ;;;
                 let* used := gets freeblock in
                 balloc_mk (i32 used)) (mkImage f N b) = Ok tt (mkImage f' N b) /\ image_ok f' b N D' C.
Proof.
  intros G RN Mx Bd. pose proof (g_next _ _ _ _ _ G) as Hn. pose proof (v_next _ _ _ _ _ (g_inv _ _ _ _ _ G)) as Hb. change FSSIZE with 2000 in Bd. change nmeta with 46 in Hb.
  rewrite (bind_ok _ _ _ _ _ (rinode_run f N b 1 ltac:(done))). rewrite (g_disk _ _ _ _ _ G), (g_size _ _ _ _ _ G) by lia.
  change (MAXFILE * BSIZE) with 274432 in Mx. change BSIZE with 1024. set (off := (len (C 1) / 1024 + 1) * 1024).
  assert (Ro : 0 <= off < 2 ^ 32) by (unfold off; assert (0 <= len (C 1)) by (unfold len; lia); zdm). cbv zeta. rewrite u32_small by done.
  assert (Di : disk_inode ((D 1) <| i_size := off |>)).
  { apply (appended_inode f b N D C 1 (D 1) f b C G); [lia|by destruct (D 1)| |change FSSIZE with 2000; lia|done].
    eapply minv_ext; [apply fn_insert_id|done|apply G]. }
  destruct (winode_run f N b 1 ((D 1) <| i_size := off |>)) as (f1 & E1 & On & Ln & Oth & Kp); [done|apply G|done|].
  rewrite (bind_ok _ _ _ _ _ E1), bind_gets. cbn [freeblock]. rewrite i32_small by lia. unfold balloc_mk. change (BSIZE * 8) with 8192.
  destruct (Z.ltb_spec b 8192); [cbn [negb]|lia]. set (bm := mark_first (Z.to_nat b) 0 zeros).
  destruct (mark_first_bits (Z.to_nat b) zeros 0) as (Lb & Bb); [lia|change (Z.of_nat (length zeros)) with 1024; lia|]. fold bm in Lb, Bb.
  set (f2 := <[45 := bm]> f1). assert (F2 : forall m, m <> 45 -> f2 m = f1 m) by (intros m Hm; apply fn_lookup_insert_ne; congruence).
  exists f2, (<[1 := (D 1) <| i_size := off |>]> D). split; [done|].
  assert (Or : forall j, 1 <= j < N -> (j = 1 /\ <[1 := (D 1) <| i_size := off |>]> D j = (D 1) <| i_size := off |>) \/ (j <> 1 /\ <[1 := (D 1) <| i_size := off |>]> D j = D j)).
  { intros j Rj. destruct (Z.eq_dec j 1) as [->|Nj]; [left; by rewrite fn_lookup_insert|right; by rewrite fn_lookup_insert_ne]. }
  assert (Od : forall j, 1 <= j < N -> on_disk f2 j = on_disk f1 j).
  { intros j Rj. pose proof (g_inodes _ _ _ _ _ G). unfold on_disk. destruct (inode_block j) as (-> & R & _); [lia|]. by rewrite F2 by lia. }
  pose proof (g_inodes _ _ _ _ _ G) as RN'. split.
  - eapply minv_addrs; [|eapply minv_low; [| |apply G]].
    + intros j Rj. by destruct (Or j Rj) as [(-> & ->)|(_ & ->)].
    + intros m Hm. change nmeta with 46 in Hm. rewrite F2 by lia. apply Kp. lia.
    + intros m. destruct (Z.eq_dec m 45) as [->|Nm]; [unfold f2; rewrite fn_lookup_insert; by rewrite Lb|rewrite F2 by done; apply Ln].
  - change FSSIZE with 2000. lia.
  - intros j Rj. rewrite Od by done. destruct (Or j Rj) as [(-> & ->)|(Nj & ->)]; [done|]. rewrite Oth by lia. by apply G.
  - intros j Rj. destruct (Or j ltac:(lia)) as [(-> & _)|(Nj & ->)]; [lia|]. apply G. lia.
  - rewrite fn_lookup_insert. done.
  - intros j Rj. destruct (Or j Rj) as [(-> & ->)|(Nj & ->)]; by apply (g_type _ _ _ _ _ G).
  - intros j Rj. destruct (Or j Rj) as [(-> & ->)|(Nj & ->)]; by apply (g_link _ _ _ _ _ G).
  - rewrite F2, Kp by lia. apply G.
  - intros k Hk. rewrite F2, Kp by lia. by apply (g_log _ _ _ _ _ G).
  - intros a Ra. change FSSIZE with 2000 in Ra. unfold used, bblock. change (fview (at_img f2)) with f2. change (bmapstart (sb (at_img f2))) with 45. change BPB with 8192.
    rewrite Z.div_small, Z.mod_small by lia. change (0 + 45) with 45. unfold f2. rewrite fn_lookup_insert, Bb, bit_set_zeros, orb_false_r, Z2Nat.id by lia.
    destruct (Z.leb_spec 0 a); [done|lia].
Qed.

Definition root_bytes (xs : list source) : list Z := dirent_mk 1 [46] ++ dirent_mk 1 [46; 46] ++ entries 2 xs.

(** The blocks that an image with these files takes, those of the root directory included. *)
Definition blocks_taken (xs : list source) : Z := nmeta + need (len (root_bytes xs)) + data_blocks xs.

Lemma len_root xs : len (root_bytes xs) = 32 + 16 * Z.of_nat (length xs).
Proof. unfold root_bytes. rewrite !len_app, !len_dirent, len_entries. lia. Qed.

(** The image before the files: the root directory has its first two entries. *)
Lemma root_run g files : (forall k, k < 0 \/ FSSIZE <= k -> g k = zeros) ->
  exists f b D C, mkfs_main files (mkImage g 1 0) =
      (do add_files 1 files ;;;
       let* din := rinode 1 in
       let off := u32 ((i_size din / BSIZE + 1) * BSIZE) in
       do winode 1 (din <| i_size := off |>) ;;;
       let* used := gets freeblock in
       balloc_mk (i32 used)) (mkImage f 2 b) /\
    mk_ok f b 2 D C /\ C 1 = dirent_mk 1 [46] ++ dirent_mk 1 [46; 46].
Proof.
  intros Gz. unfold mkfs_main. unfold bind at 1. replace (modify _ (mkImage g 1 0)) with (Ok (S := image) tt (mkImage g 1 nmeta)) by done. cbv iota beta.
  destruct (clear_run (Z.to_nat FSSIZE) g 1 nmeta 0) as (f0 & E0 & V0). rewrite (bind_ok _ _ _ _ _ E0).
  assert (Z0 : forall m, f0 m = zeros).
  { intros m. rewrite V0, Z2Nat.id by (change FSSIZE with 2000; lia). destruct (Z.leb_spec 0 m), (Z.ltb_spec m (0 + FSSIZE)); cbn [andb]; [reflexivity|apply Gz; lia..]. }
  unfold bind at 1. change (wsect 1 sb_block (mkImage f0 1 nmeta)) with (Ok (S := image) tt (mkImage (<[1 := sb_block]> f0) 1 nmeta)). cbv iota beta.
  pose proof (empty_ok f0 (fun _ => inode0) (fun _ => []) Z0) as G0. set (f1 := <[1 := sb_block]> f0) in *.
  destruct (ialloc_run f1 nmeta 1 _ _ T_DIR G0) as (f2 & D2 & E2 & G2); [done|done|]. rewrite (bind_ok _ _ _ _ _ E2). change (1 + 1) with 2 in *.
  change (negb (1 =? ROOTINO)) with false. cbv iota. set (C2 := <[1 := []]> (fun _ => [])) in *. assert (C21 : C2 1 = []) by done.
  pose proof (len_dirent 1 [46]) as Ld. pose proof (len_dirent 1 [46; 46]) as Ldd. set (d1 := dirent_mk 1 [46]) in *. set (d2 := dirent_mk 1 [46; 46]) in *.
  destruct (iappend_run f2 nmeta 2 D2 C2 1 d1 G2) as (f3 & b3 & D3 & E3 & G3); [done|rewrite C21, Ld; done|rewrite total_insert, C21 by done; rewrite len_app, Ld; done|].
  rewrite (bind_ok _ _ _ _ _ E3). rewrite C21 in G3. cbn [app] in G3.
  destruct (iappend_run f3 b3 2 D3 _ 1 d2 G3) as (f4 & b4 & D4 & E4 & G4); rewrite ?fn_lookup_insert; [done|rewrite Ld, Ldd; done|rewrite total_insert, fn_lookup_insert by done; rewrite len_app, Ld, Ldd, total_insert by done; rewrite Ld; done|].
  rewrite (bind_ok _ _ _ _ _ E4). rewrite fn_lookup_insert in G4. eexists f4, b4, D4, _. split; [done|]. split; [exact G4|apply fn_lookup_insert].
Qed.

Lemma mkfs_run g xs : (forall k, k < 0 \/ FSSIZE <= k -> g k = zeros) -> Z.of_nat (length xs) + 2 <= NINODES -> Forall acceptable xs -> blocks_taken xs <= FSSIZE ->
  exists f b D C, mkfs_main (map opened xs) (mkImage g 1 0) = Ok tt (mkImage f (2 + Z.of_nat (length xs)) b) /\
    image_ok f b (2 + Z.of_nat (length xs)) D C /\ C 1 = root_bytes xs /\ (forall i x, xs !! i = Some x -> C (2 + Z.of_nat i) = concat x.2).
Proof.
  intros Gz Hl F Bd. unfold blocks_taken in Bd. pose proof (len_root xs) as Lr. rewrite Lr in Bd. change NINODES with 200 in Hl. change FSSIZE with 2000 in Bd. change nmeta with 46 in Bd.
  destruct (root_run g (map opened xs) Gz) as (f & b & D & C & -> & G & R).
  assert (L4 : len (C 1) = 32) by (rewrite R, len_app, !len_dirent; done). assert (T4 : total (Z.to_nat (2 - 1)) C = need 32) by (change (0 + need (len (C 1)) = need 32); by rewrite L4).
  destruct (add_files_run xs f b 2 D C G) as (f5 & b5 & D5 & C5 & E5 & G5 & R5 & _ & F5 & T5); rewrite ?L4, ?T4, ?len_entries; [lia|change NINODES with 200; lia|done|..].
  { change (MAXFILE * BSIZE) with 274432. lia. } { change nmeta with 46. change FSSIZE with 2000. lia. }
  rewrite (bind_ok _ _ _ _ _ E5). rewrite R, <- app_assoc in R5. change (C5 1 = root_bytes xs) in R5. rewrite L4, T4, len_entries in T5.
  destruct (finish_run f5 b5 _ D5 C5 G5) as (f6 & D6 & E6 & K); [lia|rewrite R5, Lr; change (MAXFILE * BSIZE) with 274432; lia|rewrite T5; change nmeta with 46; change FSSIZE with 2000; lia|].
  exists f6, b5, D6, C5. done.
Qed.

(** ** The kernel reads the image *)

(** The inode [ilock] leaves in the table. *)
Definition held (f : Z -> list Z) (j : Z) : inode :=
  (on_disk f j) <| i_dev := ROOTDEV |> <| i_inum := j |> <| i_ref := 1 |> <| i_lock := mkSleeplock 1 1 |> <| i_valid := 1 |>.

Lemma held_fields f j : i_addrs (held f j) = i_addrs (on_disk f j) /\ i_size (held f j) = i_size (on_disk f j) /\ i_dev (held f j) = ROOTDEV.
Proof. unfold held. generalize (on_disk f j). intros i. by destruct i. Qed.

Definition booted (f : Z -> list Z) (b : superblock) : fstate ramdisk := mkFstate (mkRamdisk f) b (repeat inode0 50).

Definition mounted (f : Z -> list Z) (j : Z) : fstate ramdisk := mkFstate (mkRamdisk f) sb_mk (held f j :: repeat inode0 49).

(** Mount the file system and open the inode [j]. *)
Definition mount_open (j : Z) : M (fstate ramdisk) Z :=
  do fsinit ROOTDEV ;;;
  let* ip := iget ROOTDEV j in
  do ilock ip ;;;
  ret ip.

Lemma sb_round_trip : sb_of sb_block = sb_mk.
Proof. vm_compute. reflexivity. Qed.

Lemma mount_run f b j : f 1 = sb_block -> i_type (on_disk f j) <> 0 -> mount_open j (booted f b) = Ok 1 (mounted f j).
Proof.
  intros E1 Ty. assert (F : fsinit ROOTDEV (booted f b) = Ok tt (booted f sb_mk)).
  { unfold fsinit. assert (R : readsb ROOTDEV (booted f b) = Ok tt (booted f sb_mk)) by (rewrite <- sb_round_trip, <- E1; done).
    rewrite (bind_ok _ _ _ _ _ R). done. }
  unfold mount_open. rewrite (bind_ok _ _ _ _ _ F).
  set (s1 := mkFstate (mkRamdisk f) sb_mk ((inode0 <| i_dev := ROOTDEV |> <| i_inum := j |> <| i_ref := 1 |> <| i_valid := 0 |>) :: repeat inode0 49)).
  assert (G : iget ROOTDEV j (booted f sb_mk) = Ok 1 s1) by done. rewrite (bind_ok _ _ _ _ _ G).
  assert (I : ilock 1 s1 = (if i_type (on_disk f j) =? 0 then panic "ilock: no type" else ret tt) (mounted f j)) by done.
  apply Z.eqb_neq in Ty. rewrite Ty in I. rewrite (bind_ok _ _ _ _ _ I). reflexivity.
Qed.

Section Kernel.
Context f b N D C (K : image_ok f b N D C) (j : Z) (Rj : 1 <= j < N).

Lemma image_geom : geom (mounted f j).
Proof using All. split; done. Qed.

Lemma image_fsok : fsok (mounted f j).
Proof using All.
  split; [apply image_geom|]. intros i Ri. change (dstart (mounted f j)) with 46 in Ri. change (used (at_img f) i = true). rewrite (k_used _ _ _ _ _ K) by (change FSSIZE with 2000; lia).
  pose proof (v_next _ _ _ _ _ (k_inv _ _ _ _ _ K)) as Hn. change nmeta with 46 in Hn. apply Z.ltb_lt. lia.
Qed.

Lemma held_slot n : slot (mounted f j) (held f j) n = sl f (D j) n.
Proof using All. rewrite <- (k_disk _ _ _ _ _ K) by done. unfold sl, slot. rewrite (proj1 (held_fields f j)). reflexivity. Qed.

Lemma held_byte off : in_file off -> fbyte (mounted f j) (held f j) off = at_ 0 (C j) off.
Proof using All. intros Ro. rewrite <- (v_byte _ _ _ _ _ (k_inv _ _ _ _ _ K) j off Rj Ro). unfold fbyte. rewrite held_slot. reflexivity. Qed.

Lemma held_wf : iwf (mounted f j) (held f j).
Proof using All.
  pose proof (k_inv _ _ _ _ _ K) as I. pose proof (k_next _ _ _ _ _ K) as Hb. change FSSIZE with 2000 in Hb. split.
  - exact (proj2 (proj2 (held_fields f j))).
  - rewrite (proj1 (held_fields f j)), (k_disk _ _ _ _ _ K) by done. by apply I.
  - intros n Rn N0. rewrite held_slot in *. destruct (v_range _ _ _ _ _ I j n Rj Rn) as [|R]; [done|]. change nmeta with 46 in R.
    split; [split; [exact (proj1 R)|change (sb_size (sb (mounted f j))) with 2000; lia]|].
    change (used (at_img f) (sl f (D j) n) = true). rewrite (k_used _ _ _ _ _ K) by (change FSSIZE with 2000; lia). apply Z.ltb_lt. lia.
  - intros n n' Rn Rn' N0. rewrite !held_slot in *. intros E. by apply (v_inj _ _ _ _ _ I j j n n').
Qed.

(** [readi] of [n] bytes from the start, when the file has blocks up to its size. *)
Lemma kernel_reads n : (forall o, 0 <= o < i_size (D j) -> sl f (D j) (o / BSIZE) <> 0) -> 0 <= n <= i_size (D j) -> i_size (D j) <= MAXFILE * BSIZE ->
  exists s, readi whole put_local 1 0 0 n (mounted f j) = Ok (n, map (fun i => at_ 0 (C j) (Z.of_nat i)) (seq 0 (Z.to_nat n))) s.
Proof using All.
  intros Fi Rn Mx. assert (Ei : i_size (inodeat (mounted f j) 1) = i_size (D j)) by (rewrite <- (k_disk _ _ _ _ _ K) by done; exact (proj1 (proj2 (held_fields f j)))).
  change (MAXFILE * BSIZE) with 274432 in Mx.
  destruct (readi_run whole put_local (fun _ => True) 0 n ltac:(intros t l g σ _ _ _; exists σ; done) (mounted f j) (mounted f j) 1 0 n 0) as (s & σ & E & _); rewrite ?Ei; try done; try lia.
  - apply image_fsok.
  - apply held_wf.
  - intros o Ro. change (inodeat (mounted f j) 1) with (held f j). rewrite held_slot. by apply Fi.
  - split; [intros k; apply (k_inv _ _ _ _ _ K)|constructor].
  - rewrite Ei in E. rewrite Z.sub_0_r, Z.min_l in E by lia. exists s. etransitivity; [exact E|]. change (lset whole s σ) with s. do 2 f_equal. unfold content.
    apply map_ext_in. intros i Hi%in_seq. apply held_byte. unfold in_file. change (MAXFILE * BSIZE) with 274432. lia.
Qed.
End Kernel.

Lemma bytes_of (c : list Z) n : len c <= n -> map (fun i => at_ 0 c (Z.of_nat i)) (seq 0 (Z.to_nat n)) = c ++ repeat 0 (Z.to_nat (n - len c)).
Proof.
  intros Hn. assert (Z.to_nat n = length c + Z.to_nat (n - len c))%nat as -> by (unfold len in *; lia). rewrite seq_app, map_app, <- list_at. f_equal.
  rewrite Nat.add_0_l. generalize (Z.to_nat (n - len c)). intros k. assert (A : forall i, (length c <= i)%nat -> at_ 0 c (Z.of_nat i) = 0) by (intros i Hi; apply at_ge; unfold len; lia).
  generalize (length c) A. clear. intros m. revert m. induction k as [|k IH]; intros m A; cbn [seq map repeat]; [done|]. rewrite A by lia. f_equal. apply IH. intros i Hi. apply A. lia.
Qed.

(** C3: for files with acceptable names and sizes that fit, [mkfs] ends with an
    image in which the blocks below the first free one, and no others, are
    marked in the bitmap, the log is empty, every inode is well formed and no
    block belongs to two files; and when the kernel mounts the image and opens
    an inode, [readi] returns the bytes that were put in: those of each file,
    and the entries of the root directory with zeros after them. *)
Theorem mkfs_image_readable g xs :
  (forall k, k < 0 \/ FSSIZE <= k -> g k = zeros) -> Z.of_nat (length xs) + 2 <= NINODES -> Forall acceptable xs -> blocks_taken xs <= FSSIZE ->
  let N := 2 + Z.of_nat (length xs) in
  let L := len (root_bytes xs) in
  let R := (L / BSIZE + 1) * BSIZE in
  exists f b, mkfs_main (map opened xs) (mkImage g 1 0) = Ok tt (mkImage f N b) /\
    (forall a, 0 <= a < FSSIZE -> used (at_img f) a = (a <? b)) /\
    (forall k, 2 <= k < 2 + nlog_mk -> f k = zeros) /\
    (forall j, 1 <= j < N -> fsok (mounted f j) /\ iwf (mounted f j) (held f j)) /\
    (forall j j' n n', 1 <= j < N -> 1 <= j' < N -> 0 <= n <= nslots -> 0 <= n' <= nslots ->
      slot (mounted f j) (held f j) n <> 0 -> slot (mounted f j) (held f j) n = slot (mounted f j') (held f j') n' -> j = j' /\ n = n') /\
    (forall i x sb0, xs !! i = Some x -> exists s,
      (let* ip := mount_open (2 + Z.of_nat i) in readi whole put_local ip 0 0 (len (concat x.2))) (booted f sb0) = Ok (len (concat x.2), concat x.2) s) /\
    (forall sb0, L mod BSIZE <> 0 -> exists s,
      (let* ip := mount_open ROOTINO in readi whole put_local ip 0 0 R) (booted f sb0) = Ok (R, root_bytes xs ++ repeat 0 (Z.to_nat (R - L))) s).
Proof.
  intros Gz Hl F Bd N L R. destruct (mkfs_run g xs Gz Hl F Bd) as (f & b & D & C & E & K & Rt & Fs). fold N in E, K. exists f, b.
  pose proof (k_inv _ _ _ _ _ K) as I. split; [exact E|]. split; [apply K|]. split; [apply (k_log _ _ _ _ _ K)|].
  split; [intros j Rj; split; [by eapply image_fsok|by eapply held_wf]|]. split; [|split].
  - intros j j' n n' Rj Rj' Rn Rn'. rewrite !(held_slot f b N D C K) by done. by apply (v_inj _ _ _ _ _ I).
  - intros i x sb0 Hx. assert (Hi : (i < length xs)%nat) by (by eapply lookup_lt_Some). assert (Ri : 1 < 2 + Z.of_nat i < N) by (unfold N; lia). set (j := 2 + Z.of_nat i) in *. pose proof (Fs i x Hx) as Cj. fold j in Cj.
    assert (Sz : i_size (D j) = len (concat x.2)) by (rewrite (k_size _ _ _ _ _ K), Cj by lia; done). pose proof (v_max _ _ _ _ _ I j ltac:(lia)) as Mx. rewrite Cj in Mx.
    rewrite (bind_ok _ _ _ _ _ (mount_run f sb0 j (k_super _ _ _ _ _ K) ltac:(rewrite (k_disk _ _ _ _ _ K), (k_type _ _ _ _ _ K) by lia; by destruct (j =? 1)))).
    destruct (kernel_reads f b N D C K j ltac:(lia) (len (concat x.2))) as (s & Er); rewrite ?Sz; [|unfold len; lia|done|].
    + intros o Ro. apply (v_fill _ _ _ _ _ I); [lia|change BSIZE with 1024; zdm|rewrite Cj; change BSIZE with 1024; zdm].
    + exists s. rewrite Er, Cj, bytes_of, Z.sub_diag, app_nil_r by lia. reflexivity.
  - intros sb0 Hm. pose proof (len_root xs) as Lr. fold L in Lr. change NINODES with 200 in Hl. assert (R1 : 1 <= 1 < N) by (unfold N; lia).
    assert (Sz : i_size (D 1) = R) by (rewrite (k_root _ _ _ _ _ K), Rt; done). change BSIZE with 1024 in Hm, R. assert (Hr : L <= R <= 5120) by (unfold R; zdm).
    rewrite (bind_ok _ _ _ _ _ (mount_run f sb0 1 (k_super _ _ _ _ _ K) ltac:(rewrite (k_disk _ _ _ _ _ K), (k_type _ _ _ _ _ K) by lia; done))).
    destruct (kernel_reads f b N D C K 1 R1 R) as (s & Er); rewrite ?Sz; [|lia|change (MAXFILE * BSIZE) with 274432; lia|].
    + intros o Ro. apply (v_fill _ _ _ _ _ I); [done|change BSIZE with 1024; zdm|]. rewrite Rt. fold L. change BSIZE with 1024.
      assert (o / 1024 <= L / 1024) by (unfold R in Ro; zdm). pose proof (Z.div_mod L 1024 ltac:(lia)). pose proof (Z.mod_pos_bound L 1024 ltac:(lia)). lia.
    + exists s. rewrite Er, Rt, bytes_of by (fold L; lia). reflexivity.
Qed.

Module MkfsWitness.

(** [user/_sh], read in two pieces. *)
Definition sh_file : source := ([117; 115; 101; 114; 47; 95; 115; 104], [[1; 2]; [3]]).

Lemma mkfs_image_readable_witness :
  exists f b s, mkfs_main (map opened [sh_file]) (mkImage (fun _ => zeros) 1 0) = Ok tt (mkImage f 3 b) /\
    (let* ip := mount_open 2 in readi whole put_local ip 0 0 3) (booted f sb_mk) = Ok (3, [1; 2; 3]) s.
Proof.
  destruct (mkfs_image_readable (fun _ => zeros) [sh_file]) as (f & b & E & _ & _ & _ & _ & F & _).
  - reflexivity.
  - vm_compute. discriminate.
  - constructor; [|constructor]. split; [|vm_compute; discriminate]. intros H. apply list_elem_of_In in H. vm_compute in H. repeat (destruct H as [H|H]; [discriminate|]). exact H.
  - vm_compute. discriminate.
  - destruct (F 0%nat sh_file sb_mk eq_refl) as (s & Es). exists f, b, s. split; [exact E|exact Es].
Defined.

(** The end of the inode table is not looked at: inode 208 lies in the block of the bitmap. *)
Lemma inode_in_bitmap : IBLOCK 208 sb_mk = bmapstart sb_mk.
Proof. reflexivity. Qed.

(** With 62 files the entries fill one block exactly; the root directory is then
    one block longer than the blocks it has. *)
Lemma root_hole : exists f b, mkfs_main (map opened (repeat ([97], []) 62)) (mkImage (fun _ => zeros) 1 0) = Ok tt (mkImage f 64 b) /\
  i_size (on_disk f 1) = 2048 /\ i_addrs (on_disk f 1) = nmeta :: repeat 0 12.
Proof.
  pose (r := mkfs_main (map opened (repeat ([97], []) 62)) (mkImage (fun _ => zeros) 1 0)).
  pose (chk := match r with Ok _ s => (freeinode s =? 64) && (i_size (on_disk (img s) 1) =? 2048) && bool_decide (i_addrs (on_disk (img s) 1) = nmeta :: repeat 0 12) | _ => false end).
  assert (Hc : chk = true) by (vm_compute; reflexivity). unfold chk in Hc. fold r. destruct r as [[] [f n b]| |]; [|discriminate..]. cbn [freeinode img] in Hc.
  apply andb_prop in Hc as [Hc H3]. apply andb_prop in Hc as [H1 H2]. apply Z.eqb_eq in H1, H2. apply bool_decide_eq_true in H3. subst n. exists f, b. split; [reflexivity|]. split; assumption.
Qed.

End MkfsWitness.
