(* ===== verification/MkfsLog.v ===== *)
(** * The log of the image mkfs makes

    The kernel starts on an image of mkfs/mkfs.c: [initlog] finds the log there
    empty, with [nlog] blocks.  That is one block less than [begin_op] and
    [log_write] reserve for the calls they admit. *)

From Stdlib Require Import ZArith Lia List.
From stdpp Require Import base tactics numbers list functions sets strings.
From S2P Require Import Prelude Riscv CString Blocks RamBlocks Sleeplock Fs FsFacts FsContent FsIo FsProps Mkfs MkfsProps Bio BioFacts Log LogFacts LogProps LogBlocks.

(** A call that changes block [k], as the callers in fs.c do. *)
Definition log_block (k : Z) : M lstate unit :=
  let* b := bio (Bio.bread ROOTDEV k) in
  do Log.log_write b ;;;
  bio (Bio.brelse b).

Fixpoint log_blocks (ks : list Z) : M lstate unit :=
  match ks with
  | [] => ret tt
  | k :: ks => do log_block k ;;; log_blocks ks
  end.

(** Blocks are logged one after the other while the log has room. *)
Lemma log_block_run s k : linv s [] -> outstanding s >= 1 -> lh_n s < size s - 1 -> 0 <= k < 2 ^ 31 -> ~ in_log (start s) (size s) k -> k ∉ logged s ->
  exists s', log_block k s = Ok tt s' /\ linv s' [] /\ logged s' = logged s ++ [k] /\ start s' = start s /\ size s' = size s /\ outstanding s' = outstanding s.
Proof.
  intros L O R Rk Nk Nl. pose proof (logged_len _ _ L) as Len. destruct (li_geom _ _ L) as (_ & G & _).
  destruct (bread_spec (bst s) [] (logged s) k (li_binv _ _ L)) as (b & t & E & (I & _ & _ & _ & _ & [_ Kb]%cached_eq & _)); [set_solver|left; cbn [length]; lia|].
  unfold log_block. rewrite (bind_ok _ _ _ _ _ (bio_run _ _ _ _ E)). set (s1 := s <| bst := t |>).
  destruct (log_write_spec s1 [b] b) as (s2 & E2 & L2 & (_ & _ & _ & _ & Sb & S1 & S2 & S3 & _) & Lg);
    [by apply (linv_bst s [])|set_solver|done|done|by change (bst s1) with t; rewrite Kb|by change (bst s1) with t; rewrite Kb|].
  change (bst s1) with t in *. rewrite Kb in Lg. change (logged s1) with (logged s) in Lg. destruct (decide (k ∈ logged s)); [done|].
  rewrite (bind_ok _ _ _ _ _ E2).
  destruct (brelse_spec (bst s2) [] (logged s2) b (li_binv _ _ L2)) as (u & E3 & I3 & _); [left; rewrite (proj2 (Sb b)), Kb, Lg; set_solver|].
  rewrite (bio_run _ _ _ _ E3). eexists. split; [reflexivity|]. split; [by apply (linv_bst s2 [b])|]. done.
Qed.

Lemma log_blocks_run ks : forall s, linv s [] -> outstanding s >= 1 -> lh_n s + Z.of_nat (length ks) <= size s - 1 ->
  Forall (fun k => 0 <= k < 2 ^ 31 /\ ~ in_log (start s) (size s) k) ks -> NoDup (logged s ++ ks) ->
  exists s', log_blocks ks s = Ok tt s' /\ linv s' [] /\ lh_n s' = lh_n s + Z.of_nat (length ks) /\ size s' = size s.
Proof.
  induction ks as [|k ks IH]; intros s L O R F D; cbn [log_blocks length] in *; [exists s; split_and!; [done..|lia|done]|].
  apply Forall_cons in F as [[F1 F2] F]. assert (Nl : k ∉ logged s).
  { apply NoDup_app in D as (_ & D & _). intros X. apply (D k X). set_solver. }
  destruct (log_block_run s k L O ltac:(lia) F1 F2 Nl) as (s1 & E & L1 & G1 & A1 & A2 & A3). rewrite (bind_ok _ _ _ _ _ E).
  pose proof (logged_len _ _ L) as N0. pose proof (logged_len _ _ L1) as N1. rewrite G1, length_app in N1. cbn [length] in N1.
  destruct (IH s1) as (s2 & E2 & L2 & N2 & Z2); rewrite ?A1, ?A2, ?A3, ?G1, <- ?app_assoc; [done|done|lia|done|done|].
  exists s2. split_and!; [done|done|lia|lia].
Qed.

(** With the log full, [log_write] panics. *)
Lemma log_block_full s k : linv s [] -> lh_n s = size s - 1 -> log_block k s = Panic "too big a transaction".
Proof.
  intros L R. pose proof (logged_len _ _ L) as Len. destruct (li_geom _ _ L) as (_ & G & _).
  destruct (bread_spec (bst s) [] (logged s) k (li_binv _ _ L)) as (b & t & E & _); [set_solver|left; cbn [length]; lia|].
  unfold log_block. rewrite (bind_ok _ _ _ _ _ (bio_run _ _ _ _ E)). unfold bind at 1, Log.log_write, bind at 1, get. cbn.
  rewrite R, (i32_small (size s - 1)), Z.leb_refl, orb_true_r by lia. done.
Qed.

Lemma log_blocks_app ks l s s' : log_blocks ks s = Ok tt s' -> log_blocks (ks ++ l) s = log_blocks l s'.
Proof.
  revert s. induction ks as [|k ks IH]; intros s; cbn [app log_blocks]; [by intros [= ->]|]. unfold bind.
  destruct (log_block k s) as [[] s1|m|c s1]; [apply IH|done..].
Qed.

(** The log of an image of mkfs is empty and well formed. *)
Lemma mkfs_dlog f b N D C : image_ok f b N D C -> dlog (logstart (sb_of (f 1))) (nlog (sb_of (f 1))) f.
Proof.
  intros K. rewrite (k_super _ _ _ _ _ K), sb_round_trip. change (dlog 2 30 f).
  assert (Z0 : d_n 2 f = 0) by (unfold d_n; by rewrite (k_log _ _ _ _ _ K 2 ltac:(lia))).
  split; rewrite ?Z0; [lia|lia|lia|constructor|apply (v_len _ _ _ _ _ (k_inv _ _ _ _ _ K))].
Qed.

(** C39: when the kernel starts on any image [mkfs] makes, [initlog] succeeds
    with the log the superblock names, and [begin_op] admits three calls at
    once; when each of them then logs MAXOPBLOCKS different blocks outside the
    metadata, as it may, in any interleaving of the three, [log_write] panics:
    mkfs counts the header in the LOGSIZE blocks of the log, and the kernel
    does not. *)
Theorem log_short_by_one g xs p l1 l2 l3 ks :
  (forall k, k < 0 \/ FSSIZE <= k -> g k = zeros) -> Z.of_nat (length xs) + 2 <= NINODES -> Forall acceptable xs -> blocks_taken xs <= FSSIZE ->
  Forall (fun l => Z.of_nat (length l) = MAXOPBLOCKS) [l1; l2; l3] -> ks ≡ₚ l1 ++ l2 ++ l3 -> NoDup ks -> Forall (fun k => nmeta <= k < FSSIZE) ks ->
  exists f N b s s3, mkfs_main (map opened xs) (mkImage g 1 0) = Ok tt (mkImage f N b) /\
    restart p f (logstart (sb_of (f 1))) (nlog (sb_of (f 1))) = Ok tt s /\
    (do Log.begin_op ;;; do Log.begin_op ;;; Log.begin_op) s = Ok tt s3 /\
    log_blocks ks s3 = Panic "too big a transaction".
Proof.
  intros Gz Hl Fx Bd [L1 [L2 [L3 _]%Forall_cons]%Forall_cons]%Forall_cons P Nd F. destruct (mkfs_run g xs Gz Hl Fx Bd) as (f & b & D & C & E & K & _).
  pose proof (mkfs_dlog _ _ _ _ _ K) as Dl. destruct (restart_run _ _ p f Dl) as (s & Es & L & N0 & S0 & Z0 & O0 & C0 & _).
  rewrite (k_super _ _ _ _ _ K), sb_round_trip in S0, Z0. change (start s = 2) in S0. change (size s = 30) in Z0.
  destruct (three_begin s C0 N0 O0) as [E3 _]. set (s3 := s <| outstanding := 3 |>) in E3. assert (L' : linv s3 []) by (by destruct L; split).
  assert (Len : length ks = 30%nat) by (rewrite P, !length_app; unfold MAXOPBLOCKS in *; lia).
  rewrite <- (take_drop 29 ks) in Nd, F |- *. apply Forall_app in F as [F _]. apply NoDup_app in Nd as (Nd & _).
  destruct (log_blocks_run (take 29 ks) s3 L') as (s4 & E4 & L4 & N4 & Z4).
  - cbn. lia.
  - rewrite length_take. change (size s3) with (size s). change (lh_n s3) with (lh_n s). lia.
  - change (size s3) with (size s). change (start s3) with (start s). rewrite S0, Z0. eapply Forall_impl; [exact F|].
    cbn. unfold in_log. change nmeta with 46. change FSSIZE with 2000. lia.
  - unfold logged. change (lh_n s3) with (lh_n s). by rewrite N0.
  - exists f, (2 + Z.of_nat (length xs)), b, s, s3. split_and!; [exact E|exact Es|exact E3|]. rewrite (log_blocks_app _ _ _ _ E4).
    destruct (drop 29 ks) as [|k r] eqn:Ed; [apply (f_equal length) in Ed; rewrite length_drop in Ed; cbn in Ed; lia|].
    cbn [log_blocks]. unfold bind. rewrite log_block_full; [done|done|]. rewrite N4, Z4, length_take.
    change (size s3) with (size s). change (lh_n s3) with (lh_n s). lia.
Qed.

Module MkfsLogWitness.

(** One file in the image; the three calls take turns. *)
Definition turns : list Z := concat (map (fun i => [100 + i; 110 + i; 120 + i]) (seqZ 0 10)).

Lemma turns_perm : turns ≡ₚ seqZ 100 10 ++ seqZ 110 10 ++ seqZ 120 10.
Proof. vm_compute. solve_Permutation. Qed.

Lemma log_short_by_one_witness :
  exists f N b s s3, mkfs_main (map opened [MkfsWitness.sh_file]) (mkImage (fun _ => zeros) 1 0) = Ok tt (mkImage f N b) /\
    restart 1 f (logstart (sb_of (f 1))) (nlog (sb_of (f 1))) = Ok tt s /\
    (do Log.begin_op ;;; do Log.begin_op ;;; Log.begin_op) s = Ok tt s3 /\
    log_blocks turns s3 = Panic "too big a transaction".
Proof.
  apply (log_short_by_one (fun _ => zeros) [MkfsWitness.sh_file] 1 (seqZ 100 10) (seqZ 110 10) (seqZ 120 10) turns).
  - reflexivity.
  - vm_compute. discriminate.
  - constructor; [|constructor]. split; [|vm_compute; discriminate]. intros H. apply list_elem_of_In in H. vm_compute in H. repeat (destruct H as [H|H]; [discriminate|]). exact H.
  - vm_compute. discriminate.
  - repeat constructor.
  - exact turns_perm.
  - apply (bool_decide_unpack _). vm_compute. exact I.
  - apply (bool_decide_unpack _). vm_compute. exact I.
Defined.

End MkfsLogWitness.
