(* ===== verification/Printf.v ===== *)
(** * kernel/printf.c and user/printf.c: formatted output

    The characters a call prints, in order.  The kernel sends them to the
    console one by one ([consputc], Console.v), a user program writes them to a
    descriptor.  The arguments after the format are a list, taken in order as
    [va_arg] takes them; taking one more than the caller gave stops the
    conversion there (in C it is undefined). *)

From Stdlib Require Import ZArith Lia List.
From stdpp Require Import base list strings.
From S2P Require Import Prelude Riscv CString.

(** The argument of a conversion: an integer of 64 bits, of which [%d] takes the
    low 32, or a string. *)
Inductive arg : Type :=
| AInt (v : Z)
| AStr (s : list Z)
| ANull.

(** The 16 digit characters from lower- or upper-case letters. *)
Definition digit (letter d : Z) : Z := if d <? 10 then 48 + d else letter + (d - 10).
Definition lower : Z := 97.
Definition upper : Z := 65.

(** The [do ... while] loop: the digits of [x], the last one first. *)
Fixpoint digits_of (k : nat) (letter base x : Z) : list Z :=
  match k with
  | O => []
  | S k' =>
    digit letter (x mod base) ::
    (if negb (x / base =? 0) then digits_of k' letter base (x / base) else [])
  end.

(** [printint]: [buf] from its last filled position down. *)
Definition printint (letter xx base : Z) (sign : bool) : list Z :=
  let neg := sign && (xx <? 0) in
  let x := if neg then u32 (- xx) else u32 xx in
  rev (digits_of 32 letter base x ++ (if neg then [45] else [])).

Fixpoint printptr_loop (k : nat) (letter x : Z) : list Z :=
  match k with
  | O => []
  | S k' => digit letter (Z.shiftr x 60) :: printptr_loop k' letter (u64 (Z.shiftl x 4))
  end.

Definition printptr (letter x : Z) : list Z := [48; 120] ++ printptr_loop 16 letter x.

(** The characters of a string argument up to its terminator. *)
Fixpoint str_chars (s : list Z) : list Z :=
  match s with
  | [] => []
  | c :: s' => if c =? 0 then [] else c :: str_chars s'
  end.

Definition str_null : list Z := [40; 110; 117; 108; 108; 41].

(** ** kernel/printf.c *)

Module K.

(** One conversion: its characters and the arguments left. *)
Definition convert (c : Z) (ap : list arg) : option (list Z * list arg) :=
  if c =? 100 then match ap with AInt v :: ap' => Some (printint lower (i32 v) 10 true, ap') | _ => None end
  else if c =? 120 then match ap with AInt v :: ap' => Some (printint lower (i32 v) 16 true, ap') | _ => None end
  else if c =? 112 then match ap with AInt v :: ap' => Some (printptr lower (u64 v), ap') | _ => None end
  else if c =? 115 then
    match ap with
    | AStr s :: ap' => Some (str_chars s, ap')
    | ANull :: ap' => Some (str_null, ap')
    | _ => None
    end
  else if c =? 37 then Some ([37], ap)
  else Some ([37; c], ap).

(** The loop over the format, from its first character on. *)
Fixpoint printf (fmt : list Z) (ap : list arg) : list Z :=
  match fmt with
  | [] => []
  | c :: fmt' =>
    if c =? 0 then []
    else if negb (c =? 37) then c :: printf fmt' ap
    else
      match fmt' with
      | [] => []
      | c' :: fmt'' =>
        if c' =? 0 then []
        else
          match convert c' ap with
          | Some (out, ap') => out ++ printf fmt'' ap'
          | None => []
          end
      end
  end.

End K.

(** ** user/printf.c *)

Module U.

Definition convert (c : Z) (ap : list arg) : option (list Z * list arg) :=
  if c =? 100 then match ap with AInt v :: ap' => Some (printint upper (i32 v) 10 true, ap') | _ => None end
  else if c =? 108 then match ap with AInt v :: ap' => Some (printint upper (i32 v) 10 false, ap') | _ => None end
  else if c =? 120 then match ap with AInt v :: ap' => Some (printint upper (i32 v) 16 false, ap') | _ => None end
  else if c =? 112 then match ap with AInt v :: ap' => Some (printptr upper (u64 v), ap') | _ => None end
  else if c =? 115 then
    match ap with
    | AStr s :: ap' => Some (str_chars s, ap')
    | ANull :: ap' => Some (str_null, ap')
    | _ => None
    end
  else if c =? 99 then match ap with AInt v :: ap' => Some ([u8 v], ap') | _ => None end
  else if c =? 37 then Some ([37], ap)
  else Some ([37; c], ap).

(** The loop with its state: 0, or '%' after a percent sign. *)
Fixpoint vprintf_loop (state : Z) (fmt : list Z) (ap : list arg) : list Z :=
  match fmt with
  | [] => []
  | c :: fmt' =>
    if c =? 0 then []
    else if state =? 0
    then if c =? 37 then vprintf_loop 37 fmt' ap else c :: vprintf_loop 0 fmt' ap
    else
      match convert c ap with
      | Some (out, ap') => out ++ vprintf_loop 0 fmt' ap'
      | None => []
      end
  end.

Definition vprintf (fmt : list Z) (ap : list arg) : list Z := vprintf_loop 0 fmt ap.

End U.
