(* ===== verification/Console.v ===== *)
(** * kernel/uart.c, kernel/console.c: the terminal

    The driver of the serial port, with the port as the sequence of register
    writes it has seen, the bytes waiting in its receiver, and the number of bytes
    its transmitter takes before it reports that it is busy.  The console buffers
    input lines above it.  [F] is the file layer of the process state; the
    terminal is a part of it. *)

From Stdlib Require Import ZArith Lia List.
From stdpp Require Import base list strings.
From S2P Require Import Prelude Riscv CString Kalloc Vm Proc Printf.

(** ** Registers of the port *)

Definition RHR : Z := 0.
Definition THR : Z := 0.
Definition IER : Z := 1.
Definition IER_RX_ENABLE : Z := Z.shiftl 1 0.
Definition IER_TX_ENABLE : Z := Z.shiftl 1 1.
Definition FCR : Z := 2.
Definition FCR_FIFO_ENABLE : Z := Z.shiftl 1 0.
Definition FCR_FIFO_CLEAR : Z := Z.shiftl 3 1.
Definition LCR : Z := 3.
Definition LCR_EIGHT_BITS : Z := Z.shiftl 3 0.
Definition LCR_BAUD_LATCH : Z := Z.shiftl 1 7.
Definition UART_TX_BUF_SIZE : Z := 32.
Definition INPUT_BUF_SIZE : Z := 128.
Definition BACKSPACE : Z := 0x100.
(** [C('X')]: control-X. *)
Definition ctrl (x : Z) : Z := x - 64.

Record uart : Type := mkUart {
  reg_writes : list (Z * Z);
  tx_room : nat;
  rx : list Z;
  uart_tx_buf : list Z;
  uart_tx_w : Z;
  uart_tx_r : Z
}.

#[global] Instance eta_uart : Eta uart := fun u =>
  mkUart (reg_writes u) (tx_room u) (rx u) (uart_tx_buf u) (uart_tx_w u) (uart_tx_r u).

Record cons_t : Type := mkCons {
  c_buf : list Z;
  c_r : Z;
  c_w : Z;
  c_e : Z;
  port : uart
}.

#[global] Instance eta_cons : Eta cons_t := fun c => mkCons (c_buf c) (c_r c) (c_w c) (c_e c) (port c).

Definition uart0 : uart := mkUart [] 1 [] (repeat 0 32) 0 0.
Definition cons0 : cons_t := mkCons (repeat 0 128) 0 0 0 uart0.

(** ** Access to the registers *)

Definition WriteReg (reg v : Z) : M uart unit :=
  modify (fun u => u <| reg_writes ::= fun l => l ++ [(reg, u8 v)] |>).

(** A byte for the transmitter. *)
Definition write_THR (c : Z) : M uart unit :=
  do WriteReg THR c ;;; modify (fun u => u <| tx_room ::= Nat.pred |>).

(** [ReadReg(LSR) & LSR_TX_IDLE]. *)
Definition tx_idle : M uart bool := gets (fun u => match tx_room u with O => false | S _ => true end).

Definition uartinit : M uart unit :=
  do WriteReg IER 0 ;;;
  do WriteReg LCR LCR_BAUD_LATCH ;;;
  do WriteReg 0 3 ;;;
  do WriteReg 1 0 ;;;
  do WriteReg LCR LCR_EIGHT_BITS ;;;
  do WriteReg FCR (Z.lor FCR_FIFO_ENABLE FCR_FIFO_CLEAR) ;;;
  WriteReg IER (Z.lor IER_TX_ENABLE IER_RX_ENABLE).

(** The loop that waits for the transmitter ends when the port has sent a byte,
    so that there is room for this one.  [panicked] is set by [panic] alone, and
    a run of the model ends there, so the test of it is never true. *)
Definition uartputc_sync (c : Z) : M uart unit := write_THR c.

Definition uartgetc : M uart Z :=
  let* l := gets rx in
  match l with
  | [] => ret (-1)
  | c :: l' => do modify (fun u => u <| rx := l' |>) ;;; ret (u8 c)
  end.

Definition consputc (c : Z) : M uart unit :=
  if c =? BACKSPACE
  then do uartputc_sync 8 ;;; do uartputc_sync 32 ;;; uartputc_sync 8
  else uartputc_sync c.

Fixpoint consputs (l : list Z) : M uart unit :=
  match l with
  | [] => ret tt
  | c :: l' => do consputc c ;;; consputs l'
  end.

Section Ops.
Context `{Layout} {F : Type} (onc : Lens F cons_t).

Definition on_cons : Lens (pstate F) cons_t :=
  mkLens (fun s => lget onc (fs s)) (fun x s => s <| fs ::= lset onc x |>).
Definition on_port : Lens cons_t uart := mkLens port (fun x c => c <| port := x |>).

Definition con {A} (m : M cons_t A) : M (pstate F) A := zoom on_cons m.
Definition ser {A} (m : M uart A) : M (pstate F) A := con (zoom on_port m).

(** ** The transmit buffer *)

(** Send what the transmitter takes. *)
Fixpoint uartstart_loop (k : nat) : M (pstate F) unit :=
  match k with
  | O => ret tt
  | S k' =>
    let* u := ser get in
    if uart_tx_w u =? uart_tx_r u then ret tt
    else
      let* idle := ser tx_idle in
      if negb idle then ret tt
      else
        let c := at_ 0 (uart_tx_buf u) (uart_tx_r u mod UART_TX_BUF_SIZE) in
        do ser (modify (fun u => u <| uart_tx_r ::= fun r => u64 (r + 1) |>)) ;;;
        do wakeup ChUart ;;;
        do ser (write_THR c) ;;;
        uartstart_loop k'
  end.

Definition uartstart : M (pstate F) unit :=
  let* u := ser get in
  uartstart_loop (S (Z.to_nat (u64 (uart_tx_w u - uart_tx_r u)))).

(** It sleeps while the buffer is full and tries again after. *)
Definition uartputc (c : Z) : M (pstate F) unit :=
  let* u := ser get in
  if uart_tx_w u =? u64 (uart_tx_r u + UART_TX_BUF_SIZE) then sleep ChUart
  else
    do ser (modify (fun u => u <| uart_tx_buf ::= fun b => upd b (uart_tx_w u mod UART_TX_BUF_SIZE) (u8 c) |>
                                <| uart_tx_w ::= fun w => u64 (w + 1) |>)) ;;;
    uartstart.

(** ** The console *)

(** From byte [i] on; the process that slept in [uartputc] goes on from there. *)
Fixpoint consolewrite_loop (k : nat) (user_src src n i : Z) : M (pstate F) Z :=
  match k with
  | O => ret i
  | S k' =>
    if i <? n
    then
      let* '(r, l) := either_copyin user_src (u64 (src + i)) 1 in
      if r =? -1 then ret i
      else
        do uartputc (at_ 0 l 0) ;;;
        consolewrite_loop k' user_src src n (i + 1)
    else ret i
  end.

Definition consolewrite (user_src src n : Z) : M (pstate F) Z :=
  consolewrite_loop (Z.to_nat n) user_src src n 0.

(** With [n] bytes of the [target] still wanted. *)
Fixpoint consoleread_loop (k : nat) (user_dst dst target n : Z) : M (pstate F) Z :=
  match k with
  | O => ret (i32 (target - n))
  | S k' =>
    if 0 <? n
    then
      let* c := con get in
      if c_r c =? c_w c
      then
        let* p := myproc in
        let* kd := killed p in
        if negb (kd =? 0) then ret (-1) else sleep ChCons
      else
        let ch := at_ 0 (c_buf c) (c_r c mod INPUT_BUF_SIZE) in
        do con (modify (fun c => c <| c_r ::= fun r => u32 (r + 1) |>)) ;;;
        if ch =? ctrl 68
        then
          do (if n <? target then con (modify (fun c => c <| c_r ::= fun r => u32 (r - 1) |>)) else ret tt) ;;;
          ret (i32 (target - n))
        else
          let* r := either_copyout user_dst dst [ch] 1 in
          if r =? -1 then ret (i32 (target - n))
          else if ch =? 10 then ret (i32 (target - (n - 1)))
          else consoleread_loop k' user_dst (u64 (dst + 1)) target (n - 1)
    else ret (i32 (target - n))
  end.

Definition consoleread (user_dst dst n : Z) : M (pstate F) Z :=
  consoleread_loop (Z.to_nat n) user_dst dst n n.

(** [^U]: erase back to the start of the line. *)
Fixpoint kill_line (k : nat) : M cons_t unit :=
  match k with
  | O => ret tt
  | S k' =>
    let* c := get in
    if negb (c_e c =? c_w c) && negb (at_ 0 (c_buf c) (u32 (c_e c - 1) mod INPUT_BUF_SIZE) =? 10)
    then
      do modify (fun c => c <| c_e ::= fun e => u32 (e - 1) |>) ;;;
      do zoom on_port (consputc BACKSPACE) ;;;
      kill_line k'
    else ret tt
  end.

(** The text of [procdump], from its [printf] calls. *)
Definition state_name (st : procstate) : list Z :=
  match st with
  | UNUSED => [117; 110; 117; 115; 101; 100; 0]
  | USED => [117; 115; 101; 100; 0]
  | SLEEPING => [115; 108; 101; 101; 112; 32; 0]
  | RUNNABLE => [114; 117; 110; 98; 108; 101; 0]
  | RUNNING => [114; 117; 110; 32; 32; 32; 0]
  | ZOMBIE => [122; 111; 109; 98; 105; 101; 0]
  end.

Definition procdump_text (s : pstate F) : list Z :=
  [10] ++ concat (map (fun '(id, st, nm) =>
    K.printf [37; 100; 32; 37; 115; 32; 37; 115; 0] [AInt id; AStr (state_name st); AStr nm] ++ [10]) (procdump s)).

(** An ordinary character. *)
Definition input_char (c : Z) : M (pstate F) unit :=
  let* s := con get in
  if negb (c =? 0) && (u32 (c_e s - c_r s) <? INPUT_BUF_SIZE)
  then
    let c := if c =? 13 then 10 else c in
    do ser (consputc c) ;;;
    do con (modify (fun s => s <| c_buf ::= fun b => upd b (c_e s mod INPUT_BUF_SIZE) (u8 c) |>
                               <| c_e ::= fun e => u32 (e + 1) |>)) ;;;
    let* s := con get in
    if (c =? 10) || (c =? ctrl 68) || (u32 (c_e s - c_r s) =? INPUT_BUF_SIZE)
    then
      do con (modify (fun s => s <| c_w := c_e s |>)) ;;;
      wakeup ChCons
    else ret tt
  else ret tt.

Definition consoleintr (c : Z) : M (pstate F) unit :=
  do modify (fun s => s <| g_last_keypress_tick := ticks s |>) ;;;
  if c =? ctrl 80 then let* l := gets procdump_text in ser (consputs l)
  else if c =? ctrl 85 then
    let* s := con get in con (kill_line (Z.to_nat (u32 (c_e s - c_w s))))
  else if (c =? ctrl 72) || (c =? 127) then
    let* s := con get in
    if negb (c_e s =? c_w s)
    then do con (modify (fun s => s <| c_e ::= fun e => u32 (e - 1) |>)) ;;; ser (consputc BACKSPACE)
    else ret tt
  else if c =? ctrl 67 then
    do kill_all_user_processes ;;;
    do ser (consputc 94) ;;;
    ser (consputc 67)
  else input_char c.

(** Every byte that waits in the receiver, then the transmit buffer. *)
Fixpoint uartintr_loop (k : nat) : M (pstate F) unit :=
  match k with
  | O => ret tt
  | S k' =>
    let* c := ser uartgetc in
    if c =? -1 then ret tt else do consoleintr c ;;; uartintr_loop k'
  end.

Definition uartintr : M (pstate F) unit :=
  let* l := ser (gets rx) in
  do uartintr_loop (length l) ;;;
  uartstart.

End Ops.
