(* ===== verification/ConsoleProps.v ===== *)
(** * What console.c promises

    The terminal is a line editor.  [lines] is what it means to hold: the bytes
    of finished lines that wait for a reader, and the line being typed.  [edit]
    is the effect of one key, and [consoleintr] refines it. *)

From Stdlib Require Import ZArith Lia List.
From stdpp Require Import base tactics numbers list gmap sets strings.
From S2P Require Import Prelude Riscv Ring Kalloc Vm VmFacts VmUser Proc SchedFacts Console.

(** ** The line editor *)

Record lines : Type := mkLines { done_ : list Z; typed : list Z }.

Definition held (v : lines) : Z := Z.of_nat (length (done_ v ++ typed v)).

(** [\r] is taken for a newline; zero bytes and what does not fit are dropped. *)
Definition key_char (c : Z) : Z := if c =? 13 then 10 else c.
Definition takes (c : Z) (v : lines) : bool :=
  negb (bool_decide (c ∈ [ctrl 80; ctrl 85; ctrl 72; 127; ctrl 67; 0])) && (held v <? INPUT_BUF_SIZE).

(** A line is finished by a newline, by [^D] and by filling the buffer. *)
Definition finishes (c : Z) (v : lines) : bool :=
  takes c v && ((key_char c =? 10) || (key_char c =? ctrl 68) || (held v + 1 =? INPUT_BUF_SIZE)).

Definition edit (c : Z) (v : lines) : lines :=
  if c =? ctrl 85 then mkLines (done_ v) []
  else if (c =? ctrl 72) || (c =? 127) then mkLines (done_ v) (removelast (typed v))
  else if finishes c v then mkLines (done_ v ++ typed v ++ [key_char c]) []
  else if takes c v then mkLines (done_ v) (typed v ++ [key_char c])
  else v.

(** ** Its representation *)

Record crep (c : cons_t) (v : lines) : Prop := {
  cr_read : 0 <= c_r c < 2 ^ 32;
  cr_write : c_w c = u32 (c_r c + Z.of_nat (length (done_ v)));
  cr_edit : c_e c = u32 (c_r c + held v);
  cr_ring : ring INPUT_BUF_SIZE (c_buf c) (c_r c) (done_ v ++ typed v);
  cr_line : 10 ∉ typed v
}.

Lemma crep_room c v : crep c v -> 0 <= held v <= INPUT_BUF_SIZE.
Proof. intros R. pose proof (ring_room _ _ _ _ (cr_ring _ _ R)). unfold held. lia. Qed.

Lemma u32_cons x : u32 x mod INPUT_BUF_SIZE = x mod INPUT_BUF_SIZE.
Proof. by apply (u32_ring _ (2 ^ 25)). Qed.

(** The number of bytes held, as the code computes it. *)
Lemma crep_held c v : crep c v -> u32 (c_e c - c_r c) = held v.
Proof.
  intros R. pose proof (crep_room _ _ R). rewrite (cr_edit _ _ R), u32_sub_l. change INPUT_BUF_SIZE with 128 in *.
  rewrite u32_small; lia.
Qed.

Lemma crep_typed c v : crep c v -> u32 (c_e c - c_w c) = Z.of_nat (length (typed v)).
Proof.
  intros R. pose proof (crep_room _ _ R). rewrite (cr_edit _ _ R), (cr_write _ _ R), u32_sub_l, u32_sub_r.
  unfold held in *. rewrite length_app in *. change INPUT_BUF_SIZE with 128 in *. rewrite u32_small; lia.
Qed.

Lemma crep_some c v : crep c v -> (c_e c =? c_w c) = (Z.of_nat (length (typed v)) =? 0).
Proof.
  intros R. pose proof (crep_room _ _ R). rewrite (cr_edit _ _ R), (cr_write _ _ R).
  unfold held in *. rewrite length_app in *. change INPUT_BUF_SIZE with 128 in *. rewrite u32_same by lia. zcase; done || lia.
Qed.

Lemma crep_port c v u : crep c v -> crep (c <| port := u |>) v.
Proof. by intros []. Qed.

(** Erasing the last character typed. *)
Lemma crep_erase c d l x : crep c (mkLines d (l ++ [x])) -> crep (c <| c_e ::= fun e => u32 (e - 1) |>) (mkLines d l).
Proof.
  intros [R W E G N]. unfold held in E. cbn [done_ typed] in *. split; cbn; try done.
  - rewrite E, u32_sub_l. f_equal. unfold held. cbn. rewrite app_assoc, length_app. cbn. lia.
  - eapply ring_prefix. rewrite <- app_assoc. exact G.
  - set_solver.
Qed.

Lemma crep_last c d l x : crep c (mkLines d (l ++ [x])) ->
  at_ 0 (c_buf c) (u32 (c_e c - 1) mod INPUT_BUF_SIZE) = x /\ x <> 10.
Proof.
  intros [R W E G N]. unfold held in E. cbn [done_ typed] in *. split; [|set_solver].
  rewrite app_assoc in *. rewrite E, u32_sub_l, u32_cons, length_app. rewrite <- (ring_last _ _ _ _ _ G). do 2 f_equal. cbn. lia.
Qed.

(** Typing a character, and finishing the line with it. *)
Lemma crep_type c v x : crep c v -> held v < INPUT_BUF_SIZE ->
  let c' := c <| c_buf ::= fun b => upd b (c_e c mod INPUT_BUF_SIZE) x |> <| c_e ::= fun e => u32 (e + 1) |> in
  (x <> 10 -> crep c' (mkLines (done_ v) (typed v ++ [x]))) /\
  crep (c' <| c_w := c_e c' |>) (mkLines (done_ v ++ typed v ++ [x]) []) /\ u32 (c_e c' - c_r c') = held v + 1.
Proof.
  intros Rc Hh c'. pose proof (crep_room _ _ Rc) as Rm. destruct Rc as [R W E G N].
  assert (E' : c_e c' = u32 (c_r c + (held v + 1))) by (subst c'; cbn; rewrite E, u32_add_l; f_equal; lia).
  assert (G' : ring INPUT_BUF_SIZE (c_buf c') (c_r c) (done_ v ++ typed v ++ [x])).
  { subst c'. cbn. rewrite E, u32_cons, app_assoc. by apply ring_append. }
  assert (L : Z.of_nat (length (done_ v ++ typed v ++ [x])) = held v + 1).
  { unfold held. rewrite app_assoc, length_app. cbn. lia. }
  split_and!.
  - intros Nx. split; try done; [rewrite E'; unfold held at 2; cbn [done_ typed]; by rewrite L|set_solver].
  - split; try done; [rewrite <- L in E'; exact E'|rewrite <- L in E'; unfold held; cbn [done_ typed]; by rewrite app_nil_r|cbn [done_ typed]; by rewrite app_nil_r|set_solver].
  - rewrite E', u32_sub_l. change (c_r c') with (c_r c). change INPUT_BUF_SIZE with 128 in *. rewrite u32_small; lia.
Qed.

(** ** The keyboard interrupt *)

Section Keys.
Context `{Layout} {F : Type} (onc : Lens F cons_t) `{!LensOk onc}.
Implicit Types (s : pstate F) (v : lines).

Definition console_of s : cons_t := lget (on_cons onc) s.
Definition with_console (c : cons_t) s : pstate F := lset (on_cons onc) c s.

Lemma console_with c s : console_of (with_console c s) = c.
Proof. unfold console_of, with_console. cbn. apply lget_lset. Qed.

Lemma con_run {A} (m : M cons_t A) s a c : m (console_of s) = Ok a c -> con onc m s = Ok a (with_console c s).
Proof. intros E. unfold con, zoom. unfold console_of in E. by rewrite E. Qed.

Lemma ser_run {A} (m : M uart A) s a u : m (port (console_of s)) = Ok a u ->
  ser onc m s = Ok a (with_console ((console_of s) <| port := u |>) s).
Proof. intros E. unfold ser. apply con_run. unfold zoom. cbn [lget on_port]. by rewrite E. Qed.

Lemma get_run s : con onc Prelude.get s = Ok (console_of s) (with_console (console_of s) s).
Proof. by apply con_run. Qed.

(** Nothing has changed but the console and the processes, and these by [g]. *)
Definition changed s s' (g : Z -> proc -> proc) : Prop :=
  cur s' = cur s /\ ph s' = ph s /\ table_ok s' /\
  (forall n, isproc n -> procat s' n = g n (procat s n)).

(** The console stands for [v] now. *)
Definition typed_to s s' v (g : Z -> proc -> proc) : Prop := crep (console_of s') v /\ changed s s' g.

Definition same_proc (n : Z) (q : proc) : proc := q.

Lemma changed_with s c : table_ok s -> changed s (with_console c s) same_proc.
Proof. done. Qed.

Lemma changed_trans s1 s2 s3 g1 g2 g : changed s1 s2 g1 -> changed s2 s3 g2 ->
  (forall n q, isproc n -> g2 n (g1 n q) = g n q) -> changed s1 s3 g.
Proof.
  intros (C1 & P1 & _ & E1) (C2 & P2 & T2 & E2) E. split_and!; try done; [congruence..|].
  intros n Hn. by rewrite E2, E1, E.
Qed.

Lemma changed_same s1 s2 s3 g : changed s1 s2 same_proc -> changed s2 s3 g -> changed s1 s3 g.
Proof. intros A B. by eapply changed_trans. Qed.

Lemma changed_table s s' g : changed s s' g -> table_ok s'.
Proof. by intros (_ & _ & T & _). Qed.

Lemma typed_with s v c : table_ok s -> crep c v -> typed_to s (with_console c s) v same_proc.
Proof. intros T R. split; [by rewrite console_with|by apply changed_with]. Qed.

Lemma consputc_run c u : exists u', consputc c u = Ok tt u'.
Proof. unfold consputc. destruct (c =? BACKSPACE); by eexists. Qed.

Lemma consputs_run l : forall u, exists u', consputs l u = Ok tt u'.
Proof.
  induction l as [|c l IH]; intros u; cbn [consputs]; [by exists u|].
  destruct (consputc_run c u) as [u1 E]. rewrite (bind_ok _ _ _ _ _ E). apply IH.
Qed.

Lemma put_typed c s v : table_ok s -> crep (console_of s) v ->
  exists s', ser onc (consputc c) s = Ok tt s' /\ typed_to s s' v same_proc.
Proof.
  intros T R. destruct (consputc_run c (port (console_of s))) as [u E]. eexists. split; [by apply ser_run|].
  apply typed_with; [done|]. by apply crep_port.
Qed.

Lemma kill_line_run d l : forall c k, crep c (mkLines d l) -> k = length l ->
  exists c', kill_line k c = Ok tt c' /\ crep c' (mkLines d []).
Proof.
  induction l as [|x l IH] using rev_ind; intros c k R ->; [by exists c|].
  rewrite length_app, Nat.add_1_r. cbn [kill_line]. unfold bind at 1, Prelude.get.
  rewrite (crep_some _ _ R). cbn [typed]. destruct (crep_last _ _ _ _ R) as [-> N]. apply Z.eqb_neq in N as ->.
  rewrite length_app, Nat2Z.inj_add. destruct (Z.eqb_spec (Z.of_nat (length l) + Z.of_nat (length [x])) 0) as [E0|_]; [cbn in E0; lia|]. cbn [negb andb].
  unfold modify. unfold bind at 1. set (c1 := c <| c_e ::= _ |>). destruct (consputc_run BACKSPACE (port c1)) as [u E].
  unfold bind at 1, zoom. cbn [lget on_port]. rewrite E. apply IH; [|done]. apply crep_port. by apply (crep_erase _ _ _ x).
Qed.
(** [^C] marks every process but the first two. *)
Definition interrupted (q : proc) : proc :=
  if negb (bool_decide (state q = UNUSED)) && (2 <? pid q) then q <| killed_ := 1 |> else q.

Lemma setp_same p s : setp p (fun q => q) s = Ok tt s.
Proof. rewrite setp_run. f_equal. destruct s. unfold over. cbn. by rewrite upd_same. Qed.

Lemma for_procs_ext (b1 b2 : Z -> M (pstate F) unit) s : (forall p x, b1 p x = b2 p x) -> for_procs b1 s = for_procs b2 s.
Proof.
  intros E. unfold for_procs. generalize 1, s. induction (Z.to_nat NPROC) as [|k IH]; intros p x; [done|].
  cbn [for_procs_from]. unfold bind. rewrite E. destruct (b2 p x); [apply IH|done|done].
Qed.

Lemma kill_all_run s v : table_ok s -> crep (console_of s) v ->
  exists s', kill_all_user_processes s = Ok tt s' /\ typed_to s s' v (fun _ => interrupted).
Proof.
  intros T R. destruct (for_procs_map (fun _ => interrupted) s T) as (s' & E & T' & Es & P). exists s'. split.
  - rewrite <- E. apply for_procs_ext. intros p x. unfold getp, interrupted. rewrite bind_gets. unfold id, setp, modify.
    unfold procat. destruct (_ && _) eqn:C; [|change (Ok tt x = setp p (fun q => interrupted q) x); rewrite setp_run].
    + f_equal. unfold over. cbn. f_equal. f_equal. unfold interrupted. by rewrite C.
    + rewrite <- (setp_same p x), setp_run. f_equal. unfold over. cbn. f_equal. f_equal. unfold interrupted. by rewrite C.
  - split; [by rewrite Es|]. split_and!; try done; rewrite Es; done.
Qed.

(** What a key does to the processes. *)
Definition key_effect (c : Z) v s (n : Z) (q : proc) : proc :=
  if c =? ctrl 67 then interrupted q
  else if finishes c v && negb (n =? cur s) then wakeup1 ChCons q else q.

Lemma wakeup_typed s v : table_ok s -> crep (console_of s) v ->
  exists s', wakeup ChCons s = Ok tt s' /\ typed_to s s' v (fun n q => if negb (n =? cur s) then wakeup1 ChCons q else q).
Proof.
  intros T R. destruct (wakeup_run ChCons s T) as (s' & E & T' & Es & P). exists s'. split; [done|].
  split; [by rewrite Es|]. split_and!; try done; rewrite Es; done.
Qed.
Definition plain (c : Z) : Prop := c ∉ [ctrl 80; ctrl 85; ctrl 72; 127; ctrl 67].

Lemma takes_plain c v : plain c -> takes c v = negb (c =? 0) && (held v <? INPUT_BUF_SIZE).
Proof.
  unfold plain, takes. intros N. f_equal. f_equal. destruct (Z.eqb_spec c 0); [apply bool_decide_eq_true_2|apply bool_decide_eq_false_2]; set_solver.
Qed.

Lemma edit_plain c v : plain c -> edit c v =
  if takes c v then if finishes c v then mkLines (done_ v ++ typed v ++ [key_char c]) [] else mkLines (done_ v) (typed v ++ [key_char c]) else v.
Proof.
  unfold plain. rewrite !not_elem_of_cons. intros (A & B & C & D & E & _). unfold edit, finishes.
  apply Z.eqb_neq in B as ->, C as ->, D as ->. cbn [orb]. by destruct (takes c v); cbn [andb].
Qed.

Lemma input_char_run c s v : plain c -> 0 <= c < 256 -> table_ok s -> crep (console_of s) v ->
  exists s', input_char onc c s = Ok tt s' /\
    typed_to s s' (edit c v) (fun n q => if finishes c v && negb (n =? cur s) then wakeup1 ChCons q else q).
Proof.
  intros Pl Hc T R. rewrite edit_plain, takes_plain by done. unfold finishes. rewrite takes_plain by done.
  unfold input_char. rewrite (bind_ok _ _ _ _ _ (get_run s)), (crep_held _ _ R).
  destruct (negb (c =? 0) && (held v <? INPUT_BUF_SIZE)) eqn:Tk; cbn [andb].
  2:{ eexists. split; [done|]. by apply typed_with. }
  fold (key_char c). destruct (typed_with s v (console_of s) T R) as [R0 C0].
  destruct (put_typed (key_char c) _ v (changed_table _ _ _ C0) R0) as (s1 & E1 & R1 & C1). rewrite (bind_ok _ _ _ _ _ E1).
  pose proof (changed_same _ _ _ _ C0 C1) as C1'. clear C0 C1 R0 E1.
  assert (Hh : held v < INPUT_BUF_SIZE) by (zbool; lia).
  assert (Kc : u8 (key_char c) = key_char c) by (unfold key_char; apply u8_small; destruct (c =? 13); lia). rewrite Kc.
  destruct (crep_type (console_of s1) v (key_char c) R1 Hh) as (Ty & Fi & Hd). set (c2 := _ <| c_e ::= _ |>) in *.
  rewrite (bind_ok _ _ _ _ _ (con_run _ s1 tt c2 eq_refl)), (bind_ok _ _ _ _ _ (get_run _)), console_with, Hd.
  set (s3 := with_console c2 (with_console c2 s1)).
  assert (C3 : changed s s3 same_proc) by (apply (changed_same _ _ _ _ C1'); by apply changed_table in C1').
  destruct (_ || _ || _) eqn:Fn.
  - set (c4 := c2 <| c_w := c_e c2 |>). assert (E4 : con onc (modify (fun x => x <| c_w := c_e x |>)) s3 = Ok tt (with_console c4 s3)).
    { apply con_run. subst s3. by rewrite console_with. }
    rewrite (bind_ok _ _ _ _ _ E4). destruct (wakeup_typed (with_console c4 s3) (mkLines (done_ v ++ typed v ++ [key_char c]) [])) as (s5 & E5 & R5 & C5).
    { exact (changed_table _ _ _ C3). } { by rewrite console_with. }
    exists s5. split; [done|]. split; [done|]. apply (changed_same _ _ _ _ C3).
    change (cur (with_console c4 s3)) with (cur s3) in C5. rewrite (proj1 C3) in C5. exact C5.
  - exists s3. split; [done|]. split; [|exact C3]. subst s3. rewrite console_with. apply Ty. intros E. by rewrite E in Fn.
Qed.

Lemma removelast_erase c v : crep c v -> negb (c_e c =? c_w c) = true ->
  crep (c <| c_e ::= fun e => u32 (e - 1) |>) (mkLines (done_ v) (removelast (typed v))).
Proof.
  intros R. rewrite (crep_some _ _ R). destruct v as [d l]. cbn [typed done_] in *. destruct l as [|x l _] using rev_ind; [done|].
  intros _. rewrite removelast_last. by eapply crep_erase.
Qed.

Lemma modify_run f s : con onc (modify f) s = Ok tt (with_console (f (console_of s)) s).
Proof. by apply con_run. Qed.

(** The special keys: [^P], [^U], backspace and [^C]. *)
Lemma dump_run s v : table_ok s -> crep (console_of s) v ->
  exists s', (let* l := gets procdump_text in ser onc (consputs l)) s = Ok tt s' /\ typed_to s s' v same_proc.
Proof.
  intros T R. rewrite bind_gets. destruct (consputs_run (procdump_text s) (port (console_of s))) as [u E].
  eexists. split; [by apply ser_run|]. apply typed_with; [done|]. by apply crep_port.
Qed.

Lemma erase_line_run s v : table_ok s -> crep (console_of s) v ->
  exists s', (let* x := con onc Prelude.get in con onc (kill_line (Z.to_nat (u32 (c_e x - c_w x))))) s = Ok tt s' /\
    typed_to s s' (mkLines (done_ v) []) same_proc.
Proof.
  intros T R. destruct v as [d l]. rewrite (bind_ok _ _ _ _ _ (get_run s)), (crep_typed _ _ R). cbn [typed].
  destruct (kill_line_run d l (console_of s) (Z.to_nat (Z.of_nat (length l))) R ltac:(lia)) as (c' & E & Rc).
  eexists. split; [apply con_run; rewrite console_with; exact E|]. split; [by rewrite console_with|done].
Qed.

Lemma erase_run s v : table_ok s -> crep (console_of s) v ->
  exists s', (let* x := con onc Prelude.get in
    if negb (c_e x =? c_w x)
    then do con onc (modify (fun x => x <| c_e ::= fun e => u32 (e - 1) |>)) ;;; ser onc (consputc BACKSPACE)
    else ret tt) s = Ok tt s' /\ typed_to s s' (mkLines (done_ v) (removelast (typed v))) same_proc.
Proof.
  intros T R. rewrite (bind_ok _ _ _ _ _ (get_run s)). destruct (negb (c_e (console_of s) =? c_w (console_of s))) eqn:Ne.
  - rewrite (bind_ok _ _ _ _ _ (modify_run _ _)), console_with. pose proof (removelast_erase _ _ R Ne) as R1. set (c1 := _ <| c_e ::= _ |>) in *.
    destruct (put_typed BACKSPACE (with_console c1 (with_console (console_of s) s)) (mkLines (done_ v) (removelast (typed v)))) as (s' & E & R' & C'); [done|by rewrite console_with|].
    exists s'. split; [exact E|]. split; [done|]. exact C'.
  - eexists. split; [done|]. split; [|done]. rewrite console_with. rewrite (crep_some _ _ R) in Ne. destruct v as [d [|]]; [done|]. by cbn in Ne.
Qed.

Lemma interrupt_run s v : table_ok s -> crep (console_of s) v ->
  exists s', (do kill_all_user_processes ;;; do ser onc (consputc 94) ;;; ser onc (consputc 67)) s = Ok tt s' /\
    typed_to s s' v (fun _ => interrupted).
Proof.
  intros T R. destruct (kill_all_run s v T R) as (s1 & E1 & R1 & C1). rewrite (bind_ok _ _ _ _ _ E1).
  destruct (put_typed 94 s1 v (changed_table _ _ _ C1) R1) as (s2 & E2 & R2 & C2). rewrite (bind_ok _ _ _ _ _ E2).
  destruct (put_typed 67 s2 v (changed_table _ _ _ C2) R2) as (s3 & E3 & R3 & C3). exists s3. split; [done|]. split; [done|].
  eapply changed_trans; [exact C1|by eapply changed_same|done].
Qed.

(** C18: the terminal driver is a line editor: whatever the counters have
    wrapped to, [consoleintr] always returns, and does to the buffer what the
    key means: [^U] drops the line being typed, backspace and delete its last
    character, a character that fits is added to it, and newline, [^D] or a full
    buffer hand the line over and wake the readers; [^C] marks every process but
    the first two as killed; and no process changes in any other way. *)
Theorem consoleintr_refines_editor c s v :
  0 <= c < 256 -> table_ok s -> crep (console_of s) v ->
  exists s', consoleintr onc c s = Ok tt s' /\ crep (console_of s') (edit c v) /\ changed s s' (key_effect c v s).
Proof.
  intros Hc T R. unfold consoleintr, modify. unfold bind at 1. set (s0 := s <| g_last_keypress_tick := _ |>).
  assert (C0 : changed s s0 same_proc) by done. change (console_of s) with (console_of s0) in R. pose proof (changed_table _ _ _ C0) as T0.
  enough (exists s', _ s0 = Ok tt s' /\ typed_to s0 s' (edit c v) (key_effect c v s)) as (s' & E & R' & C')
    by (exists s'; split; [exact E|]; split; [done|]; by eapply changed_same).
  unfold key_effect, edit, finishes, takes.
  destruct (Z.eqb_spec c (ctrl 80)) as [->|N80]; [by apply dump_run|].
  destruct (Z.eqb_spec c (ctrl 85)) as [->|N85]; [by apply erase_line_run|].
  destruct ((c =? ctrl 72) || (c =? 127)) eqn:Bs.
  { assert (N67 : (c =? ctrl 67) = false) by (apply Z.eqb_neq; intros ->; done). rewrite N67.
    rewrite bool_decide_eq_true_2 by (apply orb_true_iff in Bs as [->%Z.eqb_eq| ->%Z.eqb_eq]; set_solver). by apply erase_run. }
  destruct (Z.eqb_spec c (ctrl 67)) as [->|N67]; [by apply interrupt_run|].
  apply orb_false_iff in Bs as [B1%Z.eqb_neq B2%Z.eqb_neq].
  assert (Pl : plain c) by (unfold plain; set_solver). destruct (input_char_run c s0 v Pl Hc T0 R) as (s' & E & R' & C').
  exists s'. split; [exact E|]. unfold edit, finishes, takes in *. apply Z.eqb_neq in N85, B1, B2. rewrite N85, B1, B2 in R'. exact (conj R' C').
Qed.
End Keys.

(** ** Witness

    The counters are about to wrap; a finished line waits and another one is
    being typed, which the newline finishes. *)

Module ConsoleWitness.
#[local] Instance lay : Layout := { end_ := KERNBASE + 32 * PGSIZE; etext := KERNBASE + 16 * PGSIZE; trampoline := KERNBASE }.

Definition here : Lens cons_t cons_t := mkLens id (fun x _ => x).
#[local] Instance here_ok : LensOk here.
Proof. by split. Qed.

Definition con1 : cons_t := mkCons (108 :: repeat 0 124 ++ [97; 10; 107]) (2 ^ 32 - 3) (2 ^ 32 - 1) 1 uart0.
Definition st : pstate cons_t :=
  mkPstate (mkPhys (mkRam (fun _ => 0)) (mkKmem 0 0 0)) (repeat proc0 64) 5 1 1 0 0 0 0 7 0 0 0 0 0 0 0 0 con1.

Lemma con1_rep : crep con1 (mkLines [97; 10] [107; 108]).
Proof.
  split; try done; [|cbn; set_solver]. split; try done. intros [|[|[|[|]]]] x [= <-]; by vm_compute.
Qed.

Lemma consoleintr_refines_editor_witness :
  exists s', consoleintr here 13 st = Ok tt s' /\ crep (console_of here s') (mkLines [97; 10; 107; 108; 10] []) /\
    changed st s' (key_effect 13 (mkLines [97; 10] [107; 108]) st).
Proof. apply (consoleintr_refines_editor here 13 st (mkLines [97; 10] [107; 108])); [lia|done|exact con1_rep]. Defined.
End ConsoleWitness.
