(* ===== verification/File.v ===== *)
(** * kernel/file.c, kernel/pipe.c: open files and pipes

    The file layer of the process state: the file system and the block layer
    under it, the table of open files, the pipes, the terminal and the table of
    devices.  A [struct file *] is 0 for the null pointer and [i + 1] for
    [&ftable.file[i]].  A [struct pipe *] is the address of the page it lives in;
    the fields of the live pipes are kept apart, by that address.

    [fsys] runs a routine of the file system for the current process: it applies
    the wakeups the routine issued to the process table, and when the routine
    waits, the process sleeps. *)

From Stdlib Require Import ZArith Lia List.
From stdpp Require Import base list gmap strings.
From S2P Require Import Prelude Riscv CString Kalloc Vm Proc Blocks Sleeplock Fs Printf Console.

(** ** file.h, pipe.c *)

Inductive ftype : Type := FD_NONE | FD_PIPE | FD_INODE | FD_DEVICE.

#[global] Instance ftype_eq_dec : EqDecision ftype.
Proof. solve_decision. Defined.

Record file : Type := mkFile {
  f_type : ftype;
  f_ref : Z;
  f_readable : Z;
  f_writable : Z;
  f_pipe : Z;
  f_ip : Z;
  f_off : Z;
  f_major : Z
}.

#[global] Instance eta_file : Eta file := fun f =>
  mkFile (f_type f) (f_ref f) (f_readable f) (f_writable f) (f_pipe f) (f_ip f) (f_off f) (f_major f).

Definition file0 : file := mkFile FD_NONE 0 0 0 0 0 0 0.

Definition PIPESIZE : Z := 512.

Record pipe : Type := mkPipe {
  p_data : list Z;
  nread : Z;
  nwrite : Z;
  readopen : Z;
  writeopen : Z
}.

#[global] Instance eta_pipe : Eta pipe := fun p =>
  mkPipe (p_data p) (nread p) (nwrite p) (readopen p) (writeopen p).

(** A page from [kalloc] holds 5 in every byte. *)
Definition pipe0 : pipe := mkPipe (repeat 5 512) 0 0 0 0.

(** The functions a slot of [devsw] points to. *)
Inductive device : Type := DevConsole.

Definition CONSOLE : Z := 1.

Record files (L : Type) : Type := mkFiles {
  fsst : fstate L;
  ftable : list file;
  pipes : gmap Z pipe;
  term : cons_t;
  devsw : list (option device)
}.
Arguments mkFiles {L}.
Arguments fsst {L}.
Arguments ftable {L}.
Arguments pipes {L}.
Arguments term {L}.
Arguments devsw {L}.

#[global] Instance eta_files L : Eta (files L) := fun s =>
  mkFiles (fsst s) (ftable s) (pipes s) (term s) (devsw s).

Section Ops.
Context `{Layout} {L : Type} `{Blocks L}.

Abbreviation F := (files L).
Abbreviation K := (pstate (files L)).

(** ** Running the file system for a process *)

Definition on_fst : Lens K (fstate L) :=
  mkLens (fun s => fsst (fs s)) (fun x s => s <| fs ::= fun f => f <| fsst := x |> |>).
Definition on_term : Lens F cons_t := mkLens term (fun x f => f <| term := x |>).

Fixpoint wake_all (l : list chan) : M K unit :=
  match l with
  | [] => ret tt
  | c :: l' => do wakeup c ;;; wake_all l'
  end.

(** The pid of the process that runs, for the sleep locks. *)
Definition enter : M K unit :=
  let* p := myproc in
  let* n := getp p pid in
  zoom on_fst (modify (fun s => s <| blk ::= set_run_pid n |>)).

Definition settle : M K unit :=
  let* l := gets (fun s => woken_chans (blk (fsst (fs s)))) in
  do zoom on_fst (modify (fun s => s <| blk ::= clear_wakes |>)) ;;;
  wake_all l.

Definition fsys {A} (m : M K A) : M K A :=
  do enter ;;;
  fun s =>
    match m s with
    | Ok a s' => (do settle ;;; ret a) s'
    | Panic msg => Panic msg
    | Block c s' => (do settle ;;; sleep c) s'
    end.

(** A routine of fs.c, and one of the block layer. *)
Definition fcall {A} (m : M (fstate L) A) : M K A := fsys (zoom on_fst m).
Definition bcall {A} (m : M L A) : M K A := fcall (bl m).

(** ** Tables *)

Definition fileat (s : K) (f : Z) : file := at_ file0 (ftable (fs s)) (f - 1).
Definition getf {A} (f : Z) (g : file -> A) : M K A := gets (fun s => g (fileat s f)).
Definition setf (f : Z) (g : file -> file) : M K unit :=
  modify (fun s => s <| fs ::= fun x => x <| ftable ::= fun l => upd l (f - 1) (g (at_ file0 l (f - 1))) |> |>).

Definition pipeat (s : K) (pi : Z) : pipe := default pipe0 (pipes (fs s) !! pi).
Definition getpi {A} (pi : Z) (g : pipe -> A) : M K A := gets (fun s => g (pipeat s pi)).
Definition setpi (pi : Z) (g : pipe -> pipe) : M K unit :=
  modify (fun s => s <| fs ::= fun x => x <| pipes ::= fun m => <[pi := g (default pipe0 (m !! pi))]> m |> |>).

(** The first file with no reference. *)
Fixpoint find_free (l : list file) (f : Z) : Z :=
  match l with
  | [] => 0
  | x :: l' => if f_ref x =? 0 then f else find_free l' (f + 1)
  end.

Definition filealloc : M K Z :=
  let* f := gets (fun s => find_free (ftable (fs s)) 1) in
  if f =? 0 then ret 0
  else do setf f (fun x => x <| f_ref := 1 |>) ;;; ret f.

Definition filedup (f : Z) : M K Z :=
  let* r := getf f f_ref in
  if r <? 1 then panic "filedup"
  else do setf f (fun x => x <| f_ref ::= fun n => i32 (n + 1) |>) ;;; ret f.

(** ** Pipes *)

Definition pipeclose (pi : Z) (writable : Z) : M K unit :=
  do (if negb (writable =? 0)
      then do setpi pi (fun p => p <| writeopen := 0 |>) ;;; wakeup (ChPipeRead pi)
      else do setpi pi (fun p => p <| readopen := 0 |>) ;;; wakeup (ChPipeWrite pi)) ;;;
  let* p := getpi pi id in
  if (readopen p =? 0) && (writeopen p =? 0)
  then
    do vm (kfree pi) ;;;
    modify (fun s => s <| fs ::= fun x => x <| pipes ::= delete pi |> |>)
  else ret tt.

(** From byte [i] on; a writer that slept on a full pipe goes on from there. *)
Fixpoint pipewrite_loop (k : nat) (pi addr n i : Z) : M K Z :=
  match k with
  | O => panic "pipewrite: fuel"
  | S k' =>
    if i <? n
    then
      let* pr := myproc in
      let* p := getpi pi id in
      let* kd := killed pr in
      if (readopen p =? 0) || negb (kd =? 0) then ret (-1)
      else if nwrite p =? u32 (nread p + PIPESIZE)
      then do wakeup (ChPipeRead pi) ;;; sleep (ChPipeWrite pi)
      else
        let* pt := getp pr pagetable in
        let* '(r, l) := vm (copyin pt (u64 (addr + i)) 1) in
        if r =? -1 then do wakeup (ChPipeRead pi) ;;; ret i
        else
          do setpi pi (fun p => p <| p_data ::= fun d => upd d (nwrite p mod PIPESIZE) (at_ 0 l 0) |>
                                  <| nwrite ::= fun w => u32 (w + 1) |>) ;;;
          pipewrite_loop k' pi addr n (i + 1)
    else do wakeup (ChPipeRead pi) ;;; ret i
  end.

Definition pipewrite (pi addr n : Z) : M K Z := pipewrite_loop (S (Z.to_nat n)) pi addr n 0.

(** The copying loop of [piperead]. *)
Fixpoint piperead_loop (k : nat) (pi addr n i : Z) : M K Z :=
  match k with
  | O => ret i
  | S k' =>
    if i <? n
    then
      let* p := getpi pi id in
      if nread p =? nwrite p then ret i
      else
        let ch := at_ 0 (p_data p) (nread p mod PIPESIZE) in
        do setpi pi (fun p => p <| nread ::= fun r => u32 (r + 1) |>) ;;;
        let* pr := myproc in
        let* pt := getp pr pagetable in
        let* r := vm (copyout pt (u64 (addr + i)) [ch] 1) in
        if r =? -1 then ret i else piperead_loop k' pi addr n (i + 1)
    else ret i
  end.

(** It sleeps on an empty pipe that has a writer and tries again after. *)
Definition piperead (pi addr n : Z) : M K Z :=
  let* pr := myproc in
  let* p := getpi pi id in
  if (nread p =? nwrite p) && negb (writeopen p =? 0)
  then
    let* kd := killed pr in
    if negb (kd =? 0) then ret (-1) else sleep (ChPipeRead pi)
  else
    let* i := piperead_loop (Z.to_nat n) pi addr n 0 in
    do wakeup (ChPipeWrite pi) ;;;
    ret i.

(** ** Closing *)

Definition fileclose (f : Z) : M K unit :=
  let* r := getf f f_ref in
  if r <? 1 then panic "fileclose"
  else
    do setf f (fun x => x <| f_ref ::= fun n => n - 1 |>) ;;;
    let* ff := getf f id in
    if 0 <? f_ref ff then ret tt
    else
      do setf f (fun x => x <| f_ref := 0 |> <| f_type := FD_NONE |>) ;;;
      match f_type ff with
      | FD_PIPE => pipeclose (f_pipe ff) (f_writable ff)
      | FD_INODE | FD_DEVICE =>
        do bcall begin_op ;;;
        do fcall (iput (f_ip ff)) ;;;
        bcall end_op
      | FD_NONE => ret tt
      end.

(** The result, and the two files when it is 0. *)
Definition pipealloc : M K (Z * Z * Z) :=
  let close_if f := (if negb (f =? 0) then fileclose f else ret tt) in
  let bad (f0 f1 : Z) := (do close_if f0 ;;; do close_if f1 ;;; ret (-1, f0, f1)) in
  let* f0 := filealloc in
  if f0 =? 0 then bad 0 0
  else
    let* f1 := filealloc in
    if f1 =? 0 then bad f0 0
    else
      let* pi := vm kalloc in
      if pi =? 0 then bad f0 f1
      else
        do modify (fun s => s <| fs ::= fun x => x <| pipes ::= <[pi := pipe0]> |> |>) ;;;
        do setpi pi (fun p => p <| readopen := 1 |> <| writeopen := 1 |> <| nwrite := 0 |> <| nread := 0 |>) ;;;
        do setf f0 (fun x => x <| f_type := FD_PIPE |> <| f_readable := 1 |> <| f_writable := 0 |> <| f_pipe := pi |>) ;;;
        do setf f1 (fun x => x <| f_type := FD_PIPE |> <| f_readable := 0 |> <| f_writable := 1 |> <| f_pipe := pi |>) ;;;
        ret (0, f0, f1).

(** ** Reading and writing *)

(** [struct stat] in memory; [pad] is what the stack held between its fields. *)
Definition stat_bytes (st : stat) (pad : list Z) : list Z :=
  int_bytes (st_dev st) ++ int_bytes (st_ino st) ++ take 2 (int_bytes (st_type st)) ++
  take 2 (int_bytes (st_nlink st)) ++ pad ++ int_bytes (st_size st) ++ int_bytes (st_size st / 2 ^ 32).

Definition filestat (pad : list Z) (f addr : Z) : M K Z :=
  let* p := myproc in
  let* x := getf f id in
  match f_type x with
  | FD_INODE | FD_DEVICE =>
    do fcall (ilock (f_ip x)) ;;;
    let* st := fcall (stati (f_ip x)) in
    do fcall (iunlock (f_ip x)) ;;;
    let* pt := getp p pagetable in
    let* r := vm (copyout pt addr (stat_bytes st pad) 24) in
    if r <? 0 then ret (-1) else ret 0
  | _ => ret (-1)
  end.

(** [readi] to, and [writei] from, user memory. *)
Definition readi_user (ip dst off n : Z) : M K Z :=
  let* '(r, _) := fsys (readi on_fst (fun dst l => either_copyout 1 dst l (Z.of_nat (length l))) ip dst off n) in
  ret r.

Definition writei_user (ip src off n : Z) : M K Z :=
  fsys (writei on_fst (fun src m => either_copyin 1 src m) ip src off n).

Definition dev_at (s : K) (major : Z) : option device := at_ None (devsw (fs s)) major.

Definition fileread (f addr n : Z) : M K Z :=
  let* x := getf f id in
  if f_readable x =? 0 then ret (-1)
  else
    match f_type x with
    | FD_PIPE => piperead (f_pipe x) addr n
    | FD_DEVICE =>
      let* d := gets (fun s => dev_at s (f_major x)) in
      if (f_major x <? 0) || (NDEV <=? f_major x) then ret (-1)
      else
        match d with
        | None => ret (-1)
        | Some DevConsole => consoleread on_term 1 addr n
        end
    | FD_INODE =>
      do fcall (ilock (f_ip x)) ;;;
      let* off := getf f f_off in
      let* r := readi_user (f_ip x) addr off (u32 n) in
      do (if 0 <? r then setf f (fun x => x <| f_off ::= fun o => u32 (o + r) |>) else ret tt) ;;;
      do fcall (iunlock (f_ip x)) ;;;
      ret r
    | FD_NONE => panic "fileread"
    end.

Definition write_max : Z := (MAXOPBLOCKS - 1 - 1 - 2) / 2 * BSIZE.

(** The loop of [filewrite]: a few blocks per transaction. *)
Fixpoint filewrite_loop (k : nat) (f ip addr n i : Z) : M K Z :=
  match k with
  | O => panic "filewrite: fuel"
  | S k' =>
    if i <? n
    then
      let n1 := Z.min (n - i) write_max in
      do bcall begin_op ;;;
      do fcall (ilock ip) ;;;
      let* off := getf f f_off in
      let* r := writei_user ip (u64 (addr + i)) off n1 in
      do (if 0 <? r then setf f (fun x => x <| f_off ::= fun o => u32 (o + r) |>) else ret tt) ;;;
      do fcall (iunlock ip) ;;;
      do bcall end_op ;;;
      if negb (r =? n1) then ret i else filewrite_loop k' f ip addr n (i + r)
    else ret i
  end.

Definition filewrite (f addr n : Z) : M K Z :=
  let* x := getf f id in
  if f_writable x =? 0 then ret (-1)
  else
    match f_type x with
    | FD_PIPE => pipewrite (f_pipe x) addr n
    | FD_DEVICE =>
      let* d := gets (fun s => dev_at s (f_major x)) in
      if (f_major x <? 0) || (NDEV <=? f_major x) then ret (-1)
      else
        match d with
        | None => ret (-1)
        | Some DevConsole => consolewrite on_term 1 addr n
        end
    | FD_INODE =>
      let* i := filewrite_loop (S (Z.to_nat n)) f (f_ip x) addr n 0 in
      ret (if i =? n then n else -1)
    | FD_NONE => panic "filewrite"
    end.

(** [consoleinit] after the set-up of the port: the slot of the console. *)
Definition consoleinit : M K unit :=
  do ser on_term uartinit ;;;
  modify (fun s => s <| fs ::= fun x => x <| devsw ::= fun l => upd l CONSOLE (Some DevConsole) |> |>).

End Ops.

(** What proc.c calls. *)
#[global] Instance files_ops `{Layout} {L : Type} `{Blocks L} : FsOps (files L) := {
  Proc.filedup := filedup;
  Proc.fileclose := fileclose;
  Proc.idup ip := fcall (idup ip);
  Proc.iput ip := fcall (iput ip);
  Proc.begin_op := bcall begin_op;
  Proc.end_op := bcall end_op;
  Proc.namei path := let* p := myproc in let* d := getp p cwd in fcall (namei path d);
  Proc.fsinit dev := fcall (fsinit dev)
}.
