(* ===== verification/PipeProps.v ===== *)
(** * What pipe.c promises

    A pipe is a bounded queue of bytes.  [rep] relates the ring of [struct pipe]
    to the queue it holds; [pipewrite] refines appending to the queue and
    [piperead] taking from its front, whatever the counters have wrapped to. *)

From Stdlib Require Import ZArith Lia List.
From stdpp Require Import base tactics numbers list gmap sets strings.
From S2P Require Import Prelude Riscv Ring Kalloc Vm VmFacts VmUser VmProps Proc SchedFacts Console Blocks Fs RamBlocks FsProps File.

(** ** The ring *)

(** The bytes between the counters, oldest first. *)
Record rep (p : pipe) (q : list Z) : Prop := {
  rep_read : 0 <= nread p < 2 ^ 32;
  rep_write : nwrite p = u32 (nread p + Z.of_nat (length q));
  rep_ring : ring PIPESIZE (p_data p) (nread p) q
}.

Lemma rep_room p q : rep p q -> Z.of_nat (length q) <= PIPESIZE.
Proof. intros R. apply (ring_room _ _ _ _ (rep_ring _ _ R)). Qed.

Lemma u32_pipe x : u32 x mod PIPESIZE = x mod PIPESIZE.
Proof. by apply (u32_ring _ (2 ^ 23)). Qed.

Lemma rep_full p q : rep p q -> (nwrite p =? u32 (nread p + PIPESIZE)) = (Z.of_nat (length q) =? PIPESIZE).
Proof. intros R. pose proof (rep_room _ _ R). rewrite (rep_write _ _ R). unfold PIPESIZE in *. apply u32_same. lia. Qed.

Lemma rep_empty p q : rep p q -> (nread p =? nwrite p) = (Z.of_nat (length q) =? 0).
Proof.
  intros R. pose proof (rep_room _ _ R). pose proof (rep_read _ _ R). rewrite (rep_write _ _ R). unfold PIPESIZE in *.
  rewrite <- (u32_same (nread p) (Z.of_nat (length q)) 0) by lia. rewrite Z.add_0_r, (u32_small (nread p)) by lia. apply Z.eqb_sym.
Qed.

(** One byte in, one byte out. *)
Definition put (c : Z) (p : pipe) : pipe :=
  p <| p_data ::= fun d => upd d (nwrite p mod PIPESIZE) c |> <| nwrite ::= fun w => u32 (w + 1) |>.
Definition get (p : pipe) : pipe := p <| nread ::= fun r => u32 (r + 1) |>.

Lemma rep_put p q c : rep p q -> Z.of_nat (length q) < PIPESIZE -> rep (put c p) (q ++ [c]).
Proof.
  intros [Rd W R] Lq. split; cbn; [done| |].
  - rewrite W, u32_add_l, length_app, Nat2Z.inj_add. f_equal. cbn. lia.
  - rewrite W, u32_pipe. by apply ring_append.
Qed.

Lemma rep_get p c q : rep p (c :: q) -> rep (get p) q /\ at_ 0 (p_data p) (nread p mod PIPESIZE) = c.
Proof.
  intros [Rd W R]. cbn [length] in W. destruct (ring_get _ _ _ _ _ R) as [Rg E]. split; [|done]. split; cbn.
  - apply u32_range.
  - rewrite W, u32_add_l. f_equal. lia.
  - eapply ring_mod; [|exact Rg]. by rewrite u32_pipe.
Qed.

(** ** The operations *)

Section Pipes.
Context `{LO : LayoutOk} {L : Type} `{Blocks L}.
Implicit Types (s : pstate (files L)).

(** [s] with [p] as the pipe [pi]. *)
Definition with_pipe (pi : Z) (p : pipe) (s : pstate (files L)) : pstate (files L) :=
  s <| fs ::= fun x => x <| pipes ::= fun m => <[pi := p]> m |> |>.

(** Nothing has happened but that the pipe [pi] is [p] now and the sleepers on
    [c] have been woken. *)
Definition moved s s' (pi : Z) (p : pipe) (c : chan) : Prop :=
  s' = (with_pipe pi p s) <| procs := procs s' |> /\ table_ok s' /\
  (forall n, isproc n -> procat s' n = if n =? cur s then procat s n else wakeup1 c (procat s n)).

Definition asleep (c : chan) s : pstate (files L) :=
  s <| procs ::= fun l => upd l (cur s - 1) ((at_ proc0 l (cur s - 1)) <| chan_ := c |> <| state := SLEEPING |>) |>.

Lemma sleep_run {A} c s : table_ok s -> isproc (cur s) -> sleep (A := A) c s = Block c (asleep c s).
Proof.
  intros T P. unfold sleep, sched, myproc, getp. cbn [bind gets setp modify]. unfold bind, gets, setp, modify.
  change (cur (s <| procs ::= _ |>)) with (cur s). unfold procat. cbn.
  rewrite at_upd_eq by (unfold table_ok, isproc, NPROC in *; lia). done.
Qed.

Lemma pipeat_with pi p s : pipeat (with_pipe pi p s) pi = p.
Proof. unfold pipeat. cbn. by rewrite lookup_insert_eq. Qed.

Lemma with_with pi p p' s : with_pipe pi p' (with_pipe pi p s) = with_pipe pi p' s.
Proof.
  unfold with_pipe. destruct s. unfold over. cbn. by rewrite insert_insert_eq.
Qed.

Lemma setpi_run pi g s : setpi pi g s = Ok tt (with_pipe pi (g (pipeat s pi)) s).
Proof. done. Qed.

Lemma moved_wakeup pi p c s : table_ok s ->
  exists s', wakeup c (with_pipe pi p s) = Ok tt s' /\ moved s s' pi p c.
Proof.
  intros T. destruct (wakeup_run c (with_pipe pi p s) T) as (s' & E & T' & Es & Hp). exists s'. split; [exact E|].
  split_and!; [done|done|]. intros n Hn. rewrite Hp by done. change (cur (with_pipe pi p s)) with (cur s). by destruct (n =? cur s).
Qed.

(** The running process, its page table and the queue in the pipe [pi]. *)
Record ready_for (T : gmap (list Z) Z) (l : list Z) (pi : Z) s (q : list Z) : Prop := {
  rf_table : table_ok s;
  rf_cur : isproc (cur s);
  rf_vm : vm_inv (ph s) (pagetable (procat s (cur s))) T l;
  rf_user : user_ok (mem (ph s)) T l;
  rf_live : is_Some (pipes (fs s) !! pi);
  rf_rep : rep (pipeat s pi) q
}.

(** What the writer leaves: the bytes [b] from [a] on are in the queue, and it
    returns or sleeps according to why it stopped. *)
Definition wrote_pipe (T : gmap (list Z) Z) (pi : Z) s (q : list Z) (a n i : Z) (out : res (pstate (files L)) Z) : Prop :=
  exists b p s', rep p (q ++ b) /\ readopen p = readopen (pipeat s pi) /\ writeopen p = writeopen (pipeat s pi) /\
    reads T (ph s) a b /\ moved s s' pi p (ChPipeRead pi) /\
    (Z.of_nat (length b) = n - i /\ out = Ok n s' \/
     Z.of_nat (length b) < n - i /\ readable (mem (ph s)) T (a + Z.of_nat (length b)) = false /\
       out = Ok (i + Z.of_nat (length b)) s' \/
     Z.of_nat (length b) < n - i /\ Z.of_nat (length (q ++ b)) = PIPESIZE /\ out = Block (ChPipeWrite pi) (asleep (ChPipeWrite pi) s')).
Lemma ready_with T l pi s q p q' : ready_for T l pi s q -> rep p q' -> ready_for T l pi (with_pipe pi p s) q'.
Proof. intros [A B C D E G] R. split; try done; [|by rewrite pipeat_with]. cbn. by rewrite lookup_insert_eq. Qed.

Lemma user_byte_copyin T l pi s q a : ready_for T l pi s q -> 0 <= a < 2 ^ 64 ->
  exists b, vm (copyin (pagetable (procat s (cur s))) a 1) s = Ok (if readable (mem (ph s)) T a then (0, [b]) else (-1, [])) s /\
    (readable (mem (ph s)) T a = true -> user_byte (mem (ph s)) T a = Some b).
Proof.
  intros R Ha. destruct (copyin_spec _ T l (ph s) (rf_vm _ _ _ _ _ R) (rf_user _ _ _ _ _ R) a 1) as (r & b & E & Rd & C); [lia|lia|].
  unfold vm, zoom. cbn [lget on_ph]. rewrite E. replace (lset on_ph (ph s) s) with s by (by destruct s).
  destruct C as [(-> & Lb)|(-> & Lb & N)].
  - destruct b as [|x [|]]; cbn in Lb; try lia. exists x. pose proof (Rd 0%nat ltac:(cbn; lia)) as U. rewrite Z.add_0_r in U.
    unfold user_byte in *. destruct (readable _ T a); [done|by cbn in U].
  - destruct b as [|]; cbn in Lb; [|lia]. cbn in N. rewrite Z.add_0_r in N. exists 0. by rewrite N.
Qed.

Lemma readable_below m T a : readable m T a = true -> 0 <= a < MAXVA.
Proof. unfold readable. intros. zbool. lia. Qed.

Lemma reads_one T (w : phys) a b c : user_byte (mem w) T a = Some c -> reads T w (a + 1) b -> reads T w a (c :: b).
Proof.
  intros U R. apply (reads_app T w a [c] b); [|done]. intros [|i] Hi; cbn in Hi; [|lia]. by rewrite Z.add_0_r.
Qed.

Lemma moved_with pi p p' c s s' : moved (with_pipe pi p s) s' pi p' c -> moved s s' pi p' c.
Proof. intros (E & T & P). split; [|split; [done|exact P]]. by rewrite with_with in E. Qed.

Lemma wrote_more T l pi s q a n i c out : ready_for T l pi s q ->
  user_byte (mem (ph s)) T a = Some c ->
  wrote_pipe T pi (with_pipe pi (put c (pipeat s pi)) s) (q ++ [c]) (a + 1) n (i + 1) out -> wrote_pipe T pi s q a n i out.
Proof.
  intros R U (b & p & s' & Rp & Ro & Wo & Rd & Mv & C). exists (c :: b), p, s'. rewrite pipeat_with in Ro, Wo. rewrite <- app_assoc in Rp, C. cbn [app] in Rp, C.
  split_and!; try done.
  - by apply reads_one.
  - by eapply moved_with.
  - cbn [length]. rewrite Nat2Z.inj_succ in *. replace (a + Z.succ (Z.of_nat (length b))) with (a + 1 + Z.of_nat (length b)) by lia.
    replace (i + Z.succ (Z.of_nat (length b))) with (i + 1 + Z.of_nat (length b)) by lia.
    destruct C as [[? ?]|[[? ?]|[? ?]]]; [left|right; left|right; right]; (split; [lia|done]).
Qed.

Lemma pipewrite_stop T l pi s q a n i (k : unit -> M (pstate (files L)) Z) : ready_for T l pi s q ->
  (forall s', moved s s' pi (pipeat s pi) (ChPipeRead pi) -> 
    i = n /\ k tt s' = Ok n s' \/ i < n /\ readable (mem (ph s)) T a = false /\ k tt s' = Ok i s' \/
    i < n /\ Z.of_nat (length q) = PIPESIZE /\ k tt s' = Block (ChPipeWrite pi) (asleep (ChPipeWrite pi) s')) ->
  wrote_pipe T pi s q a n i (bind (wakeup (ChPipeRead pi)) k s).
Proof.
  intros R C. destruct (rf_live _ _ _ _ _ R) as [x Hx]. assert (E : with_pipe pi (pipeat s pi) s = s).
  { unfold with_pipe, pipeat. rewrite Hx. destruct s as [?????????????????? []]. cbn in *. unfold over. cbn. by rewrite insert_id. }
  destruct (moved_wakeup pi (pipeat s pi) (ChPipeRead pi) s (rf_table _ _ _ _ _ R)) as (s' & W & Mv). rewrite E in W.
  exists [], (pipeat s pi), s'. rewrite app_nil_r. unfold bind. rewrite W. cbn [length]. rewrite !Z.add_0_r.
  split_and!; [apply (rf_rep _ _ _ _ _ R)|done|done|intros j Hj; cbn in Hj; lia|done|].
  destruct (C s' Mv) as [[? ->]|[(? & ? & ->)|(? & ? & ->)]]; [left|right; left|right; right]; split_and!; done || (cbn; lia).
Qed.
Lemma pipewrite_loop_run T l pi addr n k : forall s q i,
  ready_for T l pi s q -> readopen (pipeat s pi) <> 0 -> killed_ (procat s (cur s)) = 0 ->
  0 <= i <= n -> n - i < Z.of_nat k -> 0 <= addr -> addr + i < 2 ^ 64 ->
  wrote_pipe T pi s q (addr + i) n i (pipewrite_loop k pi addr n i s).
Proof.
  induction k as [|k IH]; intros s q i R Ro Kd Hi Hk Ha Hb; [lia|]. cbn [pipewrite_loop].
  destruct (Z.ltb_spec i n).
  2:{ apply (pipewrite_stop T l); [done|]. intros s' Mv. left. split; [lia|]. unfold ret. do 2 f_equal. lia. }
  unfold myproc, getpi, killed, getp. rewrite !bind_gets. unfold id. rewrite Kd. apply Z.eqb_neq in Ro as Ro'. rewrite Ro'. cbn [orb negb Z.eqb].
  rewrite (rep_full _ _ (rf_rep _ _ _ _ _ R)). destruct (Z.eqb_spec (Z.of_nat (length q)) PIPESIZE) as [Fl|Nf].
  { apply (pipewrite_stop T l); [done|]. intros s' (E & T' & _). right. right. split_and!; [done..|].
    apply sleep_run; [done|]. rewrite E. exact (rf_cur _ _ _ _ _ R). }
  rewrite bind_gets, u64_small by lia. destruct (user_byte_copyin T l pi s q (addr + i) R ltac:(lia)) as (c & E & U).
  rewrite (bind_ok _ _ _ _ _ E). destruct (readable (mem (ph s)) T (addr + i)) eqn:Rd; cbn [Z.eqb].
  2:{ apply (pipewrite_stop T l); [done|]. intros s' Mv. right. left. done. }
  rewrite (bind_ok _ _ _ _ _ (setpi_run _ _ _)). apply (wrote_more T l _ _ _ _ _ _ c); [done|by apply U|].
  apply readable_below in Rd. change MAXVA with (2 ^ 38) in Rd. pose proof (rep_room _ _ (rf_rep _ _ _ _ _ R)).
  rewrite <- Z.add_assoc. apply IH; try done; try lia.
  - apply (ready_with _ _ _ _ q); [done|]. apply rep_put; [apply (rf_rep _ _ _ _ _ R)|lia].
  - by rewrite pipeat_with.
Qed.
(** ** Reading *)

(** What the reader has done from byte [i] on: the first [r] bytes of the queue
    are in user memory at [a], and [d] is left in the pipe. *)
Definition read_pipe (T : gmap (list Z) Z) (l : list Z) (pi : Z) s s' (q d : list Z) (a m r : Z) : Prop :=
  exists w p, s' = with_pipe pi p s <| ph := w |> /\ rep p d /\
    readopen p = readopen (pipeat s pi) /\ writeopen p = writeopen (pipeat s pi) /\
    stored (pagetable (procat s (cur s))) T l (ph s) w a q r /\
    0 <= r <= m /\ r <= Z.of_nat (length q) /\
    ((r = m \/ r = Z.of_nat (length q)) /\ d = drop (Z.to_nat r) q \/
     r < m /\ r < Z.of_nat (length q) /\ writable (mem (ph s)) T (a + r) = false /\ d = drop (Z.to_nat r + 1) q).

Lemma read_none T l pi s q a m : ready_for T l pi s q -> 0 <= m -> m = 0 \/ q = [] -> read_pipe T l pi s s q q a m 0.
Proof.
  intros R Hm C. exists (ph s), (pipeat s pi). split_and!; try done; try lia.
  - unfold with_pipe, pipeat. destruct (rf_live _ _ _ _ _ R) as [x Hx]. rewrite Hx. destruct s as [?????????????????? []]. cbn in *. unfold over. cbn. by rewrite insert_id.
  - apply (rf_rep _ _ _ _ _ R).
  - apply stored_0, (rf_vm _ _ _ _ _ R).
  - left. destruct C as [->| ->]; by auto.
Qed.

Lemma copyout_one T l pi s q p a c : ready_for T l pi s q -> 0 <= a ->
  exists w, vm (copyout (pagetable (procat s (cur s))) a [c] 1) (with_pipe pi p s) =
      Ok (if writable (mem (ph s)) T a then 0 else -1) (with_pipe pi p s <| ph := w |>) /\
    stored (pagetable (procat s (cur s))) T l (ph s) w a [c] (if writable (mem (ph s)) T a then 1 else 0).
Proof.
  intros R Ha. destruct (copyout_spec _ T l (ph s) a [c] (rf_vm _ _ _ _ _ R) (rf_user _ _ _ _ _ R) Ha) as (r & k & w & E & St & C).
  exists w. unfold vm, zoom. change (lget on_ph (with_pipe pi p s)) with (ph s). change 1 with (Z.of_nat (length [c])) at 1. rewrite E.
  destruct C as [[-> ->]|(-> & Hk & Wr)].
  - assert (Wa : writable (mem (ph s)) T a = true) by (apply (proj1 (proj2 (proj2 St))); cbn; lia). by rewrite Wa.
  - cbn in Hk. replace k with 0 in * by lia. rewrite Z.add_0_r in Wr. by rewrite Wr.
Qed.
Lemma stored_one root T l w w' a c q : stored root T l w w' a [c] 1 -> stored root T l w w' a (c :: q) 1.
Proof.
  intros (I & S & W & B). split_and!; try done. intros x. rewrite B. zcase; try done. by replace (Z.to_nat (x - a)) with 0%nat by lia.
Qed.

Lemma ready_after T l pi s q p d w a b k : ready_for T l pi s q -> rep p d ->
  stored (pagetable (procat s (cur s))) T l (ph s) w a b k -> ready_for T l pi (with_pipe pi p s <| ph := w |>) d.
Proof.
  intros R Rp (I & S & _). destruct (ready_with T l pi s q p d R Rp) as [A B C D E G]. split; try done.
  exact (user_ok_same _ _ _ _ S (rf_user _ _ _ _ _ R)).
Qed.

Lemma read_more T l pi s s' q d w a c m r : ready_for T l pi s (c :: q) ->
  stored (pagetable (procat s (cur s))) T l (ph s) w a [c] 1 ->
  read_pipe T l pi (with_pipe pi (get (pipeat s pi)) s <| ph := w |>) s' q d (a + 1) (m - 1) r ->
  read_pipe T l pi s s' (c :: q) d a m (r + 1).
Proof.
  intros R St (w' & p & E & Rp & Ro & Wo & St' & Hr & Hq & C). exists w', p.
  assert (S' : same_ptes (ph s) T w T) by apply St. cbn [length]. rewrite Nat2Z.inj_succ.
  split_and!; try done; try lia.
  - rewrite E. exact (with_with pi (get (pipeat s pi)) p (s <| ph := w' |>)).
  - rewrite Ro. change (readopen (pipeat (with_pipe pi (get (pipeat s pi)) s) pi) = readopen (pipeat s pi)). by rewrite pipeat_with.
  - rewrite Wo. change (writeopen (pipeat (with_pipe pi (get (pipeat s pi)) s) pi) = writeopen (pipeat s pi)). by rewrite pipeat_with.
  - rewrite Z.add_comm. eapply stored_trans; [by apply stored_one|exact St'|lia|lia].
  - replace (Z.to_nat (r + 1)) with (S (Z.to_nat r)) by lia. cbn [drop Nat.add].
    destruct C as [[C ->]|(C1 & C2 & C3 & ->)]; [left; split; [lia|done]|right]. split_and!; [lia|lia| |done].
    rewrite (writable_same (ph s) w) in C3 by done. replace (a + (r + 1)) with (a + 1 + r) by lia. exact C3.
Qed.

Lemma piperead_loop_run T l pi addr n k : forall s q i,
  ready_for T l pi s q -> 0 <= i -> n - i = Z.of_nat k -> 0 <= addr -> addr + i < 2 ^ 64 ->
  exists r d s', piperead_loop k pi addr n i s = Ok (i + r) s' /\ read_pipe T l pi s s' q d (addr + i) (n - i) r.
Proof.
  induction k as [|k IH]; intros s q i R Hi Hk Ha Hb; cbn [piperead_loop].
  { exists 0, q, s. rewrite Z.add_0_r. split; [done|]. apply read_none; [done|lia|left; lia]. }
  destruct (Z.ltb_spec i n); [|lia]. unfold getpi. rewrite bind_gets. unfold id. rewrite (rep_empty _ _ (rf_rep _ _ _ _ _ R)).
  destruct q as [|c q]; [exists 0, [], s; rewrite Z.add_0_r; split; [done|]; apply read_none; [done|lia|by right]|].
  destruct (rep_get _ _ _ (rf_rep _ _ _ _ _ R)) as [Rg ->]. cbn [length]. destruct (Z.eqb_spec (Z.of_nat (S (length q))) 0); [lia|].
  rewrite (bind_ok _ _ _ _ _ (setpi_run _ _ _)). fold (get (pipeat s pi)). unfold myproc, getp. rewrite !bind_gets.
  change (procat (with_pipe pi (get (pipeat s pi)) s)) with (procat s). change (cur (with_pipe pi (get (pipeat s pi)) s)) with (cur s).
  rewrite u64_small by lia. destruct (copyout_one T l pi s (c :: q) (get (pipeat s pi)) (addr + i) c R ltac:(lia)) as (w & E & St).
  rewrite (bind_ok _ _ _ _ _ E). destruct (writable (mem (ph s)) T (addr + i)) eqn:Wr; cbn [Z.eqb].
  - assert (Rd : readable (mem (ph s)) T (addr + i) = true) by (unfold writable in Wr; by apply andb_true_iff in Wr as [? _]).
    apply readable_below in Rd. change MAXVA with (2 ^ 38) in Rd.
    destruct (IH (with_pipe pi (get (pipeat s pi)) s <| ph := w |>) q (i + 1)) as (r & d & s' & E' & Rp);
      [by eapply ready_after|lia|lia|lia|lia|]. exists (r + 1), d, s'. split; [rewrite E'; f_equal; lia|].
    eapply read_more; [done|exact St|]. replace (addr + i + 1) with (addr + (i + 1)) by lia. by replace (n - i - 1) with (n - (i + 1)) by lia.
  - exists 0, q. eexists. rewrite Z.add_0_r. split; [done|]. exists w, (get (pipeat s pi)). cbn [length].
    split_and!; try done; try lia; [|right; rewrite Z.add_0_r; split_and!; done || lia].
    destruct St as (I & S & _ & B). split_and!; try done; [lia|]. intros x. rewrite B. zcase; try done; lia.
Qed.
(** C13: a pipe is a first-in first-out queue of at most 512 bytes, and
    [pipewrite] appends to it.  It answers -1 and changes nothing if there is no
    reader or the writer has been killed.  Otherwise the bytes it has taken from
    the user's memory are in the queue, in order, behind those that were there,
    the readers have been woken, and it has stopped for one of three reasons:
    all [n] bytes are in, and it returns [n]; the next byte is not readable, and
    it returns the number so far; or the pipe is full, and it sleeps. *)
Theorem pipewrite_refines_fifo T l pi s q addr n :
  ready_for T l pi s q -> 0 <= addr < 2 ^ 64 -> 0 <= n ->
  if (0 <? n) && ((readopen (pipeat s pi) =? 0) || negb (killed_ (procat s (cur s)) =? 0))
  then pipewrite pi addr n s = Ok (-1) s
  else wrote_pipe T pi s q addr n 0 (pipewrite pi addr n s).
Proof.
  intros R Ha Hn. unfold pipewrite. destruct (Z.ltb_spec 0 n) as [Hp|Hp]; cbn [andb].
  - destruct (Z.eqb_spec (readopen (pipeat s pi)) 0) as [Ro|Ro]; cbn [orb].
    { cbn [pipewrite_loop]. destruct (Z.ltb_spec 0 n); [|lia]. unfold myproc, getpi, killed, getp. rewrite !bind_gets. unfold id. by rewrite Ro. }
    destruct (Z.eqb_spec (killed_ (procat s (cur s))) 0) as [Kd|Kd]; cbn [negb].
    + rewrite <- (Z.add_0_r addr) at 1. apply (pipewrite_loop_run T l); done || lia.
    + cbn [pipewrite_loop]. destruct (Z.ltb_spec 0 n); [|lia]. unfold myproc, getpi, killed, getp. rewrite !bind_gets. unfold id.
      apply Z.eqb_neq in Kd as ->. by rewrite orb_true_r.
  - replace n with 0 by lia. apply (pipewrite_stop T l); [done|]. intros s' _. by left.
Qed.

(** C20: [piperead] takes from the front of the queue.  On an empty pipe that
    has a writer it answers -1 if the reader has been killed and sleeps
    otherwise.  In every other case it returns the number [r] of bytes that are
    now, in order, in the user's memory at [addr]: the smaller of [n] and the
    length of the queue, unless the user cannot be written to before that; no
    other byte of the user's memory changes, and the writers are woken.  The
    queue is left without the bytes delivered, and also without the one byte
    that could not be delivered. *)
Theorem piperead_refines_fifo T l pi s q addr n :
  ready_for T l pi s q -> 0 <= addr < 2 ^ 64 -> 0 <= n ->
  if (Z.of_nat (length q) =? 0) && negb (writeopen (pipeat s pi) =? 0)
  then piperead pi addr n s =
    if negb (killed_ (procat s (cur s)) =? 0) then Ok (-1) s else Block (ChPipeRead pi) (asleep (ChPipeRead pi) s)
  else exists r d s1 s', piperead pi addr n s = Ok r s' /\
    read_pipe T l pi s s1 q d addr n r /\ moved s1 s' pi (pipeat s1 pi) (ChPipeWrite pi).
Proof.
  intros R Ha Hn. unfold piperead, myproc, getpi. rewrite !bind_gets. unfold id. rewrite (rep_empty _ _ (rf_rep _ _ _ _ _ R)).
  destruct (_ && _).
  - unfold killed, getp. rewrite bind_gets. destruct (negb _); [done|]. apply sleep_run; apply R.
  - destruct (piperead_loop_run T l pi addr n (Z.to_nat n) s q 0 R) as (r & d & s1 & E & Rp); try lia.
    rewrite (bind_ok _ _ _ _ _ E), Z.add_0_l. cbv beta. rewrite Z.add_0_r, Z.sub_0_r in Rp.
    destruct Rp as (w & p & -> & Rp). set (s1 := with_pipe pi p s <| ph := w |>) in *.
    destruct (moved_wakeup pi p (ChPipeWrite pi) s1) as (s' & W & Mv); [apply (rf_table _ _ _ _ _ R)|].
    replace (with_pipe pi p s1) with s1 in W by (symmetry; apply with_with).
    exists r, d, s1, s'. split; [exact (bind_ok _ (fun _ => ret r) _ _ _ W)|]. split.
    + by exists w, p.
    + subst s1. by rewrite pipeat_with.
Qed.
End Pipes.

(** ** Witnesses

    A pipe whose counters are about to wrap holds four bytes; the process that
    uses it has the address space [VmWitness.parent]. *)

Module PipeWitness.
Import VmWitness.
#[local] Existing Instance lay.
#[local] Existing Instance lay_ok.

Definition proc1 : proc := proc0 <| state := RUNNING |> <| pid := 3 |> <| sz := 4096 |> <| pagetable := pg 0 |>.
Definition pipe1 : pipe := mkPipe (8 :: 9 :: repeat 5 508 ++ [6; 7]) (2 ^ 32 - 2) 2 1 1.
Definition files1 : files ramdisk := mkFiles FsWitness.fs0 (repeat file0 100) {[ pg 8 := pipe1 ]} cons0 [].
Definition st : pstate (files ramdisk) :=
  mkPstate space (proc1 :: repeat proc0 63) 5 1 1 0 0 0 0 7 0 0 0 0 0 0 0 0 files1.

Lemma pipe1_rep : rep pipe1 [6; 7; 8; 9].
Proof. split; [done..|]. split; try done. intros [|[|[|[|]]]] x [= <-]; by vm_compute. Qed.

Lemma st_ready : ready_for parent free (pg 8) st [6; 7; 8; 9].
Proof.
  assert (E : pipes (fs st) !! pg 8 = Some pipe1) by (apply lookup_singleton_eq).
  split; [done|by split|exact space_parent|exact parent_user|by rewrite E|]. unfold pipeat. rewrite E. exact pipe1_rep.
Qed.

Lemma pipewrite_refines_fifo_witness :
  wrote_pipe parent (pg 8) st [6; 7; 8; 9] 100 3 0 (pipewrite (pg 8) 100 3 st).
Proof. apply (pipewrite_refines_fifo parent free (pg 8) st [6; 7; 8; 9] 100 3 st_ready); lia. Defined.

Lemma piperead_refines_fifo_witness :
  exists r d s1 s', piperead (pg 8) 100 3 st = Ok r s' /\
    read_pipe parent free (pg 8) st s1 [6; 7; 8; 9] d 100 3 r /\ moved s1 s' (pg 8) (pipeat s1 (pg 8)) (ChPipeWrite (pg 8)).
Proof. apply (piperead_refines_fifo parent free (pg 8) st [6; 7; 8; 9] 100 3 st_ready); lia. Defined.
End PipeWitness.
