(* ===== verification/Sysfile.v ===== *)
(** * kernel/sysfile.c, kernel/exec.c: file system calls and exec

    The handlers over the file layer.  A path read from user space is the array
    [argstr] filled.  The [goto bad] of the code is a local continuation. *)

From Stdlib Require Import ZArith Lia List.
From stdpp Require Import base list gmap strings.
From S2P Require Import Prelude Riscv CString Kalloc Vm Proc Sysproc Blocks Sleeplock Fs Printf Console File.

Definition O_RDONLY : Z := 0x000.
Definition O_WRONLY : Z := 0x001.
Definition O_RDWR : Z := 0x002.
Definition O_CREATE : Z := 0x200.
Definition O_TRUNC : Z := 0x400.

(** ** elf.h *)

Definition ELF_MAGIC : Z := 0x464C457F.
Definition ELF_PROG_LOAD : Z := 1.
Definition sizeof_elfhdr : Z := 64.
Definition sizeof_proghdr : Z := 56.

Record elfhdr : Type := mkElfhdr {
  e_magic : Z;
  e_entry : Z;
  e_phoff : Z;
  e_phnum : Z
}.

Definition elfhdr_of (d : list Z) : elfhdr := mkElfhdr (load 4 d 0) (load 8 d 24) (load 8 d 32) (load 2 d 56).

Record proghdr : Type := mkProghdr {
  ph_type : Z;
  ph_flags : Z;
  ph_off : Z;
  ph_vaddr : Z;
  ph_filesz : Z;
  ph_memsz : Z
}.

Definition proghdr_of (d : list Z) : proghdr :=
  mkProghdr (load 4 d 0) (load 4 d 4) (load 8 d 8) (load 8 d 16) (load 8 d 32) (load 8 d 40).

Definition flags2perm (flags : Z) : Z :=
  let perm := if has flags 1 then PTE_X else 0 in
  if has flags 2 then Z.lor perm PTE_W else perm.

Definition str_dot : list Z := [46; 0].
Definition str_dotdot : list Z := [46; 46; 0].

Section Ops.
Context `{Layout} `{Entry} {L : Type} `{Blocks L}.

Abbreviation K := (pstate (files L)).

(** ** Descriptors *)

(** The result, the descriptor and the file of argument [n]. *)
Definition argfd (n : Z) : M K (Z * Z * Z) :=
  let* fd := argint n in
  let* p := myproc in
  let* f := getp p (fun q => at_ 0 (ofile q) fd) in
  if (fd <? 0) || (NOFILE <=? fd) || (f =? 0) then ret (-1, fd, f) else ret (0, fd, f).

Fixpoint fdalloc_from (l : list Z) (fd : Z) : Z :=
  match l with
  | [] => -1
  | f :: l' => if f =? 0 then fd else fdalloc_from l' (fd + 1)
  end.

Definition fdalloc (f : Z) : M K Z :=
  let* p := myproc in
  let* fd := getp p (fun q => fdalloc_from (ofile q) 0) in
  if fd <? 0 then ret (-1)
  else do setp p (fun q => q <| ofile ::= fun l => upd l fd f |>) ;;; ret fd.

(** [myproc()->ofile[fd] = 0]. *)
Definition fdclear (fd : Z) : M K unit :=
  let* p := myproc in setp p (fun q => q <| ofile ::= fun l => upd l fd 0 |>).

Definition sys_dup : M K Z :=
  let* '(r, _, f) := argfd 0 in
  if r <? 0 then ret (-1)
  else
    let* fd := fdalloc f in
    if fd <? 0 then ret (-1) else do filedup f ;;; ret fd.

Definition sys_read : M K Z :=
  let* p := argaddr 1 in
  let* n := argint 2 in
  let* '(r, _, f) := argfd 0 in
  if r <? 0 then ret (-1) else fileread f p n.

Definition sys_write : M K Z :=
  let* p := argaddr 1 in
  let* n := argint 2 in
  let* '(r, _, f) := argfd 0 in
  if r <? 0 then ret (-1) else filewrite f p n.

Definition sys_close : M K Z :=
  let* '(r, fd, f) := argfd 0 in
  if r <? 0 then ret (-1)
  else do fdclear fd ;;; do fileclose f ;;; ret 0.

Definition sys_fstat (pad : list Z) : M K Z :=
  let* st := argaddr 1 in
  let* '(r, _, f) := argfd 0 in
  if r <? 0 then ret (-1) else filestat pad f st.

(** ** Names *)

Definition cwd_of : M K Z := let* p := myproc in getp p cwd.

Definition namei_ (path : list Z) : M K Z := let* d := cwd_of in fcall (namei path d).
Definition nameiparent_ (path : list Z) : M K (Z * list Z) := let* d := cwd_of in fcall (nameiparent path d).

(** [end_op(); return v]. *)
Definition leave (v : Z) : M K Z := do bcall end_op ;;; ret v.

(** An assignment to a field of an inode. *)
Definition set_ip (ip : Z) (f : inode -> inode) : M K unit := fcall (seti ip f).
Definition get_ip {A} (ip : Z) (f : inode -> A) : M K A := fcall (geti ip f).

Definition sys_link : M K Z :=
  let* '(r0, old) := argstr 0 MAXPATH in
  if r0 <? 0 then ret (-1)
  else
    let* '(r1, new) := argstr 1 MAXPATH in
    if r1 <? 0 then ret (-1)
    else
      do bcall begin_op ;;;
      let* ip := namei_ old in
      if ip =? 0 then leave (-1)
      else
        do fcall (ilock ip) ;;;
        let* t := get_ip ip i_type in
        if t =? T_DIR then do fcall (iunlockput ip) ;;; leave (-1)
        else
          let bad :=
            (do fcall (ilock ip) ;;;
             do set_ip ip (fun i => i <| i_nlink ::= fun n => i16 (n - 1) |>) ;;;
             do fcall (iupdate ip) ;;;
             do fcall (iunlockput ip) ;;;
             leave (-1)) in
          do set_ip ip (fun i => i <| i_nlink ::= fun n => i16 (n + 1) |>) ;;;
          do fcall (iupdate ip) ;;;
          do fcall (iunlock ip) ;;;
          let* '(dp, nm) := nameiparent_ new in
          if dp =? 0 then bad
          else
            do fcall (ilock dp) ;;;
            let* ddev := get_ip dp i_dev in
            let* idev := get_ip ip i_dev in
            let* inum := get_ip ip i_inum in
            let* r := (if negb (ddev =? idev) then ret (-1) else fcall (dirlink dp nm inum)) in
            if r <? 0 then do fcall (iunlockput dp) ;;; bad
            else
              do fcall (iunlockput dp) ;;;
              do fcall (iput ip) ;;;
              leave 0.

(** The loop of [isdirempty] from offset [off] on. *)
Fixpoint isdirempty_loop (k : nat) (dp off : Z) : M (fstate L) Z :=
  match k with
  | O => ret 1
  | S k' =>
    let* size := geti dp i_size in
    if u32 off <? size
    then
      let* '(r, de) := read_dirent dp (u32 off) in
      if negb (r =? sizeof_dirent) then panic "isdirempty: readi"
      else if negb (de_inum de =? 0) then ret 0 else isdirempty_loop k' dp (off + sizeof_dirent)
    else ret 1
  end.

Definition isdirempty (dp : Z) : M (fstate L) Z :=
  let* size := geti dp i_size in
  isdirempty_loop (Z.to_nat (size / sizeof_dirent + 1)) dp (2 * sizeof_dirent).

Definition sys_unlink : M K Z :=
  let* '(r0, path) := argstr 0 MAXPATH in
  if r0 <? 0 then ret (-1)
  else
    do bcall begin_op ;;;
    let* '(dp, nm) := nameiparent_ path in
    if dp =? 0 then leave (-1)
    else
      let bad := (do fcall (iunlockput dp) ;;; leave (-1)) in
      do fcall (ilock dp) ;;;
      if (namecmp nm str_dot =? 0) || (namecmp nm str_dotdot =? 0) then bad
      else
        let* '(ip, off) := fcall (dirlookup dp nm) in
        if ip =? 0 then bad
        else
          do fcall (ilock ip) ;;;
          let* nl := get_ip ip i_nlink in
          if nl <? 1 then panic "unlink: nlink < 1"
          else
            let* t := get_ip ip i_type in
            let* e := (if t =? T_DIR then fcall (isdirempty ip) else ret 1) in
            if e =? 0 then do fcall (iunlockput ip) ;;; bad
            else
              let* r := fcall (writei whole (get_local (repeat 0 16)) dp 0 off sizeof_dirent) in
              if negb (r =? sizeof_dirent) then panic "unlink: writei"
              else
                do (if t =? T_DIR
                    then do set_ip dp (fun i => i <| i_nlink ::= fun n => i16 (n - 1) |>) ;;; fcall (iupdate dp)
                    else ret tt) ;;;
                do fcall (iunlockput dp) ;;;
                do set_ip ip (fun i => i <| i_nlink ::= fun n => i16 (n - 1) |>) ;;;
                do fcall (iupdate ip) ;;;
                do fcall (iunlockput ip) ;;;
                leave 0.

Definition create (path : list Z) (type major minor : Z) : M K Z :=
  let* '(dp, nm) := nameiparent_ path in
  if dp =? 0 then ret 0
  else
    do fcall (ilock dp) ;;;
    let* '(ip, _) := fcall (dirlookup dp nm) in
    if negb (ip =? 0)
    then
      do fcall (iunlockput dp) ;;;
      do fcall (ilock ip) ;;;
      let* t := get_ip ip i_type in
      if (type =? T_FILE) && ((t =? T_FILE) || (t =? T_DEVICE)) then ret ip
      else do fcall (iunlockput ip) ;;; ret 0
    else
      let* dev := get_ip dp i_dev in
      let* ip := fcall (ialloc dev type) in
      if ip =? 0 then do fcall (iunlockput dp) ;;; ret 0
      else
        let fail :=
          (do set_ip ip (fun i => i <| i_nlink := 0 |>) ;;;
           do fcall (iupdate ip) ;;;
           do fcall (iunlockput ip) ;;;
           do fcall (iunlockput dp) ;;;
           ret 0) in
        do fcall (ilock ip) ;;;
        do set_ip ip (fun i => i <| i_major := major |> <| i_minor := minor |> <| i_nlink := 1 |>) ;;;
        do fcall (iupdate ip) ;;;
        let* inum := get_ip ip i_inum in
        let* dinum := get_ip dp i_inum in
        let* r :=
          (if type =? T_DIR
           then
             let* r := fcall (dirlink ip str_dot inum) in
             if r <? 0 then ret r else fcall (dirlink ip str_dotdot dinum)
           else ret 0) in
        if r <? 0 then fail
        else
          let* r := fcall (dirlink dp nm inum) in
          if r <? 0 then fail
          else
            do (if type =? T_DIR
                then do set_ip dp (fun i => i <| i_nlink ::= fun n => i16 (n + 1) |>) ;;; fcall (iupdate dp)
                else ret tt) ;;;
            do fcall (iunlockput dp) ;;;
            ret ip.

(** The second half of [sys_open]: [ip] is locked. *)
Definition open_inode (ip omode : Z) : M K Z :=
  let* t := get_ip ip i_type in
  let* mj := get_ip ip i_major in
  if (t =? T_DEVICE) && ((mj <? 0) || (NDEV <=? mj)) then do fcall (iunlockput ip) ;;; leave (-1)
  else
    let* f := filealloc in
    let* fd := (if f =? 0 then ret (-1) else fdalloc f) in
    if fd <? 0
    then
      do (if negb (f =? 0) then fileclose f else ret tt) ;;;
      do fcall (iunlockput ip) ;;;
      leave (-1)
    else
      do (if t =? T_DEVICE
          then setf f (fun x => x <| f_type := FD_DEVICE |> <| f_major := mj |>)
          else setf f (fun x => x <| f_type := FD_INODE |> <| f_off := 0 |>)) ;;;
      do setf f (fun x => x <| f_ip := ip |>
                            <| f_readable := if has omode O_WRONLY then 0 else 1 |>
                            <| f_writable := if has omode O_WRONLY || has omode O_RDWR then 1 else 0 |>) ;;;
      do (if has omode O_TRUNC && (t =? T_FILE) then fcall (itrunc ip) else ret tt) ;;;
      do fcall (iunlock ip) ;;;
      leave fd.

Definition sys_open : M K Z :=
  let* omode := argint 1 in
  let* '(n, path) := argstr 0 MAXPATH in
  if n <? 0 then ret (-1)
  else
    do bcall begin_op ;;;
    if has omode O_CREATE
    then
      let* ip := create path T_FILE 0 0 in
      if ip =? 0 then leave (-1) else open_inode ip omode
    else
      let* ip := namei_ path in
      if ip =? 0 then leave (-1)
      else
        do fcall (ilock ip) ;;;
        let* t := get_ip ip i_type in
        if (t =? T_DIR) && negb (omode =? O_RDONLY) then do fcall (iunlockput ip) ;;; leave (-1)
        else open_inode ip omode.

Definition sys_mkdir : M K Z :=
  do bcall begin_op ;;;
  let* '(r, path) := argstr 0 MAXPATH in
  let* ip := (if r <? 0 then ret 0 else create path T_DIR 0 0) in
  if ip =? 0 then leave (-1)
  else do fcall (iunlockput ip) ;;; leave 0.

Definition sys_mknod : M K Z :=
  do bcall begin_op ;;;
  let* major := argint 1 in
  let* minor := argint 2 in
  let* '(r, path) := argstr 0 MAXPATH in
  let* ip := (if r <? 0 then ret 0 else create path T_DEVICE (i16 major) (i16 minor)) in
  if ip =? 0 then leave (-1)
  else do fcall (iunlockput ip) ;;; leave 0.

Definition sys_chdir : M K Z :=
  let* p := myproc in
  do bcall begin_op ;;;
  let* '(r, path) := argstr 0 MAXPATH in
  let* ip := (if r <? 0 then ret 0 else namei_ path) in
  if ip =? 0 then leave (-1)
  else
    do fcall (ilock ip) ;;;
    let* t := get_ip ip i_type in
    if negb (t =? T_DIR) then do fcall (iunlockput ip) ;;; leave (-1)
    else
      do fcall (iunlock ip) ;;;
      let* d := getp p cwd in
      do fcall (iput d) ;;;
      do bcall end_op ;;;
      do setp p (fun q => q <| cwd := ip |>) ;;;
      ret 0.

Definition sys_pipe : M K Z :=
  let* p := myproc in
  let* fdarray := argaddr 0 in
  let* '(r, rf, wf) := pipealloc in
  if r <? 0 then ret (-1)
  else
    let close2 := (do fileclose rf ;;; do fileclose wf ;;; ret (-1)) in
    let* fd0 := fdalloc rf in
    let* fd1 := (if fd0 <? 0 then ret (-1) else fdalloc wf) in
    if (fd0 <? 0) || (fd1 <? 0)
    then do (if 0 <=? fd0 then fdclear fd0 else ret tt) ;;; close2
    else
      let* pt := getp p pagetable in
      let* r := vm (copyout pt fdarray (int_bytes fd0) 4) in
      let* r := (if r <? 0 then ret r else vm (copyout pt (u64 (fdarray + 4)) (int_bytes fd1) 4)) in
      if r <? 0
      then do fdclear fd0 ;;; do fdclear fd1 ;;; close2
      else ret 0.

(** ** exec.c *)

(** [readi] into a local structure, and into physical memory at [pa]. *)
Definition readi_local (ip off n : Z) : M K (Z * list Z) := fcall (readi whole put_local ip 0 off n).

Definition readi_kernel (ip pa off n : Z) : M K Z :=
  let* '(r, _) := fsys (readi on_fst (fun dst l => either_copyout 0 dst l (Z.of_nat (length l))) ip pa off n) in
  ret r.

Fixpoint loadseg_loop (k : nat) (pagetable va ip offset sz i : Z) : M K Z :=
  match k with
  | O => panic "loadseg: fuel"
  | S k' =>
    if i <? sz
    then
      let* pa := vm (walkaddr pagetable (u64 (va + i))) in
      if pa =? 0 then panic "loadseg: address should exist"
      else
        let n := if u32 (sz - i) <? PGSIZE then u32 (sz - i) else PGSIZE in
        let* r := readi_kernel ip pa (u32 (offset + i)) n in
        if negb (u32 r =? n) then ret (-1) else loadseg_loop k' pagetable va ip offset sz (u32 (i + PGSIZE))
    else ret 0
  end.

Definition loadseg (pagetable va ip offset sz : Z) : M K Z :=
  loadseg_loop (Z.to_nat (sz / PGSIZE + 2)) pagetable va ip offset sz 0.

(** The loop over the program headers: the new size, or [None] for [goto bad]
    with the size reached. *)
Fixpoint load_segments (k : nat) (pagetable ip phnum i off sz : Z) : M K (bool * Z) :=
  match k with
  | O => ret (true, sz)
  | S k' =>
    if i <? phnum
    then
      let* '(r, d) := readi_local ip (u32 off) sizeof_proghdr in
      if negb (r =? sizeof_proghdr) then ret (false, sz)
      else
        let ph := proghdr_of d in
        if negb (ph_type ph =? ELF_PROG_LOAD)
        then load_segments k' pagetable ip phnum (i + 1) (i32 (off + sizeof_proghdr)) sz
        else if ph_memsz ph <? ph_filesz ph then ret (false, sz)
        else if u64 (ph_vaddr ph + ph_memsz ph) <? ph_vaddr ph then ret (false, sz)
        else if negb (ph_vaddr ph mod PGSIZE =? 0) then ret (false, sz)
        else
          let* sz1 := vm (uvmalloc pagetable sz (u64 (ph_vaddr ph + ph_memsz ph)) (flags2perm (ph_flags ph))) in
          if sz1 =? 0 then ret (false, sz)
          else
            let* r := loadseg pagetable (ph_vaddr ph) ip (u32 (ph_off ph)) (u32 (ph_filesz ph)) in
            if r <? 0 then ret (false, sz1)
            else load_segments k' pagetable ip phnum (i + 1) (i32 (off + sizeof_proghdr)) sz1
    else ret (true, sz)
  end.

(** The argument strings, pushed below [sp]: the stack pointer and the
    addresses of the strings, or [None] for [goto bad]. *)
Fixpoint push_args (argv : list (list Z)) (pagetable stackbase sp argc : Z) (ustack : list Z) : M K (option (Z * list Z)) :=
  match argv with
  | [] => ret (Some (sp, ustack))
  | a :: argv' =>
    if MAXARG <=? argc then ret None
    else
      let len := Z.of_nat (length (str_chars a)) in
      let sp := u64 (sp - (len + 1)) in
      let sp := sp - sp mod 16 in
      if sp <? stackbase then ret None
      else
        let* r := vm (copyout pagetable sp (str_chars a ++ [0]) (len + 1)) in
        if r <? 0 then ret None
        else push_args argv' pagetable stackbase sp (argc + 1) (ustack ++ [sp])
  end.

(** The bytes of an array of 64-bit words. *)
Definition words_bytes (l : list Z) : list Z := concat (map (fun v => int_bytes v ++ int_bytes (v / 2 ^ 32)) l).

(** The part of [path] after its last slash. *)
Fixpoint last_elem (s last : list Z) : list Z :=
  match s with
  | [] => last
  | c :: s' => if c =? 0 then last else last_elem s' (if c =? SLASH then s' else last)
  end.

Definition TF_a1 : Z := 120.

(** From the user stack on: the image is loaded, [ip] is released. *)
Definition exec_image (path : list Z) (argv : list (list Z)) (entry pagetable sz : Z) : M K Z :=
  let* p := myproc in
  let* oldsz := getp p Proc.sz in
  let bad sz := (do proc_freepagetable pagetable sz ;;; ret (-1)) in
  let sz := PGROUNDUP sz in
  let* sz1 := vm (uvmalloc pagetable sz (u64 (sz + 2 * PGSIZE)) PTE_W) in
  if sz1 =? 0 then bad sz
  else
    let sz := sz1 in
    do vm (uvmclear pagetable (u64 (sz - 2 * PGSIZE))) ;;;
    let stackbase := sz - PGSIZE in
    let* a := push_args argv pagetable stackbase sz 0 [] in
    match a with
    | None => bad sz
    | Some (sp, ustack) =>
      let argc := Z.of_nat (length argv) in
      let sp := u64 (sp - (argc + 1) * 8) in
      let sp := sp - sp mod 16 in
      if sp <? stackbase then bad sz
      else
        let* r := vm (copyout pagetable sp (words_bytes (ustack ++ [0])) ((argc + 1) * 8)) in
        if r <? 0 then bad sz
        else
          let* tf := getp p trapframe in
          do vm (store64 (tf + TF_a1) sp) ;;;
          do setp p (fun q => q <| name ::= fun l => copy_name l (last_elem path path) 16 |>) ;;;
          let* oldpagetable := getp p Proc.pagetable in
          do setp p (fun q => q <| Proc.pagetable := pagetable |> <| Proc.sz := sz |>) ;;;
          do vm (store64 (tf + TF_epc) entry) ;;;
          do vm (store64 (tf + TF_sp) sp) ;;;
          do proc_freepagetable oldpagetable oldsz ;;;
          ret argc
    end.

Definition exec (path : list Z) (argv : list (list Z)) : M K Z :=
  let* p := myproc in
  do bcall begin_op ;;;
  let* ip := namei_ path in
  if ip =? 0 then leave (-1)
  else
    let bad := (do fcall (iunlockput ip) ;;; leave (-1)) in
    do fcall (ilock ip) ;;;
    let* '(r, d) := readi_local ip 0 sizeof_elfhdr in
    if negb (r =? sizeof_elfhdr) then bad
    else
      let elf := elfhdr_of d in
      if negb (e_magic elf =? ELF_MAGIC) then bad
      else
        let* pagetable := proc_pagetable p in
        if pagetable =? 0 then bad
        else
          let* '(ok, sz) := load_segments (Z.to_nat (e_phnum elf)) pagetable ip (e_phnum elf) 0 (i32 (e_phoff elf)) 0 in
          if negb ok then do proc_freepagetable pagetable sz ;;; bad
          else
            do fcall (iunlockput ip) ;;;
            do bcall end_op ;;;
            exec_image path argv (e_entry elf) pagetable sz.

(** The pages of the argument strings, given back. *)
Fixpoint free_args (l : list Z) : M K unit :=
  match l with
  | [] => ret tt
  | a :: l' => do vm (kfree a) ;;; free_args l'
  end.

(** The argument strings from the user's array: whether all could be read, their
    pages and their contents. *)
Fixpoint fetch_args (k : nat) (uargv i : Z) (pages : list Z) (strs : list (list Z)) : M K (bool * list Z * list (list Z)) :=
  match k with
  | O => ret (false, pages, strs)
  | S k' =>
    let* '(r, uarg) := fetchaddr (u64 (uargv + 8 * i)) in
    if r <? 0 then ret (false, pages, strs)
    else if uarg =? 0 then ret (true, pages, strs)
    else
      let* a := vm kalloc in
      if a =? 0 then ret (false, pages, strs)
      else
        let* '(n, s) := fetchstr uarg PGSIZE in
        do vm (modify (set_mem (fun m => write_bytes m a s))) ;;;
        if n <? 0 then ret (false, pages ++ [a], strs)
        else fetch_args k' uargv (i + 1) (pages ++ [a]) (strs ++ [s])
  end.

Definition sys_exec : M K Z :=
  let* uargv := argaddr 1 in
  let* '(r, path) := argstr 0 MAXPATH in
  if r <? 0 then ret (-1)
  else
    let* '(ok, pages, strs) := fetch_args (Z.to_nat MAXARG) uargv 0 [] [] in
    if (ok : bool)
    then
      let* r := exec path strs in
      do free_args pages ;;;
      ret r
    else do free_args pages ;;; ret (-1).

End Ops.

(** The system calls of this file, for the dispatch in syscall.c; [pad] is what
    the kernel stack holds between the fields of [struct stat]. *)
#[global] Instance sysfile_ops (pad : list Z) `{Layout} `{Entry} {L : Type} `{Blocks L} : SysfileOps (files L) := {
  Sysproc.sys_pipe := sys_pipe;
  Sysproc.sys_read := sys_read;
  Sysproc.sys_exec := sys_exec;
  Sysproc.sys_fstat := sys_fstat pad;
  Sysproc.sys_chdir := sys_chdir;
  Sysproc.sys_dup := sys_dup;
  Sysproc.sys_open := sys_open;
  Sysproc.sys_write := sys_write;
  Sysproc.sys_mknod := sys_mknod;
  Sysproc.sys_unlink := sys_unlink;
  Sysproc.sys_link := sys_link;
  Sysproc.sys_mkdir := sys_mkdir;
  Sysproc.sys_close := sys_close
}.
