(* ===== verification/Kernel.v ===== *)
(** * The handlers of the whole kernel

    Trap.v takes the interrupt handlers of the drivers and the system calls as
    an interface.  Here they are those of Console.v, Virtio.v, Sysproc.v and
    Sysfile.v, over the file layer of File.v; [ond] says where the state of the
    disk driver is kept.  None of them touches the heat of a process. *)

From Stdlib Require Import ZArith Lia List.
From stdpp Require Import base tactics numbers list gmap strings.
From S2P Require Import Prelude Riscv CString Kalloc Vm Proc Blocks Sleeplock Fs Console File Virtio Sysproc Sysfile Trap TrapFacts.

Section Kernel.
Context `{Layout} `{Entry} {L : Type} `{Blocks L} (ond : Lens (files L) vstate) (pad t0 : list Z).

Abbreviation K := (pstate (files L)).

Definition on_disk_driver : Lens K vstate :=
  mkLens (fun s => lget ond (fs s)) (fun x s => s <| fs ::= lset ond x |>).

(** The interrupt of the disk, with the processes it wakes up. *)
Definition disk_intr : M K unit :=
  do zoom on_disk_driver Virtio.virtio_disk_intr ;;;
  let* l := gets (fun s => vwoken (lget ond (fs s))) in
  do zoom on_disk_driver (modify (fun s => s <| vwoken := [] |>)) ;;;
  wake_all l.

Definition kernel_ops : TrapOps (files L) := {|
  Trap.uartintr := Console.uartintr on_term;
  Trap.virtio_disk_intr := disk_intr;
  Trap.syscall := @Sysproc.syscall _ _ _ files_ops (sysfile_ops pad) t0
|}.

(** ** Heat *)

(** A routine that works inside the file layer. *)
Lemma keeps_zoom_fs {A B} (l : Lens (files L) B) (m : M B A) :
  keeps heats (zoom (mkLens (fun s : K => lget l (fs s)) (fun x s => s <| fs ::= lset l x |>)) m).
Proof using Type. intros s. unfold zoom. cbn. by destruct (m _). Qed.

Lemma keeps_wake c : keeps heats (wakeup (F := files L) c).
Proof using Type.
  apply keeps_for_procs. intros p. unfold myproc. keeps. apply keeps_setp. intros q. unfold wakeup1.
  destruct (decide _); [destruct (decide _)|]; done.
Qed.

Lemma keeps_wait {A} c : keeps heats (sleep (F := files L) (A := A) c).
Proof using Type. unfold sleep, sched, myproc. keeps. Qed.

Hint Resolve keeps_wake keeps_wait : keeps.
Hint Extern 2 (keeps heats (zoom _ _)) => apply keeps_zoom_fs : keeps.

Lemma keeps_wake_all l : keeps heats (wake_all (L := L) l).
Proof using Type. induction l as [|c l IH]; cbn [wake_all]; keeps. Qed.
Hint Resolve keeps_wake_all : keeps.

Lemma keeps_on_fst {A} (m : M (fstate L) A) : keeps heats (zoom on_fst m).
Proof using Type. apply (keeps_zoom_fs (mkLens fsst (fun x f => f <| fsst := x |>))). Qed.
Hint Resolve keeps_on_fst : keeps.

(** What runs for a process in the file system: its wakeups follow, and it may
    sleep. *)
Lemma keeps_fsys {A} (m : M K A) : keeps heats m -> keeps heats (fsys m).
Proof using Type.
  intros Km. apply keeps_bind; [unfold enter, myproc; keeps|]. intros _ s. specialize (Km s).
  assert (St : keeps heats (settle (L := L))) by (unfold settle; keeps).
  destruct (m s) as [a s'|msg|c s']; [|done|]; rewrite <- Km.
  - exact (keeps_bind _ _ _ St (fun _ => keeps_ret _ a) s').
  - exact (keeps_bind _ _ _ St (fun _ => keeps_wait c) s').
Qed.

Lemma keeps_fcall {A} (m : M (fstate L) A) : keeps heats (fcall m).
Proof using Type. apply keeps_fsys. keeps. Qed.
Hint Resolve keeps_fcall : keeps.

Lemma keeps_pipeclose pi w : keeps heats (pipeclose (L := L) pi w).
Proof using Type. unfold pipeclose, setpi, getpi. keeps. Qed.
Hint Resolve keeps_pipeclose : keeps.

Lemma keeps_fileclose f : keeps heats (fileclose (L := L) f).
Proof using Type. unfold fileclose, setf, getf, bcall. keeps. destruct (f_type _); keeps. Qed.

(** ** The console *)

Lemma keeps_uartstart : keeps heats (uartstart (F := files L) on_term).
Proof using Type.
  unfold uartstart, ser, con. keeps. generalize (S (Z.to_nat (u64 (uart_tx_w a - uart_tx_r a)))). intros k.
  induction k as [|k IH]; cbn [uartstart_loop]; unfold ser, con; keeps.
Qed.

Lemma keeps_kill_all : keeps heats (kill_all_user_processes (F := files L)).
Proof using Type. unfold kill_all_user_processes. keeps. Qed.
Hint Resolve keeps_uartstart keeps_kill_all : keeps.

Lemma keeps_consoleintr c : keeps heats (consoleintr (F := files L) on_term c).
Proof using Type. unfold consoleintr, input_char, ser, con. keeps. Qed.
Hint Resolve keeps_consoleintr : keeps.

Lemma keeps_uartintr : keeps heats (Console.uartintr (F := files L) on_term).
Proof using Type.
  unfold Console.uartintr, ser, con. keeps. generalize (length a). intros k. induction k as [|k IH]; cbn [uartintr_loop]; unfold ser, con; keeps.
Qed.

(** The kernel put together meets what the theorems about traps ask of its
    parts. *)
#[global] Instance kernel_heat_safe : @HeatSafe (files L) files_ops kernel_ops.
Proof using Type.
  split; cbn.
  - apply keeps_fileclose.
  - intros ip. apply keeps_fcall.
  - apply keeps_fcall.
  - apply keeps_fcall.
  - apply keeps_uartintr.
  - unfold disk_intr, on_disk_driver. keeps.
Qed.

(** So one trap of a user program, taken by that kernel, heats the current
    process by one degree when it is a timer interrupt and leaves every heat as
    it is otherwise. *)
Lemma kernel_trap_heats `{TrapEntry} r (s : K) : scause r <> 8 ->
  let _ := kernel_ops in
  match usertrap r s with
  | Ok _ s' | Block _ s' => heats s' = heats s \/ scause r = TIMER_CAUSE /\ heats s' = heated (cur s) (heats s)
  | Panic _ => True
  end.
Proof using Type. intros N ops. by apply usertrap_heats. Qed.

End Kernel.
