(* ===== verification/Grep.v ===== *)
(** * user/grep.c: searching lines for a pattern

    A [char *] into a string is the list of the characters up to its terminator.
    [matches] is the reference meaning of a pattern; the matcher agrees with it
    on every pattern and text.  The search loop is over any source of bytes that
    behaves like [read]; however the input arrives, it prints the matching lines. *)

From Stdlib Require Import ZArith Lia List Bool.
From stdpp Require Import base tactics numbers list sets.
From S2P Require Import Prelude.

Definition CARET : Z := 94.
Definition STAR : Z := 42.
Definition DOT : Z := 46.
Definition DOLLAR : Z := 36.
Definition NEWLINE : Z := 10.

(** ** The matcher *)

(** The loop of [matchstar] with [matchhere(re, ...)] as [here]. *)
Fixpoint matchstar (here : list Z -> bool) (c : Z) (text : list Z) : bool :=
  if here text then true
  else match text with
       | [] => false
       | t :: text' => if (t =? c) || (c =? DOT) then matchstar here c text' else false
       end.

Fixpoint matchhere (re text : list Z) {struct re} : bool :=
  match re with
  | [] => true
  | c :: re1 =>
    match re1 with
    | d :: re2 =>
      if d =? STAR then matchstar (matchhere re2) c text
      else match text with
           | t :: text' => if (c =? DOT) || (c =? t) then matchhere re1 text' else false
           | [] => false
           end
    | [] =>
      if c =? DOLLAR then match text with [] => true | _ => false end
      else match text with
           | t :: text' => if (c =? DOT) || (c =? t) then matchhere re1 text' else false
           | [] => false
           end
    end
  end.

(** The loop of [match]: at every position, the end included. *)
Fixpoint match_anywhere (re text : list Z) : bool :=
  if matchhere re text then true
  else match text with [] => false | _ :: text' => match_anywhere re text' end.

Definition match_ (re text : list Z) : bool :=
  match re with
  | c :: re' => if c =? CARET then matchhere re' text else match_anywhere re text
  | [] => match_anywhere re text
  end.

(** ** The reference *)

(** A pattern is a sequence of items; a [$] that is not last stands for itself. *)
Inductive item : Type := One (c : Z) | Many (c : Z) | End.

Fixpoint items (re : list Z) : list item :=
  match re with
  | [] => []
  | c :: re1 =>
    match re1 with
    | d :: re2 => if d =? STAR then Many c :: items re2 else One c :: items re1
    | [] => if c =? DOLLAR then [End] else [One c]
    end
  end.

Definition fits (c t : Z) : Prop := c = DOT \/ c = t.

(** The items match at the beginning of the text. *)
Inductive matches : list item -> list Z -> Prop :=
  | m_nil text : matches [] text
  | m_one c t p text : fits c t -> matches p text -> matches (One c :: p) (t :: text)
  | m_many c w p text : Forall (fits c) w -> matches p text -> matches (Many c :: p) (w ++ text)
  | m_end : matches [End] [].

(** Somewhere in the text, unless the pattern begins with [^]. *)
Definition selects (re text : list Z) : Prop :=
  match re with
  | c :: re' =>
    if c =? CARET then matches (items re') text
    else exists before after, text = before ++ after /\ matches (items re) after
  | [] => True
  end.

(** ** The matcher decides the reference *)

Lemma fits_test c t : (c =? DOT) || (c =? t) = true <-> fits c t.
Proof. unfold fits. rewrite orb_true_iff, !Z.eqb_eq. done. Qed.

Lemma matchstar_spec here c text :
  matchstar here c text = true <-> exists w rest, text = w ++ rest /\ Forall (fits c) w /\ here rest = true.
Proof.
  induction text as [|t text IH]; cbn.
  - destruct (here []) eqn:E; split; try done.
    + intros _. by exists [], [].
    + intros (w & rest & Ew & _ & Er). symmetry in Ew. apply app_eq_nil in Ew as [-> ->]. congruence.
  - destruct (here (t :: text)) eqn:E; [split; [|done]; intros _; by exists [], (t :: text)|].
    assert (F : (t =? c) || (c =? DOT) = true <-> fits c t) by (rewrite <- fits_test, orb_comm, (Z.eqb_sym t); done).
    split.
    + destruct ((t =? c) || (c =? DOT)); [|done]. intros (w & rest & -> & Fw & Er)%IH. exists (t :: w), rest. split_and!; [done| |done].
      constructor; [by apply F|done].
    + intros ([|x w] & rest & Ew & Fw & Er); cbn in Ew; [by rewrite <- Ew, E in Er|]. injection Ew as -> ->.
      apply Forall_cons in Fw as [Fx Fw]. apply F in Fx as ->. apply IH. by exists w, rest.
Qed.

Lemma matchhere_spec re : forall text, matchhere re text = true <-> matches (items re) text.
Proof.
  enough (forall n re, (length re < n)%nat -> forall text, matchhere re text = true <-> matches (items re) text) as K by (by apply (K (S (length re))); lia).
  induction n as [|n IH]; intros r Hr text; [lia|].
  assert (One_step : forall c p re1, (forall x, matchhere re1 x = true <-> matches p x) ->
    (match text with t :: text' => if (c =? DOT) || (c =? t) then matchhere re1 text' else false | [] => false end = true <-> matches (One c :: p) text)).
  { intros c p re1 Hp. destruct text as [|t text]; [split; [done|inversion 1]|]. pose proof (fits_test c t) as F.
    destruct ((c =? DOT) || (c =? t)).
    - rewrite Hp. split; [intros; constructor; [by apply F|done]|by inversion 1].
    - split; [done|]. inversion 1; subst. assert (false = true) by by apply F. done. }
  destruct r as [|c [|d r]]; cbn [matchhere items].
  - split; [constructor|done].
  - destruct (Z.eqb_spec c DOLLAR) as [->|N].
    + destruct text; (split; [try constructor; done|by inversion 1]).
    + apply (One_step c [] []). intros x. split; [constructor|done].
  - destruct (d =? STAR) eqn:Ed.
    + rewrite matchstar_spec. split.
      * intros (w & rest & -> & Fw & Er). constructor; [done|]. apply IH; [cbn in Hr; lia|done].
      * inversion 1; subst. exists w, text0. split_and!; [done..|]. apply IH; [cbn in Hr; lia|done].
    + apply (One_step c (items (d :: r)) (d :: r)). intros x. apply IH. cbn in *. lia.
Qed.

Lemma match_anywhere_spec re text : match_anywhere re text = true <-> exists before after, text = before ++ after /\ matches (items re) after.
Proof.
  induction text as [|t text IH]; cbn.
  - destruct (matchhere re []) eqn:E; split; try done.
    + intros _. exists [], []. split; [done|]. by apply matchhere_spec.
    + intros (b & a & Eb & M). symmetry in Eb. apply app_eq_nil in Eb as [-> ->]. apply matchhere_spec in M. congruence.
  - destruct (matchhere re (t :: text)) eqn:E.
    + split; [|done]. intros _. exists [], (t :: text). split; [done|]. by apply matchhere_spec.
    + rewrite IH. split.
      * intros (b & a & -> & M). by exists (t :: b), a.
      * intros ([|x b] & a & Eb & M); cbn in Eb; [subst a; apply matchhere_spec in M; congruence|]. injection Eb as -> ->. by exists b, a.
Qed.

(** C32: the matcher of grep decides the reference meaning: on every pattern and
    text, [match] answers 1 exactly when the items of the pattern, with [.], [*]
    and [$], match from some position, or from the first one under [^]. *)
Theorem match_decides_reference re text : match_ re text = true <-> selects re text.
Proof.
  destruct re as [|c re]; cbn [match_ selects].
  - split; [done|]. intros _. by destruct text.
  - destruct (c =? CARET); [apply matchhere_spec|apply match_anywhere_spec].
Qed.

(** ** The search loop *)

(** ulib.c's [strchr], as an offset. *)
Fixpoint strchr (s : list Z) (c : Z) : option nat :=
  match s with
  | [] => None
  | x :: s' => if x =? 0 then None else if x =? c then Some O else S <$> strchr s' c
  end.

(** The inner loop: the lines that are complete, with what is printed of them
    and what is left in the buffer. *)
Fixpoint scan_lines (k : nat) (pattern p : list Z) : list Z * list Z :=
  match k with
  | O => ([], p)
  | S k' =>
    match strchr p NEWLINE with
    | None => ([], p)
    | Some q =>
      let '(out, rest) := scan_lines k' pattern (drop (S q) p) in
      ((if match_ pattern (take q p) then take (S q) p else []) ++ out, rest)
    end
  end.

Definition BUFSIZE : Z := 1024.

Section Search.
Context {S : Type} (read : Z -> S -> Z * list Z * S).

(** [buf] is what the buffer holds of an unfinished line; [out] what has been
    printed. *)
Fixpoint grep_loop (fuel : nat) (pattern buf : list Z) (s : S) (out : list Z) : option (list Z * S) :=
  match fuel with
  | O => None
  | Datatypes.S fuel' =>
    let '(n, b, s') := read (BUFSIZE - Z.of_nat (length buf) - 1) s in
    if 0 <? n
    then
      let p := buf ++ take (Z.to_nat n) b in
      let '(o, rest) := scan_lines (length p) pattern p in
      grep_loop fuel' pattern rest s' (out ++ o)
    else Some (out, s')
  end.

Definition grep (fuel : nat) (pattern : list Z) (s : S) : option (list Z * S) := grep_loop fuel pattern [] s [].

(** What the loop relies on in [read]: it delivers the next bytes, as many as it
    likes but no more than asked for, and none only at the end. *)
Class Source (rest : S -> list Z) : Prop := {
  read_ok : forall n s, 0 <= n -> exists b s', read n s = (Z.of_nat (length b), b, s') /\
    rest s = b ++ rest s' /\ Z.of_nat (length b) <= n /\ (b = [] -> n = 0 \/ rest s = [])
}.
End Search.

(** The lines of a text and what follows the last of them. *)
Fixpoint lines_of (l : list Z) : list (list Z) * list Z :=
  match l with
  | [] => ([], [])
  | c :: l' =>
    let '(ls, r) := lines_of l' in
    if c =? NEWLINE then ([] :: ls, r)
    else match ls with [] => ([], c :: r) | x :: xs => ((c :: x) :: xs, r) end
  end.

Definition printed (pattern : list Z) (ls : list (list Z)) : list Z :=
  concat (map (fun x => x ++ [NEWLINE]) (filter (fun x => match_ pattern x = true) ls)).

(** Every line, the unfinished one included, leaves room in the buffer. *)
Definition short (l : list Z) : Prop :=
  Forall (fun x => Z.of_nat (length x) < BUFSIZE - 1) (lines_of l).1 /\ Z.of_nat (length (lines_of l).2) < BUFSIZE - 1.

(** *** Lines *)

Lemma lines_of_line x l : NEWLINE ∉ x -> lines_of (x ++ NEWLINE :: l) = (x :: (lines_of l).1, (lines_of l).2).
Proof.
  induction x as [|c x IH]; cbn [app lines_of].
  - intros _. rewrite Z.eqb_refl. by destruct (lines_of l).
  - intros [Nc Nx]%not_elem_of_cons. rewrite (IH Nx). destruct (Z.eqb_spec c NEWLINE); [congruence|done].
Qed.

Lemma lines_of_part x : NEWLINE ∉ x -> lines_of x = ([], x).
Proof.
  induction x as [|c x IH]; [done|]. intros [Nc Nx]%not_elem_of_cons. cbn. rewrite (IH Nx). destruct (Z.eqb_spec c NEWLINE); [congruence|done].
Qed.

Lemma newline_dec l : (exists x l', l = x ++ NEWLINE :: l' /\ NEWLINE ∉ x) \/ NEWLINE ∉ l.
Proof.
  destruct (decide (NEWLINE ∈ l)) as [I|N]; [left|by right]. induction l as [|c l IH]; [by apply elem_of_nil in I|].
  destruct (decide (c = NEWLINE)) as [->|N]; [exists [], l; set_solver|].
  destruct IH as (x & l' & -> & Nx); [set_solver|]. exists (c :: x), l'. set_solver.
Qed.

(** The rest after the complete lines has none, and going on from it is going on
    from the whole. *)
Lemma lines_of_app a b : NEWLINE ∉ (lines_of a).2 /\
  lines_of (a ++ b) = ((lines_of a).1 ++ (lines_of ((lines_of a).2 ++ b)).1, (lines_of ((lines_of a).2 ++ b)).2).
Proof.
  remember (length a) as n eqn:En. revert a En. induction n as [n IH] using lt_wf_ind. intros a ->.
  destruct (newline_dec a) as [(x & l & -> & Nx)|N].
  - rewrite <- app_assoc. cbn [app]. rewrite !lines_of_line by done. cbn [fst snd].
    destruct (IH (length l)) with (a := l) as [E1 E2]; [rewrite length_app; cbn; lia|done|]. by rewrite E2.
  - rewrite lines_of_part by done. cbn. split; [done|]. by destruct (lines_of (a ++ b)).
Qed.

Lemma lines_of_rest a x : x ∈ (lines_of a).2 -> x ∈ a.
Proof.
  induction a as [|c a IH]; [done|]. cbn. destruct (lines_of a) as [[|y ls] r]; destruct (c =? NEWLINE); cbn in *; set_solver.
Qed.

Lemma strchr_line x l : 0 ∉ x -> NEWLINE ∉ x -> strchr (x ++ NEWLINE :: l) NEWLINE = Some (length x).
Proof.
  induction x as [|c x IH]; [done|]. intros [N0 Z0]%not_elem_of_cons [Nc Nx]%not_elem_of_cons. cbn.
  destruct (Z.eqb_spec c 0); [congruence|]. destruct (Z.eqb_spec c NEWLINE); [congruence|]. by rewrite IH.
Qed.

Lemma strchr_none x c : c ∉ x -> strchr x c = None.
Proof.
  induction x as [|y x IH]; [done|]. intros [Nc Nx]%not_elem_of_cons. cbn.
  destruct (y =? 0); [done|]. destruct (Z.eqb_spec y c); [congruence|]. by rewrite IH.
Qed.

Lemma scan_lines_run pattern k : forall p, 0 ∉ p -> (length p <= k)%nat ->
  scan_lines k pattern p = (printed pattern (lines_of p).1, (lines_of p).2).
Proof.
  induction k as [|k IH]; intros p Z0 Hk; [by destruct p; cbn in *; [|lia]|]. cbn [scan_lines].
  destruct (newline_dec p) as [(x & l & -> & Nx)|N].
  - assert (Zx : 0 ∉ x) by set_solver. rewrite strchr_line, lines_of_line by done.
    replace (drop (S (length x)) (x ++ NEWLINE :: l)) with l by (by rewrite drop_app_ge, Nat.sub_succ_l, Nat.sub_diag by lia).
    rewrite length_app in Hk. cbn in Hk. rewrite IH by (set_solver || lia). cbn [fst snd]. unfold printed.
    rewrite take_app_length. f_equal. destruct (match_ pattern x) eqn:M.
    + rewrite filter_cons_True by done. cbn [map concat]. rewrite (cons_middle NEWLINE), app_assoc. 
      rewrite take_app_length' by (rewrite length_app; cbn; lia). done.
    + by rewrite filter_cons_False by congruence.
  - by rewrite strchr_none, lines_of_part.
Qed.

Lemma short_part a b : NEWLINE ∉ a -> short (a ++ b) -> Z.of_nat (length a) < BUFSIZE - 1.
Proof.
  intros N [F R]. destruct (newline_dec b) as [(x & l & -> & Nx)|Nb].
  - rewrite app_assoc, lines_of_line in F by set_solver. cbn in F. apply Forall_cons in F as [F _]. rewrite length_app in F. lia.
  - rewrite lines_of_part in R by set_solver. cbn in R. rewrite length_app in R. lia.
Qed.

Section Result.
Context {S : Type} (read : Z -> S -> Z * list Z * S) (rest : S -> list Z) `{!Source read rest}.

Lemma grep_loop_run pattern fuel : forall buf s out,
  NEWLINE ∉ buf -> 0 ∉ buf ++ rest s -> short (buf ++ rest s) -> (length (rest s) < fuel)%nat ->
  exists s', grep_loop read fuel pattern buf s out = Some (out ++ printed pattern (lines_of (buf ++ rest s)).1, s').
Proof.
  induction fuel as [|fuel IH]; intros buf s out Nb Z0 Sh Hf; [lia|]. cbn [grep_loop].
  pose proof (short_part _ _ Nb Sh) as Hb. destruct (read_ok read (BUFSIZE - Z.of_nat (length buf) - 1) s ltac:(lia)) as (b & s' & -> & Er & Lb & Nz).
  destruct (Z.ltb_spec 0 (Z.of_nat (length b))) as [Hp|Hp].
  - rewrite Nat2Z.id, (take_ge b) by lia. rewrite Er in *.
    rewrite scan_lines_run; [|set_solver|done]. destruct (lines_of_app (buf ++ b) (rest s')) as [Nr E]. rewrite <- app_assoc in E.
    destruct (IH (lines_of (buf ++ b)).2 s' (out ++ printed pattern (lines_of (buf ++ b)).1)) as [s2 E2].
    + done.
    + intros Hz. apply Z0. rewrite app_assoc. apply elem_of_app in Hz as [Hz|Hz]; [|set_solver]. apply elem_of_app. left. by apply lines_of_rest.
    + unfold short in *. rewrite E in Sh. cbn [fst snd] in Sh. rewrite Forall_app in Sh. naive_solver.
    + rewrite length_app in Hf. lia.
    + exists s2. rewrite E2, E. do 2 f_equal. cbn [fst]. unfold printed. by rewrite filter_app, map_app, concat_app, app_assoc.
  - destruct b; [|cbn in Hp; lia]. destruct (Nz eq_refl) as [Hz|Hz]; [lia|]. exists s'. rewrite Hz, app_nil_r, lines_of_part by done.
    cbn. by rewrite app_nil_r.
Qed.

(** C21: however [read] cuts its input into pieces, grep prints exactly the
    lines that match, whole and in order, for input without zero bytes whose
    lines are shorter than 1023 characters; a last line without a newline is
    not printed.  The loop ends, within one more round than there are bytes. *)
Theorem grep_prints_matching_lines pattern s :
  0 ∉ rest s -> short (rest s) ->
  exists s', grep read (Datatypes.S (length (rest s))) pattern s = Some (printed pattern (lines_of (rest s)).1, s').
Proof.
  intros Z0 Sh. apply (grep_loop_run pattern _ [] s []); [apply not_elem_of_nil|done|done|lia].
Qed.
End Result.

(** ** Witness

    A source that hands out its bytes in pieces of given sizes. *)
Module GrepWitness.
Definition read_pieces (n : Z) (s : list Z * list nat) : Z * list Z * (list Z * list nat) :=
  let '(l, ks) := s in
  let k := match ks with k :: _ => Nat.max 1 k | [] => length l end in
  let b := take (Nat.min (Z.to_nat n) k) l in
  (Z.of_nat (length b), b, (drop (length b) l, tail ks)).

#[local] Instance pieces_source : Source read_pieces fst.
Proof.
  split. intros n [l ks] Hn. eexists _, _. split; [reflexivity|]. cbn [fst].
  set (k := match ks with k :: _ => Nat.max 1 k | [] => length l end). split_and!.
  - rewrite length_take. rewrite <- (take_drop (Nat.min (Z.to_nat n) k) l) at 1. f_equal. destruct (Nat.le_ge_cases (Nat.min (Z.to_nat n) k) (length l)).
    + by rewrite (Nat.min_l _ (length l)) by lia.
    + rewrite (Nat.min_r _ (length l)) by lia. by rewrite !drop_ge by lia.
  - rewrite length_take. lia.
  - intros E. destruct l as [|c l]; [by right|left]. destruct (Z.eq_dec n 0); [done|]. 
    assert (Hk : (1 <= k)%nat) by (subst k; destruct ks; cbn; lia). destruct (Nat.min (Z.to_nat n) k) eqn:Em; [lia|done].
Qed.

(** The lines [xab], [ay], [ba] and the pattern [a*b], in pieces of 2, 5 and the rest. *)
Lemma grep_prints_matching_lines_witness :
  exists s', grep read_pieces 11 [97; 42; 98] ([120; 97; 98; 10; 97; 121; 10; 98; 97; 10], [2; 5]%nat) = Some ([120; 97; 98; 10; 98; 97; 10], s').
Proof.
  destruct (grep_prints_matching_lines read_pieces fst [97; 42; 98] ([120; 97; 98; 10; 97; 121; 10; 98; 97; 10], [2; 5]%nat)) as [s' E].
  - apply (bool_decide_unpack _). by vm_compute.
  - split; [|by vm_compute]. repeat constructor.
  - exists s'. exact E.
Defined.
End GrepWitness.
