(* ===== verification/Ulib.v ===== *)
(** * user/ulib.c: the library of user programs

    The loops over a byte store, as in CString.v; a loop that has no bound in
    the code takes the number of bytes it may inspect and answers [None] when it
    finds no end there.  The system calls are arguments of the routines that make
    them.  What [printf] prints for a number [atoi] reads back. *)

From Stdlib Require Import ZArith Lia List.
From stdpp Require Import base tactics numbers list.
From S2P Require Import Prelude CString Printf.

Module Ulib.

Section Strings.
Context {B : Type} `{ByteStore B}.
Implicit Types (m : B).

Fixpoint strcpy (k : nat) (m : B) (s t : Z) : option B :=
  match k with
  | O => None
  | S k' =>
    let c := bget m t in
    let m' := bset m s c in
    if negb (c =? 0) then strcpy k' m' (s + 1) (t + 1) else Some m'
  end.

Fixpoint strcmp (k : nat) (m : B) (p q : Z) : option Z :=
  match k with
  | O => None
  | S k' =>
    if negb (bget m p =? 0) && (bget m p =? bget m q) then strcmp k' m (p + 1) (q + 1)
    else Some (bget m p - bget m q)
  end.

Fixpoint strlen_from (k : nat) (m : B) (s n : Z) : option Z :=
  match k with
  | O => None
  | S k' => if negb (bget m (s + n) =? 0) then strlen_from k' m s (n + 1) else Some n
  end.
Definition strlen (k : nat) (m : B) (s : Z) : option Z := strlen_from k m s 0.

Fixpoint memset_from (k : nat) (m : B) (cdst i c : Z) : B :=
  match k with
  | O => m
  | S k' => memset_from k' (bset m (cdst + i) c) cdst (i + 1) c
  end.
Definition memset (m : B) (dst c n : Z) : B := memset_from (Z.to_nat n) m dst 0 c.

(** 0 is the null pointer. *)
Fixpoint strchr (k : nat) (m : B) (s c : Z) : option Z :=
  match k with
  | O => None
  | S k' =>
    if bget m s =? 0 then Some 0
    else if bget m s =? c then Some s else strchr k' m (s + 1) c
  end.

Fixpoint atoi_from (k : nat) (m : B) (s n : Z) : option Z :=
  match k with
  | O => None
  | S k' =>
    if (48 <=? bget m s) && (bget m s <=? 57) then atoi_from k' m (s + 1) (i32 (n * 10 + bget m s - 48))
    else Some n
  end.
Definition atoi (k : nat) (m : B) (s : Z) : option Z := atoi_from k m s 0.

Fixpoint move_up (k : nat) (m : B) (dst src : Z) : B :=
  match k with
  | O => m
  | S k' => move_up k' (bset m dst (bget m src)) (dst + 1) (src + 1)
  end.
Fixpoint move_down (k : nat) (m : B) (dst src : Z) : B :=
  match k with
  | O => m
  | S k' => move_down k' (bset m (dst - 1) (bget m (src - 1))) (dst - 1) (src - 1)
  end.
Definition memmove (m : B) (vdst vsrc n : Z) : B :=
  if vdst <? vsrc then move_up (Z.to_nat n) m vdst vsrc
  else move_down (Z.to_nat n) m (vdst + n) (vsrc + n).

Fixpoint memcmp (k : nat) (m : B) (s1 s2 : Z) : Z :=
  match k with
  | O => 0
  | S k' =>
    if negb (bget m s1 =? bget m s2) then bget m s1 - bget m s2
    else memcmp k' m (s1 + 1) (s2 + 1)
  end.

Definition memcpy (m : B) (dst src n : Z) : B := memmove m dst src n.
End Strings.

Section Calls.
Context {S : Type}.

(** [read(0, &c, 1)]: the result and the byte. *)
Context (read1 : M S (Z * Z)).

(** The characters stored before the terminator. *)
Fixpoint gets_from (k : nat) (i max : Z) : M S (list Z) :=
  match k with
  | O => ret []
  | Datatypes.S k' =>
    if i + 1 <? max
    then
      let* '(cc, c) := read1 in
      if cc <? 1 then ret []
      else if (c =? 10) || (c =? 13) then ret [c]
      else let* l := gets_from k' (i + 1) max in ret (c :: l)
    else ret []
  end.
Definition gets (max : Z) : M S (list Z) :=
  let* l := gets_from (Z.to_nat max) 0 max in ret (l ++ [0]).

Context (open : list Z -> Z -> M S Z) (fstat : Z -> M S (Z * list Z)) (close : Z -> M S Z).

(** The result, and the bytes of the [struct stat] if there are any. *)
Definition stat (n : list Z) : M S (Z * list Z) :=
  let* fd := open n 0 in
  if fd <? 0 then ret (-1, [])
  else
    let* '(r, st) := fstat fd in
    do close fd ;;;
    ret (r, st).
End Calls.
End Ulib.

(** ** Moving and numbers *)

Section Facts.
Context {B : Type} `{ByteStoreOk B}.
Implicit Types (m : B).

Lemma ulib_move_up k : forall m d s, Ulib.move_up k m d s = move_forward k m d s.
Proof. induction k as [|k IH]; intros; cbn; [done|apply IH]. Qed.

Lemma ulib_move_down k : forall m d s, Ulib.move_down k m d s = move_backward k m d s.
Proof. induction k as [|k IH]; intros; cbn; [done|apply IH]. Qed.
End Facts.

Lemma ulib_memmove_get {B : Type} `{ByteStoreOk B} (m : B) dst src n j :
  0 <= n -> writable m dst n -> bget (Ulib.memmove m dst src n) j = bget (memmove m dst src n) j.
Proof.
  intros Hn W. rewrite memmove_get by done. unfold Ulib.memmove. destruct (Z.ltb_spec dst src).
  - rewrite ulib_move_up, move_forward_spec by (try (left; lia); by rewrite Z2Nat.id by lia). by rewrite Z2Nat.id by lia.
  - rewrite ulib_move_down, move_backward_spec; rewrite ?Z2Nat.id by lia; [|by replace (dst + n - n) with dst by lia|lia].
    replace (dst + n - n) with dst by lia. zcase; try done. f_equal. lia.
Qed.

(** *** Decimal numbers *)

Definition isdigit (c : Z) : Prop := 48 <= c <= 57.
Definition digit_step (n c : Z) : Z := i32 (n * 10 + c - 48).

Lemma digit_10 letter d : 0 <= d < 10 -> digit letter d = 48 + d.
Proof. intros. unfold digit. destruct (Z.ltb_spec d 10); lia. Qed.

(** The digits of [x], read from the front, give [x] back. *)
Lemma digits_value letter k : forall x, 0 <= x < 2 ^ 31 -> x < 10 ^ Z.of_nat k -> (0 < k)%nat ->
  let l := rev (digits_of k letter 10 x) in
  Forall isdigit l /\ l <> [] /\ fold_left digit_step l 0 = x /\ Z.of_nat (length l) <= Z.of_nat k.
Proof.
  induction k as [|k IH]; intros x Hx Hk Hp; [lia|]. cbn [digits_of rev].
  pose proof (Z.mod_pos_bound x 10 ltac:(lia)) as Hm. pose proof (Z.div_mod x 10 ltac:(lia)) as Hd.
  rewrite digit_10 by lia. destruct (Z.eqb_spec (x / 10) 0) as [E|N]; cbn [negb].
  - cbn. split_and!; [repeat constructor; unfold isdigit; lia|done| |lia]. unfold digit_step. rewrite i32_small; lia.
  - assert (Hk0 : (0 < k)%nat). { destruct k; [|lia]. change (10 ^ Z.of_nat 1) with 10 in Hk. rewrite Z.div_small in N; lia. }
    rewrite Nat2Z.inj_succ, Z.pow_succ_r in Hk by lia.
    destruct (IH (x / 10)) as (F & Ne & V & Ln); [split; [apply Z.div_pos; lia|apply Z.div_lt_upper_bound; lia]|apply Z.div_lt_upper_bound; lia|done|].
    split_and!.
    + apply Forall_app. split; [done|]. repeat constructor; unfold isdigit; lia.
    + by intros [_ ?]%app_eq_nil.
    + rewrite fold_left_app, V. cbn. unfold digit_step. rewrite i32_small; lia.
    + rewrite length_app. cbn. lia.
Qed.

Lemma atoi_list_run l tl : Forall isdigit l -> ~ isdigit (bget tl 0) -> forall pre n k, (length l < k)%nat ->
  Ulib.atoi_from k (pre ++ l ++ tl) (Z.of_nat (length pre)) n = Some (fold_left digit_step l n).
Proof.
  intros F T. induction F as [|c l Hc F IH]; intros pre n k Hk; (destruct k as [|k]; [cbn in Hk; lia|]); cbn [Ulib.atoi_from].
  - assert (E : bget (pre ++ [] ++ tl) (Z.of_nat (length pre)) = bget tl 0).
    { unfold bget, bytes_store. destruct (Z.leb_spec 0 (Z.of_nat (length pre))); [|lia]. rewrite Nat2Z.id, app_nth2, Nat.sub_diag by lia. done. }
    rewrite E. unfold isdigit in T. zcase; try done. lia.
  - assert (E : bget (pre ++ (c :: l) ++ tl) (Z.of_nat (length pre)) = c).
    { unfold bget, bytes_store. destruct (Z.leb_spec 0 (Z.of_nat (length pre))); [|lia]. rewrite Nat2Z.id, app_nth2, Nat.sub_diag by lia. cbn. apply u8_small. unfold isdigit in Hc. lia. }
    rewrite E. unfold isdigit in Hc. destruct (Z.leb_spec 48 c); [|lia]. destruct (Z.leb_spec c 57); [|lia]. cbn [andb fold_left].
    replace (Z.of_nat (length pre) + 1) with (Z.of_nat (length (pre ++ [c]))) by (rewrite length_app; cbn; lia).
    replace (pre ++ (c :: l) ++ tl) with ((pre ++ [c]) ++ l ++ tl) by by rewrite <- app_assoc. apply IH. cbn in Hk. lia.
Qed.

Lemma digits_len letter base j : 2 <= base -> (0 < j)%nat -> forall k x, 0 <= x < base ^ Z.of_nat j ->
  (length (digits_of k letter base x) <= j)%nat.
Proof.
  intros Hb. induction j as [|j IH]; intros Hj k x Hx; [lia|]. destruct k as [|k]; cbn [digits_of length]; [lia|].
  destruct (Z.eqb_spec (x / base) 0) as [E|N]; cbn [negb length]; [lia|]. rewrite Nat2Z.inj_succ, Z.pow_succ_r in Hx by lia.
  assert (Hj0 : (0 < j)%nat). { destruct j; [|lia]. change (Z.of_nat 0) with 0 in Hx. rewrite Z.div_small in N; lia. }
  apply le_n_S, IH; [done|]. split; [apply Z.div_pos; lia|apply Z.div_lt_upper_bound; lia].
Qed.

Lemma printint_len letter n base j : -2 ^ 31 <= n < 2 ^ 31 -> 2 <= base -> (0 < j)%nat -> 2 ^ 32 <= base ^ Z.of_nat j ->
  (length (printint letter n base true) <= S j)%nat.
Proof.
  intros Hn Hb Hj Hp. unfold printint. rewrite length_rev, length_app.
  set (x := if true && (n <? 0) then _ else _).
  assert (Hx : 0 <= x < base ^ Z.of_nat j) by (subst x; pose proof (u32_range (- n)); pose proof (u32_range n); destruct (true && (n <? 0)); lia).
  pose proof (digits_len letter base j Hb Hj 32 x Hx). destruct (true && (n <? 0)); cbn [length]; lia.
Qed.

(** [printint] never overruns its buffer of 16 characters: an [int] takes at
    most 11 in decimal and 9 in hexadecimal, sign included; and [atoi] reads the
    decimal form of a number that is not negative back, whatever follows it. *)
Theorem printint_fits_and_reads_back letter n tl :
  -2 ^ 31 <= n < 2 ^ 31 -> ~ isdigit (bget tl 0) ->
  (length (printint letter n 10 true) <= 11)%nat /\ (length (printint letter n 16 true) <= 9)%nat /\
  (0 <= n -> Ulib.atoi 33 (printint letter n 10 true ++ tl) 0 = Some n).
Proof.
  intros Hn T. split_and!; [by apply printint_len; lia..|]. intros Hp. unfold printint.
  destruct (Z.ltb_spec n 0); [lia|]. cbn [andb]. rewrite app_nil_r, (u32_small n) by lia.
  destruct (digits_value letter 32 n) as (F & _ & V & Ln); [lia|change (10 ^ Z.of_nat 32) with 100000000000000000000000000000000; lia|lia|].
  unfold Ulib.atoi. rewrite (atoi_list_run _ tl F T [] 0 33 ltac:(lia) : Ulib.atoi_from 33 (rev _ ++ tl) 0 0 = _). by f_equal.
Qed.

Lemma printint_fits_and_reads_back_witness :
  Ulib.atoi 33 (printint lower 2147483647 10 true ++ [32; 49]) 0 = Some 2147483647.
Proof.
  destruct (printint_fits_and_reads_back lower 2147483647 [32; 49]) as (_ & _ & E); [lia|unfold isdigit; vm_compute; intuition congruence|].
  apply E. lia.
Defined.
