(* ===== verification/Umalloc.v ===== *)
(** * user/umalloc.c: the allocator of user programs

    Headers are kept by their address: the field [ptr] and the field [size], in
    units of [sizeof(Header)] = 16 bytes.  Pointers are byte addresses, so
    [p + n] is [p + 16 * n].  Whether the kernel grants an [sbrk] is a
    parameter; when it does the break moves by the argument and the old one is
    returned. *)

From Stdlib Require Import ZArith Lia List.
From stdpp Require Import base tactics numbers list functions strings.
From S2P Require Import Prelude.

Record heap : Type := mkHeap { ptr : Z -> Z; size : Z -> Z; freep : Z; brk : Z }.
#[global] Instance eta_heap : Eta heap := fun s => mkHeap (ptr s) (size s) (freep s) (brk s).

Definition sizeof_Header : Z := 16.

(** The address of the static header [base]. *)
Class Static := { base : Z }.

Section Umalloc.
Context `{Static} (granted : Z -> heap -> bool).

Definition sbrk (n : Z) : M heap Z :=
  let* s := get in
  if granted n s then do modify (fun s => s <| brk ::= Z.add n |>) ;;; ret (brk s) else ret (-1).

Definition set_ptr (p v : Z) : M heap unit := modify (fun s => s <| ptr ::= fun f => <[p := v]> f |>).
Definition set_size (p v : Z) : M heap unit := modify (fun s => s <| size ::= fun f => <[p := u32 v]> f |>).

(** A walk round the free list visits fewer headers than fit below the break. *)
Definition fuel (s : heap) : nat := S (S (Z.to_nat ((brk s - base) / sizeof_Header))).

(** The two exits of the loop of [free] at [p], with [nx] after it. *)
Definition stops (bp p nx : Z) : bool :=
  (p <? bp) && (bp <? nx) || (nx <=? p) && ((p <? bp) || (bp <? nx)).

Fixpoint free_find (k : nat) (bp p : Z) : M heap Z :=
  match k with
  | O => panic "free: fuel"
  | S k' =>
    let* nx := gets (fun s => ptr s p) in
    if stops bp p nx then ret p else free_find k' bp nx
  end.

(** Link [bp] to what follows [p], joined with it when it is adjacent. *)
Definition join_next (bp p : Z) : M heap unit :=
  let* nx := gets (fun s => ptr s p) in
  let* n := gets (fun s => size s bp) in
  if bp + sizeof_Header * n =? nx
  then
    let* nn := gets (fun s => size s nx) in
    do set_size bp (n + nn) ;;;
    let* nnx := gets (fun s => ptr s nx) in
    set_ptr bp nnx
  else set_ptr bp nx.

(** Link [p] to [bp], or join them. *)
Definition join_prev (bp p : Z) : M heap unit :=
  let* np := gets (fun s => size s p) in
  if p + sizeof_Header * np =? bp
  then
    let* n := gets (fun s => size s bp) in
    do set_size p (np + n) ;;;
    let* nx := gets (fun s => ptr s bp) in
    set_ptr p nx
  else set_ptr p bp.

Definition free (ap : Z) : M heap unit :=
  let bp := ap - sizeof_Header in
  let* s := get in
  let* p := free_find (fuel s) bp (freep s) in
  do join_next bp p ;;;
  do join_prev bp p ;;;
  modify (fun s => s <| freep := p |>).

Definition morecore (nu : Z) : M heap Z :=
  let nu := if nu <? 4096 then 4096 else nu in
  let* p := sbrk (i32 (nu * sizeof_Header)) in
  if p =? -1 then ret 0
  else
    do set_size p nu ;;;
    do free (p + sizeof_Header) ;;;
    gets freep.

(** Take [nunits] from the block [p], which is after [prevp]. *)
Definition take (nunits prevp p : Z) : M heap Z :=
  let* n := gets (fun s => size s p) in
  let* q := (if n =? nunits
             then let* nx := gets (fun s => ptr s p) in do set_ptr prevp nx ;;; ret p
             else
               do set_size p (n - nunits) ;;;
               let* n' := gets (fun s => size s p) in
               let q := p + sizeof_Header * n' in
               do set_size q nunits ;;; ret q) in
  do modify (fun s => s <| freep := prevp |>) ;;;
  ret (q + sizeof_Header).

Fixpoint malloc_loop (k : nat) (nunits prevp p : Z) : M heap Z :=
  match k with
  | O => panic "malloc: fuel"
  | S k' =>
    let* n := gets (fun s => size s p) in
    if nunits <=? n then take nunits prevp p
    else
      let* fp := gets freep in
      if p =? fp
      then
        let* p := morecore nunits in
        if p =? 0 then ret 0
        else let* nx := gets (fun s => ptr s p) in malloc_loop k' nunits p nx
      else let* nx := gets (fun s => ptr s p) in malloc_loop k' nunits p nx
  end.

Definition units (nbytes : Z) : Z := u32 ((nbytes + sizeof_Header - 1) / sizeof_Header + 1).

(** One walk over the old list, and after [morecore] one over the new. *)
Definition malloc (nbytes : Z) : M heap Z :=
  let nunits := units nbytes in
  let* fp := gets freep in
  do (if fp =? 0
      then
        do set_ptr base base ;;;
        do modify (fun s => s <| freep := base |>) ;;;
        set_size base 0
      else ret tt) ;;;
  let* prevp := gets freep in
  let* s := get in
  malloc_loop (fuel s + fuel s + Z.to_nat (Z.max nunits 4096)) nunits prevp (ptr s prevp).
End Umalloc.

#[global] Arguments stops : simpl never.
