(* ===== verification/UmallocProps.v ===== *)
(** * What [malloc] and [free] promise

    The free list is a circle through [base], sorted by address, without two
    adjacent blocks; it and the blocks of the program never overlap, and no unit
    obtained from the kernel is lost.  The walks end. *)

From Stdlib Require Import ZArith Lia List Sorted.
From stdpp Require Import base tactics numbers list functions relations sets sorting strings.
From S2P Require Import Prelude Umalloc.

(** ** Chains of headers *)

(** [f] leads through [l] in order and from its last element to [e]. *)
Fixpoint seg (f : Z -> Z) (l : list Z) (e : Z) : Prop :=
  match l with
  | [] => True
  | a :: t => f a = hd e t /\ seg f t e
  end.

Lemma hd_app {A} (d : A) l1 l2 : hd d (l1 ++ l2) = hd (hd d l2) l1.
Proof. by destruct l1. Qed.

Lemma seg_app f l1 l2 e : seg f (l1 ++ l2) e <-> seg f l1 (hd e l2) /\ seg f l2 e.
Proof. induction l1 as [|a l1 IH]; cbn; [tauto|]. rewrite IH, hd_app. tauto. Qed.

Lemma seg_ext f g l e : (forall a, a ∈ l -> f a = g a) -> seg f l e -> seg g l e.
Proof.
  induction l as [|a l IH]; cbn; [done|]. intros E [Ea Es]. split; [by rewrite <- E by by left|].
  apply IH; [|done]. intros b Hb. apply E. by right.
Qed.

Lemma seg_insert f a v l e : a ∉ l -> seg f l e -> seg (<[a := v]> f) l e.
Proof. intros N. apply seg_ext. intros b Hb. rewrite fn_lookup_insert_ne; [done|]. by intros ->. Qed.

(** ** Blocks: an address and a size in units *)

Definition before (b b' : Z * Z) : Prop := b.1 + 16 * b.2 < b'.1.
Definition apart (b b' : Z * Z) : Prop := b.1 + 16 * b.2 <= b'.1 \/ b'.1 + 16 * b'.2 <= b.1.

Fixpoint pairwise (l : list (Z * Z)) : Prop :=
  match l with
  | [] => True
  | b :: t => Forall (apart b) t /\ pairwise t
  end.

Lemma apart_sym b b' : apart b b' -> apart b' b.
Proof. unfold apart. tauto. Qed.

#[global] Instance pairwise_perm : Proper ((≡ₚ) ==> iff) pairwise.
Proof.
  assert (P : forall l l', l ≡ₚ l' -> pairwise l -> pairwise l').
  { induction 1 as [|b l l' Hp IH|b b' l|l l' l'' _ IH _ IH']; cbn.
    - done.
    - intros [F P]. split; [by rewrite <- Hp|by apply IH].
    - rewrite !Forall_cons. pose proof (apart_sym b b'). pose proof (apart_sym b' b). tauto.
    - tauto. }
  intros l l' Hp. split; apply P; done.
Qed.

Lemma pairwise_app l l' : pairwise (l ++ l') <-> pairwise l /\ pairwise l' /\ Forall (fun b => Forall (apart b) l') l.
Proof.
  induction l as [|b l IH]; cbn; [split; [intros; split_and!; [done|done|by constructor]|tauto]|].
  rewrite Forall_app, Forall_cons, IH. tauto.
Qed.

Fixpoint total (l : list (Z * Z)) : Z :=
  match l with
  | [] => 0
  | b :: t => b.2 + total t
  end.

Lemma total_app l l' : total (l ++ l') = total l + total l'.
Proof. induction l; cbn; lia. Qed.

#[global] Instance total_perm : Proper ((≡ₚ) ==> eq) total.
Proof. induction 1; cbn; lia. Qed.

(** ** The walk of [free] *)

Lemma seg_next f l e : seg f l e -> StronglySorted Z.lt l -> Forall (fun x => x < f x /\ f x ∈ l \/ f x = e) l.
Proof.
  induction l as [|a l IH]; intros Sg St; [done|]. destruct Sg as [Ea Sg]. apply StronglySorted_inv in St as [St La].
  constructor.
  - destruct l as [|b l]; cbn in Ea; [by right|]. left. rewrite Ea. apply Forall_cons in La as [Lb _]. split; [done|right; by left].
  - eapply Forall_impl; [by apply IH|]. intros x [[Hx Hi]|Hx]; [left|by right]. split; [done|by right].
Qed.

Lemma find_walk bp p s l k : stops bp p (ptr s p) = true -> seg (ptr s) l p ->
  Forall (fun x => stops bp x (ptr s x) = false) l -> (length l < k)%nat -> free_find k bp (hd p l) s = Ok p s.
Proof.
  intros Sp. revert k. induction l as [|a l IH]; intros k Sg Fa Hk; (destruct k as [|k]; [cbn in Hk; lia|]); cbn [free_find hd].
  - rewrite bind_gets. by rewrite Sp.
  - apply Forall_cons in Fa as [Ea Fa]. destruct Sg as [Hn Sg]. rewrite bind_gets, Ea, Hn. apply IH; [done|done|]. cbn in Hk. lia.
Qed.

Ltac bools := repeat match goal with
  | |- context [?a <? ?b] => destruct (Z.ltb_spec a b); try lia
  | |- context [?a <=? ?b] => destruct (Z.leb_spec a b); try lia
  end; try done.

(** In a sorted circle the walk ends at the last header below [bp]. *)
Lemma find_run s bp p l1 l2 b0 q k :
  seg (ptr s) (l1 ++ p :: l2) b0 -> b0 = hd p l1 -> StronglySorted Z.lt (l1 ++ p :: l2) ->
  Forall (fun x => x < bp) (l1 ++ [p]) -> Forall (fun x => bp < x) l2 -> q ∈ l1 ++ p :: l2 ->
  (length (l1 ++ p :: l2) < k)%nat -> free_find k bp q s = Ok p s.
Proof.
  intros Sg E0 St Lo Hi Hq Hk. apply seg_app in Sg as [Sg1 Sg2]. cbn in Sg1. destruct Sg2 as [Ep Sg2].
  apply Forall_app in Lo as [Lo Lp]. apply Forall_cons in Lp as [Lp _]. rewrite length_app in Hk. cbn in Hk.
  apply StronglySorted_app in St as (C12 & St1 & St2). apply StronglySorted_inv in St2 as [St2 Cp].
  assert (Lb : b0 < bp) by (subst b0; destruct l1; [exact Lp|by apply Forall_cons in Lo as [? _]]).
  assert (Bp : b0 <= p) by (subst b0; destruct l1 as [|a l1]; [cbn; lia|cbn; specialize (C12 a p ltac:(by left) ltac:(by left)); lia]).
  assert (Sp : stops bp p (ptr s p) = true).
  { rewrite Ep. unfold stops. destruct l2 as [|b l2]; cbn; [bools|]. apply Forall_cons in Hi as [Hb _]. bools. }
  assert (F1 : Forall (fun x => stops bp x (ptr s x) = false) l1).
  { apply Forall_forall. intros x Hx. pose proof (seg_next _ _ _ Sg1 St1) as N. rewrite Forall_forall in N, Lo. unfold stops. pose proof (Lo x Hx).
    destruct (N x Hx) as [[Lt Hi'%Lo]| ->]; [bools|]. specialize (C12 x p Hx ltac:(by left)). bools. }
  assert (F2 : Forall (fun x => stops bp x (ptr s x) = false) l2).
  { apply Forall_forall. intros x Hx. pose proof (seg_next _ _ _ Sg2 St2) as N. rewrite Forall_forall in N, Hi, Cp. pose proof (Hi x Hx). pose proof (Cp x Hx). unfold stops.
    destruct (N x Hx) as [[Lt Hi'%Hi]| ->]; bools. }
  apply elem_of_app in Hq as [Hq|[->|Hq]%elem_of_cons].
  - apply list_elem_of_split in Hq as (a & b & ->). apply seg_app in Sg1 as [_ Sg1]. apply Forall_app in F1 as [_ F1].
    rewrite length_app in Hk. cbn in Hk. apply (find_walk bp p s (q :: b)); try done. cbn. lia.
  - apply (find_walk bp p s []); try done. cbn. lia.
  - apply list_elem_of_split in Hq as (a & b & ->). apply seg_app in Sg2 as [_ Sg2]. apply Forall_app in F2 as [_ F2]. rewrite length_app in Hk. cbn in Hk.
    apply (find_walk bp p s ((q :: b) ++ l1)); try done; [|by apply Forall_app|rewrite length_app; cbn; lia].
    apply seg_app. split; [|done]. by rewrite <- E0.
Qed.

(** ** The invariant *)

Section Inv.
Context `{Static} (B0 : 0 < base).

Definition good (s : heap) (b : Z * Z) : Prop :=
  size s b.1 = b.2 /\ 0 < b.2 /\ base + 16 <= b.1 /\ b.1 + 16 * b.2 <= brk s.

(** [F] are the free blocks, [A] those of the program. *)
Record hinv (s : heap) (F A : list (Z * Z)) : Prop := {
  h_ring : seg (ptr s) (base :: map fst F) base;
  h_base : size s base = 0;
  h_freep : freep s ∈ base :: map fst F;
  h_sort : StronglySorted before F;
  h_good : Forall (good s) (F ++ A);
  h_apart : pairwise (F ++ A);
  h_brk : base + 16 <= brk s <= base + 2 ^ 36
}.

Lemma sorted_addrs s F : StronglySorted before F -> Forall (good s) F -> StronglySorted Z.lt (base :: map fst F).
Proof.
  intros St G. constructor.
  - induction St as [|b F St IH L]; [constructor|]. apply Forall_cons in G as [(_ & Gb & _) G]. cbn. constructor; [by apply IH|].
    apply Forall_map. eapply Forall_impl; [exact L|]. intros b'. unfold before. lia.
  - apply Forall_map. eapply Forall_impl; [exact G|]. intros b (_ & _ & Gb & _). lia.
Qed.

Lemma blocks_fit s F lo : StronglySorted before F -> Forall (good s) F -> Forall (fun b => lo <= b.1) F -> lo <= brk s ->
  lo + 16 * Z.of_nat (length F) <= brk s.
Proof.
  intros St. revert lo. induction St as [|b F St IH L]; intros lo G Lo Hb; [cbn; lia|].
  apply Forall_cons in G as [(_ & G0 & _ & G1) G]. apply Forall_cons in Lo as [Lb Lo].
  assert (b.1 + 16 + 16 * Z.of_nat (length F) <= brk s); [|cbn [length]; lia].
  apply IH; [done| |lia]. eapply Forall_impl; [exact L|]. intros b'. unfold before. lia.
Qed.

Lemma ring_fuel s F A : hinv s F A -> (length (base :: map fst F) < fuel s)%nat.
Proof.
  intros I. pose proof (h_good _ _ _ I) as [G _]%Forall_app. pose proof (h_brk _ _ _ I). 
  pose proof (blocks_fit s F (base + 16) (h_sort _ _ _ I) G) as Fit. unfold fuel, sizeof_Header. cbn [length]. rewrite length_map.
  assert (1 + Z.of_nat (length F) <= (brk s - base) / 16); [|lia]. apply Z.div_le_lower_bound; [lia|].
  assert (base + 16 + 16 * Z.of_nat (length F) <= brk s); [|lia]. apply Fit; [|lia]. eapply Forall_impl; [exact G|]. intros b (_ & _ & Gb & _). lia.
Qed.

(** Where an address belongs in the list. *)
Lemma split_at F bp : StronglySorted before F -> Forall (fun b => 0 < b.2 /\ b.1 <> bp) F ->
  exists F1 F2, F = F1 ++ F2 /\ Forall (fun b => b.1 < bp) F1 /\ Forall (fun b => bp < b.1) F2.
Proof.
  intros St N. induction St as [|b F St IH L]; [by exists [], []|]. apply Forall_cons in N as [[Nz Nb] N].
  destruct (Z.lt_ge_cases b.1 bp) as [Hb|Hb].
  - destruct (IH N) as (F1 & F2 & -> & L1 & L2). exists (b :: F1), F2. split_and!; [done|by constructor|done].
  - exists [], (b :: F). split_and!; [done|constructor|]. constructor; [lia|]. eapply Forall_impl; [exact L|]. intros b'. unfold before. lia.
Qed.

(** Replace what follows [p] in a circle. *)
Lemma seg_relink f g l1 p l2 mid l2' e : seg f (l1 ++ p :: l2) e -> (exists c, l2 = c ++ l2') ->
  (forall a, a ∈ l1 \/ a ∈ l2' -> g a = f a) -> g p = hd e (mid ++ l2') -> seg g mid (hd e l2') -> seg g (l1 ++ p :: mid ++ l2') e.
Proof.
  intros [S1 S2]%seg_app [c ->] E Ep Sm. destruct S2 as [_ S2]. apply seg_app in S2 as [_ S2]. apply seg_app. split.
  - cbn. eapply seg_ext; [|exact S1]. intros a Ha. symmetry. apply E. by left.
  - cbn. split; [exact Ep|]. apply seg_app. split; [exact Sm|]. eapply seg_ext; [|exact S2]. intros a Ha. symmetry. apply E. by right.
Qed.

(** Two adjacent blocks are one. *)
Lemma pairwise_join x y l : pairwise (x :: y :: l) -> x.1 + 16 * x.2 = y.1 -> 0 < x.2 -> 0 < y.2 -> Forall (fun b => 0 < b.2) l ->
  pairwise ((x.1, x.2 + y.2) :: l).
Proof.
  cbn. intros ([_ Ax]%Forall_cons & Ay & P) E X Y G. split; [|done]. rewrite Forall_forall in *. intros z Hz.
  specialize (Ax z Hz). specialize (Ay z Hz). specialize (G z Hz). unfold apart in *. cbn. lia.
Qed.

(** ** [free] *)

Lemma good_pos s l : Forall (good s) l -> Forall (fun b => 0 < b.2) l.
Proof. intros G. eapply Forall_impl; [exact G|]. by intros b (_ & ? & _). Qed.

Lemma good_ext (t t' : heap) l : brk t' = brk t -> (forall b, b ∈ l -> size t' b.1 = size t b.1) -> Forall (good t) l -> Forall (good t') l.
Proof.
  intros Eb Es G. rewrite Forall_forall in *. intros b Hb. destruct (G b Hb) as (? & ? & ? & ?). unfold good. rewrite Es, Eb by done. done.
Qed.

Lemma apart_ne (l : list (Z * Z)) b b' : Forall (apart b) l -> b' ∈ l -> 0 < b.2 -> 0 < b'.2 -> b.1 <> b'.1.
Proof. intros F Hb ? ?. rewrite Forall_forall in F. destruct (F b' Hb); lia. Qed.

Section Free.
Context (s : heap) (F1 F2 A : list (Z * Z)) (bp n p : Z) (l1 : list Z).
Context (I : hinv s (F1 ++ F2) ((bp, n) :: A)).
Context (Ep : base :: map fst F1 = l1 ++ [p]) (Lo : Forall (fun b => b.1 < bp) F1) (Hi : Forall (fun b => bp < b.1) F2).

Lemma ring_split : seg (ptr s) (l1 ++ p :: map fst F2) base.
Proof using I Ep.
  pose proof (h_ring _ _ _ I) as R. rewrite map_app in R. change (base :: map fst F1 ++ map fst F2) with ((base :: map fst F1) ++ map fst F2) in R.
  by rewrite Ep, <- app_assoc in R.
Qed.

Lemma block_good : good s (bp, n).
Proof using I. pose proof (h_good _ _ _ I) as G. apply Forall_app in G as [_ G]. by apply Forall_cons in G as [G _]. Qed.

Lemma block_apart : pairwise ((bp, n) :: F1 ++ F2 ++ A).
Proof using I. pose proof (h_apart _ _ _ I) as P. by rewrite <- Permutation_middle, <- app_assoc in P. Qed.

Lemma next_ptr : ptr s p = hd base (map fst F2).
Proof using I Ep. pose proof ring_split as [_ [E _]]%seg_app. exact E. Qed.

(** What [join_next] leaves: [bp] linked to [F2'], the rest as it was. *)
Definition joined_next (s1 : heap) (n' : Z) (F2' : list (Z * Z)) : Prop :=
  ptr s1 = <[bp := hd base (map fst F2')]> (ptr s) /\ (forall a, a <> bp -> size s1 a = size s a) /\ size s1 bp = n' /\
  freep s1 = freep s /\ brk s1 = brk s /\
  (exists c, F2 = c ++ F2') /\ n' + total F2' = n + total F2 /\ n <= n' /\ bp + 16 * n' <= brk s /\
  pairwise ((bp, n') :: F1 ++ F2' ++ A) /\ Forall (fun b => bp + 16 * n' < b.1) F2'.

Lemma join_next_run : exists s1 n' F2', join_next bp p s = Ok tt s1 /\ joined_next s1 n' F2'.
Proof using All.
  pose proof block_good as (Sz & N0 & Bb & Be). cbn in Sz, N0, Bb, Be. pose proof block_apart as P. pose proof (h_brk _ _ _ I) as Hb.
  pose proof (h_good _ _ _ I) as G. apply Forall_app in G as [G GA]. apply Forall_app in G as [G1 G2].
  pose proof ring_split as Rg. pose proof (h_sort _ _ _ I) as St. apply StronglySorted_app in St as (_ & _ & St).
  unfold join_next. rewrite !bind_gets, next_ptr, Sz. unfold sizeof_Header.
  assert (Ge : Forall (fun b => bp + 16 * n <= b.1) F2).
  { apply Forall_forall. intros b Hb2. rewrite Forall_forall in Hi, G2. destruct P as [P _]. rewrite Forall_forall in P.
    destruct (P b ltac:(apply elem_of_app; right; apply elem_of_app; by left)) as [?|Ap]; [done|]. specialize (Hi b Hb2). destruct (G2 b Hb2) as (_ & ? & _). cbn in *. lia. }
  destruct (Z.eqb_spec (bp + 16 * n) (hd base (map fst F2))) as [E|N].
  - destruct F2 as [|[r m] F2'] eqn:EF in E, G2, Rg, St, P |- *; cbn [map hd fst] in *; [lia|]. apply Forall_cons in G2 as [(Sr & M0 & _ & Re) G2]. cbn in Sr, M0, Re.
    apply seg_app in Rg as [_ [_ [Er _]]]. cbn in Er.
    assert (Nr : r <> bp) by lia. assert (Un : u32 (n + m) = n + m) by (apply u32_small; change (2 ^ 32) with 4294967296; change (2 ^ 36) with 68719476736 in Hb; lia).
    eexists _, (n + m), F2'. split.
    { unfold set_size, set_ptr, bind, gets, modify. cbn. rewrite Sr, Un, Er. reflexivity. }
    split_and!; cbn; try done; try lia.
    + intros a Ha. by rewrite fn_lookup_insert_ne.
    + by rewrite fn_lookup_insert.
    + by exists [(r, m)].
    + rewrite EF. cbn. lia.
    + assert (P' : pairwise ((bp, n) :: (r, m) :: F1 ++ F2' ++ A)) by (revert P; apply pairwise_perm; constructor; by rewrite Permutation_middle).
      apply (pairwise_join (bp, n) (r, m)) in P'; cbn; try done. apply Forall_cons in GA as [_ GA]. rewrite !Forall_app. split_and!; by eapply good_pos.
    + apply StronglySorted_inv in St as [_ St].
      eapply Forall_impl; [exact St|]. intros b. unfold before. cbn. lia.
  - eexists _, n, F2. split; [reflexivity|]. split_and!; cbn; try done; try lia; [by exists []|].
    destruct F2 as [|[r m] F2'] in N, Ge, G2, St |- *; [constructor|]. cbn in N. apply Forall_cons in Ge as [Gr Ge]. cbn in Gr. constructor; [cbn; lia|].
    apply StronglySorted_inv in St as [_ St].
    apply Forall_cons in G2 as [(_ & M0 & _) _]. cbn in M0. eapply Forall_impl; [exact St|]. intros b. unfold before. cbn. lia.
Qed.

Section Prev.
Context (s1 : heap) (n' : Z) (F2' : list (Z * Z)) (J : joined_next s1 n' F2').

Lemma p_below : p < bp.
Proof using All.
  pose proof block_good as (_ & _ & Bb & _). cbn in Bb. assert (H' : Forall (fun x => x < bp) (base :: map fst F1)) by (constructor; [lia|by apply Forall_map]).
  rewrite Ep in H'. apply Forall_app in H' as [_ H']. by apply Forall_cons in H' as [H' _].
Qed.

Lemma split_good : Forall (good s) F1 /\ Forall (good s) F2' /\ Forall (good s) A.
Proof using All.
  pose proof (h_good _ _ _ I) as G. destruct J as (_ & _ & _ & _ & _ & [k ->] & _). rewrite !Forall_app, Forall_cons in G. tauto.
Qed.

(** The circle through [l1], [p], perhaps [bp], and [F2']. *)
Lemma relinked f mid : (mid = [] \/ mid = [bp]) -> f p = hd base (mid ++ map fst F2') -> (forall a, a <> p -> f a = ptr s1 a) ->
  seg f (l1 ++ p :: mid ++ map fst F2') base.
Proof using All.
  intros Hm Fp Fa. pose proof J as (Ept & _ & _ & _ & _ & [k Ek] & _ & _ & _ & _ & Gt). pose proof p_below as Pb.
  pose proof block_good as (_ & N0 & _). cbn in N0.
  assert (Srt : StronglySorted Z.lt (l1 ++ p :: map fst F2)).
  { pose proof (sorted_addrs s (F1 ++ F2) (h_sort _ _ _ I)) as St. rewrite map_app in St.
    change (base :: map fst F1 ++ map fst F2) with ((base :: map fst F1) ++ map fst F2) in St. rewrite Ep, <- app_assoc in St. apply St.
    pose proof (h_good _ _ _ I) as G. by apply Forall_app in G as [G _]. }
  apply StronglySorted_app in Srt as (L1 & _ & St2). apply StronglySorted_inv in St2 as [_ St2].
  apply (seg_relink (ptr s) f l1 p (map fst F2) mid (map fst F2') base ring_split).
  - exists (map fst k). by rewrite Ek, map_app.
  - intros a [Ha|Ha].
    + specialize (L1 a p Ha ltac:(by left)). rewrite Fa, Ept by lia. apply fn_lookup_insert_ne. lia.
    + assert (p < a) by (rewrite Forall_forall in St2; apply St2; rewrite Ek, map_app; apply elem_of_app; by right).
      assert (bp < a).
      { rewrite Forall_forall in Hi. apply list_elem_of_fmap in Ha as (b & -> & Hb). apply Hi. rewrite Ek. apply elem_of_app. by right. }
      rewrite Fa, Ept by lia. apply fn_lookup_insert_ne. lia.
  - exact Fp.
  - destruct Hm as [->| ->]; [done|]. cbn. split; [|done]. rewrite Fa, Ept by lia. apply fn_lookup_insert.
Qed.

Definition freed (s2 : heap) (F' : list (Z * Z)) : Prop :=
  hinv (s2 <| freep := p |>) F' A /\ total F' = total (F1 ++ F2) + n /\ brk s2 = brk s /\ exists b, b ∈ F' /\ n <= b.2.

Lemma base_size : size s1 base = 0 /\ base <> bp.
Proof using All.
  pose proof J as (_ & Es & _). pose proof block_good as (_ & _ & Bb & _). cbn in Bb.
  split; [rewrite Es by lia; apply (h_base _ _ _ I)|lia].
Qed.

Lemma sorted_parts : StronglySorted before F1 /\ StronglySorted before F2' /\ forall b b', b ∈ F1 -> b' ∈ F2' -> before b b'.
Proof using All.
  pose proof (h_sort _ _ _ I) as St. pose proof J as (_ & _ & _ & _ & _ & [k Ek] & _). rewrite Ek in St.
  apply StronglySorted_app in St as (C & S1 & S2). apply StronglySorted_app in S2 as (_ & _ & S2). split_and!; try done.
  intros b b' Hb Hb'. apply C; [done|]. apply elem_of_app. by right.
Qed.

Lemma kept t l : brk t = brk s1 -> size t = size s1 -> (forall b, b ∈ l -> b ∈ F1 ++ F2' ++ A) -> Forall (good s) l -> Forall (good t) l.
Proof using All.
  intros Eb Et Sub G. pose proof J as (_ & Es & _ & _ & Ebr & _ & _ & Nn & _ & [P _] & _). pose proof block_good as (_ & N0 & _). cbn in N0.
  apply (good_ext s); [congruence| |done]. intros b Hb. rewrite Et. apply Es. intros E. rewrite Forall_forall in G. destruct (G b Hb) as (_ & ? & _).
  apply (apart_ne _ _ b P); cbn; [by apply Sub|lia|done|done].
Qed.

Lemma prev_apart : Forall (fun b => before b (bp, n')) F1 ->
  freed (s1 <| ptr ::= fun f => <[p := bp]> f |>) (F1 ++ (bp, n') :: F2').
Proof using All.
  intros Bf. pose proof J as (Ept & Es & Esz & Efp & Ebr & [k Ek] & Tot & Nn & Be & P & Gt). pose proof split_good as (G1 & G2 & GA).
  pose proof block_good as (_ & N0 & Bb & _). cbn in N0, Bb. destruct base_size as [Zb Nb]. destruct sorted_parts as (S1 & S2 & S12).
  split_and!; [split|..]; [|cbn..].
  - change (seg (<[p := bp]> (ptr s1)) (base :: map fst (F1 ++ [(bp, n')] ++ F2')) base). rewrite !map_app.
    change (base :: map fst F1 ++ map fst [(bp, n')] ++ map fst F2') with ((base :: map fst F1) ++ [bp] ++ map fst F2').
    rewrite Ep, <- app_assoc. apply (relinked _ [bp]); [by right|by rewrite fn_lookup_insert|]. intros a Ha. by rewrite fn_lookup_insert_ne.
  - exact Zb.
  - rewrite map_app. change (p ∈ (base :: map fst F1) ++ map fst ((bp, n') :: F2')). rewrite Ep. rewrite !elem_of_app. left. right. by left.
  - apply StronglySorted_app. split_and!; [|done|constructor; [done|exact Gt]].
    intros b b' Hb [->|Hb']%elem_of_cons; [by rewrite Forall_forall in Bf; apply Bf|by apply S12].
  - rewrite <- app_assoc. apply Forall_app. split; [by apply kept; [done|done|set_solver|]|]. constructor; [unfold good; cbn; rewrite Esz, Ebr; lia|].
    apply Forall_app. split; (apply kept; [done|done|set_solver|done]).
  - rewrite <- app_assoc. cbn. by rewrite <- Permutation_middle.
  - rewrite Ebr. apply (h_brk _ _ _ I).
  - rewrite Ek in Tot |- *. rewrite !total_app in *. cbn. lia.
  - done.
  - exists (bp, n'). split; [|done]. apply elem_of_app. right. by left.
Qed.

Lemma prev_joined F1' k : F1 = F1' ++ [(p, k)] -> p + 16 * k = bp ->
  freed (s1 <| size ::= fun f => <[p := u32 (k + n')]> f |> <| ptr ::= fun f => <[p := ptr s1 bp]> f |>) (F1' ++ (p, k + n') :: F2').
Proof using All.
  intros E1 Ad. pose proof J as (Ept & Es & Esz & Efp & Ebr & [c Ek] & Tot & Nn & Be & P & Gt). pose proof split_good as (G1 & G2 & GA).
  pose proof block_good as (_ & N0 & Bb & _). cbn in N0, Bb. destruct base_size as [Zb Nb]. destruct sorted_parts as (S1 & S2 & S12).
  pose proof p_below as Pb. pose proof (h_brk _ _ _ I) as Hb.
  rewrite E1 in G1. apply Forall_app in G1 as [G1 Gp]. apply Forall_cons in Gp as [(Sp & K0 & Bp & _) _]. cbn in Sp, K0, Bp.
  assert (Un : u32 (k + n') = k + n') by (apply u32_small; change (2 ^ 32) with 4294967296; change (2 ^ 36) with 68719476736 in Hb; lia).
  assert (El : base :: map fst F1' = l1) by (rewrite E1, map_app in Ep; cbn in Ep; rewrite app_comm_cons in Ep; by apply app_inj_tail in Ep as [-> _]).
  assert (P2 : pairwise ((p, k) :: (bp, n') :: F1' ++ F2' ++ A)).
  { rewrite E1, <- app_assoc in P. cbn [app] in P. rewrite <- Permutation_middle in P. eapply pairwise_perm; [|exact P]. apply perm_swap. }
  pose proof P2 as [Pp _]. apply Forall_cons in Pp as [_ Pp].
  apply (pairwise_join (p, k) (bp, n')) in P2 as P3; cbn; try lia; [|rewrite !Forall_app; split_and!; by eapply good_pos].
  cbn in P3. rewrite Un.
  assert (Kp : forall l, (forall b, b ∈ l -> b ∈ F1' ++ F2' ++ A) -> Forall (good s) l ->
    Forall (good (s1 <| size ::= fun f => <[p := k + n']> f |> <| ptr ::= fun f => <[p := ptr s1 bp]> f |> <| freep := p |>)) l).
  { intros l Sub G. apply (good_ext s1); [done| |apply kept; [done|done|intros b Hl%Sub; rewrite E1; set_solver|done]]. intros b Hl. cbn. apply fn_lookup_insert_ne. intros E.
    rewrite Forall_forall in G. destruct (G b Hl) as (_ & ? & _). by apply (apart_ne _ _ b Pp); [apply Sub|..]. }
  split_and!; [split|..]; [|cbn..].
  - change (seg (<[p := ptr s1 bp]> (ptr s1)) (base :: map fst (F1' ++ [(p, k + n')] ++ F2')) base). rewrite !map_app.
    change (base :: map fst F1' ++ map fst [(p, k + n')] ++ map fst F2') with ((base :: map fst F1') ++ p :: [] ++ map fst F2').
    rewrite El. apply (relinked _ []); [by left|rewrite fn_lookup_insert, Ept; apply fn_lookup_insert|]. intros a Ha. by rewrite fn_lookup_insert_ne.
  - rewrite fn_lookup_insert_ne by lia. exact Zb.
  - rewrite map_app. right. apply elem_of_app. right. by left.
  - rewrite E1 in S1, S12. apply StronglySorted_app in S1 as (C1 & S1 & _). apply StronglySorted_app. split_and!; [|done|constructor; [done|]].
    + intros b b' Hb1 [->|Hb']%elem_of_cons; [|apply S12; [set_solver|done]]. specialize (C1 b (p, k) Hb1 ltac:(by left)). exact C1.
    + eapply Forall_impl; [exact Gt|]. intros b. unfold before. cbn. lia.
  - rewrite <- app_assoc. apply Forall_app. split; [apply Kp; [set_solver|done]|]. constructor; [unfold good; cbn; rewrite fn_lookup_insert, Ebr; lia|].
    apply Forall_app. split; (apply Kp; [set_solver|done]).
  - rewrite <- app_assoc. cbn. by rewrite <- Permutation_middle.
  - rewrite Ebr. exact Hb.
  - rewrite Ek in Tot |- *. rewrite E1. rewrite !total_app in *. cbn. lia.
  - done.
  - exists (p, k + n'). split; [apply elem_of_app; right; by left|cbn; lia].
Qed.

(** [p] is [base] or the last block of [F1]. *)
Lemma p_last : F1 = [] /\ p = base \/ exists F1', F1 = F1' ++ [(p, size s p)].
Proof using All.
  pose proof split_good as (G1 & _). destruct F1 as [|b F1' _] using rev_ind.
  - left. cbn in Ep. symmetry in Ep. apply app_eq_unit in Ep as [[_ [= ->]]|[_ [=]]]. done.
  - right. exists F1'. rewrite map_app, app_comm_cons in Ep. apply app_inj_tail in Ep as [_ <-]. apply Forall_app in G1 as [_ G1].
    apply Forall_cons in G1 as [(Sp & _) _]. rewrite Sp. by destruct b.
Qed.

Lemma join_prev_run : exists s2 F', join_prev bp p s1 = Ok tt s2 /\ freed s2 F'.
Proof using All.
  pose proof J as (Ept & Es & Esz & _). pose proof p_below as Pb. pose proof block_good as (_ & N0 & Bb & _). cbn in N0, Bb.
  pose proof split_good as (G1 & _). destruct sorted_parts as (S1 & _). pose proof block_apart as [P _].
  unfold join_prev. rewrite bind_gets, (Es p) by lia. unfold sizeof_Header.
  destruct (Z.eqb_spec (p + 16 * size s p) bp) as [E|N].
  - destruct p_last as [[_ ->]|[F1' E1]]; [rewrite (h_base _ _ _ I) in E; lia|].
    eexists _, _. split; [|by apply (prev_joined F1' (size s p))].
    unfold set_size, set_ptr, bind, gets, modify. cbn. rewrite Esz. reflexivity.
  - eexists _, _. split; [reflexivity|]. apply prev_apart. destruct p_last as [[E0 _]|[F1' E1]]; [rewrite E0; constructor|].
    apply Forall_forall. intros b Hb. unfold before. cbn. rewrite Forall_forall in P, Lo, G1.
    pose proof (P b ltac:(set_solver)) as Ab. pose proof (Lo b Hb). destruct (G1 b Hb) as (_ & ? & _). unfold apart in Ab. cbn in Ab.
    rewrite E1 in Hb, S1. apply StronglySorted_app in S1 as (C & _ & _). apply elem_of_app in Hb as [Hb| ->%list_elem_of_singleton]; [|cbn in *; lia].
    specialize (C b _ Hb ltac:(by left)). unfold before in C. cbn in C. lia.
Qed.
End Prev.
End Free.

(** [free] of a block of the program returns it to the list; what it adds to,
    with its own units, can be allocated again. *)
Lemma free_run s F A bp n : hinv s F ((bp, n) :: A) ->
  exists s' F', free (bp + 16) s = Ok tt s' /\ hinv s' F' A /\ total F' = total F + n /\ brk s' = brk s /\ exists b, b ∈ F' /\ n <= b.2.
Proof.
  intros I. pose proof (h_good _ _ _ I) as [G GA]%Forall_app. pose proof (h_apart _ _ _ I) as P. rewrite <- Permutation_middle in P. destruct P as [P _].
  apply Forall_cons in GA as [(Sz & N0 & Bb & Be) GA]. cbn in Sz, N0, Bb, Be.
  destruct (split_at F bp (h_sort _ _ _ I)) as (F1 & F2 & -> & Lo & Hi).
  { apply Forall_forall. intros b Hb. rewrite Forall_forall in G. destruct (G b Hb) as (_ & ? & _). split; [done|]. intros E.
    by apply (apart_ne _ _ b P); [set_solver|..]. }
  destruct (exists_last (l := base :: map fst F1)) as (l1 & p & Ep); [done|].
  pose proof (ring_fuel _ _ _ I) as Hf. pose proof (sorted_addrs s _ (h_sort _ _ _ I) G) as Srt. pose proof (h_freep _ _ _ I) as Hfp.
  rewrite map_app, app_comm_cons, Ep, <- app_assoc in Hf, Srt, Hfp. cbn [app] in Hf, Srt, Hfp.
  unfold free. unfold sizeof_Header. replace (bp + 16 - 16) with bp by lia. rewrite (bind_ok get _ s s s eq_refl).
  assert (Fd : free_find (fuel s) bp (freep s) s = Ok p s).
  { apply (find_run s bp p l1 (map fst F2) base); try done; [by apply (ring_split s F1 F2 A bp n p l1)|by destruct l1; injection Ep|..|by apply Forall_map].
    rewrite <- Ep. constructor; [lia|by apply Forall_map]. }
  rewrite (bind_ok _ _ _ _ _ Fd).
  destruct (join_next_run s F1 F2 A bp n p l1 I Ep Lo Hi) as (s1 & n' & F2' & E1 & J). rewrite (bind_ok _ _ _ _ _ E1).
  destruct (join_prev_run s F1 F2 A bp n p l1 I Ep Lo Hi s1 n' F2' J) as (s2 & F' & E2 & I' & T & B & X). rewrite (bind_ok _ _ _ _ _ E2).
  eexists _, F'. split; [reflexivity|]. split_and!; [exact I'|exact T|exact B|exact X].
Qed.

(** ** [morecore] *)

Section Grow.
Context (granted : Z -> heap -> bool).

(** The units [morecore] asks for. *)
Definition grown (n : Z) : Z := Z.max n 4096.

Lemma add_block s F A n : hinv s F A -> 0 < n -> brk s + 16 * n <= base + 2 ^ 36 ->
  hinv (s <| brk ::= Z.add (n * 16) |> <| size ::= fun f => <[brk s := n]> f |>) F ((brk s, n) :: A).
Proof using B0.
  intros I N Hb. pose proof (h_good _ _ _ I) as G. pose proof (h_brk _ _ _ I). split; cbn; try apply I.
  - rewrite fn_lookup_insert_ne by lia. apply I.
  - rewrite Forall_app in *. destruct G as [G GA]. split; [|constructor; [unfold good; cbn; rewrite fn_lookup_insert; lia|]].
    all: eapply Forall_impl; [eassumption|]; intros b (S & ? & ? & ?); unfold good; cbn; rewrite fn_lookup_insert_ne by lia; split_and!; done || lia.
  - rewrite <- Permutation_middle. split; [|apply I]. eapply Forall_impl; [exact G|]. intros b (_ & _ & _ & ?). right. cbn. lia.
  - lia.
Qed.

Lemma morecore_run s F A n : hinv s F A -> 0 < n -> 16 * grown n < 2 ^ 31 -> brk s + 16 * grown n <= base + 2 ^ 36 ->
  if granted (16 * grown n) s
  then exists s' F', morecore granted n s = Ok (freep s') s' /\ hinv s' F' A /\ total F' = total F + grown n /\
    brk s' = brk s + 16 * grown n /\ exists b, b ∈ F' /\ n <= b.2
  else morecore granted n s = Ok 0 s.
Proof using B0.
  intros I N Hi Hb. unfold morecore. set (nu := if n <? 4096 then 4096 else n).
  assert (En : nu = grown n) by (unfold nu, grown; destruct (Z.ltb_spec n 4096); lia). rewrite En. unfold sizeof_Header.
  change (2 ^ 31) with 2147483648 in Hi. rewrite i32_small by (unfold grown in *; lia).
  unfold sbrk. rewrite (Z.mul_comm (grown n) 16).
  pose proof (h_brk _ _ _ I) as Hr. destruct (granted (16 * grown n) s) eqn:Eg.
  - set (s1 := s <| brk ::= Z.add (16 * grown n) |>). set (s2 := s1 <| size ::= fun f => <[brk s := grown n]> f |>).
    pose proof (add_block s F A (grown n) I ltac:(unfold grown; lia) Hb) as I2. rewrite (Z.mul_comm (grown n) 16) in I2.
    destruct (free_run _ _ _ _ _ I2) as (s' & F' & E & I' & T & Bk & b & Hb' & Hn).
    exists s', F'. split_and!; [|done|lia|cbn in Bk; lia|exists b; split; [done|unfold grown in *; lia]].
    rewrite (bind_ok _ _ _ (brk s) s1) by (unfold bind, get; cbn; by rewrite Eg). destruct (Z.eqb_spec (brk s) (-1)); [lia|].
    assert (Un : u32 (grown n) = grown n) by (apply u32_small; change (2 ^ 32) with 4294967296; unfold grown in *; lia).
    rewrite (bind_ok _ _ _ tt s2) by (unfold set_size; by rewrite Un). rewrite (bind_ok _ _ _ _ _ E). done.
  - rewrite (bind_ok _ _ _ (-1) s) by (unfold bind, get; cbn; by rewrite Eg). done.
Qed.

(** ** [take] *)

Section Take.
Context (s : heap) (Fa Fb A : list (Z * Z)) (p k prevp : Z) (l1 : list Z).
Context (I : hinv s (Fa ++ (p, k) :: Fb) A) (Ep : base :: map fst Fa = l1 ++ [prevp]).

Lemma taken_parts : Forall (good s) Fa /\ good s (p, k) /\ Forall (good s) Fb /\ Forall (good s) A /\ pairwise ((p, k) :: Fa ++ Fb ++ A).
Proof using All.
  pose proof (h_good _ _ _ I) as G. rewrite !Forall_app, Forall_cons in G. pose proof (h_apart _ _ _ I) as P.
  rewrite <- app_assoc in P. cbn [app] in P. rewrite <- Permutation_middle in P. tauto.
Qed.

Lemma take_exact : hinv (s <| ptr ::= fun f => <[prevp := ptr s p]> f |> <| freep := prevp |>) (Fa ++ Fb) ((p, k) :: A).
Proof using All.
  destruct taken_parts as (Ga & Gp & Gb & GA & P). pose proof (h_sort _ _ _ I) as St.
  assert (Srt : StronglySorted Z.lt (l1 ++ prevp :: p :: map fst Fb)).
  { pose proof (sorted_addrs s _ St) as St'. rewrite map_app, app_comm_cons, Ep, <- app_assoc in St'. apply St'. by rewrite Forall_app, Forall_cons. }
  apply StronglySorted_app in Srt as (L1 & _ & Sr). apply StronglySorted_inv in Sr as [_ Lp]. apply Forall_cons in Lp as [_ Lp].
  pose proof (h_ring _ _ _ I) as Rg. rewrite map_app, app_comm_cons, Ep, <- app_assoc in Rg. cbn [app map fst] in Rg.
  apply StronglySorted_app in St as (C & Sa & Sb). apply StronglySorted_inv in Sb as [Sb _].
  split; [| |cbn..]; try apply I.
  - change (seg (<[prevp := ptr s p]> (ptr s)) (base :: map fst (Fa ++ Fb)) base). rewrite map_app, app_comm_cons, Ep, <- app_assoc.
    apply (seg_relink (ptr s) _ l1 prevp (p :: map fst Fb) [] (map fst Fb) base Rg); [by exists [p]| | |done].
    + intros a [Ha|Ha]; apply fn_lookup_insert_ne; [specialize (L1 a prevp Ha ltac:(by left)); lia|]. rewrite Forall_forall in Lp. specialize (Lp a Ha). lia.
    + rewrite fn_lookup_insert. by apply seg_app in Rg as [_ (_ & E & _)].
  - rewrite map_app, app_comm_cons, Ep. apply elem_of_app. left. apply elem_of_app. right. by left.
  - apply StronglySorted_app. split_and!; [|done|done]. intros b b' Hb Hb'. apply C; [done|by right].
  - rewrite !Forall_app, Forall_cons. done.
  - by rewrite <- Permutation_middle, <- app_assoc.
Qed.

Lemma take_part n : 0 < n < k ->
  let q := p + 16 * (k - n) in
  hinv (s <| size := <[q := n]> (<[p := k - n]> (size s)) |> <| freep := prevp |>) (Fa ++ (p, k - n) :: Fb) ((q, n) :: A).
Proof using All.
  intros N q. destruct taken_parts as (Ga & (Sp & K0 & Bp & Be) & Gb & GA & P). cbn in Sp, K0, Bp, Be. pose proof (h_sort _ _ _ I) as St.
  apply StronglySorted_app in St as (C & Sa & Sb). apply StronglySorted_inv in Sb as [Sb Cb].
  assert (Nq : forall l, (forall b, b ∈ l -> b ∈ Fa ++ Fb ++ A) -> Forall (good s) l ->
    Forall (good (s <| size := <[q := n]> (<[p := k - n]> (size s)) |> <| freep := prevp |>)) l).
  { intros l Sub G. apply (good_ext s); [done| |done]. intros b Hb. destruct P as [P _]. rewrite Forall_forall in P, G. destruct (G b Hb) as (_ & ? & _).
    destruct (P b (Sub b Hb)); cbn in *; rewrite !fn_lookup_insert_ne; done || (unfold q; lia). }
  split; [| |cbn..]; try apply I.
  - pose proof (h_ring _ _ _ I) as Rg. rewrite !map_app in *. exact Rg.
  - cbn. rewrite !fn_lookup_insert_ne by (unfold q; lia). apply I.
  - rewrite map_app, app_comm_cons, Ep. apply elem_of_app. left. apply elem_of_app. right. by left.
  - apply StronglySorted_app. split_and!; [|done|constructor; [done|]].
    + intros b b' Hb [->|Hb']%elem_of_cons; [exact (C b (p, k) Hb ltac:(by left))|apply C; [done|by right]].
    + eapply Forall_impl; [exact Cb|]. intros b. unfold before. cbn. lia.
  - rewrite <- app_assoc. rewrite Forall_app. split; [apply Nq; [set_solver|done]|]. constructor.
    + unfold good. cbn. rewrite fn_lookup_insert_ne, fn_lookup_insert by (unfold q; lia). lia.
    + apply Forall_app. split; [apply Nq; [set_solver|done]|]. constructor; [unfold good; cbn; rewrite fn_lookup_insert; unfold q; lia|apply Nq; [set_solver|done]].
  - rewrite <- app_assoc. cbn [app]. rewrite <- Permutation_middle, <- !Permutation_middle.
    destruct P as [P1 P2]. split; [constructor; [unfold apart, q; cbn; lia|]|split; [|done]].
    all: eapply Forall_impl; [exact P1|]; intros b; unfold apart, q; cbn; lia.
Qed.

Lemma take_run n : 0 < n <= k ->
  exists q s' F', take n prevp p s = Ok (q + 16) s' /\ hinv s' F' ((q, n) :: A) /\ total (Fa ++ (p, k) :: Fb) = total F' + n /\ brk s' = brk s.
Proof using All.
  intros N. destruct taken_parts as (_ & (Sp & K0 & Bp & Be) & _). cbn in Sp, K0, Bp, Be. pose proof (h_brk _ _ _ I) as Hb.
  change (2 ^ 36) with 68719476736 in Hb. unfold take. rewrite bind_gets, Sp. destruct (Z.eqb_spec k n) as [<-|Nk].
  - eexists p, _, _. split; [reflexivity|]. split_and!; [apply take_exact| |done]. rewrite !total_app. cbn. lia.
  - eexists _, _, _. split; [|split_and!; [apply (take_part n); lia| |done]; rewrite !total_app; cbn; lia].
    unfold set_size, bind, gets, modify. cbn. rewrite fn_lookup_insert, !u32_small by (change (2 ^ 32) with 4294967296; lia). reflexivity.
Qed.
End Take.

(** ** The walk of [malloc] *)

Lemma pred_split s F A y p : hinv s F A -> y ∈ base :: map fst F -> ptr s y = p -> p ∈ map fst F ->
  exists Fa Fb l1, F = Fa ++ (p, size s p) :: Fb /\ base :: map fst Fa = l1 ++ [y].
Proof using B0.
  intros I Hy Ey Hp. pose proof (h_good _ _ _ I) as [G _]%Forall_app. pose proof (sorted_addrs s _ (h_sort _ _ _ I) G) as Srt. pose proof (h_ring _ _ _ I) as Rg.
  apply list_elem_of_fmap in Hp as ([p' k] & -> & Hp). cbn [fst] in *. apply list_elem_of_split in Hp as (Fa & Fb & ->).
  rewrite !Forall_app, Forall_cons in G. destruct G as (_ & (Sp & _ & Bp & _) & _). cbn in Sp, Bp. rewrite Sp.
  destruct (exists_last (l := base :: map fst Fa)) as (l1 & z & Ez); [done|]. exists Fa, Fb, l1. split; [done|].
  rewrite map_app, app_comm_cons, Ez, <- app_assoc in Rg, Srt, Hy. cbn [app map fst] in Rg, Srt, Hy. rewrite Ez. do 2 f_equal. symmetry.
  apply StronglySorted_app in Srt as (C & S1 & S2). apply StronglySorted_inv in S2 as [S2 Cz]. apply seg_app in Rg as [R1 [_ R2]]. cbn [hd] in R1.
  apply elem_of_app in Hy as [Hy|[->|Hy]%elem_of_cons]; [|done|].
  - pose proof (seg_next _ _ _ R1 S1) as N. rewrite Forall_forall in N. specialize (N y Hy). rewrite Ey in N.
    assert (z < p') by (apply Forall_cons in Cz as [? _]; done). destruct N as [[_ N]|N]; [|lia]. specialize (C p' z N ltac:(by left)). lia.
  - pose proof (seg_next _ _ _ R2 S2) as N. rewrite Forall_forall in N. specialize (N y Hy). rewrite Ey in N.
    apply StronglySorted_inv in S2 as [_ S2]. apply elem_of_cons in Hy as [->|Hy]; [lia|]. rewrite Forall_forall in S2. specialize (S2 y Hy). lia.
Qed.

Section Walk.
Context (s : heap) (F A : list (Z * Z)) (n : Z) (I : hinv s F A).

(** The walk reaches the first block that is large enough. *)
Lemma loop_found R0 prevp k : seg (ptr s) R0 (freep s) -> ptr s prevp = hd (freep s) R0 -> prevp ∈ base :: map fst F ->
  (forall a, a ∈ R0 -> a ∈ base :: map fst F) -> freep s ∉ R0 -> (exists y, y ∈ R0 ++ [freep s] /\ n <= size s y) -> (length R0 < k)%nat ->
  exists y p, malloc_loop granted k n prevp (hd (freep s) R0) s = take n y p s /\ y ∈ base :: map fst F /\ ptr s y = p /\ p ∈ base :: map fst F /\ n <= size s p.
Proof using All.
  revert prevp k. induction R0 as [|a R0 IH]; intros prevp k Sg Ep Hp Sub Nf Ex Hk; (destruct k as [|k]; [cbn in Hk; lia|]); cbn [hd malloc_loop] in *; rewrite bind_gets.
  - destruct Ex as (y & ->%list_elem_of_singleton & Hy). destruct (Z.leb_spec n (size s (freep s))); [|lia]. exists prevp, (freep s). split_and!; try done. apply I.
  - destruct (Z.leb_spec n (size s a)) as [Ha|Ha].
    + exists prevp, a. split_and!; try done. apply Sub. by left.
    + rewrite bind_gets. destruct (Z.eqb_spec a (freep s)) as [->|Na]; [destruct Nf; by left|]. destruct Sg as [En Sg]. rewrite bind_gets, En.
      apply (IH a); [done|done|apply Sub; by left|set_solver|set_solver| |cbn in Hk; lia].
      destruct Ex as (y & [->|Hy]%elem_of_cons & Hs); [lia|]. by exists y.
Qed.

(** After a whole walk without one it asks for memory. *)
Lemma loop_none R0 prevp k : seg (ptr s) R0 (freep s) -> freep s ∉ R0 -> (forall y, y ∈ R0 ++ [freep s] -> size s y < n) ->
  malloc_loop granted (length R0 + S k) n prevp (hd (freep s) R0) s =
    (let* p := morecore granted n in if p =? 0 then ret 0 else let* nx := gets (fun s => ptr s p) in malloc_loop granted k n p nx) s.
Proof using All.
  revert prevp. induction R0 as [|a R0 IH]; intros prevp Sg Nf Sm; cbn [hd length Nat.add malloc_loop] in *; rewrite bind_gets.
  - destruct (Z.leb_spec n (size s (freep s))) as [Ha|Ha]; [specialize (Sm (freep s) ltac:(by left)); lia|]. rewrite bind_gets, Z.eqb_refl. done.
  - destruct (Z.leb_spec n (size s a)) as [Ha|Ha]; [specialize (Sm a ltac:(by left)); lia|]. rewrite bind_gets.
    destruct (Z.eqb_spec a (freep s)) as [->|Na]; [destruct Nf; by left|]. destruct Sg as [En Sg]. rewrite bind_gets, En.
    apply IH; [done|set_solver|]. intros y Hy. apply Sm. by right.
Qed.

(** The circle from [freep] on. *)
Lemma ring_from : exists R0, seg (ptr s) R0 (freep s) /\ ptr s (freep s) = hd (freep s) R0 /\ freep s ∉ R0 /\
  R0 ++ [freep s] ≡ₚ base :: map fst F.
Proof using B0 I.
  pose proof (h_freep _ _ _ I) as Hf. pose proof (h_ring _ _ _ I) as Rg. pose proof (h_good _ _ _ I) as [G _]%Forall_app.
  pose proof (sorted_addrs s _ (h_sort _ _ _ I) G) as Srt.
  destruct (list_elem_of_split _ _ Hf) as (la & lb & El). rewrite El in *. exists (lb ++ la).
  assert (Hb : hd (freep s) la = base) by (destruct la; injection El; done).
  apply seg_app in Rg as [Ra [Ef Rb]]. cbn [hd] in Ra.
  apply StronglySorted_app in Srt as (C & _ & Sb). apply StronglySorted_inv in Sb as [_ Cb]. split_and!.
  - apply seg_app. split; [by rewrite Hb|done].
  - by rewrite hd_app, Hb.
  - intros [Hl|Hl]%elem_of_app; [rewrite Forall_forall in Cb; specialize (Cb _ Hl); lia|]. specialize (C _ (freep s) Hl ltac:(by left)). lia.
  - rewrite <- app_assoc, (Permutation_app_comm lb), <- app_assoc. done.
Qed.
End Walk.

Lemma freep_pos s F A : hinv s F A -> freep s <> 0.
Proof using B0.
  intros I. pose proof (h_freep _ _ _ I) as Hf. pose proof (h_good _ _ _ I) as [G _]%Forall_app.
  apply elem_of_cons in Hf as [->|(b & -> & Hb)%list_elem_of_fmap]; [lia|]. rewrite Forall_forall in G. destruct (G b Hb) as (_ & _ & ? & _). lia.
Qed.

Lemma malloc_found s F A n k : hinv s F A -> 0 < n -> (exists b, b ∈ F /\ n <= b.2) -> (length (base :: map fst F) <= k)%nat ->
  exists q s' F', malloc_loop granted k n (freep s) (ptr s (freep s)) s = Ok (q + 16) s' /\ hinv s' F' ((q, n) :: A) /\
    total F = total F' + n /\ brk s' = brk s.
Proof using B0.
  intros I N (b & Hb & Hn) Hk. destruct (ring_from s F A I) as (R0 & Sg & Ef & Nf & Pm). rewrite Ef.
  assert (Lk : (length R0 < k)%nat) by (apply Permutation_length in Pm; rewrite length_app in Pm; cbn in *; lia).
  destruct (loop_found s F A n I R0 (freep s) k Sg Ef (h_freep _ _ _ I)) as (y & p & E & Hy & Ep & Hp & Hs); [|done| |done|].
  - intros a Ha. rewrite <- Pm. set_solver.
  - exists b.1. split; [rewrite Pm; right; by apply list_elem_of_fmap_2|]. pose proof (h_good _ _ _ I) as [G _]%Forall_app.
    rewrite Forall_forall in G. destruct (G b Hb) as (-> & _). done.
  - rewrite E. apply elem_of_cons in Hp as [->|Hp]; [rewrite (h_base _ _ _ I) in Hs; lia|].
    destruct (pred_split s F A y p I Hy Ep Hp) as (Fa & Fb & l1 & -> & El).
    destruct (take_run s Fa Fb A p (size s p) y l1 I El n) as (q & s' & F' & R); [lia|]. by exists q, s', F'.
Qed.

Definition fits (F : list (Z * Z)) (n : Z) : bool := existsb (fun b => n <=? b.2) F.

(** What a call leaves: nothing when there is no memory; otherwise the block is
    the program's, taken from the list or from what the kernel added. *)
Definition allocated (s : heap) (F A : list (Z * Z)) (n r : Z) (s' : heap) : Prop :=
  r = 0 /\ s' = s /\ fits F n = false /\ granted (16 * grown n) s = false \/
  exists q F', r = q + 16 /\ hinv s' F' ((q, n) :: A) /\
    (brk s' = brk s /\ total F = total F' + n \/
     fits F n = false /\ brk s' = brk s + 16 * grown n /\ total F + grown n = total F' + n).

Lemma loop_run s F A n : hinv s F A -> 0 < n -> 16 * grown n < 2 ^ 31 -> brk s + 16 * grown n <= base + 2 ^ 36 ->
  exists r s', malloc_loop granted (fuel s + fuel s + Z.to_nat (grown n)) n (freep s) (ptr s (freep s)) s = Ok r s' /\ allocated s F A n r s'.
Proof using B0.
  intros I N Hi Hb. pose proof (ring_fuel _ _ _ I) as Hf. destruct (fits F n) eqn:Ef.
  - apply existsb_exists in Ef as (b & Hbf%list_elem_of_In & Hn%Z.leb_le).
    destruct (malloc_found s F A n (fuel s + fuel s + Z.to_nat (grown n)) I N ltac:(by exists b) ltac:(lia)) as (q & s' & F' & E & I' & T & B).
    exists (q + 16), s'. split; [exact E|]. right. exists q, F'. split_and!; try done. by left.
  - destruct (ring_from s F A I) as (R0 & Sg & Er & Nf & Pm). rewrite Er.
    pose proof (Permutation_length Pm) as Ln. rewrite length_app in Ln. cbn [length] in Ln, Hf.
    replace (fuel s + fuel s + Z.to_nat (grown n))%nat with (length R0 + S (fuel s + fuel s + Z.to_nat (grown n) - length R0 - 1))%nat by lia.
    rewrite (loop_none s F A n I); [|done|done|].
    + pose proof (morecore_run s F A n I N Hi Hb) as Mc. destruct (granted (16 * grown n) s) eqn:Eg.
      * destruct Mc as (s1 & F1 & E1 & I1 & T1 & B1 & X1). rewrite (bind_ok _ _ _ _ _ E1).
        assert (Nz : freep s1 <> 0) by (eapply freep_pos; exact I1).
        destruct (Z.eqb_spec (freep s1) 0); [done|]. rewrite bind_gets. pose proof (ring_fuel _ _ _ I1) as Hf1.
        destruct (malloc_found s1 F1 A n (fuel s + fuel s + Z.to_nat (grown n) - length R0 - 1) I1 N X1) as (q & s' & F' & E & I' & T & B).
        { pose proof (h_brk _ _ _ I). unfold fuel, sizeof_Header in *. rewrite B1 in Hf1. replace (brk s + 16 * grown n - base) with (brk s - base + grown n * 16) in Hf1 by lia.
          rewrite Z.div_add in Hf1 by lia. rewrite Z2Nat.inj_add in Hf1 by (unfold grown in *; zdm). lia. }
        exists (q + 16), s'. split; [exact E|]. right. exists q, F'. split_and!; [done|done|]. right. split_and!; [done|lia|lia].
      * rewrite (bind_ok _ _ _ _ _ Mc). eexists _, _. split; [reflexivity|]. by left.
    + intros y Hy. rewrite Pm in Hy. apply elem_of_cons in Hy as [->|(b & -> & Hy)%list_elem_of_fmap]; [rewrite (h_base _ _ _ I); lia|].
      pose proof (h_good _ _ _ I) as [G _]%Forall_app. rewrite Forall_forall in G. destruct (G b Hy) as (-> & _).
      destruct (Z.lt_ge_cases b.2 n) as [Hl|Hl]; [done|]. assert (fits F n = true); [|congruence].
      apply existsb_exists. exists b. split; [by apply list_elem_of_In|by apply Z.leb_le].
Qed.

Lemma units_bounds nb : 0 <= nb < 2 ^ 32 -> 0 < units nb /\ nb <= 16 * (units nb - 1).
Proof. intros Hn. change (2 ^ 32) with 4294967296 in Hn. unfold units, sizeof_Header. rewrite u32_small by (change (2 ^ 32) with 4294967296; zdm). zdm. Qed.

(** Before the first call [freep] is zero and there are no blocks. *)
Definition heap_ok (s : heap) (F A : list (Z * Z)) : Prop :=
  freep s = 0 /\ F = [] /\ A = [] /\ base + 16 <= brk s <= base + 2 ^ 36 \/ hinv s F A.

Definition in_range (s : heap) (nb : Z) : Prop :=
  0 <= nb < 2 ^ 32 /\ 16 * grown (units nb) < 2 ^ 31 /\ brk s + 16 * grown (units nb) <= base + 2 ^ 36.

Lemma malloc_run s F A nb : heap_ok s F A -> in_range s nb ->
  exists s0 r s', malloc granted nb s = Ok r s' /\ hinv s0 F A /\ brk s0 = brk s /\ allocated s0 F A (units nb) r s'.
Proof using B0.
  intros Ok (Hn & Hi & Hb). destruct (units_bounds nb Hn) as [Hu _]. unfold malloc. rewrite bind_gets. destruct Ok as [(Ef & -> & -> & Hr)|I].
  - rewrite Ef. cbn match.
    set (s0 := s <| ptr ::= fun f => <[base := base]> f |> <| freep := base |> <| size ::= fun f => <[base := 0]> f |>).
    assert (I0 : hinv s0 [] []).
    { split; cbn; [split; [apply fn_lookup_insert|done]|apply fn_lookup_insert|by left|constructor|constructor|done|done]. }
    destruct (loop_run s0 [] [] (units nb) I0 Hu Hi Hb) as (r & s' & E & Al). exists s0, r, s'. split; [|done].
    rewrite (bind_ok _ _ _ tt s0) by reflexivity. exact E.
  - pose proof (freep_pos _ _ _ I). destruct (Z.eqb_spec (freep s) 0); [done|].
    destruct (loop_run s F A (units nb) I Hu Hi Hb) as (r & s' & E & Al). exists s, r, s'. split; [exact E|done].
Qed.

(** ** Programs that use the allocator *)

(** The heap, the blocks the program holds (address and size asked for), and
    the units the allocator has had from the kernel. *)
Record client : Type := mkClient { hp : heap; owns : list (Z * Z); got : Z }.

Definition blocks (l : list (Z * Z)) : list (Z * Z) := map (fun '(ap, nb) => (ap - 16, units nb)) l.

(** A program calls [malloc] and, for blocks it holds, [free]; it writes into
    its blocks; and it moves the break for itself. *)
Inductive ustep (t : client) : client -> Prop :=
  | u_malloc nb r s' : in_range (hp t) nb -> malloc granted nb (hp t) = Ok r s' ->
      ustep t (mkClient s' (if r =? 0 then owns t else (r, nb) :: owns t) (got t + (brk s' - brk (hp t)) / 16))
  | u_free l1 ap nb l2 s' : owns t = l1 ++ (ap, nb) :: l2 -> free ap (hp t) = Ok tt s' ->
      ustep t (mkClient s' (l1 ++ l2) (got t))
  | u_write ap nb f g : (ap, nb) ∈ owns t ->
      (forall a, a <= ap - 16 \/ ap + nb <= a -> f a = ptr (hp t) a /\ g a = size (hp t) a) ->
      ustep t (mkClient ((hp t) <| ptr := f |> <| size := g |>) (owns t) (got t))
  | u_sbrk n : 0 <= n -> brk (hp t) + n <= base + 2 ^ 36 ->
      ustep t (mkClient ((hp t) <| brk ::= Z.add n |>) (owns t) (got t)).

Definition uinv (t : client) (F : list (Z * Z)) : Prop :=
  heap_ok (hp t) F (blocks (owns t)) /\ Forall (fun b => 0 <= b.2 < 2 ^ 32) (owns t) /\ total F + total (blocks (owns t)) = got t.

Lemma malloc_step t F nb r s' : uinv t F -> in_range (hp t) nb -> malloc granted nb (hp t) = Ok r s' ->
  exists F', uinv (mkClient s' (if r =? 0 then owns t else (r, nb) :: owns t) (got t + (brk s' - brk (hp t)) / 16)) F'.
Proof using B0.
  intros (Ok & Nb & Tt) Rg E. destruct (malloc_run _ _ _ nb Ok Rg) as (s0 & r' & s1 & E' & I0 & B & Al). rewrite E in E'. injection E' as <- <-.
  destruct Al as [(-> & -> & _)|(q & F' & -> & I' & Al)].
  - exists F. rewrite B, Z.sub_diag. change (0 / 16) with 0. rewrite Z.add_0_r. split_and!; [by right|done|exact Tt].
  - assert (Nz : q + 16 <> 0). { pose proof (h_good _ _ _ I') as [_ G]%Forall_app. apply Forall_cons in G as [(_ & _ & G & _) _]. cbn in G. lia. }
    destruct (Z.eqb_spec (q + 16) 0); [done|]. exists F'. unfold uinv. cbn [hp owns got blocks map total fst snd].
    replace (q + 16 - 16) with q by lia. split_and!; [by right|constructor; [apply Rg|done]|]. fold (blocks (owns t)).
    destruct Al as [(Eb & T)|(_ & Eb & T)]; rewrite Eb, B.
    + rewrite Z.sub_diag. change (0 / 16) with 0. lia.
    + replace (brk (hp t) + 16 * grown (units nb) - brk (hp t)) with (grown (units nb) * 16) by lia. rewrite Z.div_mul by lia. lia.
Qed.

Lemma hinv_perm s F A A' : A ≡ₚ A' -> hinv s F A -> hinv s F A'.
Proof using All. intros P I. split; try apply I; [rewrite <- P|rewrite <- P]; apply I. Qed.

Lemma owned_hinv t F l1 ap nb l2 : uinv t F -> owns t = l1 ++ (ap, nb) :: l2 ->
  hinv (hp t) F ((ap - 16, units nb) :: blocks (l1 ++ l2)) /\ 0 <= nb < 2 ^ 32.
Proof using All.
  intros ([(_ & _ & Ea & _)|I] & Nb & _) E; rewrite E in *; [by destruct l1|]. split.
  - eapply hinv_perm; [|exact I]. unfold blocks. rewrite !map_app. cbn. by rewrite <- Permutation_middle.
  - apply Forall_app in Nb as [_ Nb]. by apply Forall_cons in Nb as [? _].
Qed.

Lemma free_step t F l1 ap nb l2 : uinv t F -> owns t = l1 ++ (ap, nb) :: l2 ->
  exists s' F', free ap (hp t) = Ok tt s' /\ uinv (mkClient s' (l1 ++ l2) (got t)) F'.
Proof using All.
  intros U E. destruct (owned_hinv t F l1 ap nb l2 U E) as [I _]. destruct U as (_ & Nb & Tt).
  destruct (free_run _ _ _ _ _ I) as (s' & F' & Ef & I' & T & _). replace (ap - 16 + 16) with ap in Ef by lia. exists s', F'. split; [exact Ef|].
  split_and!; [by right| |]; cbn [owns got].
  - rewrite E, Forall_app, Forall_cons in Nb. apply Forall_app. tauto.
  - rewrite E in Tt. unfold blocks in *. rewrite !map_app, !total_app in *. cbn in Tt. lia.
Qed.

(** Writes of a program into its own block touch no header in use. *)
Lemma write_step t F ap nb f g : uinv t F -> (ap, nb) ∈ owns t ->
  (forall a, a <= ap - 16 \/ ap + nb <= a -> f a = ptr (hp t) a /\ g a = size (hp t) a) ->
  uinv (mkClient ((hp t) <| ptr := f |> <| size := g |>) (owns t) (got t)) F.
Proof using All.
  intros U (l1 & l2 & E)%list_elem_of_split Out. destruct (owned_hinv t F l1 ap nb l2 U E) as [I Hn]. destruct (units_bounds nb Hn) as [Hu Hs].
  destruct U as (Ok & Nb & Tt). split_and!; [|done|done]. right. cbn [hp owns].
  assert (P : forall b, b ∈ F ++ blocks (owns t) -> b.1 <= ap - 16 \/ ap + nb <= b.1).
  { intros b Hb. pose proof (h_apart _ _ _ I) as P. rewrite <- Permutation_middle in P. destruct P as [P _]. rewrite Forall_forall in P.
    pose proof (h_good _ _ _ I) as G. rewrite Forall_forall in G.
    assert (Hb' : b ∈ (ap - 16, units nb) :: F ++ blocks (l1 ++ l2)).
    { rewrite E in Hb. unfold blocks in *. rewrite map_app in *. cbn in Hb. set_solver. }
    apply elem_of_cons in Hb' as [->|Hb']; [left; cbn; lia|]. destruct (G b ltac:(set_solver)) as (_ & ? & _). destruct (P b Hb') as [?|?]; cbn in *; lia. }
  assert (Pb : base <= ap - 16).
  { pose proof (h_good _ _ _ I) as [_ G]%Forall_app. apply Forall_cons in G as [(_ & _ & G & _) _]. cbn in G. lia. }
  destruct Ok as [(_ & _ & Ea & _)|I']; [rewrite E in Ea; by destruct l1|]. split; try apply I'.
  - eapply seg_ext; [|apply (h_ring _ _ _ I')]. intros a Ha. cbn. symmetry. apply Out.
    apply elem_of_cons in Ha as [->|(b & -> & Hb)%list_elem_of_fmap]; [by left|]. apply P. set_solver.
  - cbn. rewrite (proj2 (Out base ltac:(by left))). apply I'.
  - apply (good_ext (hp t)); [done| |apply I']. intros b Hb. cbn. by apply Out, P.
Qed.

Lemma sbrk_step t F n : uinv t F -> 0 <= n -> brk (hp t) + n <= base + 2 ^ 36 ->
  uinv (mkClient ((hp t) <| brk ::= Z.add n |>) (owns t) (got t)) F.
Proof using All.
  intros (Ok & Nb & Tt) Hn Hb. split_and!; [|done|done]. destruct Ok as [(Ef & -> & Ea & Hr)|I]; [left; cbn; split_and!; done || lia|right].
  pose proof (h_brk _ _ _ I). split; cbn; try apply I; [|lia]. eapply Forall_impl; [apply I|]. intros b (? & ? & ? & ?). split_and!; cbn; done || lia.
Qed.

Lemma ureach t0 t : freep (hp t0) = 0 -> owns t0 = [] -> got t0 = 0 -> base + 16 <= brk (hp t0) <= base + 2 ^ 36 -> rtc ustep t0 t ->
  exists F, uinv t F.
Proof using All.
  intros Ef Eo Eg Hb R. assert (I0 : exists F, uinv t0 F).
  { exists []. split_and!; rewrite ?Eo, ?Eg; cbn; [left; split_and!; done || lia|constructor|done]. }
  clear Ef Eo Eg Hb. induction R as [|t1 t2 t3 St R IH]; [done|]. apply IH. destruct I0 as [F U]. destruct St as [nb r s' Rg E|l1 ap nb l2 s' E Ef|ap nb f g Hi Out|n Hn Hb].
  - by eapply malloc_step.
  - destruct (free_step _ _ _ _ _ _ U E) as (s1 & F' & Ef' & U'). rewrite Ef in Ef'. injection Ef' as <-. by exists F'.
  - exists F. by apply (write_step t1 F ap nb).
  - exists F. by apply sbrk_step.
Qed.

(** Two blocks, headers included. *)
Lemma owned_apart l1 ap nb l2 s F : hinv s F ((ap - 16, units nb) :: blocks (l1 ++ l2)) -> 0 <= nb < 2 ^ 32 ->
  Forall (fun b => 0 <= b.2 < 2 ^ 32) (l1 ++ l2) ->
  base + 32 <= ap /\ ap + nb <= brk s /\ forall a k, (a, k) ∈ l1 ++ l2 -> ap + nb <= a - 16 \/ a + k <= ap - 16.
Proof using All.
  intros I Hn Nb. destruct (units_bounds nb Hn) as [Hu Hs]. pose proof (h_good _ _ _ I) as [_ G]%Forall_app.
  apply Forall_cons in G as [(_ & _ & G1 & G2) G]. cbn in G1, G2. split_and!; [lia|lia|]. intros a k Hk.
  pose proof (h_apart _ _ _ I) as P. apply pairwise_app in P as (_ & [P _] & _). rewrite Forall_forall in P, Nb.
  assert (Hb : (a - 16, units k) ∈ blocks (l1 ++ l2)) by (apply list_elem_of_fmap; by exists (a, k)).
  destruct (units_bounds k (Nb _ Hk)) as [Ku Ks]. destruct (P _ Hb) as [Q|Q]; cbn in Q; lia.
Qed.

(** C5: any program that only uses blocks it holds can rely on the allocator.
    Every [malloc] of less than 2 gigabytes, as long as the heap is below 64,
    ends; it gives zero only when the kernel refuses memory, and otherwise a
    block of at least the size asked for, inside the heap, that overlaps
    neither the data nor the header of any block the program holds.  Every
    [free] of a block ends.  The free list stays a sorted circle of blocks of
    which no two are adjacent, and every unit got from the kernel is in it or
    in a block of the program. *)
Theorem malloc_free_correct t0 t :
  freep (hp t0) = 0 -> owns t0 = [] -> got t0 = 0 -> base + 16 <= brk (hp t0) <= base + 2 ^ 36 -> rtc ustep t0 t ->
  (forall nb, in_range (hp t) nb -> exists r s', malloc granted nb (hp t) = Ok r s' /\
     ((forall s, granted (16 * grown (units nb)) s = true) -> r <> 0) /\
     (r <> 0 -> base + 32 <= r /\ r + nb <= brk s' /\ forall a k, (a, k) ∈ owns t -> r + nb <= a - 16 \/ a + k <= r - 16)) /\
  (forall l1 ap nb l2, owns t = l1 ++ (ap, nb) :: l2 ->
     (exists s', free ap (hp t) = Ok tt s') /\ ap + nb <= brk (hp t) /\
     forall a k, (a, k) ∈ l1 ++ l2 -> ap + nb <= a - 16 \/ a + k <= ap - 16) /\
  (freep (hp t) <> 0 -> exists F, seg (ptr (hp t)) (base :: map fst F) base /\ Forall (fun b => size (hp t) b.1 = b.2) F /\
     StronglySorted before F /\ total F + total (blocks (owns t)) = got t).
Proof using B0.
  intros Ef Eo Eg Hb R. destruct (ureach t0 t Ef Eo Eg Hb R) as [F U]. pose proof U as (Ok & Nb & Tt). split_and!.
  - intros nb Rg. destruct (malloc_run _ _ _ nb Ok Rg) as (s0 & r & s' & E & I0 & B & Al). exists r, s'. split; [exact E|].
    destruct Al as [(-> & -> & _ & Gr)|(q & F' & -> & I' & _)]; [split; [intros G; by rewrite G in Gr|done]|].
    assert (I2 : hinv s' F' ((q + 16 - 16, units nb) :: blocks ([] ++ owns t))) by (by replace (q + 16 - 16) with q by lia).
    destruct (owned_apart [] (q + 16) nb (owns t) s' F' I2 (proj1 Rg) Nb) as (L & H1 & H2). split; [lia|done].
  - intros l1 ap nb l2 E. destruct (free_step _ _ _ _ _ _ U E) as (s' & _ & Es & _). destruct (owned_hinv _ _ _ _ _ _ U E) as [I Hn].
    rewrite E, Forall_app, Forall_cons in Nb. destruct (owned_apart l1 ap nb l2 _ F I Hn) as (_ & H1 & H2); [apply Forall_app; tauto|].
    split_and!; [by exists s'|done|done].
  - intros Nz. destruct Ok as [(Z & _)|I]; [done|]. exists F. split_and!; [apply I| |apply I|done].
    pose proof (h_good _ _ _ I) as [G _]%Forall_app. eapply Forall_impl; [exact G|]. by intros b (? & _).
Qed.
End Grow.
End Inv.

(** ** Witness: two blocks allocated, the first freed; and a request too large *)
Module UmallocWitness.
#[local] Instance static : Static := { base := 4096 }.
Definition yes (_ : Z) (_ : heap) : bool := true.
Definition h0 : heap := mkHeap (fun _ => 0) (fun _ => 0) 0 8192.
Definition c0 : client := mkClient h0 [] 0.

Definition val {A} (d : A) (r : res heap A) : A * heap := match r with Ok a s => (a, s) | _ => (d, h0) end.
Definition m1 := val 0 (malloc yes 100 h0).
Definition c1 : client := mkClient m1.2 [(m1.1, 100)] 4096.
Definition m2 := val 0 (malloc yes 24 m1.2).
Definition c2 : client := mkClient m2.2 [(m2.1, 24); (m1.1, 100)] 4096.
Definition c3 : client := mkClient (val tt (free m1.1 m2.2)).2 [(m2.1, 24)] 4096.

Lemma program : rtc (ustep yes) c0 c3.
Proof.
  apply (rtc_l _ _ c1); [apply (u_malloc yes c0 100 m1.1 m1.2); [split_and!; vm_compute; congruence|vm_compute; reflexivity]|].
  apply (rtc_l _ _ c2); [apply (u_malloc yes c1 24 m2.1 m2.2); [split_and!; vm_compute; congruence|vm_compute; reflexivity]|].
  apply rtc_once. apply (u_free yes c2 [(m2.1, 24)] m1.1 100 []); [reflexivity|vm_compute; reflexivity].
Qed.

Lemma malloc_free_correct_witness :
  rtc (ustep yes) c0 c3 /\ owns c3 = [(73568, 24)] /\ (exists s', free 73568 (hp c3) = Ok tt s') /\
    exists r s', malloc yes 100 (hp c3) = Ok r s' /\ r <> 0.
Proof.
  destruct (malloc_free_correct (ltac:(done) : 0 < base) yes c0 c3 eq_refl eq_refl eq_refl ltac:(vm_compute; split; congruence) program) as (Ma & Fr & _).
  assert (Eo : owns c3 = [(73568, 24)]) by (vm_compute; reflexivity). split; [exact program|]. split; [exact Eo|]. split.
  - destruct (Fr [] 73568 24 [] Eo) as [E _]. exact E.
  - destruct (Ma 100) as (r & s' & E & G & _); [split_and!; vm_compute; congruence|]. exists r, s'. split; [exact E|]. by apply G.
Defined.

(** A request of nearly 4 gigabytes does not fail: [morecore] multiplies the
    units by 16 and the product loses its upper bits when it is passed to
    [sbrk] as an [int], so the heap grows by 16 bytes and [malloc] returns a
    block that reaches 4 gigabytes beyond its end. *)
Theorem malloc_overruns_heap :
  exists r s', malloc yes 4294967295 h0 = Ok r s' /\ r <> 0 /\ brk s' = brk h0 + 16 /\ brk s' < r + 4294967295.
Proof.
  eexists _, _. split; [lazy; reflexivity|]. split_and!; lazy; congruence.
Qed.
End UmallocWitness.
