(* ===== verification/Sh.v ===== *)
(** * user/sh.c: the parser of the shell

    The state of the parser is the position [*ps] in the buffer [s], whose
    length is what [strlen] finds; a [char *] is a position.  The nodes of a
    command are values; where [parseexec] fills in the argument list of a node
    that redirections have been wrapped around already, [set_argv] reaches for
    that node.  [panic] ends the program.  [malloc] always has room for a node,
    and the stack for the calls of a nested line.  Running a command ([runcmd], [main])
    is system calls throughout and is not represented. *)

From Stdlib Require Import ZArith Lia List.
From stdpp Require Import base tactics numbers list strings sets.
From S2P Require Import Prelude.

Definition MAXARGS : nat := 10.
Definition O_RDONLY : Z := 0.
Definition O_WRONLY : Z := 1.
Definition O_CREATE : Z := 512.
Definition O_TRUNC : Z := 1024.

(** The characters of a string from [q] up to [eq]. *)
Definition span : Type := nat * nat.

Inductive cmd : Type :=
  | EXEC (argv : list span)
  | REDIR (c : cmd) (file : span) (mode fd : Z)
  | PIPE (left right : cmd)
  | LIST (left right : cmd)
  | BACK (c : cmd).

(** [cmd->argv[argc] = q] for the innermost node of a chain of redirections. *)
Fixpoint set_argv (c : cmd) (argv : list span) : cmd :=
  match c with
  | EXEC _ => EXEC argv
  | REDIR c' f m d => REDIR (set_argv c' argv) f m d
  | _ => c
  end.

Definition whitespace : list Z := [32; 9; 13; 10; 11].
Definition symbols : list Z := [60; 124; 62; 38; 59; 40; 41].

Definition inset (c : Z) (l : list Z) : bool := negb (c =? 0) && existsb (Z.eqb c) l.

Section Parser.
Context (s : list Z).
Let es : nat := length s.
Abbreviation P := (M nat).

Definition ch (p : nat) : Z := nth p s 0.

(** [while(s < es && strchr(whitespace, *s)) s++;], with the characters that are
    left as bound. *)
Fixpoint skip (k p : nat) : nat :=
  match k with
  | O => p
  | S k' => if (p <? es)%nat && inset (ch p) whitespace then skip k' (S p) else p
  end.
Definition skipws (p : nat) : nat := skip (es - p) p.

Fixpoint word_end (k p : nat) : nat :=
  match k with
  | O => p
  | S k' => if (p <? es)%nat && negb (inset (ch p) whitespace) && negb (inset (ch p) symbols) then word_end k' (S p) else p
  end.

Definition CHAR_a : Z := 97.
Definition CHAR_plus : Z := 43.

(** The token, and where it begins and ends. *)
Definition gettoken : P (Z * span) :=
  let* p := get in
  let q := skipws p in
  let c := ch q in
  let '(tok, e) :=
    if c =? 0 then (c, q)
    else if inset c [124; 40; 41; 59; 38; 60] then (c, S q)
    else if c =? 62 then (if ch (S q) =? 62 then (CHAR_plus, S (S q)) else (c, S q))
    else (CHAR_a, word_end (es - q) q) in
  do modify (fun _ => skipws e) ;;;
  ret (tok, (q, e)).

Definition peek (toks : list Z) : P bool :=
  let* p := get in
  let q := skipws p in
  do modify (fun _ => q) ;;;
  ret (inset (ch q) toks).

(** One round of the loop of [parseredirs] per redirection. *)
Fixpoint parseredirs (k : nat) (c : cmd) : P cmd :=
  let* b := peek [60; 62] in
  if b : bool then
    match k with
    | O => panic "fuel"
    | S k' =>
      let* '(tok, _) := gettoken in
      let* '(t, f) := gettoken in
      if negb (t =? CHAR_a) then panic "missing file for redirection"
      else
        parseredirs k'
          (if tok =? 60 then REDIR c f O_RDONLY 0
           else if tok =? 62 then REDIR c f (Z.lor (Z.lor O_WRONLY O_CREATE) O_TRUNC) 1
           else if tok =? CHAR_plus then REDIR c f (Z.lor O_WRONLY O_CREATE) 1
           else c)
    end
  else ret c.

(** The loop of [parseexec] from argument [length argv] on. *)
Fixpoint parseargs (k : nat) (r : cmd) (argv : list span) : P cmd :=
  let* b := peek [124; 41; 38; 59] in
  if b : bool then ret (set_argv r argv)
  else
    let* '(tok, w) := gettoken in
    if tok =? 0 then ret (set_argv r argv)
    else if negb (tok =? CHAR_a) then panic "syntax"
    else
      let argv := argv ++ [w] in
      if (MAXARGS <=? length argv)%nat then panic "too many args"
      else
        match k with
        | O => panic "fuel"
        | S k' =>
          let* r := parseredirs k' r in
          parseargs k' r argv
        end.

(** The loop of [parseline] over [&]. *)
Fixpoint parsebacks (k : nat) (c : cmd) : P cmd :=
  let* b := peek [38] in
  if b : bool then
    match k with
    | O => panic "fuel"
    | S k' => do gettoken ;;; parsebacks k' (BACK c)
    end
  else ret c.

Fixpoint parseline (k : nat) : P cmd :=
  match k with
  | O => panic "fuel"
  | S k' =>
    let* c := parsepipe k' in
    let* c := parsebacks k' c in
    let* b := peek [59] in
    if b : bool then
      do gettoken ;;;
      let* r := parseline k' in
      ret (LIST c r)
    else ret c
  end
with parsepipe (k : nat) : P cmd :=
  match k with
  | O => panic "fuel"
  | S k' =>
    let* c := parseexec k' in
    let* b := peek [124] in
    if b : bool then
      do gettoken ;;;
      let* r := parsepipe k' in
      ret (PIPE c r)
    else ret c
  end
with parseblock (k : nat) : P cmd :=
  match k with
  | O => panic "fuel"
  | S k' =>
    let* b := peek [40] in
    if negb b then panic "parseblock"
    else
      do gettoken ;;;
      let* c := parseline k' in
      let* b := peek [41] in
      if negb b then panic "syntax - missing )"
      else
        do gettoken ;;;
        parseredirs k' c
  end
with parseexec (k : nat) : P cmd :=
  match k with
  | O => panic "fuel"
  | S k' =>
    let* b := peek [40] in
    if b : bool then parseblock k'
    else
      let* r := parseredirs k' (EXEC []) in
      parseargs k' r []
  end.

(** [*ecmd->eargv[i] = 0] and the like, for every string of a command. *)
Fixpoint nulterminate (c : cmd) (buf : list Z) : list Z :=
  match c with
  | EXEC argv => fold_left (fun b w => <[snd w := 0]> b) argv buf
  | REDIR c' f _ _ => <[snd f := 0]> (nulterminate c' buf)
  | PIPE l r | LIST l r => nulterminate r (nulterminate l buf)
  | BACK c' => nulterminate c' buf
  end.

(** Enough for every string: each level of nesting takes at most four calls and
    one character, each round of a loop one character. *)
Definition fuel : nat := 4 * es + 4.

(** The command, and the buffer with its strings terminated. *)
Definition parsecmd : P (cmd * list Z) :=
  let* c := parseline fuel in
  do peek [] ;;;
  let* p := get in
  if negb (p =? es)%nat then panic "syntax"
  else ret (c, nulterminate c (s ++ [0])).

End Parser.
