(* ===== verification/ShProps.v ===== *)
(** * What the parser of the shell promises

    It ends on every input, with a command or with one of its own messages; the
    strings of the command are whole words of the input, and stay what they are
    when all of them have been terminated in place. *)

From Stdlib Require Import ZArith Lia List.
From stdpp Require Import base tactics numbers list strings sets.
From S2P Require Import Prelude Sh.

Section Scan.
Context (s : list Z) (Hs : 0 ∉ s).
Abbreviation es := (length s).

Definition wordchar (c : Z) : bool := negb (c =? 0) && negb (inset c whitespace) && negb (inset c symbols).

(** A word that cannot be made longer on either side. *)
Record maxword (w : span) : Prop := {
  mw_range : (fst w < snd w <= es)%nat;
  mw_chars : forall i, (fst w <= i < snd w)%nat -> wordchar (ch s i) = true;
  mw_right : wordchar (ch s (snd w)) = false;
  mw_left : fst w = 0%nat \/ wordchar (ch s (pred (fst w))) = false
}.

(** A place where the parser may stand: not inside a word. *)
Definition place (p : nat) : Prop :=
  (p <= es)%nat /\ (p = 0%nat \/ wordchar (ch s (pred p)) = false \/ wordchar (ch s p) = false).

Lemma ch_in p : (p < es)%nat -> ch s p <> 0.
Proof.
  intros Hp E. apply Hs. unfold ch in E. rewrite <- E. rewrite nth_lookup.
  destruct (lookup_lt_is_Some_2 s p Hp) as [x Ex]. rewrite Ex. cbn. by apply list_elem_of_lookup_2 in Ex.
Qed.

Lemma ch_out p : (es <= p)%nat -> ch s p = 0.
Proof. intros. unfold ch. by rewrite nth_overflow. Qed.

Lemma inset_0 l : inset 0 l = false.
Proof. done. Qed.

Lemma space_not_word c : inset c whitespace = true -> wordchar c = false.
Proof. intros E. unfold wordchar. by rewrite E, andb_false_r. Qed.

Lemma symbol_not_word c : inset c symbols = true -> wordchar c = false.
Proof. intros E. unfold wordchar. by rewrite E, andb_false_r. Qed.

Lemma skip_run k p : (es - p <= k)%nat -> (p <= es)%nat ->
  (p <= skip s k p <= es)%nat /\ inset (ch s (skip s k p)) whitespace = false /\
  (p < skip s k p -> inset (ch s (pred (skip s k p))) whitespace = true)%nat.
Proof.
  revert p. induction k as [|k IH]; intros p Hk Hp; cbn [skip].
  - rewrite ch_out by lia. split_and!; [lia|lia|done|lia].
  - destruct (Nat.ltb_spec p es) as [Hl|Hl]; cbn [andb].
    + destruct (inset (ch s p) whitespace) eqn:E; [|split_and!; [lia|lia|done|lia]].
      destruct (IH (S p) ltac:(lia) ltac:(lia)) as (R & W & B). split_and!; [lia|lia|done|]. intros _.
      destruct (Nat.eq_dec (skip s k (S p)) (S p)) as [Es|N]; [by rewrite Es|apply B; lia].
    + rewrite ch_out by lia. split_and!; [lia|lia|done|lia].
Qed.

Lemma skipws_run p : (p <= es)%nat ->
  (p <= skipws s p <= es)%nat /\ inset (ch s (skipws s p)) whitespace = false /\
  (p < skipws s p -> inset (ch s (pred (skipws s p))) whitespace = true)%nat.
Proof. apply skip_run. lia. Qed.

Lemma skipws_place p : place p -> place (skipws s p) /\ (wordchar (ch s (skipws s p)) = true ->
  skipws s p = 0%nat \/ wordchar (ch s (pred (skipws s p))) = false).
Proof.
  intros [Hp B]. destruct (skipws_run p Hp) as (R & W & L). destruct (Nat.eq_dec (skipws s p) p) as [E|N].
  - rewrite E. split; [by split|]. intros Wc. destruct B as [B|[B|B]]; [by left|by right|congruence].
  - assert (Lw : wordchar (ch s (pred (skipws s p))) = false) by (apply space_not_word, L; lia).
    split; [split; [lia|right; by left]|intros _; by right].
Qed.

Lemma word_end_run k p : (es - p <= k)%nat -> (p <= es)%nat ->
  (p <= word_end s k p <= es)%nat /\ wordchar (ch s (word_end s k p)) = false /\
  (forall i, (p <= i < word_end s k p)%nat -> wordchar (ch s i) = true).
Proof.
  revert p. induction k as [|k IH]; intros p Hk Hp; cbn [word_end].
  - rewrite ch_out by lia. split_and!; [lia|lia|done|lia].
  - destruct (Nat.ltb_spec p es) as [Hl|Hl]; cbn [andb].
    + pose proof (ch_in p Hl) as Nz. apply Z.eqb_neq in Nz.
      assert (Ew : wordchar (ch s p) = negb (inset (ch s p) whitespace) && negb (inset (ch s p) symbols)) by (unfold wordchar; by rewrite Nz).
      rewrite <- Ew. destruct (wordchar (ch s p)) eqn:Wc; [|split_and!; [lia|lia|done|lia]].
      destruct (IH (S p) ltac:(lia) ltac:(lia)) as (R & W & C). split_and!; [lia|lia|done|]. intros i Hi.
      destruct (Nat.eq_dec i p) as [->|]; [done|apply C; lia].
    + rewrite ch_out by lia. split_and!; [lia|lia|done|lia].
Qed.

(** ** Outcomes *)

Definition messages : list string :=
  ["syntax"; "missing file for redirection"; "syntax - missing )"; "too many args"]%string.

(** From [p] the routine returns with [Q], or ends with one of the messages. *)
Definition tri {A} (m : M nat A) (p : nat) (Q : A -> nat -> Prop) : Prop :=
  match m p with Ok a p' => Q a p' | Panic msg => msg ∈ messages | Block _ _ => False end.

Lemma tri_bind {A B} (m : M nat A) (f : A -> M nat B) p R Q :
  tri m p R -> (forall a p', R a p' -> tri (f a) p' Q) -> tri (bind m f) p Q.
Proof. unfold tri, bind. destruct (m p); intros H1 H2; [by apply H2|done..]. Qed.

Lemma tri_ret {A} (a : A) p (Q : A -> nat -> Prop) : Q a p -> tri (ret a) p Q.
Proof. done. Qed.

Lemma tri_weaken {A} (m : M nat A) p (R Q : A -> nat -> Prop) : tri m p R -> (forall a p', R a p' -> Q a p') -> tri m p Q.
Proof. unfold tri. destruct (m p); auto. Qed.

(** The parser has moved on from [p] to [p']. *)
Definition moves (p p' : nat) : Prop := (p <= p')%nat /\ place p'.

(** After [peek] the parser stands before the next character that counts. *)
Lemma peek_run toks p : place p ->
  tri (peek s toks) p (fun b p' => moves p p' /\ p' = skipws s p' /\ p' = skipws s p /\ b = inset (ch s p') toks).
Proof.
  intros Hp. unfold tri, peek, get, modify, ret, bind. destruct (skipws_place p Hp) as [Hq _]. pose proof (skipws_run p (proj1 Hp)) as (R & W & _).
  split_and!; [split; [lia|done]| |done|done].
  destruct (skipws_run (skipws s p) ltac:(lia)) as (R' & W' & L'). destruct (Nat.eq_dec (skipws s (skipws s p)) (skipws s p)) as [->|N]; [done|].
  unfold skipws at 1 in N. destruct (es - skipws s p)%nat eqn:E; cbn [skip] in N; [done|]. by rewrite W, andb_false_r in N.
Qed.

Lemma gettoken_run p : place p ->
  tri (gettoken s) p (fun x p' => moves p p' /\ (fst x = CHAR_a -> maxword (snd x)) /\
    (fst x <> 0 -> (p < p')%nat) /\ (p = skipws s p -> ch s p <> 0 -> fst x <> 0)).
Proof.
  intros Hp. unfold tri, gettoken, get, modify, ret, bind. destruct (skipws_place p Hp) as [Hq Lw].
  destruct (skipws_run p (proj1 Hp)) as (R & W & _). set (q := skipws s p) in *.
  assert (Next : forall e, (e <= es)%nat -> (q <= e)%nat -> place e -> moves p (skipws s e) /\ (e <= skipws s e)%nat).
  { intros e He Hqe Pe. destruct (skipws_run e He) as (R' & _). split; [|lia]. split; [lia|]. by apply skipws_place. }
  assert (Sym : forall e, inset (ch s (pred e)) symbols = true -> (e <= es)%nat -> place e).
  { intros e He Hl. split; [done|]. right. left. by apply symbol_not_word. }
  destruct (Z.eqb_spec (ch s q) 0) as [E0|N0].
  { cbn. destruct (Next q (proj1 Hq) ltac:(lia) Hq) as [M _]. split_and!; [done|by rewrite E0|by rewrite E0|]. intros Eq Np. destruct Np. rewrite Eq. exact E0. }
  assert (Lq : (q < es)%nat) by (destruct (Nat.lt_ge_cases q es); [done|by rewrite ch_out in N0]).
  destruct (inset (ch s q) [124; 40; 41; 59; 38; 60]) eqn:Sy.
  { assert (Sq : inset (ch s q) symbols = true).
    { unfold inset in Sy. apply andb_true_iff in Sy as [_ (x & Hx & Ex%Z.eqb_eq)%existsb_exists]. rewrite Ex. cbn in Hx.
      by repeat destruct Hx as [<-|Hx]. }
    destruct (Next (S q) ltac:(lia) ltac:(lia) (Sym (S q) Sq ltac:(lia))) as [M L]. cbn. split_and!; [done| |intros _; lia|done].
    intros Ea. rewrite Ea in Sy. by vm_compute in Sy. }
  destruct (Z.eqb_spec (ch s q) 62) as [E62|N62].
  { assert (Sq : inset (ch s q) symbols = true) by by rewrite E62.
    destruct (Z.eqb_spec (ch s (S q)) 62) as [E2|N2]; cbn.
    - assert (L2 : (S q < es)%nat) by (destruct (Nat.lt_ge_cases (S q) es); [done|by rewrite ch_out in E2]).
      destruct (Next (S (S q)) ltac:(lia) ltac:(lia)) as [M L]; [apply Sym; [cbn; by rewrite E2|lia]|]. split_and!; [done|done|intros _; lia|done].
    - destruct (Next (S q) ltac:(lia) ltac:(lia) (Sym (S q) Sq ltac:(lia))) as [M L]. rewrite E62. split_and!; [done|done|intros _; lia|done]. }
  destruct (word_end_run (es - q) q ltac:(lia) ltac:(lia)) as (Re & We & Ce). set (e := word_end s (es - q) q) in *.
  assert (Wq : wordchar (ch s q) = true).
  { unfold wordchar. apply Z.eqb_neq in N0 as ->. rewrite W. cbn [negb andb]. destruct (inset (ch s q) symbols) eqn:S2; [|done].
    unfold inset in S2. apply andb_true_iff in S2 as [_ (x & Hx & Ex%Z.eqb_eq)%existsb_exists]. rewrite Ex in *. cbn in Hx.
    by repeat destruct Hx as [<-|Hx]. }
  assert (Lt : (q < e)%nat) by (destruct (Nat.eq_dec e q) as [Ee|]; [rewrite Ee in We; congruence|lia]).
  destruct (Next e ltac:(lia) ltac:(lia)) as [M L]; [split; [lia|by right; right]|]. cbn. split_and!; [done| |intros _; lia|done].
  intros _. split; cbn; [lia|done|done|by apply Lw].
Qed.

(** ** Commands *)

(** Every string is a whole word, and the arguments fit their array. *)
Fixpoint cmd_ok (c : cmd) : Prop :=
  match c with
  | EXEC argv => Forall maxword argv /\ (length argv < MAXARGS)%nat
  | REDIR c' f _ _ => cmd_ok c' /\ maxword f
  | PIPE l r | LIST l r => cmd_ok l /\ cmd_ok r
  | BACK c' => cmd_ok c'
  end.

Lemma set_argv_ok c argv : cmd_ok c -> Forall maxword argv -> (length argv < MAXARGS)%nat -> cmd_ok (set_argv c argv).
Proof. induction c; cbn; try done. intros [A B] F L. split; [by apply IHc|done]. Qed.

Definition parsed (p : nat) (c : cmd) (p' : nat) : Prop := moves p p' /\ cmd_ok c.

Lemma moves_trans p p1 p2 : moves p p1 -> moves p1 p2 -> moves p p2.
Proof. intros [A _] [B C]. split; [lia|done]. Qed.

Lemma moves_place p p' : moves p p' -> place p'.
Proof. by intros [_ ?]. Qed.

(** [peek] for symbols, then [gettoken]: at least one character is consumed. *)
Lemma peek_bind {A} toks (f : bool -> M nat A) p Q : place p ->
  (forall p', moves p p' -> inset (ch s p') toks = false -> tri (f false) p' Q) ->
  (forall p', moves p p' -> p' = skipws s p' -> ch s p' <> 0 -> inset (ch s p') toks = true -> tri (f true) p' Q) ->
  tri (bind (peek s toks) f) p Q.
Proof.
  intros Hp Hf Ht. eapply tri_bind; [by apply peek_run|]. intros b p' (M & E & _ & ->). destruct (inset (ch s p') toks) eqn:I.
  - apply Ht; [done|done| |done]. intros Z0. by rewrite Z0 in I.
  - by apply Hf.
Qed.

Lemma token_bind {A} (f : Z * span -> M nat A) p Q : place p -> p = skipws s p -> ch s p <> 0 ->
  (forall tok w p', moves p p' -> (p < p')%nat -> (tok = CHAR_a -> maxword w) -> tri (f (tok, w)) p' Q) ->
  tri (bind (gettoken s) f) p Q.
Proof.
  intros Hp Es Nz Hf. eapply tri_bind; [by apply gettoken_run|]. intros [tok w] p' (M & Mw & Lt & N0).
  apply Hf; [done|by apply Lt, N0|done].
Qed.

Lemma parseredirs_run k : forall p c, place p -> (es - p <= k)%nat -> cmd_ok c -> tri (parseredirs s k c) p (parsed p).
Proof.
  induction k as [|k IH]; intros p c Hp Hk Hc; cbn [parseredirs].
  - apply peek_bind; [done|by intros p' M _|]. intros p' [M1 M2] _ Nz _. destruct Nz. apply ch_out. lia.
  - apply peek_bind; [done|by intros p' M _|]. intros p1 M1 Es1 Nz1 _. apply token_bind; [by eapply moves_place|done|done|]. intros tok w0 p2 M2 L2 _.
    eapply tri_bind; [apply gettoken_run; by eapply moves_place|]. intros [t f] p3 (M3 & Mw & _). cbn [fst snd] in *.
    destruct (Z.eqb_spec t CHAR_a) as [->|]; cbn [negb]; [|cbn; set_solver].
    eapply tri_weaken; [apply (IH p3)|].
    + by eapply moves_place.
    + destruct M1, M2, M3. lia.
    + destruct (tok =? 60); [split; [done|by apply Mw]|]. destruct (tok =? 62); [split; [done|by apply Mw]|]. destruct (tok =? CHAR_plus); [split; [done|by apply Mw]|done].
    + intros c' p' [M Ok]. split; [|done]. eauto using moves_trans.
Qed.

Lemma parseargs_run k : forall p r argv, place p -> (es - p <= k)%nat -> cmd_ok r -> Forall maxword argv -> (length argv < MAXARGS)%nat ->
  tri (parseargs s k r argv) p (parsed p).
Proof.
  induction k as [|k IH]; intros p r argv Hp Hk Hr Ha Hl; cbn [parseargs].
  all: apply peek_bind; [done| |intros p' M _ _ _; split; [done|by apply set_argv_ok]].
  all: intros p1 M1 _; eapply tri_bind; [apply gettoken_run; by eapply moves_place|]; intros [tok w] p2 (M2 & Mw & Lt & _); cbn [fst snd] in *.
  all: destruct (Z.eqb_spec tok 0); [split; [by eapply moves_trans|by apply set_argv_ok]|].
  all: destruct (Z.eqb_spec tok CHAR_a) as [->|]; cbn [negb]; [|cbn; set_solver].
  all: destruct (Nat.leb_spec MAXARGS (length (argv ++ [w]))) as [Lm|Lm]; [cbn; set_solver|].
  - destruct M1, M2. assert (p2 <= es)%nat by (by destruct H2). specialize (Lt ltac:(done)). lia.
  - assert (Hp2 : place p2) by by eapply moves_place. assert (Hk2 : (es - p2 <= k)%nat) by (specialize (Lt ltac:(done)); destruct M1, M2; lia).
    eapply tri_bind; [by apply parseredirs_run|]. intros r' p3 [M3 Ok3]. eapply tri_weaken; [apply (IH p3); try done|].
    + by eapply moves_place.
    + destruct M3. lia.
    + apply Forall_app. split; [done|]. apply Forall_singleton. by apply Mw.
    + intros c' p' [M Ok]. split; [|done]. eauto using moves_trans.
Qed.

Lemma parsebacks_run k : forall p c, place p -> (es - p <= k)%nat -> cmd_ok c -> tri (parsebacks s k c) p (parsed p).
Proof.
  induction k as [|k IH]; intros p c Hp Hk Hc; cbn [parsebacks].
  - apply peek_bind; [done|by intros p' M _|]. intros p' [M1 M2] _ Nz _. destruct Nz. apply ch_out. lia.
  - apply peek_bind; [done|by intros p' M _|]. intros p1 M1 Es1 Nz1 _. apply token_bind; [by eapply moves_place|done|done|]. intros tok w p2 M2 L2 _.
    eapply tri_weaken; [apply (IH p2)|]; [by eapply moves_place|destruct M1, M2; lia|done|]. intros c' p' [M Ok]. split; [|done]. eauto using moves_trans.
Qed.

(** ** The grammar *)

Lemma parsed_from p p1 : moves p p1 -> forall c p', parsed p1 c p' -> parsed p c p'.
Proof. intros M c p' [M' Ok]. split; [by eapply moves_trans|done]. Qed.

Definition line_ok k : Prop := forall p, place p -> (4 * (es - p) + 4 <= k)%nat -> tri (parseline s k) p (parsed p).
Definition pipe_ok k : Prop := forall p, place p -> (4 * (es - p) + 3 <= k)%nat -> tri (parsepipe s k) p (parsed p).
Definition exec_ok k : Prop := forall p, place p -> (4 * (es - p) + 2 <= k)%nat -> tri (parseexec s k) p (parsed p).
Definition block_ok k : Prop := forall p, place p -> p = skipws s p -> inset (ch s p) [40] = true -> (4 * (es - p) + 1 <= k)%nat ->
  tri (parseblock s k) p (parsed p).

Lemma line_step k : line_ok k -> pipe_ok k -> line_ok (S k).
Proof.
  intros IHl IHp p Hp Hk. cbn [parseline]. eapply tri_bind; [apply (IHp p); [done|lia]|]. intros c p1 [M1 C1].
  eapply tri_bind; [apply (parsebacks_run k p1); [by eapply moves_place|destruct M1; lia|done]|]. intros c2 p2 [M2 C2].
  apply peek_bind; [by eapply moves_place| |].
  - intros p3 M3 _. split; [eauto using moves_trans|done].
  - intros p3 M3 Es Nz _. apply token_bind; [by eapply moves_place|done|done|]. intros tok w p4 M4 L4 _.
    eapply tri_bind; [apply (IHl p4); [by eapply moves_place|destruct M1, M2, M3, M4 as [? [? _]]; lia]|]. intros r p5 [M5 C5].
    split; [eauto 6 using moves_trans|done].
Qed.

Lemma pipe_step k : pipe_ok k -> exec_ok k -> pipe_ok (S k).
Proof.
  intros IHp IHe p Hp Hk. cbn [parsepipe]. eapply tri_bind; [apply (IHe p); [done|lia]|]. intros c p1 [M1 C1].
  apply peek_bind; [by eapply moves_place| |].
  - intros p3 M3 _. split; [eauto using moves_trans|done].
  - intros p3 M3 Es Nz _. apply token_bind; [by eapply moves_place|done|done|]. intros tok w p4 M4 L4 _.
    eapply tri_bind; [apply (IHp p4); [by eapply moves_place|destruct M1, M3, M4 as [? [? _]]; lia]|]. intros r p5 [M5 C5].
    split; [eauto 6 using moves_trans|done].
Qed.

Lemma block_step k : line_ok k -> block_ok (S k).
Proof.
  intros IHl p Hp Es Op Hk. cbn [parseblock]. eapply tri_bind; [by apply peek_run|]. intros b p1 (M1 & Es1 & E1 & ->). rewrite <- Es in E1. subst p1.
  rewrite Op. cbn [negb]. apply token_bind; [done|done|intros Z0; by rewrite Z0 in Op|]. intros tok w p2 M2 L2 _.
  eapply tri_bind; [apply (IHl p2); [by eapply moves_place|destruct M2 as [? [? _]]; lia]|]. intros c p3 [M3 C3].
  apply peek_bind; [by eapply moves_place|intros; cbn; set_solver|]. cbn [negb]. intros p4 M4 Es4 Nz4 _.
  apply token_bind; [by eapply moves_place|done|done|]. intros tok' w' p5 M5 L5 _.
  eapply tri_weaken; [apply (parseredirs_run k p5); [by eapply moves_place|destruct M2, M3, M4, M5; lia|done]|].
  apply parsed_from. eauto 6 using moves_trans.
Qed.

Lemma exec_step k : block_ok k -> exec_ok (S k).
Proof.
  intros IHb p Hp Hk. cbn [parseexec]. apply peek_bind; [done| |].
  - intros p1 M1 _. eapply tri_bind; [apply (parseredirs_run k p1); [by eapply moves_place|destruct M1; lia|cbn; split; [by apply Forall_nil|unfold MAXARGS; lia]]|].
    intros r p2 [M2 C2]. eapply tri_weaken; [apply (parseargs_run k p2); try done|].
    + by eapply moves_place.
    + destruct M1, M2. lia.
    + cbn. unfold MAXARGS. lia.
    + apply parsed_from. by eapply moves_trans.
  - intros p1 M1 Es1 _ Op. eapply tri_weaken; [apply (IHb p1); [by eapply moves_place|done|done|destruct M1; lia]|]. by apply parsed_from.
Qed.

Lemma grammar_ok k : line_ok k /\ pipe_ok k /\ exec_ok k /\ block_ok k.
Proof.
  induction k as [|k (L & P & E & B)].
  - split_and!; intros p; lia.
  - split_and!; [by apply line_step|by apply pipe_step|by apply exec_step|by apply block_step].
Qed.

(** ** Terminating the strings *)

Fixpoint toks (c : cmd) : list span :=
  match c with
  | EXEC argv => argv
  | REDIR c' f _ _ => toks c' ++ [f]
  | PIPE l r | LIST l r => toks l ++ toks r
  | BACK c' => toks c'
  end.

Lemma toks_ok c : cmd_ok c -> Forall maxword (toks c).
Proof.
  induction c; cbn; rewrite ?Forall_app, ?Forall_singleton; naive_solver.
Qed.

Definition zero_at (b : list Z) (w : span) : list Z := <[snd w := 0]> b.

Lemma nulterminate_eq c : forall buf, nulterminate c buf = fold_left zero_at (toks c) buf.
Proof. induction c; intros buf; cbn; rewrite ?fold_left_app; try done; [by rewrite IHc|by rewrite IHc2, IHc1..]. Qed.

Lemma zeros_lookup l : forall buf i,
  fold_left zero_at l buf !! i = if decide (i ∈ map snd l) then (fun _ => 0) <$> buf !! i else buf !! i.
Proof.
  induction l as [|w l IH]; intros buf i; cbn [fold_left map]; [by rewrite decide_False by apply not_elem_of_nil|].
  rewrite IH. unfold zero_at. destruct (decide (snd w = i)) as [<-|N].
  - rewrite (decide_True (P := snd w ∈ snd w :: _)) by set_solver.
    destruct (Nat.lt_ge_cases (snd w) (length buf)).
    + rewrite list_lookup_insert_eq by done. destruct (lookup_lt_is_Some_2 buf (snd w)) as [x ->]; [done|]. by destruct (decide _).
    + rewrite lookup_ge_None_2 by (by rewrite length_insert). rewrite (lookup_ge_None_2 buf) by done. by destruct (decide _).
  - rewrite list_lookup_insert_ne by done. destruct (decide (i ∈ map snd l)); [rewrite decide_True by set_solver|rewrite decide_False by set_solver]; done.
Qed.

(** The C string that starts here. *)
Fixpoint cstring (l : list Z) : list Z :=
  match l with [] => [] | c :: l' => if c =? 0 then [] else c :: cstring l' end.

Lemma cstring_span (buf : list Z) n : forall q, (forall i, (q <= i < q + n)%nat -> buf !! i = s !! i) -> (q + n <= es)%nat ->
  buf !! (q + n)%nat = Some 0 -> cstring (drop q buf) = take n (drop q s).
Proof.
  induction n as [|n IH]; intros q Hi Hl H0.
  - rewrite Nat.add_0_r in H0. rewrite (drop_S buf 0 q H0). done.
  - destruct (lookup_lt_is_Some_2 s q) as [x Hx]; [lia|]. rewrite (drop_S s x q Hx), (drop_S buf x q) by (rewrite Hi; [done|lia]). cbn [cstring take].
    destruct (Z.eqb_spec x 0) as [->|]; [by apply list_elem_of_lookup_2 in Hx|]. f_equal. apply IH; [intros i ?; apply Hi; lia|lia|].
    by rewrite Nat.add_succ_comm.
Qed.

Lemma terminated c w : cmd_ok c -> w ∈ toks c ->
  cstring (drop (fst w) (nulterminate c (s ++ [0]))) = take (snd w - fst w) (drop (fst w) s).
Proof.
  intros Ok Hw. pose proof (toks_ok c Ok) as F. rewrite Forall_forall in F. destruct (F w Hw) as [Rg Ch Rt _].
  assert (E : (fst w + (snd w - fst w) = snd w)%nat) by lia. apply cstring_span; rewrite ?E; [|lia|].
  - intros i Hi. rewrite nulterminate_eq, zeros_lookup. rewrite decide_False; [by rewrite lookup_app_l by lia|].
    intros (w' & -> & Hw')%list_elem_of_fmap. destruct (F w' Hw') as [_ _ Rt' _]. rewrite Ch in Rt' by done. done.
  - rewrite nulterminate_eq, zeros_lookup, decide_True by (by apply list_elem_of_fmap_2).
    destruct (lookup_lt_is_Some_2 (s ++ [0]) (snd w)) as [x ->]; [rewrite length_app; cbn; lia|done].
Qed.

(** C17: the parser of the shell always ends.  On a string without zero bytes it
    either stops with one of its four messages, or has read all of it; then
    every argument and every file name of the command is a whole word of the
    input, no argument list overruns its array, and after [nulterminate] each of
    them is a C string with exactly that word. *)
Theorem parsecmd_total :
  match parsecmd s 0%nat with
  | Ok (c, buf) p => p = es /\ cmd_ok c /\
      (forall w, w ∈ toks c -> cstring (drop (fst w) buf) = take (snd w - fst w) (drop (fst w) s))
  | Panic msg => msg ∈ messages
  | Block _ _ => False
  end.
Proof.
  assert (P0 : place 0%nat) by (split; [lia|by left]). destruct (grammar_ok (fuel s)) as [G _].
  enough (tri (parsecmd s) 0%nat (fun x p => p = es /\ cmd_ok (fst x) /\
    (forall w, w ∈ toks (fst x) -> cstring (drop (fst w) (snd x)) = take (snd w - fst w) (drop (fst w) s)))) as T.
  { unfold tri in T. by destruct (parsecmd s 0%nat) as [[c buf] p|msg|]. }
  unfold parsecmd. eapply tri_bind; [apply (G 0%nat P0); unfold fuel; lia|]. intros c p1 [M1 Ok].
  eapply tri_bind; [apply peek_run; by eapply moves_place|]. intros b p2 _. unfold tri, bind, get.
  destruct (Nat.eqb_spec p2 es); cbn; [|set_solver]. split_and!; [done|done|]. intros w. by apply terminated.
Qed.
End Scan.

(** ** Witness: [a <b|(c;d &)] *)
Module ShWitness.
Definition line : list Z := [97; 32; 60; 98; 124; 40; 99; 59; 100; 32; 38; 41].

Lemma parsecmd_total_witness :
  exists c buf, parsecmd line 0%nat = Ok (c, buf) 12%nat /\
    c = PIPE (REDIR (EXEC [(0, 1)%nat]) (3, 4)%nat O_RDONLY 0) (LIST (EXEC [(6, 7)%nat]) (BACK (EXEC [(8, 9)%nat]))) /\
    cstring (drop 3 buf) = [98].
Proof.
  pose proof (parsecmd_total line ltac:(apply (bool_decide_unpack _); by vm_compute)) as T.
  destruct (parsecmd line 0%nat) as [[c buf] p|msg|] eqn:E; vm_compute in E; try discriminate E.
  injection E as <- <- <-. destruct T as (_ & _ & W). eexists _, _. split; [done|]. split; [done|].
  exact (W (3, 4)%nat ltac:(cbn; set_solver)).
Defined.
End ShWitness.
